(* ===== verification/_CoqProject ===== *)
-Q . S2P
Prelude.v
GoRegexp.v
GoBase64.v
GoSha256.v
GoStrings.v
GoNet.v
GoJson.v
GoUnicode.v
GoMime.v
GoHttp.v
GoJsonScan.v
GoRfc3339.v
GoJsonDecode.v
GoFold.v
GoJsonIndent.v
GoOs.v
Ed25519.v
KeyPolicy.v
Manifest.v
Envelope.v
Issuance.v
Catalog.v
ProcessLock.v
Issuer.v
Selector.v
Discovery.v
VpnNode.v
Identifiers.v
GoSql.v
PilotAccess.v
Telemetry.v
PilotApi.v
Api.v
SigningKey.v
ArtifactLock.v
PilotMetrics.v
GoTime.v
Config.v
Wire.v
ArtifactFetch.v
PilotDatabase.v
Migrations.v
ControlPlane.v
Deployment.v
Lifecycle.v
EndToEnd.v
KeyPolicyCommand.v
TimewebClient.v
