(* ===== verification/Prelude.v ===== *)
(** * Virtual Cloud Help Service: verification library

    The repository is the control plane of a small VPN pilot, written in Go.  Offline, a
    root key signs a policy that grants online signing keys epochs and ranges of manifest
    versions.  Online, the control plane turns the operator's catalog of nodes into signed,
    versioned, short-lived manifests and serves them over HTTP; beside it an administration
    API keeps a registry of issued accesses and of connection test results in PostgreSQL.
    On the client side a discovery client fetches manifests from untrusted mirrors, verifies
    them against the pinned root key and a persistent trusted state, and a selector ranks the
    endpoints.  Small commands generate keys and policies, fetch locked artifacts and check
    the provider's inventory.

    The program is embedded as Rocq functions on byte strings and integers: every function
    of the Go source is a definition that evaluates, Go's [(T, error)] is the type [result]
    (this file), file system code runs in the monad [io] of [GoOs], database code in the
    monad [sql] of [GoSql].  Integers keep their width: [uint64] sums wrap around ([u64_add]),
    decoded integers are refused outside their width, durations are [int64] nanoseconds.
    Concurrency, crashes and restarts are step relations.

    ** Files and sources

    This file: errors, results, decimal text, lists and orders, the hint database and tactics.

    The Go libraries, as far as the program uses them, with their behaviour written out:
    - [GoRegexp] (regexp, by derivatives, proved equivalent to a declarative meaning),
      [GoBase64], [GoSha256], [GoStrings], [GoUnicode], [GoTime] (ParseDuration), [GoRfc3339];
    - [GoNet] (net, netip, url), [GoMime], [GoHttp];
    - [GoJson] (encoder, decoder interface), [GoJsonIndent] (indented encoder), [GoJsonScan]
      and [GoJsonDecode] (the decoder: repeated keys, case folding, nulls, integer widths);
    - [GoFold] (which host names [strings.EqualFold] takes for the local host, byte for byte);
    - [GoOs] (files, directories, flock, failures and what a power loss leaves behind; a file
      is its cleaned path, and a lock is kept for the path of its file, which the program never
      removes);
    - [GoSql] (sessions, transactions, failing calls, unacknowledged commits);
    - [Ed25519] (the signature scheme as an interface).

    The program, a file per component (sources under src/):
    - [KeyPolicy]: internal/manifest/keypolicy.go.  [Manifest], [Envelope]:
      internal/manifest/manifest.go (documents and validation; Issue, Verify and the trusted
      state).  [Wire]: the JSON forms of all structs the program reads.
    - [Issuance], [ProcessLock]: internal/issuance (state file; flock).  [Catalog]:
      internal/catalog.  [Issuer]: internal/service/issuer.go.
    - [Discovery]: internal/discovery (the fetch loop and its HTTP client, which refuses
      redirects).  [Selector]: internal/selector.
    - [VpnNode]: internal/vpnnode and the provider of internal/providers/timeweb;
      [TimewebClient]: internal/providers/timeweb/client.go and cmd/pilot-check;
      [PilotMetrics]: internal/pilotmetrics.
    - [Identifiers], [PilotAccess]: internal/pilotaccess and its postgres store;
      [Telemetry]: internal/pilottelemetry and its postgres store (statements as functions on
      the tables of migrations/, constraints included); [PilotApi]: internal/pilotapi.
    - [Api]: internal/api (handlers, routes, limit of requests in flight).
    - [SigningKey]: internal/signingkey and cmd/manifest-keygen; [KeyPolicyCommand]:
      cmd/manifest-key-policy; [ArtifactLock], [ArtifactFetch]: internal/artifactlock and
      cmd/artifact-fetch.
    - [Config]: internal/config.  [PilotDatabase], [ControlPlane], [Deployment], [Lifecycle]:
      cmd/control-plane/main.go (the database session; start-up; the composed handler and the
      life of a deployment; listening, signals and the graceful shutdown of one process).
    - [Migrations]: migrations/*.sql, as programs on a catalog of roles, tables and grants,
      and the database server that they leave behind.
    - [EndToEnd]: a deployment and the clients that fetch from mirrors, composed.

    Interfaces: [Locker] and [CatalogLoader] (what the issuer needs of its lock and loader,
    discharged by [ProcessLock] and [Catalog]), [JsonDecode], [JsonSyntax] and [JsonStream]
    (decoders, discharged by [Wire]), [Services] (what the administration API needs,
    discharged by the two services on one database), [Downloader] (discharged by the client
    of [ArtifactFetch]), and the classes for code that is not in the repository, below.

    ** What the theorems show

    - The issuer and its deployment (C1, C3, C4, C8, C11 to C14, C17, C23, C26): over any
      history of starts, concurrent requests, failing system calls, kills and power losses two
      manifests of one version are the same bytes; versions, epochs, policies and catalog
      revisions only advance, also when several processes are started for one state path,
      because the lock lets one of them open its issuer; saving is atomic and durable, and
      what was saved loads back; a start that fails leaves no lock and no handle; requests in
      flight are bounded; failed refreshes are throttled.  A process, with its listener,
      kept-alive connections, signals and deferred calls, refines such a deployment and holds
      its lock until its issuer is closed; its shutdown ends, and when it ends without an error
      every request that was read has been answered.
    - Clients (C2, C5 to C7, C18, C19, C25, C40): what is accepted was signed by a key that
      the root granted for that version and is fresh; the trusted state never rolls back; what
      the server sends is accepted; mirrors are tried fairly within the deadlines; plans are
      sound; and no two clients of one deployment hold different documents of one version.
    - Keys and policies (C10, C22, C29): one key per version, ceremonies produce what the
      control plane loads, generated keys load back.
    - Wire format (C24): typed values round-trip.  Catalogs
      (C38, C39): exactly the valid documents, digests independent of order.
    - Pilot registry, telemetry, administration (C9, C27, C28, C30 to C34): the audit trail
      is exact through unacknowledged commits, responses are backed by the database, the API
      requires its token, no key material is stored, reports and retention are exact.  A
      registration succeeds exactly when the 90 days that the database counts in its session
      time zone hold it; where days have 24 hours that is every valid request.
    - Edges (C15, C16, C20, C21, C35 to C37): the database session is confined (but for one
      spelling of a host name, a finding), the migrations run exactly for a role that may
      create schemas and roles and grant the runtime role exactly what the statements of the
      program need,
      downloads end and publish only what the lock names, configuration is within its bounds,
      metrics and checks are exact.

    Theorems without a number state further properties of the same definitions (order of
    attempts, order independence of ranking, completeness of probes, and so on).

    ** Bounds and fuel

    Loops over text take fuel from the length of the text, of which every step consumes a
    byte ([trim_left], [rune_list], [parseParams], [duration_terms], [unquote_go]); the
    scanner of JSON takes twice the length plus two and [GoJsonScan.scan_fuel] proves that
    more changes nothing.  The redirect loop takes five, the bound of the source, and
    [ArtifactFetch.redirects_terminate] proves it enough.  The steps of a shutdown have a rank
    that every one of them decreases ([Lifecycle.tick_rank]).  All other recursion is structural.

    ** Parameters

    Ed25519 ([Ed25519Laws]: key sizes, and that signatures verify; unforgeability of
    the scheme is never assumed; [EndToEnd] states of the envelopes that mirrors deliver that none
    is forged, [no_forgery]); SHA-256 collision resistance is not assumed either; PostgreSQL's
    treatment of values ([PostgresLaws]: documented behaviour on canonical values; nothing is
    assumed of the length of a day, which depends on the time zone of the session);
    pgx.ParseConfig and the answers of the database server; the exchange with mirrors
    ([NetworkLaws]: a request ends by its deadline), download hosts and the provider; the decimal text of a [float64]; random
    bytes; clocks.  Each set of laws has an instance, and the witnesses use it.

    ** Not modelled

    Logging and message arguments (an [error] keeps the static text and the wrapping);
    TLS settings, header limits and per-connection time-outs of HTTP clients and of the
    server (a connection may close at any moment; what a client sends on a kept-alive connection
    after a response that came while [run] was already returning); parsing of command line flags; lock_other.go, the stub for other systems; indexes
    of the migrations and database schema outside the tables used; the scripts and documents
    for the hosted database and for operations, which are not Go; the memory model below one
    call (mutexes and channels make the modelled steps atomic). *)

From Stdlib Require Export ZArith Lia.
From Stdlib Require Export Ascii.
From stdpp Require Export numbers base gmap strings sorting list stringmap.

#[global] Open Scope Z_scope.

Declare Scope go_scope.
Delimit Scope go_scope with go.
#[global] Open Scope go_scope.

(** ** Errors and results *)

(** A Go [error]: a sentinel value ([errors.New] bound to a package variable and
    compared by identity), a fresh error, or an error that wraps another one
    ([fmt.Errorf] with [%w]).  The values formatted into a message are dropped;
    the static text and the wrapping structure are kept. *)
Inductive error :=
  | Sentinel (name : string)
  | NewError (message : string)
  | Wrap (context : string) (inner : error).

(** The [(T, error)] pair of a Go function whose value is meaningless on error. *)
Inductive result (A : Type) :=
  | Ok (value : A)
  | Err (e : error).
Arguments Ok {A} _.
Arguments Err {A} _.

#[global] Instance error_eq_dec : EqDecision error.
Proof. solve_decision. Defined.
#[global] Instance result_eq_dec `{EqDecision A} : EqDecision (result A).
Proof. solve_decision. Defined.

#[global] Instance result_ret : MRet result := λ _, Ok.
#[global] Instance result_bind : MBind result := λ _ _ f m,
  match m with Ok a => f a | Err e => Err e end.

(** [errors.Is(err, sentinel)]: the sentinel occurs in the chain of wrapped errors. *)
Fixpoint errors_Is (e : error) (sentinel : string) : bool :=
  match e with
  | Sentinel n => bool_decide (n = sentinel)
  | NewError _ => false
  | Wrap _ inner => errors_Is inner sentinel
  end.

(** [if c { return err }]. *)
Definition fail_if (c : bool) (e : error) : result unit :=
  if c then Err e else Ok tt.

(** [if err != nil { return fmt.Errorf("context: %w", err) }]. *)
Definition wrap {A} (context : string) (m : result A) : result A :=
  match m with Ok a => Ok a | Err e => Err (Wrap context e) end.

Definition is_Ok {A} (m : result A) : bool :=
  match m with Ok _ => true | Err _ => false end.

Definition is_Some_b {A} (o : option A) : bool :=
  match o with Some _ => true | None => false end.

(** ** Machine integers *)

Definition max_uint64 : Z := 2 ^ 64 - 1.
Definition is_u64 (z : Z) : Prop := 0 <= z < 2 ^ 64.
Definition is_u32 (z : Z) : Prop := 0 <= z < 2 ^ 32.
Definition is_u16 (z : Z) : Prop := 0 <= z < 2 ^ 16.

#[global] Instance is_u64_dec z : Decision (is_u64 z).
Proof. unfold is_u64. apply _. Defined.
#[global] Instance is_u32_dec z : Decision (is_u32 z).
Proof. unfold is_u32. apply _. Defined.
#[global] Instance is_u16_dec z : Decision (is_u16 z).
Proof. unfold is_u16. apply _. Defined.

(** Addition, subtraction and multiplication of [uint64], with wrap-around. *)
Definition u64_add (a b : Z) : Z := (a + b) mod 2 ^ 64.
Definition u64_sub (a b : Z) : Z := (a - b) mod 2 ^ 64.
Definition u64_mul (a b : Z) : Z := (a * b) mod 2 ^ 64.

Definition min_int64 : Z := - 2 ^ 63.
Definition max_int64 : Z := 2 ^ 63 - 1.

(** ** Lengths *)

(** [len(s)] of a Go string or byte slice (both are byte sequences here). *)
Definition len (s : string) : Z := Z.of_nat (String.length s).
Definition llen {A} (l : list A) : Z := Z.of_nat (length l).

(** ** Time *)

(** A [time.Time] is an instant: nanoseconds since January 1, year 1, 00:00 UTC,
    the zero [time.Time].  Locations are not represented ([UTC()] is the
    identity on instants).  A [time.Duration] is an [int64] count of
    nanoseconds. *)
Abbreviation time := Z (only parsing).
Abbreviation duration := Z (only parsing).

Definition Millisecond : duration := 1000000.
Definition Second : duration := 1000000000.
Definition Minute : duration := 60 * Second.
Definition Hour : duration := 60 * Minute.

Definition zero_time : time := 0.
(** [time.Unix(0, 0)]. *)
Definition unix_epoch : time := 62135596800 * Second.

Definition IsZero (t : time) : bool := t =? zero_time.
Definition Before (t u : time) : bool := t <? u.
Definition After (t u : time) : bool := u <? t.
Definition time_Equal (t u : time) : bool := t =? u.
Definition time_Add (t : time) (d : duration) : time := t + d.

(** [t.Sub(u)] saturates at the bounds of [time.Duration]. *)
Definition time_Sub (t u : time) : duration :=
  Z.max min_int64 (Z.min max_int64 (t - u)).

(** [t.Truncate(d)]: rounds down to a multiple of [d] since the zero time. *)
Definition Truncate (t : time) (d : duration) : time := t - t mod d.

(** ** Ordering of keys and [sort.Slice] *)

(** Go's [<] on strings: bytewise lexicographic. *)
Definition str_ltb (a b : string) : bool :=
  match String.compare a b with Lt => true | _ => false end.

(** The comparison every [sort.Slice] call of the program makes on the keys of
    two elements: the numbers first, the identifiers on a tie. *)
Definition key_less (a b : Z * string) : bool :=
  if a.1 =? b.1 then str_ltb a.2 b.2 else a.1 <? b.1.

Definition key_le (a b : Z * string) : Prop := key_less b a = false.

(** [sort.Slice(l, less)].  The order of elements that compare equal is not
    specified by Go; [sort_by_unique] below shows that the result is determined
    whenever the keys are distinct. *)
Definition sort_slice {A} (less : A → A → bool) (l : list A) : list A :=
  @merge_sort A (λ x y, less y x = false) (λ x y, decide (less y x = false)) l.

(** ** The [map[string]struct{}] duplicate check *)

(** Walks a list of identifiers the way the validators do, failing on the first
    one already seen. *)
Fixpoint all_distinct (seen : gset string) (l : list string) : bool :=
  match l with
  | [] => true
  | x :: l' => if bool_decide (x ∈ seen) then false
               else all_distinct ({[x]} ∪ seen) l'
  end.

(** Linear arithmetic with division and modulo by constants. *)
Ltac divlia := Z.div_mod_to_equations; lia.

(** Closes a decidable closed goal by evaluation. *)
Ltac by_compute := refine (bool_decide_unpack _ _); vm_compute; exact I.

(** ** Lemmas on results *)

Lemma mbind_Ok {A B} (m : result A) (f : A → result B) b :
  m ≫= f = Ok b ↔ ∃ a, m = Ok a ∧ f a = Ok b.
Proof.
  destruct m as [a|e]; simpl; split; [eauto|by intros (? & [= ->] & ?)|done|].
  by intros (? & ? & ?).
Qed.

(** A chain whose continuation always fails fails. *)
Lemma mbind_fails {A B} (m : result A) (f : A → result B) :
  (∀ a, ∃ e, f a = Err e) → ∃ e, m ≫= f = Err e.
Proof. intros H. destruct m as [a|e]; simpl; eauto. Qed.

Lemma fail_if_Ok c e u : fail_if c e = Ok u ↔ c = false.
Proof. by destruct c, u. Qed.

Lemma wrap_Ok {A} ctx (m : result A) a : wrap ctx m = Ok a ↔ m = Ok a.
Proof. by destruct m. Qed.

Lemma is_Ok_true {A} (m : result A) : is_Ok m = true ↔ ∃ a, m = Ok a.
Proof. destruct m; simpl; split; try done; [eauto|by intros [? ?]]. Qed.

Lemma is_Ok_false {A} (m : result A) : is_Ok m = false ↔ ∃ e, m = Err e.
Proof. destruct m; simpl; split; try done; [by intros [? ?]|eauto]. Qed.

(** Inverts every step of a chain of checks known to succeed. *)
Ltac inv_ok :=
  repeat match goal with
  | u : unit |- _ => destruct u
  | H : Ok _ = Ok _ |- _ => injection H as H; try subst
  | H : Err _ = Err _ |- _ => injection H as H; try subst
  | H : Err _ = Ok _ |- _ => discriminate H
  | H : Ok _ = Err _ |- _ => discriminate H
  | H : mbind _ _ = Ok _ |- _ =>
      let a := fresh "a" in let E := fresh "E" in
      apply mbind_Ok in H as (a & E & H)
  | H : fail_if _ _ = Ok _ |- _ => apply fail_if_Ok in H
  | H : wrap _ _ = Ok _ |- _ => apply wrap_Ok in H
  | H : _ || _ = false |- _ => apply orb_false_iff in H as [? H]
  | H : negb _ = false |- _ => apply negb_false_iff in H
  | H : negb _ = true |- _ => apply negb_true_iff in H
  | H : _ && _ = true |- _ => apply andb_true_iff in H as [? H]
  | H : bool_decide _ = true |- _ => apply bool_decide_eq_true in H
  | H : bool_decide _ = false |- _ => apply bool_decide_eq_false in H
  | H : is_Ok _ = true |- _ => apply is_Ok_true in H as [? H]
  end; simplify_eq/=.

(** Discharges a step of a chain of checks in the goal. *)
Ltac step_ok := apply mbind_Ok; exists tt; split; [apply fail_if_Ok|].

(** ** Lemmas on strings *)

Create Rewrite HintDb gostr.

Lemma str_app_nil_l s : "" +:+ s = s.
Proof. done. Qed.

Lemma str_app_cons c s t : String c s +:+ t = String c (s +:+ t).
Proof. done. Qed.

Lemma str_app_nil_r s : s +:+ "" = s.
Proof. induction s as [|c s IH]; [done|]. by rewrite str_app_cons, IH. Qed.

Lemma str_app_assoc s t u : (s +:+ t) +:+ u = s +:+ t +:+ u.
Proof. induction s as [|c s IH]; [done|]. by rewrite !str_app_cons, IH. Qed.

Lemma str_length_cons c s : String.length (String c s) = S (String.length s).
Proof. done. Qed.

Lemma str_length_app s t : String.length (s +:+ t) = (String.length s + String.length t)%nat.
Proof. induction s as [|c s IH]; [done|]. by rewrite str_app_cons, !str_length_cons, IH. Qed.

#[export] Hint Rewrite str_app_nil_l str_app_cons str_app_nil_r str_app_assoc
  str_length_cons str_length_app : gostr.

Lemma str_app_nil s t : s +:+ t = "" ↔ s = "" ∧ t = "".
Proof. destruct s; autorewrite with gostr; naive_solver. Qed.

Lemma len_app s t : len (s +:+ t) = len s + len t.
Proof. unfold len. autorewrite with gostr. lia. Qed.

Lemma len_nonneg s : 0 <= len s.
Proof. unfold len. lia. Qed.

Lemma len_zero s : len s = 0 ↔ s = "".
Proof. unfold len. destruct s; simpl; split; try done; lia. Qed.

(** ** Lemmas on keys *)

Lemma ascii_compare_lt_trans a b c :
  Ascii.compare a b = Lt → Ascii.compare b c = Lt → Ascii.compare a c = Lt.
Proof. unfold Ascii.compare. rewrite !N.compare_lt_iff. lia. Qed.

Lemma ascii_compare_refl a : Ascii.compare a a = Eq.
Proof. unfold Ascii.compare. apply N.compare_refl. Qed.

Lemma str_compare_refl s : String.compare s s = Eq.
Proof. induction s as [|c s IH]; [done|]. cbn. by rewrite ascii_compare_refl. Qed.

Lemma str_compare_lt_trans a b c :
  String.compare a b = Lt → String.compare b c = Lt → String.compare a c = Lt.
Proof.
  revert b c. induction a as [|x a IH]; intros [|y b] [|z c]; try done.
  cbn. destruct (Ascii.compare x y) eqn:Exy; try done.
  - apply Ascii.compare_eq_iff in Exy as ->.
    destruct (Ascii.compare y z); try done. apply IH.
  - intros _. destruct (Ascii.compare y z) eqn:Eyz; try done.
    + apply Ascii.compare_eq_iff in Eyz as ->. by rewrite Exy.
    + by rewrite (ascii_compare_lt_trans _ _ _ Exy Eyz).
Qed.

Lemma str_ltb_irrefl s : str_ltb s s = false.
Proof. unfold str_ltb. by rewrite str_compare_refl. Qed.

Lemma str_ltb_trans a b c : str_ltb a b = true → str_ltb b c = true → str_ltb a c = true.
Proof.
  unfold str_ltb. intros Hab Hbc.
  destruct (String.compare a b) eqn:E1; try done.
  destruct (String.compare b c) eqn:E2; try done.
  by rewrite (str_compare_lt_trans _ _ _ E1 E2).
Qed.

Lemma str_ltb_total a b : str_ltb a b = true ∨ a = b ∨ str_ltb b a = true.
Proof.
  unfold str_ltb. destruct (String.compare a b) eqn:E; [|by left|].
  - apply String.compare_eq_iff in E. auto.
  - rewrite String.compare_antisym, E. auto.
Qed.

Lemma key_less_irrefl a : key_less a a = false.
Proof. unfold key_less. rewrite Z.eqb_refl. apply str_ltb_irrefl. Qed.

Lemma key_less_trans a b c : key_less a b = true → key_less b c = true → key_less a c = true.
Proof.
  unfold key_less. intros H1 H2.
  destruct (Z.eqb_spec a.1 b.1), (Z.eqb_spec b.1 c.1), (Z.eqb_spec a.1 c.1); try lia.
  by eapply str_ltb_trans.
Qed.

Lemma key_less_total a b : key_less a b = true ∨ a = b ∨ key_less b a = true.
Proof.
  unfold key_less. destruct a as [x s], b as [y t]; simpl.
  destruct (Z.eqb_spec x y) as [->|]; [rewrite Z.eqb_refl|].
  - destruct (str_ltb_total s t) as [|[->|]]; auto.
  - destruct (Z.eqb_spec y x); lia.
Qed.

Lemma key_le_antisym a b : key_le a b → key_le b a → a = b.
Proof.
  unfold key_le. destruct (key_less_total a b) as [H|[H|H]]; congruence.
Qed.

Lemma key_le_trans a b c : key_le a b → key_le b c → key_le a c.
Proof.
  unfold key_le. intros H1 H2.
  destruct (key_less c a) eqn:H3; [|done].
  destruct (key_less_total a b) as [H|[->|H]]; [|congruence|congruence].
  by rewrite (key_less_trans _ _ _ H3 H) in H2.
Qed.

Lemma key_le_total a b : key_le a b ∨ key_le b a.
Proof.
  unfold key_le. destruct (key_less b a) eqn:E1; [|auto].
  destruct (key_less a b) eqn:E2; [|auto].
  pose proof (key_less_trans _ _ _ E1 E2) as H. by rewrite key_less_irrefl in H.
Qed.

(** ** Lemmas on lists *)

(** Elements of a list without duplicate images are determined by their image. *)
Lemma NoDup_fmap_eq {A B} (f : A → B) l x y :
  NoDup (f <$> l) → x ∈ l → y ∈ l → f x = f y → x = y.
Proof.
  induction l as [|z l IH]; [set_solver|]. cbn [fmap list_fmap].
  intros [Hni Hnd]%NoDup_cons Hx Hy E.
  apply elem_of_cons in Hx as [->|Hx], Hy as [->|Hy]; [done| | |by apply IH].
  - destruct Hni. rewrite E. by apply list_elem_of_fmap_2.
  - destruct Hni. rewrite <- E. by apply list_elem_of_fmap_2.
Qed.

Lemma existsb_none {A} (f : A → bool) l x : existsb f l = false → x ∈ l → f x = false.
Proof.
  induction l as [|y l IH]; [set_solver|]. simpl. intros [Hy Hl]%orb_false_iff.
  by intros [->|?]%elem_of_cons; auto.
Qed.

Lemma StronglySorted_impl {A} (R S : relation A) l :
  (∀ x y, R x y → S x y) → StronglySorted R l → StronglySorted S l.
Proof. intros HRS. induction 1; constructor; eauto using Forall_impl. Qed.

(** ** Sorting by a key *)

Section sort_by.
Context {A : Type} (key : A → Z * string).

Let less (x y : A) : bool := key_less (key x) (key y).
Let R (x y : A) : Prop := less y x = false.

#[local] Instance sort_by_trans : Transitive R.
Proof. intros x y z. apply key_le_trans. Qed.

#[local] Instance sort_by_total : Total R.
Proof. intros x y. apply key_le_total. Qed.

Lemma sort_by_perm l : sort_slice less l ≡ₚ l.
Proof. apply merge_sort_Permutation. Qed.

Lemma sort_by_sorted l : StronglySorted (λ x y, key_le (key x) (key y)) (sort_slice less l).
Proof. apply (StronglySorted_merge_sort R). Qed.

(** With distinct keys there is one sorted arrangement only: whatever algorithm
    [sort.Slice] runs, its result is [sort_slice]. *)
Lemma sort_by_unique l l' :
  NoDup (key <$> l) → l' ≡ₚ l →
  StronglySorted (λ x y, key_le (key x) (key y)) l' → l' = sort_slice less l.
Proof.
  intros Hnd Hp Hs.
  apply (StronglySorted_unique_strong R); [|done|apply sort_by_sorted|].
  - intros x y Hx Hy Hxy Hyx. rewrite Hp in Hx. rewrite sort_by_perm in Hy.
    apply (NoDup_fmap_eq key l); [done..|]. by apply key_le_antisym.
  - by rewrite sort_by_perm.
Qed.

(** Two lists with the same elements and distinct keys sort to the same list. *)
Lemma sort_by_perm_eq l l' :
  NoDup (key <$> l) → l' ≡ₚ l → sort_slice less l' = sort_slice less l.
Proof.
  intros Hnd Hp. apply sort_by_unique; [done|by rewrite sort_by_perm|].
  apply sort_by_sorted.
Qed.

(** A list that is already sorted is left alone. *)
Lemma sort_by_idem l :
  NoDup (key <$> l) → sort_slice less (sort_slice less l) = sort_slice less l.
Proof. intros Hnd. apply sort_by_perm_eq; [done|apply sort_by_perm]. Qed.

End sort_by.

(** ** The duplicate check *)

Lemma all_distinct_spec seen l :
  all_distinct seen l = true ↔ NoDup l ∧ ∀ x, x ∈ l → x ∉ seen.
Proof.
  revert seen. induction l as [|x l IH]; intros seen; simpl.
  { split; [intros _; split; [constructor|set_solver]|done]. }
  rewrite NoDup_cons. case_bool_decide as Hx.
  - split; [done|]. intros [_ H]. destruct (H x); set_solver.
  - rewrite IH. set_solver.
Qed.

Lemma all_distinct_NoDup l : all_distinct ∅ l = true ↔ NoDup l.
Proof. rewrite all_distinct_spec. set_solver. Qed.

(** ** Arithmetic of times *)

Lemma Truncate_bounds t d : 0 < d → Truncate t d <= t < Truncate t d + d.
Proof. intros Hd. unfold Truncate. pose proof (Z.mod_pos_bound t d Hd). lia. Qed.

Lemma Truncate_mono t u d : 0 < d → t <= u → Truncate t d <= Truncate u d.
Proof.
  intros Hd H. unfold Truncate.
  pose proof (Z.div_mod t d ltac:(lia)). pose proof (Z.div_mod u d ltac:(lia)).
  pose proof (Z.div_le_mono t u d ltac:(lia) H). nia.
Qed.

Lemma Truncate_idem t d : 0 < d → Truncate (Truncate t d) d = Truncate t d.
Proof.
  intros Hd. unfold Truncate at 1.
  enough (Truncate t d mod d = 0) as ->; [lia|].
  unfold Truncate. pose proof (Z.div_mod t d ltac:(lia)).
  replace (t - t mod d) with (t / d * d) by lia. apply Z_mod_mult.
Qed.

(** Saturation is invisible to a comparison with a duration inside the bounds. *)
Lemma time_Sub_gtb t u d :
  min_int64 <= d < max_int64 → (time_Sub t u >? d) = (t - u >? d).
Proof. unfold time_Sub, max_int64, min_int64. intros. lia. Qed.
