(* ===== verification/GoRegexp.v ===== *)
(** * Anchored regular expressions over bytes

    The program validates identifiers, host names, UUIDs and references with
    [regexp.MustCompile("^...$").MatchString].  Every pattern is anchored at both
    ends and uses only character classes, sequencing, alternatives, bounded
    repetition and [*].  This file gives such patterns a syntax [re], a
    declarative meaning [matches], an executable matcher [MatchString]
    (Brzozowski derivatives) and the proof that the two agree.  The patterns
    themselves are declared in the files of the packages that use them.

    Go matches runes, this file matches bytes.  All classes of the program are
    ASCII, so a byte of a multi-byte (or invalid) sequence is in no class; the
    one class under [(?i:...)] also matches two non-ASCII runes, which [fold]
    spells out as byte sequences. *)

From S2P Require Import Prelude.

Inductive re :=
  | Empty
  | Eps
  | Class (p : Ascii.ascii → bool)
  | Seq (r s : re)
  | Alt (r s : re)
  | Star (r : re).

Inductive matches : re → string → Prop :=
  | matches_eps : matches Eps ""
  | matches_class p c : p c = true → matches (Class p) (String c "")
  | matches_seq r s u v : matches r u → matches s v → matches (Seq r s) (u +:+ v)
  | matches_alt_l r s u : matches r u → matches (Alt r s) u
  | matches_alt_r r s u : matches s u → matches (Alt r s) u
  | matches_star_nil r : matches (Star r) ""
  | matches_star_app r u v : matches r u → matches (Star r) v → matches (Star r) (u +:+ v).

Fixpoint nullable (r : re) : bool :=
  match r with
  | Empty | Class _ => false
  | Eps | Star _ => true
  | Seq r s => nullable r && nullable s
  | Alt r s => nullable r || nullable s
  end.

(** Constructors that simplify, so that derivatives stay small. *)
Definition seq (r s : re) : re :=
  match r, s with
  | Empty, _ | _, Empty => Empty
  | Eps, _ => s
  | _, _ => Seq r s
  end.

Definition alt (r s : re) : re :=
  match r, s with
  | Empty, _ => s
  | _, Empty => r
  | _, _ => Alt r s
  end.

Fixpoint deriv (c : Ascii.ascii) (r : re) : re :=
  match r with
  | Empty | Eps => Empty
  | Class p => if p c then Eps else Empty
  | Seq r s =>
      let left := seq (deriv c r) s in
      if nullable r then alt left (deriv c s) else left
  | Alt r s => alt (deriv c r) (deriv c s)
  | Star r => seq (deriv c r) (Star r)
  end.

(** [regexp.MustCompile("^r$").MatchString(s)]. *)
Fixpoint MatchString (r : re) (s : string) : bool :=
  match s with
  | EmptyString => nullable r
  | String c s' => MatchString (deriv c r) s'
  end.

(** ** Derived forms *)

(** [r?], [r{n}] and [r{0,n}]. *)
Definition opt (r : re) : re := Alt Eps r.

Fixpoint times (r : re) (n : nat) : re :=
  match n with O => Eps | S n => Seq r (times r n) end.

Fixpoint upto (r : re) (n : nat) : re :=
  match n with O => Eps | S n => opt (Seq r (upto r n)) end.

Definition ord (c : Ascii.ascii) : Z := Z.of_N (Ascii.N_of_ascii c).

(** The byte range [a-b]. *)
Definition rng (a b : Ascii.ascii) (c : Ascii.ascii) : bool :=
  (ord a <=? ord c) && (ord c <=? ord b).

Definition digit (c : Ascii.ascii) : bool := rng "0"%char "9"%char c.
Definition lower (c : Ascii.ascii) : bool := rng "a"%char "z"%char c.
Definition upper (c : Ascii.ascii) : bool := rng "A"%char "Z"%char c.
(** One of the bytes of a literal set. *)
Fixpoint one_of (set : string) (c : Ascii.ascii) : bool :=
  match set with
  | EmptyString => false
  | String d set' => bool_decide (c = d) || one_of set' c
  end.

(** [[a-z0-9]], [[a-z0-9-]] and [[a-zA-Z0-9]]. *)
Definition lower_digit (c : Ascii.ascii) : bool := lower c || digit c.
Definition lower_digit_dash (c : Ascii.ascii) : bool := lower_digit c || one_of "-" c.
Definition alnum (c : Ascii.ascii) : bool := lower c || upper c || digit c.

Definition literal (c : Ascii.ascii) : re := Class (λ d, bool_decide (d = c)).

Definition byte (z : Z) : Ascii.ascii := Ascii.ascii_of_N (Z.to_N z).

(** [(?i:[...])] over a class of ASCII characters.  Go folds case with
    [unicode.SimpleFold], whose orbits of [s] and [k] also contain U+017F (bytes
    C5 BF) and U+212A (bytes E2 84 AA). *)
Definition to_lower_ascii (c : Ascii.ascii) : Ascii.ascii :=
  if upper c then byte (ord c + 32) else c.

Definition fold (p : Ascii.ascii → bool) : re :=
  let ascii := Class (λ c, p c || p (to_lower_ascii c)) in
  let long_s := if p "s"%char then Seq (literal (byte 197)) (literal (byte 191)) else Empty in
  let kelvin := if p "k"%char
    then Seq (literal (byte 226)) (Seq (literal (byte 132)) (literal (byte 170)))
    else Empty in
  Alt ascii (Alt long_s kelvin).

(** Every byte of [s] is in the class. *)
Fixpoint all_bytes (p : Ascii.ascii → bool) (s : string) : bool :=
  match s with
  | EmptyString => true
  | String c s' => p c && all_bytes p s'
  end.

(** [^[p][q]{0,n}$], the shape of most identifier patterns. *)
Definition head_tail (p q : Ascii.ascii → bool) (n : nat) : re :=
  Seq (Class p) (upto (Class q) n).

(** ** Inversion of the declarative meaning *)

Lemma matches_Empty s : ¬ matches Empty s.
Proof. inversion 1. Qed.

Lemma matches_Eps s : matches Eps s ↔ s = "".
Proof. split; [by inversion 1|intros ->; constructor]. Qed.

Lemma matches_Class p s : matches (Class p) s ↔ ∃ c, s = String c "" ∧ p c = true.
Proof.
  split; [inversion 1; eauto|]. intros (c & -> & H). by constructor.
Qed.

Lemma matches_Seq r s w :
  matches (Seq r s) w ↔ ∃ u v, w = u +:+ v ∧ matches r u ∧ matches s v.
Proof.
  split; [inversion 1; eauto 6|]. intros (u & v & -> & H1 & H2). by constructor.
Qed.

Lemma matches_Alt r s w : matches (Alt r s) w ↔ matches r w ∨ matches s w.
Proof.
  split; [inversion 1; auto|]. intros [H|H]; [by apply matches_alt_l|by apply matches_alt_r].
Qed.

Lemma matches_seq_smart r s w : matches (seq r s) w ↔ matches (Seq r s) w.
Proof.
  assert (Hl : ∀ s w, matches (Seq Empty s) w ↔ matches Empty w).
  { intros. rewrite matches_Seq. split; [|by intros ?%matches_Empty].
    by intros (? & ? & ? & ?%matches_Empty & ?). }
  assert (Hr : ∀ r w, matches (Seq r Empty) w ↔ matches Empty w).
  { intros. rewrite matches_Seq. split; [|by intros ?%matches_Empty].
    by intros (? & ? & ? & ? & ?%matches_Empty). }
  assert (He : ∀ s w, matches (Seq Eps s) w ↔ matches s w).
  { intros. rewrite matches_Seq. split.
    - by intros (? & v & -> & ->%matches_Eps & ?).
    - intros. eexists "", _. split_and!; [done|constructor|done]. }
  destruct r; simpl; try destruct s; simpl; by rewrite ?Hl, ?Hr, ?He.
Qed.

Lemma matches_alt_smart r s w : matches (alt r s) w ↔ matches (Alt r s) w.
Proof.
  rewrite matches_Alt.
  destruct r, s; simpl; rewrite ?matches_Alt;
    split; intros; repeat match goal with
    | H : _ ∨ _ |- _ => destruct H | H : matches Empty _ |- _ => inversion H end; eauto.
Qed.

(** ** The matcher decides the meaning *)

Lemma nullable_spec r : nullable r = true ↔ matches r "".
Proof.
  induction r as [| |p|r1 IH1 r2 IH2|r1 IH1 r2 IH2|r IH]; simpl.
  - split; [done|by intros ?%matches_Empty].
  - by rewrite matches_Eps.
  - rewrite matches_Class. naive_solver.
  - rewrite andb_true_iff, IH1, IH2, matches_Seq. split.
    + intros [? ?]. by eexists "", "".
    + intros (u & v & (-> & ->)%symmetry%str_app_nil & ? & ?). done.
  - by rewrite orb_true_iff, IH1, IH2, matches_Alt.
  - split; [constructor|done].
Qed.

Lemma matches_Star_cons r c w :
  matches (Star r) (String c w) ↔
  ∃ u v, w = u +:+ v ∧ matches r (String c u) ∧ matches (Star r) v.
Proof.
  split.
  - intros H. remember (Star r) as e eqn:He. remember (String c w) as x eqn:Hx.
    induction H as [| | | | | |r' u v Hu _ Hv IH]; try done.
    injection He as ->. destruct u as [|c' u]; simpl in Hx.
    + by apply IH.
    + injection Hx as -> <-. eauto.
  - intros (u & v & -> & Hu & Hv). by apply (matches_star_app r (String c u)).
Qed.

Lemma deriv_spec c r w : matches (deriv c r) w ↔ matches r (String c w).
Proof.
  revert w. induction r as [| |p|r1 IH1 r2 IH2|r1 IH1 r2 IH2|r IH]; intros w; simpl.
  - split; by intros ?%matches_Empty.
  - rewrite matches_Eps. split; [by intros ?%matches_Empty|done].
  - rewrite matches_Class. destruct (p c) eqn:Hp.
    + rewrite matches_Eps. naive_solver.
    + split; [by intros ?%matches_Empty|naive_solver congruence].
  - assert (Hl : matches (seq (deriv c r1) r2) w ↔
      ∃ u v, w = u +:+ v ∧ matches r1 (String c u) ∧ matches r2 v).
    { rewrite matches_seq_smart, matches_Seq. by setoid_rewrite IH1. }
    rewrite matches_Seq. destruct (nullable r1) eqn:Hn.
    + rewrite matches_alt_smart, matches_Alt, Hl, IH2. split.
      * intros [(u & v & -> & ? & ?)|H]; [by eexists (String c u), v|].
        eexists "", _. split_and!; [done|by apply nullable_spec|done].
      * intros ([|c' u] & v & Hw & H1 & H2); autorewrite with gostr in Hw; simplify_eq/=;
          [auto|left; eauto].
    + rewrite Hl. split.
      * intros (u & v & -> & ? & ?). by eexists (String c u), v.
      * intros ([|c' u] & v & Hw & H1 & H2); autorewrite with gostr in Hw; simplify_eq/=;
          [|eauto].
        apply nullable_spec in H1. congruence.
  - rewrite matches_alt_smart, !matches_Alt, IH1, IH2. done.
  - rewrite matches_seq_smart, matches_Seq, matches_Star_cons.
    by setoid_rewrite IH.
Qed.

Lemma MatchString_spec r s : MatchString r s = true ↔ matches r s.
Proof.
  revert r. induction s as [|c s IH]; intros r; simpl; [apply nullable_spec|].
  by rewrite IH, deriv_spec.
Qed.

(** ** The shape of identifier patterns *)

Lemma matches_upto_class q n s :
  matches (upto (Class q) n) s ↔ all_bytes q s = true ∧ (String.length s ≤ n)%nat.
Proof.
  revert s. induction n as [|n IH]; intros s; simpl.
  - rewrite matches_Eps. destruct s; simpl; split; try done; intros [_ ?]; lia.
  - unfold opt. rewrite matches_Alt, matches_Eps, matches_Seq. split.
    + intros [->|(u & v & -> & (c & -> & Hc)%matches_Class & (Hv & ?)%IH)].
      { split; [done|simpl; lia]. }
      autorewrite with gostr. simpl. rewrite Hc, Hv. split; [done|lia].
    + destruct s as [|c s]; simpl; [auto|]. intros [[Hc Hs]%andb_true_iff Hl].
      right. eexists (String c ""), s. split_and!; [done| |apply IH; split; [done|lia]].
      by constructor.
Qed.

Lemma head_tail_spec p q n s :
  MatchString (head_tail p q n) s = true ↔
  ∃ c s', s = String c s' ∧ p c = true ∧ all_bytes q s' = true ∧ (String.length s' ≤ n)%nat.
Proof.
  rewrite MatchString_spec. unfold head_tail. rewrite matches_Seq. split.
  - intros (u & v & -> & (c & -> & Hc)%matches_Class & [? ?]%matches_upto_class). eauto 6.
  - intros (c & s' & -> & Hc & ? & ?). eexists (String c ""), s'.
    split_and!; [done|by constructor|by apply matches_upto_class].
Qed.

(** An identifier pattern bounds the length and excludes the empty string. *)
Lemma head_tail_len p q n s :
  MatchString (head_tail p q n) s = true → 1 <= len s <= 1 + Z.of_nat n.
Proof. intros (c & s' & -> & _ & _ & ?)%head_tail_spec. unfold len. simpl. lia. Qed.

(** ** Byte classes *)

Lemma all_bytes_impl (p q : Ascii.ascii → bool) s :
  (∀ c, p c = true → q c = true) → all_bytes p s = true → all_bytes q s = true.
Proof. intros Hpq. induction s as [|c s IH]; [done|]. simpl. rewrite !andb_true_iff. naive_solver. Qed.

Lemma all_bytes_app p s t : all_bytes p (s +:+ t) = all_bytes p s && all_bytes p t.
Proof.
  induction s as [|c s IH]; [done|]. rewrite str_app_cons. simpl. by rewrite IH, andb_assoc.
Qed.
