(* ===== verification/GoBase64.v ===== *)
(** * [encoding/base64]

    The four encodings of Go's package, of which the program uses
    [RawURLEncoding] for keys, signatures and digests and all four to recognise
    key material in access references.  Decoding is Go's: carriage returns and
    line feeds are skipped anywhere, the unused low bits of the last character
    are not checked (no encoding is [Strict]), and any other foreign byte is an
    error. *)

From S2P Require Import Prelude GoRegexp.

Record Encoding := mkEncoding {
  enc62 : ascii;
  enc63 : ascii;
  padded : bool
}.

Definition StdEncoding : Encoding := mkEncoding "+"%char "/"%char true.
Definition RawStdEncoding : Encoding := mkEncoding "+"%char "/"%char false.
Definition URLEncoding : Encoding := mkEncoding "-"%char "_"%char true.
Definition RawURLEncoding : Encoding := mkEncoding "-"%char "_"%char false.

(** The character of a sextet, and the sextet of a character. *)
Definition encode_sextet (e : Encoding) (n : Z) : ascii :=
  if n <? 26 then byte (65 + n)
  else if n <? 52 then byte (97 + (n - 26))
  else if n <? 62 then byte (48 + (n - 52))
  else if n =? 62 then enc62 e else enc63 e.

Definition decode_sextet (e : Encoding) (c : ascii) : option Z :=
  if upper c then Some (ord c - 65)
  else if lower c then Some (ord c - 97 + 26)
  else if digit c then Some (ord c - 48 + 52)
  else if bool_decide (c = enc62 e) then Some 62
  else if bool_decide (c = enc63 e) then Some 63
  else None.

Definition pad_char : ascii := "="%char.

(** [enc.EncodedLen(n)]. *)
Definition EncodedLen (e : Encoding) (n : Z) : Z :=
  if padded e then (n + 2) / 3 * 4 else n / 3 * 4 + (n mod 3 * 8 + 5) / 6.

Definition padding (e : Encoding) (s : string) : string := if padded e then s else "".

(** [enc.EncodeToString(src)]. *)
Fixpoint EncodeToString (e : Encoding) (src : string) : string :=
  match src with
  | EmptyString => ""
  | String a EmptyString =>
      String (encode_sextet e (ord a / 4))
        (String (encode_sextet e (ord a mod 4 * 16)) (padding e "=="))
  | String a (String b EmptyString) =>
      String (encode_sextet e (ord a / 4))
        (String (encode_sextet e (ord a mod 4 * 16 + ord b / 16))
          (String (encode_sextet e (ord b mod 16 * 4)) (padding e "=")))
  | String a (String b (String c rest)) =>
      String (encode_sextet e (ord a / 4))
        (String (encode_sextet e (ord a mod 4 * 16 + ord b / 16))
          (String (encode_sextet e (ord b mod 16 * 4 + ord c / 64))
            (String (encode_sextet e (ord c mod 64)) (EncodeToString e rest))))
  end.

Definition is_newline (c : ascii) : bool := (ord c =? 10) || (ord c =? 13).

Fixpoint strip_newlines (s : string) : string :=
  match s with
  | EmptyString => ""
  | String c s' => if is_newline c then strip_newlines s' else String c (strip_newlines s')
  end.

(** The three bytes of four sextets. *)
Definition byte0 (x y : Z) : ascii := byte (x * 4 + y / 16).
Definition byte1 (y z : Z) : ascii := byte (y mod 16 * 16 + z / 4).
Definition byte2 (z w : Z) : ascii := byte (z mod 4 * 64 + w).

Fixpoint decode_quanta (e : Encoding) (s : string) : option string :=
  match s with
  | EmptyString => Some ""
  | String a EmptyString => None
  | String a (String b s2) =>
      match decode_sextet e a, decode_sextet e b with
      | Some x, Some y =>
          match s2 with
          | EmptyString => if padded e then None else Some (String (byte0 x y) "")
          | String c s3 =>
              match decode_sextet e c with
              | None =>
                  if padded e && bool_decide (c = pad_char) && bool_decide (s3 = "=")
                  then Some (String (byte0 x y) "") else None
              | Some z =>
                  match s3 with
                  | EmptyString =>
                      if padded e then None
                      else Some (String (byte0 x y) (String (byte1 y z) ""))
                  | String d s4 =>
                      match decode_sextet e d with
                      | Some w =>
                          rest ← decode_quanta e s4;
                          Some (String (byte0 x y) (String (byte1 y z)
                                 (String (byte2 z w) rest)))
                      | None =>
                          if padded e && bool_decide (d = pad_char) && bool_decide (s4 = "")
                          then Some (String (byte0 x y) (String (byte1 y z) "")) else None
                      end
                  end
              end
          end
      | _, _ => None
      end
  end.

(** [enc.DecodeString(s)]; the error value is never inspected by the program. *)
Definition DecodeString (e : Encoding) (s : string) : option string :=
  decode_quanta e (strip_newlines s).

(** ** Bytes *)

Lemma ord_range c : 0 <= ord c < 256.
Proof. unfold ord. pose proof (Ascii.N_ascii_bounded c). lia. Qed.

Lemma byte_ord c : byte (ord c) = c.
Proof. unfold byte, ord. rewrite N2Z.id. apply Ascii.ascii_N_embedding. Qed.

Lemma ord_byte z : 0 <= z < 256 → ord (byte z) = z.
Proof. intros H. unfold byte, ord. rewrite Ascii.N_ascii_embedding; lia. Qed.

(** ** Sextets *)

(** A property of every byte, by enumeration. *)
Lemma byte_cases (P : ascii → bool) c :
  forallb (λ n, P (byte n)) (seqZ 0 256) = true → P c = true.
Proof.
  intros Hall. rewrite <- (byte_ord c). pose proof (ord_range c).
  eapply (proj1 (forallb_forall (λ n, P (byte n)) _)); [exact Hall|].
  apply list_elem_of_In, elem_of_seqZ. lia.
Qed.

(** A property of every sextet that holds by computation. *)
Lemma sextet_cases (P : Z → bool) n :
  forallb P (seqZ 0 64) = true → 0 <= n < 64 → P n = true.
Proof.
  intros H Hn. eapply forallb_forall in H; [exact H|].
  apply list_elem_of_In, elem_of_seqZ. lia.
Qed.

(** The four encodings of the package, for which the alphabet is unambiguous. *)
Class Standard (e : Encoding) : Prop :=
  standard : e = StdEncoding ∨ e = RawStdEncoding ∨ e = URLEncoding ∨ e = RawURLEncoding.

#[global] Instance StdEncoding_standard : Standard StdEncoding.
Proof. by left. Qed.
#[global] Instance RawStdEncoding_standard : Standard RawStdEncoding.
Proof. by right; left. Qed.
#[global] Instance URLEncoding_standard : Standard URLEncoding.
Proof. by right; right; left. Qed.
#[global] Instance RawURLEncoding_standard : Standard RawURLEncoding.
Proof. by right; right; right. Qed.

Lemma encode_sextet_newline e `{!Standard e} n :
  0 <= n < 64 → is_newline (encode_sextet e n) = false.
Proof.
  intros Hn. apply negb_true_iff.
  apply (sextet_cases (λ n, negb (is_newline (encode_sextet e n)))); [|done].
  destruct standard as [->|[->|[->| ->]]]; by vm_compute.
Qed.

Lemma decode_encode_sextet e `{!Standard e} n :
  0 <= n < 64 → decode_sextet e (encode_sextet e n) = Some n.
Proof.
  intros Hn. eapply bool_decide_eq_true_1.
  refine (sextet_cases (λ n, bool_decide (decode_sextet e (encode_sextet e n) = Some n)) n _ Hn).
  destruct standard as [->|[->|[->| ->]]]; by vm_compute.
Qed.

Lemma decode_pad e `{!Standard e} : decode_sextet e "=" = None.
Proof. destruct standard as [->|[->|[->| ->]]]; done. Qed.

(** The sextets cut from bytes are in range, and joining them gives the bytes. *)
Lemma byte0_join a b : 0 <= b < 256 →
  byte0 (ord a / 4) (ord a mod 4 * 16 + b / 16) = a.
Proof.
  intros Hb. pose proof (ord_range a). unfold byte0.
  rewrite <- (byte_ord a) at 3. f_equal. divlia.
Qed.

Lemma byte1_join a b c : 0 <= c < 256 →
  byte1 (ord a mod 4 * 16 + ord b / 16) (ord b mod 16 * 4 + c / 64) = b.
Proof.
  intros Hc. pose proof (ord_range a). pose proof (ord_range b). unfold byte1.
  rewrite <- (byte_ord b) at 3. f_equal. divlia.
Qed.

Lemma byte2_join b c : byte2 (ord b mod 16 * 4 + ord c / 64) (ord c mod 64) = c.
Proof.
  pose proof (ord_range b). pose proof (ord_range c). unfold byte2.
  rewrite <- (byte_ord c) at 3. f_equal. divlia.
Qed.

(** ** Round trip *)

(** Induction three bytes at a time. *)
Lemma string_ind3 (P : string → Prop) :
  P "" → (∀ a, P (String a "")) → (∀ a b, P (String a (String b ""))) →
  (∀ a b c s, P s → P (String a (String b (String c s)))) → ∀ s, P s.
Proof.
  intros H0 H1 H2 H3. fix IH 1. intros [|a [|b [|c s]]];
    [done|apply H1|apply H2|apply H3, IH].
Qed.

Ltac sextet_range :=
  match goal with
  | |- context [ord ?a] =>
      pose proof (ord_range a);
      repeat match goal with b : ascii |- _ =>
        lazymatch goal with H : 0 <= ord b < 256 |- _ => fail
        | _ => pose proof (ord_range b) end end; divlia
  end.

Create Rewrite HintDb b64.

#[local] Hint Rewrite @encode_sextet_newline @decode_encode_sextet using
  first [assumption | sextet_range] : b64.

Section roundtrip.
Context (e : Encoding) `{!Standard e}.

Lemma strip_encode s : strip_newlines (EncodeToString e s) = EncodeToString e s.
Proof.
  induction s as [|a|a b|a b c s IH] using string_ind3; [done|..];
    cbn [EncodeToString strip_newlines]; autorewrite with b64; [..|by rewrite IH];
    unfold padding; by destruct (padded e).
Qed.

Lemma DecodeString_EncodeToString s : DecodeString e (EncodeToString e s) = Some s.
Proof.
  unfold DecodeString. rewrite strip_encode.
  induction s as [|a|a b|a b c s IH] using string_ind3; [done|..];
    cbn [EncodeToString decode_quanta]; autorewrite with b64; unfold padding.
  - rewrite <- (Z.add_0_r (ord a mod 4 * 16)). change 0 with (0 / 16).
    rewrite byte0_join by done. destruct (padded e); [by rewrite decode_pad|done].
  - rewrite byte0_join by apply ord_range.
    rewrite <- (Z.add_0_r (ord b mod 16 * 4)). change 0 with (0 / 64).
    rewrite byte1_join by done. destruct (padded e); [by rewrite decode_pad|done].
  - rewrite IH. simpl. rewrite byte0_join by apply ord_range.
    rewrite byte1_join by apply ord_range. by rewrite byte2_join.
Qed.

Lemma len_EncodeToString s : len (EncodeToString e s) = EncodedLen e (len s).
Proof.
  unfold EncodedLen.
  induction s as [|a|a b|a b c s IH] using string_ind3.
  - by destruct (padded e).
  - unfold len. cbn [EncodeToString String.length]. unfold padding. by destruct (padded e).
  - unfold len. cbn [EncodeToString String.length]. unfold padding. by destruct (padded e).
  - unfold len in *. cbn [EncodeToString String.length].
    rewrite !Nat2Z.inj_succ, IH. set (n := Z.of_nat (String.length s)).
    destruct (padded e); divlia.
Qed.

End roundtrip.

(** The characters of encoded text, by enumeration of the alphabet. *)
Lemma EncodeToString_chars (p : ascii → bool) s :
  forallb (λ n, p (encode_sextet RawURLEncoding n)) (seqZ 0 64) = true →
  all_bytes p (EncodeToString RawURLEncoding s) = true.
Proof.
  intros Hall. assert (∀ n, 0 <= n < 64 → p (encode_sextet RawURLEncoding n) = true) as Hp.
  { intros n Hn. eapply (proj1 (forallb_forall _ _) Hall), list_elem_of_In, elem_of_seqZ. lia. }
  assert (∀ a b c : ascii, 0 <= ord a / 4 < 64 ∧ 0 <= ord a mod 4 * 16 < 64 ∧
    0 <= ord a mod 4 * 16 + ord b / 16 < 64 ∧ 0 <= ord b mod 16 * 4 < 64 ∧
    0 <= ord b mod 16 * 4 + ord c / 64 < 64 ∧ 0 <= ord c mod 64 < 64) as Hb.
  { intros a b c. pose proof (ord_range a). pose proof (ord_range b). pose proof (ord_range c).
    split_and!; divlia. }
  induction s as [|a|a b|a b c s IH] using string_ind3; [done|..];
    [destruct (Hb a a a) as (? & ? & ? & ? & ? & ?)|destruct (Hb a b b) as (? & ? & ? & ? & ? & ?)
    |destruct (Hb a b c) as (? & ? & ? & ? & ? & ?)];
    cbn [EncodeToString all_bytes padding padded RawURLEncoding]; rewrite !Hp by done; [done..|]. exact IH.
Qed.
