(* ===== verification/GoSha256.v ===== *)
(** * [crypto/sha256]

    SHA-256 (FIPS 180-4) on byte strings, executable, with the published digests
    of three messages as tests.  The manifest code identifies keys, policies,
    catalogs and payloads by this digest, so its length and its being a function
    are what the theorems of the other files use; nothing here states collision
    resistance. *)

From S2P Require Import Prelude GoRegexp GoBase64.

(** ** 32-bit words *)

Definition w32 (x : Z) : Z := Z.land x 4294967295.
Definition rotr (n x : Z) : Z := Z.lor (Z.shiftr x n) (w32 (Z.shiftl x (32 - n))).

Definition Ch (x y z : Z) : Z := Z.lxor (Z.land x y) (Z.land (Z.lxor x 4294967295) z).
Definition Maj (x y z : Z) : Z := Z.lxor (Z.lxor (Z.land x y) (Z.land x z)) (Z.land y z).
Definition Sigma0 (x : Z) : Z := Z.lxor (Z.lxor (rotr 2 x) (rotr 13 x)) (rotr 22 x).
Definition Sigma1 (x : Z) : Z := Z.lxor (Z.lxor (rotr 6 x) (rotr 11 x)) (rotr 25 x).
Definition sigma0 (x : Z) : Z := Z.lxor (Z.lxor (rotr 7 x) (rotr 18 x)) (Z.shiftr x 3).
Definition sigma1 (x : Z) : Z := Z.lxor (Z.lxor (rotr 17 x) (rotr 19 x)) (Z.shiftr x 10).

(** The constants of the standard: the first 32 bits of the fractional parts of
    the cube roots of the first 64 primes, and of the square roots of the first
    eight. *)
Definition is_prime (n : Z) : bool :=
  forallb (λ d, negb (n mod d =? 0)) (seqZ 2 (n - 2)).

Definition primes : list Z := List.filter is_prime (seqZ 2 310).

(** The largest [r] below [2 ^ bits] with [r ^ 3 <= n]. *)
Fixpoint cube_root (bits : nat) (r n : Z) : Z :=
  match bits with
  | O => r
  | S bits =>
      let r' := r + 2 ^ Z.of_nat bits in
      cube_root bits (if r' * r' * r' <=? n then r' else r) n
  end.

Definition round_constants : list Z := Eval vm_compute in
  (λ p, w32 (cube_root 36 0 (p * 2 ^ 96))) <$> primes.

Record hash := mkHash {
  ha : Z; hb : Z; hc : Z; hd : Z; he : Z; hf : Z; hg : Z; hh : Z
}.

Definition root_word (i : nat) : Z := w32 (Z.sqrt (nth i primes 0 * 2 ^ 64)).

Definition initial_hash : hash := Eval vm_compute in
  mkHash (root_word 0) (root_word 1) (root_word 2) (root_word 3)
         (root_word 4) (root_word 5) (root_word 6) (root_word 7).

Definition round (h : hash) (kw : Z * Z) : hash :=
  let t1 := w32 (hh h + Sigma1 (he h) + Ch (he h) (hf h) (hg h) + kw.1 + kw.2) in
  let t2 := w32 (Sigma0 (ha h) + Maj (ha h) (hb h) (hc h)) in
  mkHash (w32 (t1 + t2)) (ha h) (hb h) (hc h) (w32 (hd h + t1)) (he h) (hf h) (hg h).

(** The message schedule, most recent word first. *)
Fixpoint extend_schedule (n : nat) (w : list Z) : list Z :=
  match n with
  | O => w
  | S n => extend_schedule n
      (w32 (sigma1 (nth 1 w 0) + nth 6 w 0 + sigma0 (nth 14 w 0) + nth 15 w 0) :: w)
  end.

Definition compress (h : hash) (block : list Z) : hash :=
  let w := rev (extend_schedule 48 (rev block)) in
  let r := fold_left round (combine round_constants w) h in
  mkHash (w32 (ha h + ha r)) (w32 (hb h + hb r)) (w32 (hc h + hc r)) (w32 (hd h + hd r))
         (w32 (he h + he r)) (w32 (hf h + hf r)) (w32 (hg h + hg r)) (w32 (hh h + hh r)).

Fixpoint bytes_of (s : string) : list Z :=
  match s with EmptyString => [] | String c s' => ord c :: bytes_of s' end.

(** Big-endian words of four bytes. *)
Fixpoint words_of (l : list Z) : list Z :=
  match l with
  | a :: b :: c :: d :: l' => (a * 16777216 + b * 65536 + c * 256 + d) :: words_of l'
  | _ => []
  end.

Definition word_bytes (w : Z) : string :=
  String (byte (w / 16777216 mod 256)) (String (byte (w / 65536 mod 256))
    (String (byte (w / 256 mod 256)) (String (byte (w mod 256)) ""))).

(** The message, a 1 bit, zeros up to 56 bytes modulo 64, and the bit length. *)
Definition pad_message (s : string) : list Z :=
  let n := len s in
  bytes_of s ++ 128 :: replicate (Z.to_nat ((55 - n) mod 64)) 0
    ++ bytes_of (word_bytes (n * 8 / 4294967296) +:+ word_bytes (n * 8 mod 4294967296)).

Fixpoint process (fuel : nat) (h : hash) (ws : list Z) : hash :=
  match fuel with
  | O => h
  | S fuel =>
      match ws with
      | [] => h
      | _ => process fuel (compress h (take 16 ws)) (drop 16 ws)
      end
  end.

(** [sha256.Sum256].  The fuel is the number of words, at least the number of
    16-word blocks. *)
Definition Sum256 (s : string) : string :=
  let ws := words_of (pad_message s) in
  let h := process (length ws) initial_hash ws in
  word_bytes (ha h) +:+ word_bytes (hb h) +:+ word_bytes (hc h) +:+ word_bytes (hd h) +:+
  word_bytes (he h) +:+ word_bytes (hf h) +:+ word_bytes (hg h) +:+ word_bytes (hh h).

(** [hex.EncodeToString]. *)
Definition hex_digit (n : Z) : ascii := if n <? 10 then byte (48 + n) else byte (87 + n).

Fixpoint hex_EncodeToString (s : string) : string :=
  match s with
  | EmptyString => ""
  | String c s' =>
      String (hex_digit (ord c / 16)) (String (hex_digit (ord c mod 16)) (hex_EncodeToString s'))
  end.

(** [base64.RawURLEncoding.EncodeToString] of a digest, the form in which the
    program stores digests and key identifiers. *)
Definition digest (s : string) : string := EncodeToString RawURLEncoding (Sum256 s).

(** ** Published digests *)

Example sha256_empty : hex_EncodeToString (Sum256 "") =
  "e3b0c44298fc1c149afbf4c8996fb92427ae41e4649b934ca495991b7852b855".
Proof. by vm_compute. Qed.

Example sha256_abc : hex_EncodeToString (Sum256 "abc") =
  "ba7816bf8f01cfea414140de5dae2223b00361a396177a9cb410ff61f20015ad".
Proof. by vm_compute. Qed.

Example sha256_two_blocks :
  hex_EncodeToString (Sum256 "abcdbcdecdefdefgefghfghighijhijkijkljklmklmnlmnomnopnopq") =
  "248d6a61d20638b8e5c026930c3e6039a33ce45964ff2167f6ecedd419db06c1".
Proof. by vm_compute. Qed.

(** ** Lengths *)

Lemma len_Sum256 s : len (Sum256 s) = 32.
Proof. unfold Sum256. cbv zeta. rewrite !len_app. reflexivity. Qed.

Lemma len_digest s : len (digest s) = 43.
Proof. unfold digest. by rewrite (len_EncodeToString RawURLEncoding), len_Sum256. Qed.

Lemma decode_digest s : DecodeString RawURLEncoding (digest s) = Some (Sum256 s).
Proof. apply (DecodeString_EncodeToString RawURLEncoding). Qed.

Lemma digest_nonempty s : digest s ≠ "".
Proof. intros H. pose proof (len_digest s). by rewrite H in *. Qed.

Lemma digest_inj s t : digest s = digest t → Sum256 s = Sum256 t.
Proof. intros H. pose proof (decode_digest s). rewrite H, decode_digest in *. congruence. Qed.

#[global] Opaque Sum256.
