(* ===== verification/GoStrings.v ===== *)
(** * Byte-level [strings] and [strconv] functions

    The functions of Go's [strings], [bytealg] and [strconv] packages the
    modelled code calls, on byte strings. *)

From S2P Require Import Prelude GoRegexp GoBase64.

(** [s[:n]] and [s[n:]], for [n <= len(s)]. *)
Fixpoint str_take (n : nat) (s : string) : string :=
  match n, s with
  | S n, String c s' => String c (str_take n s')
  | _, _ => ""
  end.

Fixpoint str_drop (n : nat) (s : string) : string :=
  match n, s with
  | S n, String _ s' => str_drop n s'
  | _, _ => s
  end.

(** [strings.IndexByte] and [strings.LastIndexByte] ([None] for -1). *)
Fixpoint IndexByte (s : string) (c : ascii) : option nat :=
  match s with
  | EmptyString => None
  | String d s' => if bool_decide (d = c) then Some O else S <$> IndexByte s' c
  end.

Fixpoint LastIndexByte (s : string) (c : ascii) : option nat :=
  match s with
  | EmptyString => None
  | String d s' =>
      match LastIndexByte s' c with
      | Some i => Some (S i)
      | None => if bool_decide (d = c) then Some O else None
      end
  end.

Fixpoint HasPrefix (s prefix : string) {struct prefix} : bool :=
  match prefix, s with
  | EmptyString, _ => true
  | String c prefix', String d s' => bool_decide (c = d) && HasPrefix s' prefix'
  | String _ _, EmptyString => false
  end.

Definition HasSuffix (s suffix : string) : bool :=
  (String.length suffix <=? String.length s)%nat &&
  bool_decide (str_drop (String.length s - String.length suffix) s = suffix).

Fixpoint Contains (s substr : string) : bool :=
  HasPrefix s substr ||
  match s with EmptyString => false | String _ s' => Contains s' substr end.

(** [strings.Cut(s, sep)] for a one-byte separator: before, after, found. *)
Fixpoint Cut (s : string) (sep : ascii) : string * string * bool :=
  match s with
  | EmptyString => ("", "", false)
  | String c s' =>
      if bool_decide (c = sep) then ("", s', true)
      else let '(b, a, f) := Cut s' sep in (String c b, a, f)
  end.

Fixpoint CountByte (s : string) (c : ascii) : nat :=
  match s with
  | EmptyString => O
  | String d s' => ((if bool_decide (d = c) then 1 else 0) + CountByte s' c)%nat
  end.

(** [strings.ToLower] on an ASCII string. *)
Fixpoint ToLower (s : string) : string :=
  match s with
  | EmptyString => ""
  | String c s' => String (to_lower_ascii c) (ToLower s')
  end.

(** The value of a run of decimal digits. *)
Fixpoint decimal (acc : Z) (s : string) : Z :=
  match s with
  | EmptyString => acc
  | String c s' => decimal (acc * 10 + (ord c - 48)) s'
  end.

(** [strconv.Atoi]: an optional sign and decimal digits, within [int64]. *)
Definition Atoi (s : string) : option Z :=
  let '(negative, digits) :=
    match s with
    | String c s' => if bool_decide (c = "-"%char) then (true, s')
                     else if bool_decide (c = "+"%char) then (false, s') else (false, s)
    | EmptyString => (false, s)
    end in
  if bool_decide (digits = "") || negb (all_bytes digit digits) then None
  else
    let v := if negative : bool then - decimal 0 digits else decimal 0 digits in
    if (v <? min_int64) || (v >? max_int64) then None else Some v.

(** An [io.Reader]: its bytes, then the end of the stream or a read error. *)
Record Reader := mkReader {
  reader_content : string;
  reader_failure : option error
}.

(** [io.ReadAll(io.LimitReader(reader, n))]. *)
Definition ReadAllLimited (r : Reader) (n : Z) : result string :=
  if n <=? len (reader_content r) then Ok (str_take (Z.to_nat n) (reader_content r))
  else match reader_failure r with None => Ok (reader_content r) | Some e => Err e end.

(** ** Basic facts *)

Lemma str_take_drop n s : str_take n s +:+ str_drop n s = s.
Proof.
  revert n. induction s as [|c s IH]; intros [|n]; try done. simpl.
  by rewrite str_app_cons, IH.
Qed.

Lemma HasPrefix_spec s p : HasPrefix s p = true ↔ ∃ t, s = p +:+ t.
Proof.
  revert s. induction p as [|c p IH]; intros s; simpl.
  - split; [eauto|done].
  - destruct s as [|d s]; [split; [done|by intros [? ?]]|].
    rewrite andb_true_iff, bool_decide_eq_true, IH. split.
    + intros (-> & t & ->). by exists t.
    + intros [t [= -> ->]]. eauto.
Qed.

Lemma Cut_spec s sep b a : Cut s sep = (b, a, true) → s = b +:+ String sep a.
Proof.
  revert b. induction s as [|c s IH]; intros b; simpl; [done|].
  case_bool_decide as Hc; [by intros [= <- <-]; subst|].
  destruct (Cut s sep) as [[b' a'] f]. intros [= <- <- ->].
  by rewrite str_app_cons, (IH b').
Qed.

Lemma str_drop_length n s : String.length (str_drop n s) = (String.length s - n)%nat.
Proof.
  revert n. induction s as [|c s IH]; intros [|n]; simpl; try done.
Qed.

Lemma str_take_length n s : String.length (str_take n s) = (n `min` String.length s)%nat.
Proof.
  revert n. induction s as [|c s IH]; intros [|n]; simpl; try done. by rewrite IH.
Qed.

(** A limited read returns at most [n] bytes, a prefix of the stream, and the
    whole stream when it is shorter than the limit. *)
Lemma ReadAllLimited_len r n s : 0 <= n → ReadAllLimited r n = Ok s → len s <= n.
Proof.
  unfold ReadAllLimited. intros Hn. destruct (Z.leb_spec n (len (reader_content r))).
  - intros [= <-]. unfold len in *. rewrite str_take_length. lia.
  - destruct (reader_failure r); [done|]. intros [= <-]. lia.
Qed.

Lemma ReadAllLimited_short r n s :
  0 <= n → ReadAllLimited r n = Ok s → len s < n → s = reader_content r.
Proof.
  unfold ReadAllLimited. intros Hn. destruct (Z.leb_spec n (len (reader_content r))).
  - intros [= <-]. unfold len in *. rewrite str_take_length. lia.
  - destruct (reader_failure r); [done|]. by intros [= <-].
Qed.

Lemma str_take_all n s : (String.length s ≤ n)%nat → str_take n s = s.
Proof.
  revert n. induction s as [|c s IH]; intros [|n] Hn; simpl in *; try done; [lia|].
  rewrite IH; [done|lia].
Qed.
