(* ===== verification/GoNet.v ===== *)
(** * [net], [net/netip] and [net/url]

    Address and URL parsing as the program calls it: [net.SplitHostPort],
    [net.ParseIP] (through [netip.ParseAddr]) and [url.ParseRequestURI] with
    [URL.Hostname] and [URL.Port].  A parsed address is its 16 bytes, an IPv4
    address in its IPv4-mapped form, as [net.IP] stores it. *)

From S2P Require Import Prelude GoRegexp GoBase64 GoStrings.

(** ** [net.SplitHostPort] *)

Definition SplitHostPort (hostport : string) : option (string * string) :=
  match LastIndexByte hostport ":"%char with
  | None => None
  | Some i =>
      let port := str_drop (S i) hostport in
      let finish (host : string) (j k : nat) :=
        if is_Some_b (IndexByte (str_drop j hostport) "["%char)
           || is_Some_b (IndexByte (str_drop k hostport) "]"%char)
        then None else Some (host, port) in
      if HasPrefix hostport "[" then
        match IndexByte hostport "]"%char with
        | None => None
        | Some close =>
            if (S close =? i)%nat
            then finish (str_take (close - 1) (str_drop 1 hostport)) 1%nat (S close)
            else None
        end
      else
        let host := str_take i hostport in
        if is_Some_b (IndexByte host ":"%char) then None else finish host O O
  end.

(** ** [netip.ParseAddr] *)

Record Addr := mkAddr {
  addr_bytes : list Z;  (* 16 bytes *)
  addr_is4 : bool;
  addr_zone : string
}.

(** [parseIPv4Fields]: four decimal octets without leading zeros. *)
Fixpoint ipv4_fields (s : string) (val digLen : Z) (fields : list Z) : option (list Z) :=
  match s with
  | EmptyString =>
      if (digLen =? 0) || negb (llen fields =? 3) then None else Some (fields ++ [val])
  | String c s' =>
      if digit c then
        if (digLen =? 1) && (val =? 0) then None
        else
          let val' := val * 10 + (ord c - 48) in
          if val' >? 255 then None else ipv4_fields s' val' (digLen + 1) fields
      else if bool_decide (c = "."%char) then
        if (digLen =? 0) || (llen fields =? 3) then None
        else ipv4_fields s' 0 0 (fields ++ [val])
      else None
  end.

Definition parseIPv4 (s : string) : option Addr :=
  f ← ipv4_fields s 0 0 [];
  Some (mkAddr (replicate 10 0 ++ [255; 255] ++ f) true "").

Definition hex_value (c : ascii) : option Z :=
  if digit c then Some (ord c - 48)
  else if rng "a"%char "f"%char c then Some (ord c - 97 + 10)
  else if rng "A"%char "F"%char c then Some (ord c - 65 + 10)
  else None.

(** The hexadecimal digits at the front of [s]: their value, number and the rest.
    More than four digits is an error. *)
Fixpoint hex_group (s : string) (acc off : Z) : option (Z * Z * string) :=
  match s with
  | EmptyString => Some (acc, off, "")
  | String c s' =>
      match hex_value c with
      | None => Some (acc, off, s)
      | Some v => if off >? 3 then None else hex_group s' (acc * 16 + v) (off + 1)
      end
  end.

(** The loop of [parseIPv6], one group per unit of fuel: [i < 16] bounds it by
    eight groups.  [ip] holds the bytes read so far, [ellipsis] the position of
    the double colon. *)
Fixpoint ipv6_groups (fuel : nat) (s : string) (ip : list Z) (ellipsis : option nat)
    : option (string * list Z * option nat) :=
  match fuel with
  | O => Some (s, ip, ellipsis)
  | S fuel =>
      match hex_group s 0 0 with
      | None => None
      | Some (acc, off, rest) =>
          if off =? 0 then None
          else if HasPrefix rest "." then
            if negb (is_Some_b ellipsis) && negb (length ip =? 12)%nat then None
            else if (16 <? length ip + 4)%nat then None
            else f ← ipv4_fields s 0 0 []; Some ("", ip ++ f, ellipsis)
          else
            let ip := ip ++ [acc / 256; acc mod 256] in
            match rest with
            | EmptyString => Some ("", ip, ellipsis)
            | String c s1 =>
                if negb (bool_decide (c = ":"%char)) || bool_decide (s1 = "") then None
                else if HasPrefix s1 ":" then
                  if is_Some_b ellipsis then None
                  else
                    let s2 := str_drop 1 s1 in
                    if bool_decide (s2 = "") then Some ("", ip, Some (length ip))
                    else ipv6_groups fuel s2 ip (Some (length ip))
                else ipv6_groups fuel s1 ip ellipsis
            end
      end
  end.

Definition parseIPv6 (input : string) : option Addr :=
  let '(s, zone, has_zone) := Cut input "%"%char in
  if has_zone && bool_decide (zone = "") then None
  else
    let leading := HasPrefix s "::" in
    let s := if leading then str_drop 2 s else s in
    if leading && bool_decide (s = "") then Some (mkAddr (replicate 16 0) false zone)
    else
      '(rest, ip, ellipsis) ← ipv6_groups 8 s [] (if leading then Some O else None);
      if negb (bool_decide (rest = "")) then None
      else if (length ip <? 16)%nat then
        match ellipsis with
        | None => None
        | Some e => Some (mkAddr (take e ip ++ replicate (16 - length ip) 0 ++ drop e ip) false zone)
        end
      else if is_Some_b ellipsis then None
      else Some (mkAddr ip false zone).

(** The first of [.], [:] and [%] decides the address family. *)
Fixpoint addr_family (s : string) : ascii :=
  match s with
  | EmptyString => " "%char
  | String c s' => if one_of ".:%" c then c else addr_family s'
  end.

Definition ParseAddr (s : string) : option Addr :=
  if bool_decide (addr_family s = "."%char) then parseIPv4 s
  else if bool_decide (addr_family s = ":"%char) then parseIPv6 s
  else None.

(** [net.ParseIP]: an address with a zone is refused. *)
Definition ParseIP (s : string) : option (list Z) :=
  a ← ParseAddr s; if bool_decide (addr_zone a = "") then Some (addr_bytes a) else None.

(** ** The address classes of [net/netip]

    The bytes of an IPv4 address are kept in their IPv4-mapped form, so that
    [Unmap] only changes the family. *)

Definition addr_byte (a : Addr) (i : nat) : Z := default 0 (addr_bytes a !! i).

Definition v4_mapped (a : Addr) : bool :=
  forallb (λ i, addr_byte a i =? 0) (List.seq 0 10) && (addr_byte a 10 =? 255) && (addr_byte a 11 =? 255).

(** [Is4()] after the [if ip.Is4In6() { ip = ip.Unmap() }] of the class predicates. *)
Definition unmapped_is4 (a : Addr) : bool := addr_is4 a || v4_mapped a.

Definition IPv4Unspecified : Addr := mkAddr (replicate 10 0 ++ [255; 255; 0; 0; 0; 0]) true "".
Definition IPv6Unspecified : Addr := mkAddr (replicate 16 0) false "".

#[global] Instance Addr_eq_dec : EqDecision Addr.
Proof. solve_decision. Defined.

Definition IsUnspecified (a : Addr) : bool :=
  bool_decide (a = IPv4Unspecified) || bool_decide (a = IPv6Unspecified).

Definition IsPrivate (a : Addr) : bool :=
  if unmapped_is4 a then
    (addr_byte a 12 =? 10) ||
    ((addr_byte a 12 =? 172) && (Z.land (addr_byte a 13) 240 =? 16)) ||
    ((addr_byte a 12 =? 192) && (addr_byte a 13 =? 168))
  else Z.land (addr_byte a 0) 254 =? 252.

Definition IsLoopback (a : Addr) : bool :=
  if unmapped_is4 a then addr_byte a 12 =? 127
  else forallb (λ i, addr_byte a i =? 0) (List.seq 0 15) && (addr_byte a 15 =? 1).

Definition IsLinkLocalUnicast (a : Addr) : bool :=
  if unmapped_is4 a then (addr_byte a 12 =? 169) && (addr_byte a 13 =? 254)
  else (addr_byte a 0 =? 254) && (Z.land (addr_byte a 1) 192 =? 128).

(** The classes of [net.IP] on the 16 bytes of an address: [To4] sees an IPv4-mapped
    address as IPv4, also for the unspecified one. *)
Definition ip_addr (bytes : list Z) : Addr := mkAddr bytes false "".
Definition IP_IsLoopback (bytes : list Z) : bool := IsLoopback (ip_addr bytes).
Definition IP_IsPrivate (bytes : list Z) : bool := IsPrivate (ip_addr bytes).
Definition IP_IsUnspecified (bytes : list Z) : bool :=
  bool_decide (bytes = addr_bytes IPv4Unspecified) || bool_decide (bytes = addr_bytes IPv6Unspecified).

(** ** [url.ParseRequestURI] *)

(** The fields of [url.URL] the program reads.  [url_User] is whether the
    authority has a user part. *)
Record URL := mkURL {
  url_Scheme : string;
  url_User : bool;
  url_Host : string;
  url_Path : string;
  url_RawQuery : string;
  url_Fragment : string
}.

Definition is_hex (c : ascii) : bool := is_Some_b (hex_value c).

Definition unhex (c d : ascii) : Z :=
  default 0 (hex_value c) * 16 + default 0 (hex_value d).

Inductive escape_mode := encodePath | encodeHost | encodeZone.

(** ASCII bytes [shouldEscape] leaves alone in a host or zone. *)
Definition host_byte (c : ascii) : bool :=
  lower c || upper c || digit c || one_of "!$&'()*+,;=:[]<>-_.~" c || (ord c =? 34).

Fixpoint unescape (mode : escape_mode) (s : string) : option string :=
  match s with
  | EmptyString => Some ""
  | String c s1 =>
      if bool_decide (c = "%"%char) then
        match s1 with
        | String h (String l s2) =>
            if negb (is_hex h && is_hex l) then None
            else
              let v := byte (unhex h l) in
              let is_percent := ord v =? 37 in
              let refused :=
                match mode with
                | encodePath => false
                | encodeHost => (unhex h "0"%char <? 128) && negb is_percent
                | encodeZone => negb is_percent && negb (ord v =? 32) && negb (host_byte v)
                end in
              if refused : bool then None
              else rest ← unescape mode s2; Some (String v rest)
        | _ => None
        end
      else
        let refused :=
          match mode with encodePath => false | _ => (ord c <? 128) && negb (host_byte c) end in
        if refused : bool then None
        else rest ← unescape mode s1; Some (String c rest)
  end.

Definition validOptionalPort (port : string) : bool :=
  match port with
  | EmptyString => true
  | String c digits => bool_decide (c = ":"%char) && all_bytes digit digits
  end.

(** The position of the zone separator [%25] in a bracketed host. *)
Fixpoint zone_index (s : string) : option nat :=
  if HasPrefix s "%25" then Some O
  else match s with EmptyString => None | String _ s' => S <$> zone_index s' end.

Definition parseHost (host : string) : option string :=
  match LastIndexByte host "["%char with
  | Some O =>
      close ← LastIndexByte host "]"%char;
      let colonPort := str_drop (S close) host in
      if negb (validOptionalPort colonPort) then None
      else
        let hostname := str_take (close - 1) (str_drop 1 host) in
        unescaped ←
          match zone_index hostname with
          | Some z =>
              h ← unescape encodeHost (str_take z hostname);
              zone ← unescape encodeZone (str_drop z hostname);
              Some (h +:+ zone)
          | None => unescape encodeHost hostname
          end;
        addr ← ParseAddr unescaped;
        if addr_is4 addr then None else Some ("[" +:+ unescaped +:+ "]" +:+ colonPort)
  | Some (S _) => None
  | None =>
      match IndexByte host ":"%char with
      | Some i => if validOptionalPort (str_drop i host) then unescape encodeHost host else None
      | None => unescape encodeHost host
      end
  end.

(** [parseAuthority].  An ill-formed user part is reported as a user part: the
    callers refuse both. *)
Definition parseAuthority (authority : string) : option (bool * string) :=
  match LastIndexByte authority "@"%char with
  | None => host ← parseHost authority; Some (false, host)
  | Some i => host ← parseHost (str_drop (S i) authority); Some (true, host)
  end.

(** [getScheme]: scheme and rest; [None] is the missing-scheme error. *)
Fixpoint scheme_end (s : string) (i : nat) : option (option nat) :=
  match s with
  | EmptyString => Some None
  | String c s' =>
      if lower c || upper c then scheme_end s' (S i)
      else if digit c || one_of "+-." c then
        if (i =? 0)%nat then Some None else scheme_end s' (S i)
      else if bool_decide (c = ":"%char) then
        if (i =? 0)%nat then None else Some (Some i)
      else Some None
  end.

Definition getScheme (s : string) : option (string * string) :=
  e ← scheme_end s O;
  match e with
  | Some i => Some (str_take i s, str_drop (S i) s)
  | None => Some ("", s)
  end.

Definition is_ctl (c : ascii) : bool := (ord c <? 32) || (ord c =? 127).

(** A trailing question mark that is the only one is [ForceQuery], not a query. *)
Definition cut_query (rest : string) : string * string :=
  let '(before, query, _) := Cut rest "?"%char in (before, query).

Definition ParseRequestURI (rawURL : string) : option URL :=
  if negb (all_bytes (λ c, negb (is_ctl c)) rawURL) || bool_decide (rawURL = "") then None
  else if bool_decide (rawURL = "*") then Some (mkURL "" false "" "*" "" "")
  else
    '(scheme, rest) ← getScheme rawURL;
    let scheme := ToLower scheme in
    let '(rest, query) := cut_query rest in
    if negb (HasPrefix rest "/") then
      if bool_decide (scheme = "") then None
      else Some (mkURL scheme false "" "" query "")
    else if negb (bool_decide (scheme = "")) && HasPrefix rest "//" then
      let authority := str_drop 2 rest in
      let '(authority, path) :=
        match IndexByte authority "/"%char with
        | Some i => (str_take i authority, str_drop i authority)
        | None => (authority, "")
        end in
      '(user, host) ← parseAuthority authority;
      path ← unescape encodePath path;
      Some (mkURL scheme user host path query "")
    else
      path ← unescape encodePath rest;
      Some (mkURL scheme false "" path query "").

(** [splitHostPort] of [net/url], behind [URL.Hostname] and [URL.Port]. *)
Definition url_splitHostPort (hostPort : string) : string * string :=
  let '(host, port) :=
    match LastIndexByte hostPort ":"%char with
    | Some i => if validOptionalPort (str_drop i hostPort)
                then (str_take i hostPort, str_drop (S i) hostPort) else (hostPort, "")
    | None => (hostPort, "")
    end in
  (if HasPrefix host "[" && HasSuffix host "]"
   then str_take (String.length host - 2) (str_drop 1 host) else host, port).

Definition url_Hostname (u : URL) : string := (url_splitHostPort (url_Host u)).1.
Definition url_Port (u : URL) : string := (url_splitHostPort (url_Host u)).2.

(** ** Tests on addresses whose treatment Go documents *)

Example split_host_port : SplitHostPort "example.com:443" = Some ("example.com", "443").
Proof. by vm_compute. Qed.
Example split_ipv6 : SplitHostPort "[2001:db8::1]:443" = Some ("2001:db8::1", "443").
Proof. by vm_compute. Qed.
Example split_bare_ipv6 : SplitHostPort "2001:db8::1" = None.
Proof. by vm_compute. Qed.
Example parse_ipv4 : ParseIP "192.0.2.1" = Some [0;0;0;0;0;0;0;0;0;0;255;255;192;0;2;1].
Proof. by vm_compute. Qed.
Example parse_ipv4_leading_zero : ParseIP "192.0.02.1" = None.
Proof. by vm_compute. Qed.
Example parse_ipv6_ellipsis : ParseIP "2001:db8::68" = Some [32;1;13;184;0;0;0;0;0;0;0;0;0;0;0;104].
Proof. by vm_compute. Qed.
Example parse_ipv6_mapped : ParseIP "::ffff:192.0.2.1" = Some [0;0;0;0;0;0;0;0;0;0;255;255;192;0;2;1].
Proof. by vm_compute. Qed.
Example parse_ipv6_too_long : ParseIP "1:2:3:4:5:6:7:8:9" = None.
Proof. by vm_compute. Qed.
Example parse_url : ParseRequestURI "https://Example.com:8443/v1/manifest" =
  Some (mkURL "https" false "Example.com:8443" "/v1/manifest" "" "").
Proof. by vm_compute. Qed.
Example parse_url_user : url_User <$> ParseRequestURI "https://u:p@example.com/" = Some true.
Proof. by vm_compute. Qed.

(** ** Facts *)

(** [ParseRequestURI] "assumes that url was received in an HTTP request": it
    never sets a fragment, a [#] stays in the path. *)
Lemma ParseRequestURI_Fragment s u : ParseRequestURI s = Some u → url_Fragment u = "".
Proof.
  unfold ParseRequestURI. intros H.
  repeat match type of H with
  | (if ?c then _ else _) = Some _ => destruct c
  | (match ?m with _ => _ end) = Some _ => destruct m
  | mbind _ _ = Some _ => apply bind_Some in H as (? & ? & H)
  end; try done; by simplify_eq/=.
Qed.
