(* ===== verification/GoJson.v ===== *)
(** * [encoding/json], [unicode/utf8] and RFC 3339 times

    The encoder: JSON values, Go's compact printer with HTML escaping
    ([json.Marshal]), and the textual form of a UTC [time.Time].

    Decoding is an interface: [JsonDecode T] is a [json.Decoder] on which
    [DisallowUnknownFields] was called, reading one value of type [T], and
    [JsonSyntax] is its second call, which looks for trailing data.  The
    [decodeStrict] functions of the packages are written over the two.  The instances
    are in [Wire], over the decoder of [GoJsonScan] and [GoJsonDecode]. *)

From stdpp Require Import pretty.
From S2P Require Import Prelude GoRegexp GoBase64 GoStrings.

(** ** UTF-8 *)

Definition cont (lo hi : Z) (s : string) (i : nat) : bool :=
  match String.get i s with
  | Some c => (lo <=? ord c) && (ord c <=? hi)
  | None => false
  end.

Definition nth_byte (s : string) (i : nat) : Z :=
  match String.get i s with Some c => ord c | None => 0 end.

Definition RuneError : Z := 65533.

(** [utf8.DecodeRuneInString] on a non-empty string: the rune and its size. *)
Definition DecodeRune (s : string) : Z * nat :=
  let b0 := nth_byte s 0 in
  let tail n := nth_byte s n mod 64 in
  if b0 <? 128 then (b0, 1%nat)
  else if (194 <=? b0) && (b0 <=? 223) && cont 128 191 s 1 then
    (b0 mod 32 * 64 + tail 1%nat, 2%nat)
  else if (224 <=? b0) && (b0 <=? 239)
       && cont (if b0 =? 224 then 160 else 128) (if b0 =? 237 then 159 else 191) s 1
       && cont 128 191 s 2 then
    (b0 mod 16 * 4096 + tail 1%nat * 64 + tail 2%nat, 3%nat)
  else if (240 <=? b0) && (b0 <=? 244)
       && cont (if b0 =? 240 then 144 else 128) (if b0 =? 244 then 143 else 191) s 1
       && cont 128 191 s 2 && cont 128 191 s 3 then
    (b0 mod 8 * 262144 + tail 1%nat * 4096 + tail 2%nat * 64 + tail 3%nat, 4%nat)
  else (RuneError, 1%nat).

(** ** Values and the printer *)

#[warnings="-register-all"]
Inductive json :=
  | JNull
  | JBool (b : bool)
  | JNum (literal : string)
  | JStr (s : string)
  | JArr (items : list json)
  | JObj (fields : list (string * json)).

Definition backslash : ascii := byte 92.
Definition quote : ascii := byte 34.

Definition hex4 (n : Z) : string :=
  let d k := let v := n / k mod 16 in if v <? 10 then byte (48 + v) else byte (87 + v) in
  String (d 4096) (String (d 256) (String (d 16) (String (d 1) ""))).

(** A backslash-u escape. *)
Definition u_escape (n : Z) : string := String backslash (String "u"%char (hex4 n)).

(** The escape of one ASCII byte; with [html] (the default of [json.Marshal], off after
    [SetEscapeHTML(false)]) [<], [>] and [&] are escaped too. *)
Definition escape_ascii (html : bool) (c : ascii) : string :=
  let n := ord c in
  if (n =? 34) || (n =? 92) then String backslash (String c "")
  else if n =? 8 then String backslash "b"
  else if n =? 12 then String backslash "f"
  else if n =? 10 then String backslash "n"
  else if n =? 13 then String backslash "r"
  else if n =? 9 then String backslash "t"
  else if (n <? 32) || (html && ((n =? 60) || (n =? 62) || (n =? 38))) then u_escape n
  else String c "".

(** [skip] bytes of a multi-byte rune remain, copied or dropped. *)
Fixpoint escape_string (html : bool) (skip : nat) (copy : bool) (s : string) : string :=
  match s with
  | EmptyString => ""
  | String c s' =>
      match skip with
      | S n => (if copy then String c "" else "") +:+ escape_string html n copy s'
      | O =>
          if ord c <? 128 then escape_ascii html c +:+ escape_string html O true s'
          else
            let '(r, size) := DecodeRune s in
            if (size =? 1)%nat then u_escape RuneError +:+ escape_string html O true s'
            else if (r =? 8232) || (r =? 8233) then
              u_escape r +:+ escape_string html (size - 1) false s'
            else String c (escape_string html (size - 1) true s')
      end
  end.

Definition quoted (html : bool) (s : string) : string :=
  String quote (escape_string html O true s +:+ String quote "").

Fixpoint join (sep : string) (l : list string) : string :=
  match l with
  | [] => ""
  | [x] => x
  | x :: l' => x +:+ sep +:+ join sep l'
  end.

Fixpoint print_with (html : bool) (j : json) : string :=
  match j with
  | JNull => "null"
  | JBool b => if b then "true" else "false"
  | JNum n => n
  | JStr s => quoted html s
  | JArr l => "[" +:+ join "," (map (print_with html) l) +:+ "]"
  | JObj l =>
      "{" +:+ join "," (map (λ f, quoted html f.1 +:+ ":" +:+ print_with html f.2) l) +:+ "}"
  end.

(** [json.Marshal]. *)
Definition print (j : json) : string := print_with true j.

Definition JInt (z : Z) : json := JNum (pretty z).

(** ** Times *)

(** Year, month and day of a day count since January 1, year 1. *)
Definition civil (days : Z) : Z * Z * Z :=
  let z := days + 306 in             (* days since March 1, year 0 *)
  let era := z / 146097 in
  let doe := z mod 146097 in
  let yoe := (doe - doe / 1460 + doe / 36524 - doe / 146096) / 365 in
  let doy := doe - (365 * yoe + yoe / 4 - yoe / 100) in
  let mp := (5 * doy + 2) / 153 in
  let d := doy - (153 * mp + 2) / 5 + 1 in
  let m := if mp <? 10 then mp + 3 else mp - 9 in
  (yoe + era * 400 + (if m <=? 2 then 1 else 0), m, d).

Fixpoint zero_pad (width : nat) (n : Z) : string :=
  match width with
  | O => ""
  | S w => zero_pad w (n / 10) +:+ String (byte (48 + n mod 10)) ""
  end.

(** The fraction of a second without trailing zeros, with its point. *)
Fixpoint trim_fraction (width : nat) (n : Z) : string :=
  match width with
  | O => ""
  | S w => if n =? 0 then "" else if n mod 10 =? 0 then trim_fraction w (n / 10)
           else "." +:+ zero_pad width n
  end.

Definition year_of (t : time) : Z := (civil (t / (24 * Hour))).1.1.

(** [Time.MarshalJSON] of a UTC time: RFC 3339 with nanoseconds; a year outside
    [0, 9999] is an error. *)
Definition format_time (t : time) : option string :=
  let secs := t / Second in
  let '(y, m, d) := civil (secs / 86400) in
  let sod := secs mod 86400 in
  if (y <? 0) || (y >? 9999) then None
  else Some (zero_pad 4 y +:+ "-" +:+ zero_pad 2 m +:+ "-" +:+ zero_pad 2 d +:+ "T" +:+
    zero_pad 2 (sod / 3600) +:+ ":" +:+ zero_pad 2 (sod / 60 mod 60) +:+ ":" +:+
    zero_pad 2 (sod mod 60) +:+ trim_fraction 9 (t mod Second) +:+ "Z").

Definition JTime (t : time) : option json := JStr <$> format_time t.

(** ** Strict decoding *)

Class JsonDecode (T : Type) := json_Decode : string → result (T * string).

(** A second [Decode] into an [any]: [None] is [io.EOF]. *)
Class JsonSyntax := json_Next : string → option (result unit).

(** One value, then the end of the input.  The packages differ in how they report
    ill-formed trailing data ([trailing]) and a second value ([multiple]). *)
Definition decode_one {T} `{JsonDecode T} `{JsonSyntax}
    (trailing : error → error) (multiple : error) (data : string) : result T :=
  '(v, rest) ← json_Decode data;
  match json_Next rest with
  | None => Ok v
  | Some (Err e) => Err (trailing e)
  | Some (Ok _) => Err multiple
  end.

(** ** Tests *)

Example print_escapes : print (JStr "a<b&c") =
  String quote ("a" +:+ u_escape 60 +:+ "b" +:+ u_escape 38 +:+ "c" +:+ String quote "").
Proof. by vm_compute. Qed.

Example format_unix_epoch : format_time unix_epoch = Some "1970-01-01T00:00:00Z".
Proof. by vm_compute. Qed.

Example format_leap_day :
  format_time (unix_epoch + 1709210096 * Second + 120000000) = Some "2024-02-29T12:34:56.12Z".
Proof. by vm_compute. Qed.

Example format_year_one : format_time zero_time = Some "0001-01-01T00:00:00Z".
Proof. by vm_compute. Qed.

(** ** Printed numbers *)

Lemma pretty_N_go_digits x s : all_bytes digit s = true → all_bytes digit (pretty_N_go x s) = true.
Proof.
  revert s. induction (N.lt_wf_0 x) as [x _ IH]. intros s Hs.
  destruct (decide (0 < x)%N) as [Hx|Hx].
  - rewrite pretty_N_go_step by done. apply IH; [by apply N.div_lt|]. cbn [all_bytes]. rewrite Hs, andb_true_r.
    unfold pretty_N_char. by repeat case_match.
  - assert (x = 0)%N as -> by lia. by rewrite pretty_N_go_0.
Qed.

Lemma pretty_N_digits (n : N) : all_bytes digit (pretty n) = true.
Proof. unfold pretty, pretty_N. case_decide; [done|]. by apply pretty_N_go_digits. Qed.

Lemma pretty_Z_chars (z : Z) : all_bytes (λ c, digit c || one_of "-" c) (pretty z) = true.
Proof.
  assert (∀ n : N, all_bytes (λ c, digit c || one_of "-" c) (pretty n) = true) as Hn.
  { intros n. eapply all_bytes_impl, pretty_N_digits. by intros c ->. }
  unfold pretty, pretty_Z. destruct z as [|p|p]; [done|apply Hn|].
  rewrite all_bytes_app. exact (Hn (N.pos p)).
Qed.
