(* ===== verification/GoUnicode.v ===== *)
(** * [unicode], [unicode/utf8] and the rune functions of [strings]

    Strings as sequences of runes.  An invalid byte decodes to [RuneError] with
    size 1, as in a [range] loop over a Go string. *)

From S2P Require Import Prelude GoRegexp GoBase64 GoStrings GoJson.

(** [unicode.IsSpace]. *)
Definition IsSpace (r : Z) : bool :=
  ((9 <=? r) && (r <=? 13)) || (r =? 32) || (r =? 133) || (r =? 160) || (r =? 5760)
  || ((8192 <=? r) && (r <=? 8202)) || (r =? 8232) || (r =? 8233) || (r =? 8239) || (r =? 8287)
  || (r =? 12288).

(** [strings.TrimLeftFunc(s, unicode.IsSpace)]; [fuel] bounds the runes. *)
Fixpoint trim_left (fuel : nat) (s : string) : string :=
  match fuel, s with
  | S fuel', String _ _ =>
      let '(r, size) := DecodeRune s in
      if IsSpace r then trim_left fuel' (str_drop size s) else s
  | _, _ => s
  end.
Definition TrimLeft (s : string) : string := trim_left (String.length s) s.

(** Drops trailing white space: keeps runes up to where only white space remains. *)
Fixpoint trim_right (fuel : nat) (s : string) : string :=
  match fuel, s with
  | S fuel', String _ _ =>
      if bool_decide (TrimLeft s = "") then ""
      else let '(_, size) := DecodeRune s in str_take size s +:+ trim_right fuel' (str_drop size s)
  | _, _ => s
  end.
Definition TrimSpace (s : string) : string := let s := TrimLeft s in trim_right (String.length s) s.

(** [strings.ToLower] up to runes outside ASCII: U+0130 and U+212A are the only ones whose
    lower case is an ASCII letter; every other one has a lower case outside ASCII, which
    like the rune itself is not a token character. *)
Fixpoint lower_runes (fuel : nat) (s : string) : string :=
  match fuel, s with
  | S fuel', String c s' =>
      if ord c <? 128 then String (to_lower_ascii c) (lower_runes fuel' s')
      else
        let '(r, size) := DecodeRune s in
        (if r =? 304 then "i" else if r =? 8490 then "k" else str_take size s)
          +:+ lower_runes fuel' (str_drop size s)
  | _, _ => s
  end.
Definition RuneToLower (s : string) : string := lower_runes (String.length s) s.

(** ** Sequences of runes *)

(** The runes of a string with the bytes they were decoded from. *)
Fixpoint rune_list (fuel : nat) (s : string) : list (Z * string) :=
  match fuel, s with
  | S fuel', String _ _ =>
      let '(r, size) := DecodeRune s in (r, str_take size s) :: rune_list fuel' (str_drop size s)
  | _, _ => []
  end.
Definition runes (s : string) : list (Z * string) := rune_list (String.length s) s.

(** [utf8.ValidString] and [utf8.RuneCountInString]. *)
Definition valid_rune (r : Z * string) : bool := negb ((r.1 =? RuneError) && (len r.2 =? 1)).
Definition ValidString (s : string) : bool := forallb valid_rune (runes s).
Definition RuneCountInString (s : string) : Z := llen (runes s).

(** [unicode.IsControl]: the control characters of Latin-1. *)
Definition IsControl (r : Z) : bool := ((0 <=? r) && (r <=? 31)) || ((127 <=? r) && (r <=? 159)).

(** [strings.IndexFunc(s, f) >= 0]. *)
Definition ContainsFunc (s : string) (f : Z → bool) : bool := existsb (λ r, f r.1) (runes s).

(** ** Runes cover the string *)

Lemma DecodeRune_size s : (1 ≤ (DecodeRune s).2)%nat.
Proof. unfold DecodeRune. repeat case_match; simpl; lia. Qed.

Definition concat_runes (l : list (Z * string)) : string := foldr (λ r s, r.2 +:+ s) "" l.

Lemma rune_list_concat fuel s :
  (String.length s ≤ fuel)%nat → concat_runes (rune_list fuel s) = s.
Proof.
  revert s. induction fuel as [|fuel IH]; intros s Hf; [by destruct s; simpl in *; [|lia]|].
  destruct s as [|c s]; [done|]. cbn [rune_list].
  pose proof (DecodeRune_size (String c s)) as Hs.
  destruct (DecodeRune (String c s)) as [r size]. simpl in Hs. cbn [concat_runes foldr snd].
  fold (concat_runes (rune_list fuel (str_drop size (String c s)))). rewrite IH; [apply str_take_drop|].
  rewrite str_drop_length. simpl in *. lia.
Qed.

Lemma runes_concat s : concat_runes (runes s) = s.
Proof. by apply rune_list_concat. Qed.

(** [strings.EqualFold(s, t)] for an ASCII [t]: the simple folding orbits of the
    letters [k] and [s] also hold U+212A and U+017F. *)
Definition fold_ascii (r : Z) : Z :=
  if (65 <=? r) && (r <=? 90) then r + 32
  else if r =? 8490 then 107 else if r =? 383 then 115 else r.

Definition EqualFoldASCII (s t : string) : bool :=
  bool_decide ((λ r, fold_ascii r.1) <$> runes s = (λ r, fold_ascii r.1) <$> runes t).
