(* ===== verification/GoMime.v ===== *)
(** * [mime.ParseMediaType]

    The parser of Content-Type headers the HTTP client and handlers use: the lower-case
    media type, or an error for a malformed type or parameter. *)

From S2P Require Import Prelude GoRegexp GoBase64 GoStrings GoJson GoUnicode.

Definition isTSpecial (c : ascii) : bool :=
  one_of "()<>@,;:/[]?=" c || (ord c =? 34) || (ord c =? 92).
Definition isTokenChar (c : ascii) : bool := (32 <? ord c) && (ord c <? 127) && negb (isTSpecial c).

(** The longest prefix of token characters, and the rest. *)
Fixpoint consumeToken (v : string) : string * string :=
  match v with
  | String c v' =>
      if isTokenChar c then let '(t, rest) := consumeToken v' in (String c t, rest) else ("", v)
  | EmptyString => ("", "")
  end.

(** The inside of a quoted string; [None] if it is not closed or has a line break. *)
Fixpoint consumeQuoted (v : string) : option (string * string) :=
  match v with
  | EmptyString => None
  | String c v' =>
      if ord c =? 34 then Some ("", v')
      else if (ord c =? 13) || (ord c =? 10) then None
      else
        match v' with
        | String d v'' =>
            if (ord c =? 92) && isTSpecial d then
              '(s, rest) ← consumeQuoted v''; Some (String d s, rest)
            else '(s, rest) ← consumeQuoted v'; Some (String c s, rest)
        | EmptyString => None
        end
  end.

Definition consumeValue (v : string) : string * string :=
  match v with
  | String c v' =>
      if ord c =? 34 then match consumeQuoted v' with Some r => r | None => ("", v) end
      else consumeToken v
  | EmptyString => ("", "")
  end.

(** [None] stands for the empty key, with the input left over. *)
Definition consumeMediaParam (v : string) : option (string * string * string) :=
  let rest := TrimLeft v in
  if negb (HasPrefix rest ";") then None
  else
    let '(param, rest) := consumeToken (TrimLeft (str_drop 1 rest)) in
    if bool_decide (param = "") then None
    else
      let rest := TrimLeft rest in
      if negb (HasPrefix rest "=") then None
      else
        let rest := TrimLeft (str_drop 1 rest) in
        let '(value, rest2) := consumeValue rest in
        if bool_decide (value = "") && bool_decide (rest2 = rest) then None
        else Some (RuneToLower param, value, rest2).

(** The loop over the parameters: whether they are well formed. *)
Fixpoint parseParams (fuel : nat) (params : gmap string string) (v : string) : bool :=
  match fuel with
  | O => true
  | S fuel' =>
      let v := TrimLeft v in
      if bool_decide (v = "") then true
      else
        match consumeMediaParam v with
        | None => bool_decide (TrimSpace v = ";")
        | Some (key, value, rest) =>
            match params !! key with
            | Some old => bool_decide (old = value) && parseParams fuel' params rest
            | None => parseParams fuel' (<[key := value]> params) rest
            end
        end
  end.

Definition checkMediaType (s : string) : bool :=
  let '(typ, rest) := consumeToken s in
  if bool_decide (typ = "") then false
  else if bool_decide (rest = "") then true
  else if negb (HasPrefix rest "/") then false
  else
    let '(subtype, rest) := consumeToken (str_drop 1 rest) in
    negb (bool_decide (subtype = "")) && bool_decide (rest = "").

(** The media type, or [None] for any error. *)
Definition ParseMediaType (v : string) : option string :=
  let '(base, _, _) := Cut v ";"%char in
  let mediatype := TrimSpace (RuneToLower base) in
  if checkMediaType mediatype
     && parseParams (S (String.length v)) ∅ (str_drop (String.length base) v)
  then Some mediatype else None.

(** ** Tests *)

Example media_type_plain : ParseMediaType "Application/JSON" = Some "application/json".
Proof. by vm_compute. Qed.
Example media_type_charset : ParseMediaType "application/json; charset=utf-8" = Some "application/json".
Proof. by vm_compute. Qed.
Example media_type_trailing : ParseMediaType "application/json ;" = Some "application/json".
Proof. by vm_compute. Qed.
Example media_type_duplicate : ParseMediaType "application/json; a=1; a=2" = None.
Proof. by vm_compute. Qed.
Example media_type_empty : ParseMediaType "" = None.
Proof. by vm_compute. Qed.
