(* ===== verification/GoHttp.v ===== *)
(** * [net/http] requests and responses

    What the handlers read of a request and write to a response. *)

From S2P Require Import Prelude GoRegexp GoStrings GoJson.

Record Request := mkRequest {
  rq_Method : string;
  rq_Path : string;           (* URL.Path *)
  rq_EscapedPath : string;    (* URL.EscapedPath() *)
  rq_Authorization : string;  (* Header.Get: "" when absent *)
  rq_ContentType : string;
  rq_Body : Reader
}.

(** [hr_Header] lists the header fields in the order in which they were set. *)
Record HttpResponse := mkHttpResponse {
  hr_Status : Z;
  hr_Header : list (string * string);
  hr_Body : string
}.

Definition MethodGet : string := "GET".
Definition MethodHead : string := "HEAD".
Definition MethodPost : string := "POST".

Definition StatusOK : Z := 200.
Definition StatusCreated : Z := 201.
Definition StatusMovedPermanently : Z := 301.
Definition StatusBadRequest : Z := 400.
Definition StatusUnauthorized : Z := 401.
Definition StatusNotFound : Z := 404.
Definition StatusMethodNotAllowed : Z := 405.
Definition StatusConflict : Z := 409.
Definition StatusRequestEntityTooLarge : Z := 413.
Definition StatusUnsupportedMediaType : Z := 415.
Definition StatusInternalServerError : Z := 500.
Definition StatusServiceUnavailable : Z := 503.

Definition newline : string := String (byte 10) "".

(** [json.NewEncoder(writer).Encode(value)]: nothing when the value cannot be
    encoded ([None]). *)
Definition encode_line (j : option json) : string :=
  match j with Some j => print j +:+ newline | None => "" end.

(** The optional fields of an object: [omitempty]. *)
Definition field_opt (name : string) (o : option json) : list (string * json) :=
  match o with Some j => [(name, j)] | None => [] end.

(** [json.Decoder] on a body: whether the two calls of [Decode] into a [T] and an [any]
    read beyond the bytes given. *)
Class JsonStream (T : Type) := json_NeedsMore : string → bool.
#[global] Arguments json_NeedsMore T {_} _.

Inductive body_error := MaxBytesError | OtherBodyError.

(** A strict decoder of one value behind [http.MaxBytesReader(writer, body, limit)].
    Success needs the end of the stream, so that a longer body never decodes. *)
Definition decode_limited {T} `{JsonDecode T} `{JsonSyntax} `{JsonStream T} (limit : Z) (body : Reader)
    : body_error + T :=
  if limit <? len (reader_content body) then
    inl (if json_NeedsMore T (str_take (Z.to_nat limit) (reader_content body))
         then MaxBytesError else OtherBodyError)
  else
    match reader_failure body with
    | Some _ => inl OtherBodyError
    | None =>
        match decode_one id (NewError "multiple JSON values") (reader_content body) with
        | Ok v => inr v
        | Err _ => inl OtherBodyError
        end
    end.

Lemma decode_limited_bound {T} `{JsonDecode T} `{JsonSyntax} `{JsonStream T} limit body (v : T) :
  decode_limited limit body = inr v → len (reader_content body) <= limit ∧ reader_failure body = None.
Proof.
  unfold decode_limited. destruct (Z.ltb_spec limit (len (reader_content body))); [done|].
  destruct (reader_failure body); [done|]. split; [lia|done].
Qed.
