(* ===== verification/GoJsonScan.v ===== *)
(** * The scanner of [encoding/json]

    [json.Decoder.Decode] first finds the end of the next value and checks its syntax,
    then stores it.  This file models the first part: a value as a tree in which numbers
    and strings are still the bytes of the input, what remains after it, and the two ways
    not to find one: a byte that cannot follow ([Syntax]), or input that ends too early
    ([More]).  [unquote] turns the bytes of a string literal into the string.

    The result: the scanner reads back what the printer of [GoJson] writes. *)

From stdpp Require Import pretty.
From S2P Require Import Prelude GoRegexp GoBase64 GoStrings GoJson GoNet GoUnicode.

#[warnings="-register-all"]
Inductive tree :=
  | TNull
  | TBool (b : bool)
  | TNum (literal : string)
  | TStr (raw : string)                       (* the bytes between the quotes *)
  | TArr (items : list tree)
  | TObj (fields : list (string * tree)).     (* keys as raw bytes, in order, repetitions kept *)

Inductive scan (A : Type) := Value (a : A) (rest : string) | Syntax | More.
Arguments Value {A} _ _.
Arguments Syntax {A}.
Arguments More {A}.

Definition sbind {A B} (m : scan A) (f : A → string → scan B) : scan B :=
  match m with Value a rest => f a rest | Syntax => Syntax | More => More end.

Definition keep (c : ascii) (m : scan string) : scan string :=
  sbind m (λ a rest, Value (String c a) rest).

(** ** White space, words, strings and numbers *)

Definition space (c : ascii) : bool := (ord c =? 32) || (ord c =? 9) || (ord c =? 10) || (ord c =? 13).

Fixpoint skip_space (s : string) : string :=
  match s with
  | String c s' => if space c then skip_space s' else s
  | EmptyString => ""
  end.

Fixpoint scan_word {A} (a : A) (word s : string) : scan A :=
  match word, s with
  | EmptyString, _ => Value a s
  | String _ _, EmptyString => More
  | String c word', String d s' => if Ascii.eqb c d then scan_word a word' s' else Syntax
  end.

(** Inside a string: plain, after a backslash, or with hexadecimal digits to come. *)
Inductive in_string := Plain | Escaped | Digits (n : nat).

Definition simple_escape (c : ascii) : bool := one_of "bfnrt/" c || (ord c =? 34) || (ord c =? 92).

Fixpoint scan_string (state : in_string) (s : string) : scan string :=
  match s with
  | EmptyString => More
  | String c s' =>
      match state with
      | Plain =>
          if ord c =? 34 then Value "" s'
          else if ord c =? 92 then keep c (scan_string Escaped s')
          else if ord c <? 32 then Syntax
          else keep c (scan_string Plain s')
      | Escaped =>
          if simple_escape c then keep c (scan_string Plain s')
          else if Ascii.eqb c "u" then keep c (scan_string (Digits 3) s')
          else Syntax
      | Digits n =>
          if is_hex c then keep c (scan_string (match n with O => Plain | S m => Digits m end) s')
          else Syntax
      end
  end.

Fixpoint span_digits (s : string) : string * string :=
  match s with
  | String c s' => if digit c then let '(d, r) := span_digits s' in (String c d, r) else ("", s)
  | EmptyString => ("", "")
  end.

(** One digit or more. *)
Definition scan_digits (s : string) : scan string :=
  match s with
  | EmptyString => More
  | String c _ => if digit c then let '(d, r) := span_digits s in Value d r else Syntax
  end.

Definition scan_integer (s : string) : scan string :=
  match s with
  | String c s' => if Ascii.eqb c "0" then Value "0" s' else scan_digits s
  | EmptyString => More
  end.

Definition scan_fraction (s : string) : scan string :=
  match s with
  | String c s' => if Ascii.eqb c "." then keep c (scan_digits s') else Value "" s
  | EmptyString => Value "" ""
  end.

Definition scan_exponent (s : string) : scan string :=
  match s with
  | String c s' =>
      if one_of "eE" c then
        keep c (match s' with
                | String g s'' => if one_of "+-" g then keep g (scan_digits s'') else scan_digits s'
                | EmptyString => More
                end)
      else Value "" s
  | EmptyString => Value "" ""
  end.

Definition scan_unsigned (s : string) : scan string :=
  sbind (scan_integer s) (λ i s1,
  sbind (scan_fraction s1) (λ f s2,
  sbind (scan_exponent s2) (λ e s3, Value (i +:+ f +:+ e) s3))).

Definition scan_number (s : string) : scan string :=
  match s with
  | String c s' => if Ascii.eqb c "-" then keep c (scan_unsigned s') else scan_unsigned s
  | EmptyString => More
  end.

(** ** Values *)

(** [maxNestingDepth]. *)
Definition maxNestingDepth : Z := 10000.

(** The input after white space and the byte [c], if that comes next. *)
Definition closes (c : ascii) (s : string) : option string :=
  match skip_space s with
  | String d rest => if Ascii.eqb d c then Some rest else None
  | EmptyString => None
  end.

(** [fuel] bounds the calls, [depth] the containers that may still be opened. *)
Fixpoint scan_value (fuel : nat) (depth : Z) (s : string) : scan tree :=
  match fuel with
  | O => More
  | S fuel =>
      match skip_space s with
      | EmptyString => More
      | String c s1 =>
          if Ascii.eqb c "{" then
            if depth <=? 0 then Syntax
            else match closes "}" s1 with
                 | Some rest => Value (TObj []) rest
                 | None => sbind (scan_fields fuel (depth - 1) s1) (λ l, Value (TObj l))
                 end
          else if Ascii.eqb c "[" then
            if depth <=? 0 then Syntax
            else match closes "]" s1 with
                 | Some rest => Value (TArr []) rest
                 | None => sbind (scan_items fuel (depth - 1) s1) (λ l, Value (TArr l))
                 end
          else if ord c =? 34 then sbind (scan_string Plain s1) (λ raw, Value (TStr raw))
          else if Ascii.eqb c "-" || digit c then sbind (scan_number (String c s1)) (λ n, Value (TNum n))
          else if Ascii.eqb c "t" then scan_word (TBool true) "rue" s1
          else if Ascii.eqb c "f" then scan_word (TBool false) "alse" s1
          else if Ascii.eqb c "n" then scan_word TNull "ull" s1
          else Syntax
      end
  end
with scan_items (fuel : nat) (depth : Z) (s : string) : scan (list tree) :=
  match fuel with
  | O => More
  | S fuel =>
      sbind (scan_value fuel depth s) (λ v s1,
        match skip_space s1 with
        | EmptyString => More
        | String d s2 =>
            if Ascii.eqb d "," then sbind (scan_items fuel depth s2) (λ l, Value (v :: l))
            else if Ascii.eqb d "]" then Value [v] s2
            else Syntax
        end)
  end
with scan_fields (fuel : nat) (depth : Z) (s : string) : scan (list (string * tree)) :=
  match fuel with
  | O => More
  | S fuel =>
      match skip_space s with
      | EmptyString => More
      | String c s1 =>
          if ord c =? 34 then
            sbind (scan_string Plain s1) (λ key s2,
              match skip_space s2 with
              | EmptyString => More
              | String colon s3 =>
                  if Ascii.eqb colon ":" then
                    sbind (scan_value fuel depth s3) (λ v s4,
                      match skip_space s4 with
                      | EmptyString => More
                      | String d s5 =>
                          if Ascii.eqb d "," then sbind (scan_fields fuel depth s5) (λ l, Value ((key, v) :: l))
                          else if Ascii.eqb d "}" then Value [(key, v)] s5
                          else Syntax
                      end)
                  else Syntax
              end)
          else Syntax
      end
  end.

(** The next value of the input. *)
Definition next_value (s : string) : scan tree :=
  scan_value (2 * String.length s + 2) maxNestingDepth s.

(** ** Strings *)

(** [utf8.AppendRune] of a valid rune. *)
Definition EncodeRune (r : Z) : string :=
  if r <? 128 then String (byte r) ""
  else if r <? 2048 then String (byte (192 + r / 64)) (String (byte (128 + r mod 64)) "")
  else if r <? 65536 then
    String (byte (224 + r / 4096)) (String (byte (128 + r / 64 mod 64)) (String (byte (128 + r mod 64)) ""))
  else
    String (byte (240 + r / 262144)) (String (byte (128 + r / 4096 mod 64))
      (String (byte (128 + r / 64 mod 64)) (String (byte (128 + r mod 64)) ""))).

(** [getu4] of the digits after a backslash and [u]. *)
Fixpoint hex_number (acc : Z) (s : string) : Z :=
  match s with
  | EmptyString => acc
  | String c s' => hex_number (acc * 16 + default 0 (hex_value c)) s'
  end.

Definition is_surrogate (r : Z) : bool := (55296 <=? r) && (r <=? 57343).

(** A second escape at the start of [s] that completes the surrogate [r]. *)
Definition surrogate_pair (r : Z) (s : string) : option Z :=
  if HasPrefix s (String backslash "u") then
    let r1 := hex_number 0 (str_take 4 (str_drop 2 s)) in
    if (r <=? 56319) && (56320 <=? r1) && (r1 <=? 57343)
    then Some ((r - 55296) * 1024 + (r1 - 56320) + 65536) else None
  else None.

(** What a backslash and the character stand for. *)
Definition escaped_char (c : ascii) : ascii :=
  if Ascii.eqb c "b" then byte 8 else if Ascii.eqb c "f" then byte 12
  else if Ascii.eqb c "n" then byte 10 else if Ascii.eqb c "r" then byte 13
  else if Ascii.eqb c "t" then byte 9 else c.

(** [unquoteBytes] on the bytes between the quotes of a scanned literal. *)
Fixpoint unquote_go (fuel : nat) (raw : string) : string :=
  match fuel, raw with
  | S fuel, String c s1 =>
      if ord c =? 92 then
        match s1 with
        | String e s2 =>
            if Ascii.eqb e "u" then
              let r := hex_number 0 (str_take 4 s2) in
              let s3 := str_drop 4 s2 in
              if is_surrogate r then
                match surrogate_pair r s3 with
                | Some d => EncodeRune d +:+ unquote_go fuel (str_drop 6 s3)
                | None => EncodeRune RuneError +:+ unquote_go fuel s3
                end
              else EncodeRune r +:+ unquote_go fuel s3
            else if simple_escape e then String (escaped_char e) (unquote_go fuel s2)
            else ""
        | EmptyString => ""
        end
      else if ord c <? 128 then String c (unquote_go fuel s1)
      else let '(r, size) := DecodeRune raw in EncodeRune r +:+ unquote_go fuel (str_drop size raw)
  | _, _ => ""
  end.
Definition unquote (raw : string) : string := unquote_go (String.length raw) raw.

(** ** Tests *)

Definition literal_of (s : string) : string := String quote (s +:+ String quote "").

Example scan_object : next_value (" { " +:+ literal_of "a" +:+ " : [1, -2.5e+3,true] } x") =
  Value (TObj [("a", TArr [TNum "1"; TNum "-2.5e+3"; TBool true])]) " x".
Proof. by vm_compute. Qed.

Example scan_errors : next_value "[1,]" = Syntax ∧ next_value "[01]" = Syntax ∧ next_value "[1" = More ∧
  next_value "nul" = More ∧ next_value "nil" = Syntax ∧ next_value "{}]" = Value (TObj []) "]".
Proof. by vm_compute. Qed.

Example unquote_escapes :
  unquote (String backslash "u0041" +:+ String backslash "n" +:+ u_escape 55357 +:+ u_escape 56832) =
  String "A" (String (byte 10) (EncodeRune 128512)) ∧
  unquote (u_escape 55357 +:+ "x") = EncodeRune RuneError +:+ "x".
Proof. by vm_compute. Qed.

(** ** Escaped strings

    The printer escapes a string rune by rune. *)

Definition escape_rune (html : bool) (p : Z * string) : string :=
  match p.2 with
  | String c _ =>
      if ord c <? 128 then escape_ascii html c
      else if negb (valid_rune p) then u_escape RuneError
      else if (p.1 =? 8232) || (p.1 =? 8233) then u_escape p.1 else p.2
  | EmptyString => ""
  end.

Definition escape_runes (html : bool) (l : list (Z * string)) : string :=
  foldr (λ p s, escape_rune html p +:+ s) "" l.

Lemma escape_runes_cons html p l : escape_runes html (p :: l) = escape_rune html p +:+ escape_runes html l.
Proof. done. Qed.

Lemma escape_string_copy html n s :
  escape_string html n true s = str_take n s +:+ escape_string html O true (str_drop n s).
Proof.
  revert n. induction s as [|c s IH]; intros [|n]; try done.
  cbn [escape_string str_take str_drop]. by rewrite IH, !str_app_cons, str_app_nil_l.
Qed.

Lemma escape_string_drop html n s :
  escape_string html n false s = escape_string html O true (str_drop n s).
Proof.
  revert n. induction s as [|c s IH]; intros [|n]; try done. cbn [escape_string str_drop]. by rewrite IH, str_app_nil_l.
Qed.

Lemma DecodeRune_fits c s : ((DecodeRune (String c s)).2 ≤ String.length (String c s))%nat.
Proof.
  assert (∀ lo hi u i, cont lo hi u i = true → (i < String.length u)%nat) as Hc.
  { intros lo hi u i. unfold cont. revert u. induction i as [|i IH]; intros [|d u]; cbn; try done; [lia|].
    intros Hi%IH. lia. }
  unfold DecodeRune. repeat case_match; cbn [snd]; rewrite ?andb_true_iff in *; destruct_and?;
    repeat match goal with Hi : cont _ _ _ _ = true |- _ => apply Hc in Hi end; cbn [String.length] in *; lia.
Qed.

Lemma DecodeRune_ascii c s : ord c < 128 → DecodeRune (String c s) = (ord c, 1%nat).
Proof. intros Hc. unfold DecodeRune. cbn. by destruct (Z.ltb_spec (ord c) 128); [|lia]. Qed.

Lemma rune_list_cons fuel c s : rune_list (S fuel) (String c s) =
  let '(r, size) := DecodeRune (String c s) in
  (r, str_take size (String c s)) :: rune_list fuel (str_drop size (String c s)).
Proof. done. Qed.

Lemma DecodeRune_one s r : DecodeRune s = (r, 1%nat) → 128 <= nth_byte s 0 → r = RuneError.
Proof.
  unfold DecodeRune. destruct (Z.ltb_spec (nth_byte s 0) 128); [lia|]. intros Hd _. revert Hd.
  repeat case_match; congruence.
Qed.

Lemma escape_string_runes html fuel s : (String.length s ≤ fuel)%nat →
  escape_string html O true s = escape_runes html (rune_list fuel s).
Proof.
  revert s. induction fuel as [|fuel IH]; intros [|c s] Hf; try (cbn in Hf; lia); [done..|].
  rewrite rune_list_cons. pose proof (DecodeRune_size (String c s)) as Hs.
  pose proof (DecodeRune_fits c s) as Hl.
  destruct (DecodeRune (String c s)) as [r size] eqn:E. cbn [fst snd] in *.
  destruct size as [|size]; [lia|]. rewrite escape_runes_cons, <-IH by
    (rewrite str_drop_length; cbn [String.length] in *; lia).
  cbn [escape_string str_take str_drop]. unfold escape_rune at 1. cbn [snd fst].
  destruct (Z.ltb_spec (ord c) 128) as [Hc|Hc].
  { rewrite DecodeRune_ascii in E by done. by injection E as <- <-. }
  rewrite E. unfold valid_rune. cbn [snd fst].
  assert (len (String c (str_take size s)) = Z.of_nat (S size)) as Hlen.
  { unfold len. cbn [String.length] in *. rewrite str_take_length. lia. }
  rewrite Hlen. destruct size as [|size].
  - cbn [Nat.eqb]. rewrite (DecodeRune_one _ _ E) by done. done.
  - cbn [Nat.eqb]. replace (Z.of_nat (S (S size)) =? 1) with false by (symmetry; apply Z.eqb_neq; lia).
    rewrite andb_false_r. cbn [negb]. replace (S (S size) - 1)%nat with (S size) by lia.
    destruct (_ || _); [by rewrite escape_string_drop|]. by rewrite escape_string_copy, str_app_cons.
Qed.

(** *** Pieces of a literal *)

(** The scanner passes over the piece inside a string. *)
Definition passes (p : string) : Prop := ∀ t,
  scan_string Plain (p +:+ t) = sbind (scan_string Plain t) (λ a r, Value (p +:+ a) r).

(** [unquote] reads the piece as [bytes]. *)
Definition reads (p bytes : string) : Prop := p ≠ "" ∧ ∀ fuel t,
  unquote_go (S fuel) (p +:+ t) = bytes +:+ unquote_go fuel t.

Lemma sbind_assoc {A B C} (m : scan A) (f : A → string → scan B) (g : B → string → scan C) :
  sbind (sbind m f) g = sbind m (λ a r, sbind (f a r) g).
Proof. by destruct m. Qed.

Lemma passes_app p q : passes p → passes q → passes (p +:+ q).
Proof.
  intros Hp Hq t. rewrite str_app_assoc, Hp, Hq, sbind_assoc. destruct (scan_string Plain t); cbn; try done.
  by rewrite str_app_assoc.
Qed.

Definition hex_char (v : Z) : ascii := if v <? 10 then byte (48 + v) else byte (87 + v).

Lemma hex_value_char v : 0 <= v < 16 → hex_value (hex_char v) = Some v.
Proof.
  intros Hv. assert (forallb (λ v, bool_decide (hex_value (hex_char v) = Some v)) (seqZ 0 16) = true) as Hall
    by (by vm_compute).
  eapply bool_decide_eq_true, (proj1 (forallb_forall _ _) Hall), list_elem_of_In, elem_of_seqZ. lia.
Qed.

Lemma is_hex_char v : is_hex (hex_char (v mod 16)) = true.
Proof. unfold is_hex. rewrite hex_value_char; [done|]. apply Z.mod_pos_bound. lia. Qed.

Lemma hex4_chars n : hex4 n = String (hex_char (n / 4096 mod 16)) (String (hex_char (n / 256 mod 16))
  (String (hex_char (n / 16 mod 16)) (String (hex_char (n / 1 mod 16)) ""))).
Proof. done. Qed.

Lemma hex4_number n : 0 <= n < 65536 → hex_number 0 (hex4 n) = n.
Proof.
  intros Hn. rewrite hex4_chars. cbn [hex_number]. rewrite !hex_value_char by (apply Z.mod_pos_bound; lia).
  cbn [default from_option id]. divlia.
Qed.

Lemma passes_u_escape n : passes (u_escape n).
Proof.
  intros t. unfold u_escape. rewrite hex4_chars, !str_app_cons, str_app_nil_l.
  cbn [scan_string]. change (ord backslash) with 92. cbn.
  cbn -[hex_char is_hex]. rewrite !is_hex_char. unfold keep. destruct (scan_string Plain t); done.
Qed.

Lemma reads_u_escape n : 0 <= n < 65536 → is_surrogate n = false → reads (u_escape n) (EncodeRune n).
Proof.
  intros Hn Hs. split; [done|]. intros fuel t. unfold u_escape. rewrite !str_app_cons.
  assert (str_take 4 (hex4 n +:+ t) = hex4 n ∧ str_drop 4 (hex4 n +:+ t) = t) as [Ht Hd].
  { rewrite hex4_chars, !str_app_cons, str_app_nil_l. cbn. split; [done|by destruct t]. }
  cbn [unquote_go]. change (ord backslash =? 92) with true. cbn [Ascii.eqb]. cbn iota.
  change (Ascii.eqb "u" "u") with true. cbn iota. by rewrite Ht, Hd, hex4_number, Hs.
Qed.

Lemma EncodeRune_ascii c : ord c < 128 → EncodeRune (ord c) = String c "".
Proof. intros Hc. unfold EncodeRune. destruct (Z.ltb_spec (ord c) 128); [|lia]. by rewrite byte_ord. Qed.

Lemma escape_ascii_piece html c : ord c < 128 →
  passes (escape_ascii html c) ∧ reads (escape_ascii html c) (String c "").
Proof.
  intros Hc. pose proof (ord_range c) as Hr.
  assert (passes (u_escape (ord c)) ∧ reads (u_escape (ord c)) (String c "")) as Hu.
  { split; [apply passes_u_escape|]. rewrite <-EncodeRune_ascii by done. apply reads_u_escape; [lia|].
    unfold is_surrogate. destruct (Z.leb_spec 55296 (ord c)); [lia|done]. }
  assert (∀ e, simple_escape e = true → Ascii.eqb e "u" = false → escaped_char e = c →
    passes (String backslash (String e "")) ∧ reads (String backslash (String e "")) (String c "")) as He.
  { intros e Hse Hne Hec. split; [|split; [done|]].
    - intros t. rewrite !str_app_cons, str_app_nil_l. cbn [scan_string]. change (ord backslash) with 92. cbn.
      rewrite Hse. unfold keep. by destruct (scan_string Plain t).
    - intros fuel t. rewrite !str_app_cons, !str_app_nil_l. cbn [unquote_go].
      change (ord backslash =? 92) with true. cbn iota. by rewrite Hne, Hse, Hec. }
  assert (∀ v, ord c = v → c = byte v) as Hb by (intros v <-; by rewrite byte_ord).
  unfold escape_ascii.
  destruct (Z.eqb_spec (ord c) 34) as [H34|H34]; [apply He; by rewrite (Hb _ H34)|].
  destruct (Z.eqb_spec (ord c) 92) as [H92|H92]; [apply He; by rewrite (Hb _ H92)|]. cbn [orb].
  destruct (Z.eqb_spec (ord c) 8) as [E|_]; [apply He; by rewrite ?(Hb _ E)|].
  destruct (Z.eqb_spec (ord c) 12) as [E|_]; [apply He; by rewrite ?(Hb _ E)|].
  destruct (Z.eqb_spec (ord c) 10) as [E|_]; [apply He; by rewrite ?(Hb _ E)|].
  destruct (Z.eqb_spec (ord c) 13) as [E|_]; [apply He; by rewrite ?(Hb _ E)|].
  destruct (Z.eqb_spec (ord c) 9) as [E|_]; [apply He; by rewrite ?(Hb _ E)|].
  destruct (Z.ltb_spec (ord c) 32) as [|H32]; [done|]. destruct (_ && _); [done|]. cbn [orb].
  split; [|split; [done|]].
  - intros t. rewrite str_app_cons, str_app_nil_l. cbn [scan_string].
    destruct (Z.eqb_spec (ord c) 34), (Z.eqb_spec (ord c) 92), (Z.ltb_spec (ord c) 32); try lia.
    unfold keep. by destruct (scan_string Plain t).
  - intros fuel t. rewrite str_app_cons, str_app_nil_l. cbn [unquote_go].
    destruct (Z.eqb_spec (ord c) 92), (Z.ltb_spec (ord c) 128); try lia. by rewrite str_app_cons, str_app_nil_l.
Qed.

(** *** Runes beyond ASCII *)

Lemma passes_high p : all_bytes (λ c, 128 <=? ord c) p = true → passes p.
Proof.
  induction p as [|c p IH]; intros Hp t.
  { rewrite str_app_nil_l. by destruct (scan_string Plain t). }
  cbn [all_bytes] in Hp. apply andb_true_iff in Hp as [Hc Hp]. apply Z.leb_le in Hc.
  rewrite str_app_cons. cbn [scan_string].
  destruct (Z.eqb_spec (ord c) 34), (Z.eqb_spec (ord c) 92), (Z.ltb_spec (ord c) 32); try lia.
  rewrite (IH Hp t). unfold keep. by destruct (scan_string Plain t).
Qed.

Lemma cont_spec lo hi s i : cont lo hi s i = true → ∃ c, String.get i s = Some c ∧ lo <= ord c <= hi.
Proof.
  unfold cont. destruct (String.get i s) as [c|]; [|done]. rewrite andb_true_iff, !Z.leb_le. eauto.
Qed.

(** The three shapes of a rune of several bytes, with the range of its second byte. *)
Definition second_byte (b0 b1 : Z) : Prop :=
  (if b0 =? 224 then 160 else if b0 =? 240 then 144 else 128) <= b1 <=
  (if b0 =? 237 then 159 else if b0 =? 244 then 143 else 191).

Inductive multi : string → Z → Prop :=
  | multi2 c0 c1 : 194 <= ord c0 <= 223 → 128 <= ord c1 <= 191 →
      multi (String c0 (String c1 "")) (ord c0 mod 32 * 64 + ord c1 mod 64)
  | multi3 c0 c1 c2 : 224 <= ord c0 <= 239 → second_byte (ord c0) (ord c1) → 128 <= ord c2 <= 191 →
      multi (String c0 (String c1 (String c2 "")))
        (ord c0 mod 16 * 4096 + ord c1 mod 64 * 64 + ord c2 mod 64)
  | multi4 c0 c1 c2 c3 : 240 <= ord c0 <= 244 → second_byte (ord c0) (ord c1) →
      128 <= ord c2 <= 191 → 128 <= ord c3 <= 191 →
      multi (String c0 (String c1 (String c2 (String c3 ""))))
        (ord c0 mod 8 * 262144 + ord c1 mod 64 * 4096 + ord c2 mod 64 * 64 + ord c3 mod 64).

Ltac invert_cont :=
  repeat match goal with
  | H : _ && _ = true |- _ => apply andb_true_iff in H as [? ?]
  | H : (_ <=? _) = true |- _ => apply Z.leb_le in H
  | H : cont _ _ _ _ = true |- _ => apply cont_spec in H as (? & ? & ?)
  end.

Ltac split_bytes s := destruct s as [|? s]; [discriminate|]; cbn [String.get] in *; simplify_eq.

Lemma DecodeRune_multi s r size : DecodeRune s = (r, size) → size ≠ 1%nat → multi (str_take size s) r.
Proof.
  unfold DecodeRune. intros Hd Hne. destruct (_ <? 128); [congruence|].
  destruct s as [|c0 s]; [cbn in Hd; congruence|]. change (nth_byte (String c0 s) 0) with (ord c0) in Hd.
  destruct (_ && cont 128 191 _ 1) eqn:E2.
  { injection Hd as <- <-. invert_cont. split_bytes s. cbn [str_take nth_byte String.get]. by constructor. }
  destruct (_ && cont 128 191 _ 2) eqn:E3.
  { injection Hd as <- <-. invert_cont. do 2 split_bytes s. cbn [str_take nth_byte String.get].
    constructor; [done| |done]. unfold second_byte. repeat case_match; lia. }
  destruct (_ && cont 128 191 _ 3) eqn:E4; [|congruence].
  injection Hd as <- <-. invert_cont. do 3 split_bytes s. cbn [str_take nth_byte String.get].
  constructor; [done| |done..]. unfold second_byte. repeat case_match; lia.
Qed.

Lemma multi_high p r : multi p r → all_bytes (λ c, 128 <=? ord c) p = true.
Proof.
  assert (∀ b0 b1, second_byte b0 b1 → 128 <= b1) as Hs.
  { intros b0 b1. unfold second_byte. repeat case_match; lia. }
  intros []; cbn [all_bytes]; rewrite !andb_true_iff, !Z.leb_le;
    repeat match goal with Hb : second_byte _ _ |- _ => apply Hs in Hb end; lia.
Qed.

Lemma multi_encode p r : multi p r → EncodeRune r = p.
Proof.
  intros Hm. unfold EncodeRune. destruct Hm as [c0 c1 H0 H1|c0 c1 c2 H0 H1 H2|c0 c1 c2 c3 H0 H1 H2 H3].
  - set (r := ord c0 mod 32 * 64 + ord c1 mod 64).
    assert (128 <= r < 2048 ∧ 192 + r / 64 = ord c0 ∧ 128 + r mod 64 = ord c1) as (Hr & E0 & E1)
      by (unfold r; divlia).
    destruct (Z.ltb_spec r 128), (Z.ltb_spec r 2048); try lia. by rewrite E0, E1, !byte_ord.
  - set (r := ord c0 mod 16 * 4096 + ord c1 mod 64 * 64 + ord c2 mod 64).
    assert (2048 <= r < 65536 ∧ 224 + r / 4096 = ord c0 ∧ 128 + r / 64 mod 64 = ord c1 ∧
      128 + r mod 64 = ord c2) as (Hr & E0 & E1 & E2).
    { unfold second_byte in H1. unfold r. repeat case_match; rewrite ?Z.eqb_eq, ?Z.eqb_neq in *; divlia. }
    destruct (Z.ltb_spec r 128), (Z.ltb_spec r 2048), (Z.ltb_spec r 65536); try lia.
    by rewrite E0, E1, E2, !byte_ord.
  - set (r := ord c0 mod 8 * 262144 + ord c1 mod 64 * 4096 + ord c2 mod 64 * 64 + ord c3 mod 64).
    assert (65536 <= r ∧ 240 + r / 262144 = ord c0 ∧ 128 + r / 4096 mod 64 = ord c1 ∧
      128 + r / 64 mod 64 = ord c2 ∧ 128 + r mod 64 = ord c3) as (Hr & E0 & E1 & E2 & E3).
    { unfold second_byte in H1. unfold r. repeat case_match; rewrite ?Z.eqb_eq, ?Z.eqb_neq in *; divlia. }
    destruct (Z.ltb_spec r 128), (Z.ltb_spec r 2048), (Z.ltb_spec r 65536); try lia.
    by rewrite E0, E1, E2, E3, !byte_ord.
Qed.

Ltac compute_leb :=
  repeat match goal with
  | |- context [?a <=? ?b] => first [rewrite (proj2 (Z.leb_le a b)) by lia | rewrite (proj2 (Z.leb_gt a b)) by lia]
  | |- context [?a <? ?b] => first [rewrite (proj2 (Z.ltb_lt a b)) by lia | rewrite (proj2 (Z.ltb_ge a b)) by lia]
  end.

Lemma multi_decode p r t : multi p r →
  ∃ size, DecodeRune (p +:+ t) = (r, size) ∧ str_drop size (p +:+ t) = t.
Proof.
  intros Hm. exists (String.length p).
  destruct Hm as [c0 c1 H0 H1|c0 c1 c2 H0 H1 H2|c0 c1 c2 c3 H0 H1 H2 H3];
    rewrite !str_app_cons, str_app_nil_l; (split; [|by destruct t]);
    unfold DecodeRune, cont, nth_byte; cbn [String.get String.length]; unfold second_byte in *.
  - by compute_leb.
  - destruct (Z.eqb_spec (ord c0) 224), (Z.eqb_spec (ord c0) 237), (Z.eqb_spec (ord c0) 240), (Z.eqb_spec (ord c0) 244); try lia; by compute_leb.
  - destruct (Z.eqb_spec (ord c0) 224), (Z.eqb_spec (ord c0) 237), (Z.eqb_spec (ord c0) 240), (Z.eqb_spec (ord c0) 244); try lia; by compute_leb.
Qed.

Lemma escape_rune_passes html fuel s p : p ∈ rune_list fuel s → passes (escape_rune html p).
Proof.
  revert s. induction fuel as [|fuel IH]; intros [|c s] Hp; try by apply elem_of_nil in Hp.
  rewrite rune_list_cons in Hp. destruct (DecodeRune (String c s)) as [r size] eqn:E.
  apply elem_of_cons in Hp as [->|Hp]; [|by eapply IH].
  pose proof (DecodeRune_size (String c s)) as Hs. rewrite E in Hs. cbn [snd] in Hs.
  destruct size as [|size]; [lia|]. unfold escape_rune. cbn [snd fst str_take].
  destruct (Z.ltb_spec (ord c) 128); [by apply escape_ascii_piece|].
  destruct (negb _) eqn:Hv; [apply passes_u_escape|]. destruct (_ || _); [apply passes_u_escape|].
  destruct (decide (S size = 1%nat)) as [[= ->]|Hne].
  - exfalso. rewrite (DecodeRune_one _ _ E) in Hv by done. done.
  - by eapply passes_high, multi_high, (DecodeRune_multi _ _ _ E).
Qed.

Lemma escape_rune_reads html fuel s p : p ∈ rune_list fuel s → valid_rune p = true →
  reads (escape_rune html p) p.2.
Proof.
  revert s. induction fuel as [|fuel IH]; intros [|c s] Hp; try by apply elem_of_nil in Hp.
  rewrite rune_list_cons in Hp. destruct (DecodeRune (String c s)) as [r size] eqn:E.
  apply elem_of_cons in Hp as [->|Hp]; [|by eapply IH]. intros Hv.
  pose proof (DecodeRune_size (String c s)) as Hs. rewrite E in Hs. cbn [snd] in Hs.
  destruct size as [|size]; [lia|]. unfold escape_rune. cbn [snd fst str_take].
  destruct (Z.ltb_spec (ord c) 128) as [Hc|Hc].
  { rewrite DecodeRune_ascii in E by done. injection E as <- <-. cbn [str_take]. by apply escape_ascii_piece. }
  cbn [str_take] in Hv. rewrite Hv. cbn [negb]. assert (S size ≠ 1%nat) as Hne.
  { intros [= ->]. rewrite (DecodeRune_one _ _ E) in Hv by done. done. }
  pose proof (DecodeRune_multi _ _ _ E Hne) as Hm. cbn [str_take] in Hm. pose proof (multi_encode _ _ Hm) as He.
  destruct ((r =? 8232) || (r =? 8233)) eqn:Hsep.
  - rewrite <-He. rewrite orb_true_iff, !Z.eqb_eq in Hsep. apply reads_u_escape; [lia|].
    by destruct Hsep as [->| ->].
  - split; [done|]. intros fuel' t. destruct (multi_decode _ _ t Hm) as (n & Hdt & Hdr).
    rewrite str_app_cons in *. cbn [unquote_go].
    destruct (Z.eqb_spec (ord c) 92), (Z.ltb_spec (ord c) 128); try lia. by rewrite Hdt, Hdr, He.
Qed.

Lemma passes_escape html s : passes (escape_string html O true s).
Proof.
  rewrite (escape_string_runes html (String.length s)) by done.
  pose proof (escape_rune_passes html (String.length s) s) as Hp.
  induction (rune_list _ s) as [|p l IH]; [by apply passes_high|]. rewrite escape_runes_cons.
  apply passes_app; [apply Hp; left|]. apply IH. intros q Hq. apply Hp. by right.
Qed.

(** The scanner finds the end of a printed string. *)
Lemma scan_escaped html s rest :
  scan_string Plain (escape_string html O true s +:+ String quote rest) =
  Value (escape_string html O true s) rest.
Proof.
  rewrite passes_escape. change (scan_string Plain (String quote rest)) with (Value "" rest).
  cbn [sbind]. by rewrite str_app_nil_r.
Qed.

Lemma unquote_pieces html l fuel :
  (∀ p, p ∈ l → reads (escape_rune html p) p.2) → (String.length (escape_runes html l) ≤ fuel)%nat →
  unquote_go fuel (escape_runes html l) = concat_runes l.
Proof.
  revert fuel. induction l as [|p l IH]; intros fuel Hl Hf; [by destruct fuel|].
  rewrite escape_runes_cons in *. destruct (Hl p) as [Hne Hr]; [left|].
  rewrite str_length_app in Hf. destruct (escape_rune html p) as [|c e] eqn:E; [done|].
  cbn [String.length] in Hf. destruct fuel as [|fuel]; [lia|]. rewrite Hr. cbn [concat_runes foldr].
  fold (concat_runes l). rewrite IH; [done| |lia]. intros q Hq. apply Hl. by right.
Qed.

(** A printed string is read back when it is valid UTF-8. *)
Lemma unquote_escape html s : ValidString s = true → unquote (escape_string html O true s) = s.
Proof.
  intros Hv. unfold unquote. rewrite (escape_string_runes html (String.length s) s) by done.
  trans (concat_runes (runes s)); [|apply runes_concat]. apply unquote_pieces; [|done]. intros p Hp.
  apply (escape_rune_reads html (String.length s) s); [done|].
  eapply (proj1 (forallb_forall _ _) Hv). by apply list_elem_of_In.
Qed.

(** ** The scanner terminates

    Every call gets shorter input, so that the fuel of [next_value] is enough: more of it
    never changes the result. *)

Lemma sbind_Value {A B} (m : scan A) (f : A → string → scan B) b r :
  sbind m f = Value b r ↔ ∃ a r', m = Value a r' ∧ f a r' = Value b r.
Proof. destruct m; cbn; naive_solver. Qed.

Ltac invert_scan :=
  repeat match goal with
  | H : sbind _ _ = Value _ _ |- _ => apply sbind_Value in H as (? & ? & ? & H)
  | H : keep _ _ = Value _ _ |- _ => apply sbind_Value in H as (? & ? & ? & H)
  | H : Value _ _ = Value _ _ |- _ => injection H as <- <-
  | H : Syntax = Value _ _ |- _ => discriminate H
  | H : More = Value _ _ |- _ => discriminate H
  end.

Lemma skip_space_le s : (String.length (skip_space s) ≤ String.length s)%nat.
Proof. induction s as [|c s IH]; [done|]. cbn [skip_space]. case_match; cbn [String.length]; lia. Qed.

Lemma scan_string_lt state s a r :
  scan_string state s = Value a r → (String.length r < String.length s)%nat.
Proof.
  revert state a. induction s as [|c s IH]; intros state a; [done|]. cbn [scan_string String.length].
  repeat case_match; intros; invert_scan; try lia;
    match goal with H : scan_string _ _ = Value _ _ |- _ => apply IH in H; lia end.
Qed.

Lemma scan_word_le {A} (a b : A) word s r :
  scan_word a word s = Value b r → (String.length r ≤ String.length s)%nat.
Proof.
  revert s. induction word as [|c word IH]; intros [|d s]; cbn [scan_word]; try case_match; intros; invert_scan;
    try done. match goal with H : scan_word _ _ _ = _ |- _ => apply IH in H end. cbn [String.length]. lia.
Qed.

Lemma span_digits_le s d r : span_digits s = (d, r) → (String.length r ≤ String.length s)%nat.
Proof.
  revert d. induction s as [|c s IH]; intros d; cbn [span_digits]; [by intros [= <- <-]|].
  destruct (digit c); [|by intros [= <- <-]]. destruct (span_digits s) as [d' r'] eqn:E.
  intros [= <- <-]. specialize (IH _ eq_refl). cbn [String.length]. lia.
Qed.

Lemma scan_digits_lt s a r : scan_digits s = Value a r → (String.length r < String.length s)%nat.
Proof.
  destruct s as [|c s]; [done|]. unfold scan_digits. cbn [span_digits]. destruct (digit c) eqn:Hc; [|done].
  destruct (span_digits s) as [d r'] eqn:E. intros [= <- <-]. apply span_digits_le in E. cbn [String.length]. lia.
Qed.

Lemma scan_unsigned_lt s a r : scan_unsigned s = Value a r → (String.length r < String.length s)%nat.
Proof.
  assert (∀ s a r, scan_integer s = Value a r → (String.length r < String.length s)%nat) as Hi.
  { intros [|c u] b q; [done|]. unfold scan_integer. case_match; intros Hq; invert_scan; [cbn [String.length]; lia|].
    by apply scan_digits_lt in Hq. }
  assert (∀ s a r, scan_fraction s = Value a r → (String.length r ≤ String.length s)%nat) as Hf.
  { intros [|c u] b q; unfold scan_fraction; [by intros [= <- <-]|]. case_match; intros Hq; invert_scan; [|done].
    match goal with H : scan_digits _ = _ |- _ => apply scan_digits_lt in H end. cbn [String.length]. lia. }
  assert (∀ s a r, scan_exponent s = Value a r → (String.length r ≤ String.length s)%nat) as He.
  { intros [|c u] b q; unfold scan_exponent; [by intros [= <- <-]|]. case_match; intros Hq; invert_scan; [|done].
    destruct u as [|g u]; [done|]. case_match; invert_scan;
      match goal with H : scan_digits _ = _ |- _ => apply scan_digits_lt in H end; cbn [String.length] in *; lia. }
  intros Hs. unfold scan_unsigned in Hs. invert_scan.
  repeat match goal with
  | H : scan_integer _ = _ |- _ => apply Hi in H
  | H : scan_fraction _ = _ |- _ => apply Hf in H
  | H : scan_exponent _ = _ |- _ => apply He in H
  end. lia.
Qed.

Lemma scan_number_lt s a r : scan_number s = Value a r → (String.length r < String.length s)%nat.
Proof.
  destruct s as [|c s]; [done|]. unfold scan_number. case_match; intros Hs; invert_scan.
  - match goal with H : scan_unsigned _ = _ |- _ => apply scan_unsigned_lt in H end. cbn [String.length]. lia.
  - by apply scan_unsigned_lt in Hs.
Qed.

(** The lengths that bound a call: of the input after white space, and of what a nested
    call leaves. *)
Ltac shorter :=
  repeat match goal with
  | H : skip_space ?s = String _ _ |- _ => let L := fresh "L" in
      pose proof (skip_space_le s) as L; rewrite H in L; cbn [String.length] in L; clear H
  | H : scan_string _ _ = Value _ _ |- _ => apply scan_string_lt in H
  | H : scan_number _ = Value _ _ |- _ => apply scan_number_lt in H; cbn [String.length] in H
  | H : scan_word _ _ _ = Value _ _ |- _ => apply scan_word_le in H
  end; lia.

Lemma closes_Some c s rest : closes c s = Some rest → (String.length rest < String.length s)%nat.
Proof.
  unfold closes. destruct (skip_space s) as [|d u] eqn:E; [done|]. case_match; [|done]. intros [= <-]. shorter.
Qed.

Lemma scan_value_lt fuel : ∀ depth s,
  (∀ t r, scan_value fuel depth s = Value t r → (String.length r < String.length s)%nat) ∧
  (∀ l r, scan_items fuel depth s = Value l r → (String.length r < String.length s)%nat) ∧
  (∀ l r, scan_fields fuel depth s = Value l r → (String.length r < String.length s)%nat).
Proof.
  induction fuel as [|fuel IH]; intros depth s; [done|]. cbn [scan_value scan_items scan_fields]. split_and!.
  - intros t r Hs. destruct (skip_space s) as [|c s1] eqn:E; [done|].
    assert (String.length s1 < String.length s)%nat as L.
    { pose proof (skip_space_le s) as L. rewrite E in L. cbn [String.length] in L. lia. }
    assert (∀ t' r', Value t' r' = Value t r → (String.length r' ≤ String.length s1)%nat →
      (String.length r < String.length s)%nat) as Hle by (intros t' r' [= _ <-]; lia).
    assert (∀ A (m : scan A) (f : A → tree), sbind m (λ a, Value (f a)) = Value t r →
      (∀ a r', m = Value a r' → String.length r' ≤ String.length s1)%nat →
      (String.length r < String.length s)%nat) as Hb.
    { intros A m f (a & r' & Hm & Hv)%sbind_Value Hr. by eapply Hle, Hr. }
    destruct (Ascii.eqb c "{").
    { destruct (depth <=? 0); [done|]. destruct (closes "}" s1) eqn:Ec.
      - apply closes_Some in Ec. eapply Hle; [done|lia].
      - eapply Hb; [done|]. intros a r' Hr. apply IH in Hr. lia. }
    destruct (Ascii.eqb c "[").
    { destruct (depth <=? 0); [done|]. destruct (closes "]" s1) eqn:Ec.
      - apply closes_Some in Ec. eapply Hle; [done|lia].
      - eapply Hb; [done|]. intros a r' Hr. apply IH in Hr. lia. }
    destruct (ord c =? 34); [eapply Hb; [done|]; intros a r' Hr%scan_string_lt; lia|].
    destruct (_ || _); [eapply Hb; [done|]; intros a r' Hr%scan_number_lt; cbn [String.length] in Hr; lia|].
    repeat case_match; try done; (eapply Nat.le_lt_trans; [by eapply scan_word_le|done]).
  - intros l r Hs. invert_scan. destruct (skip_space _) as [|d s2] eqn:E; [done|].
    match goal with H : scan_value _ _ _ = _ |- _ => apply IH in H end.
    repeat case_match; invert_scan; try shorter.
    match goal with H : scan_items _ _ _ = _ |- _ => apply IH in H end. shorter.
  - intros l r Hs. destruct (skip_space s) as [|c s1] eqn:E; [done|]. case_match; [|done]. invert_scan.
    destruct (skip_space x0) as [|colon s3] eqn:E3; [done|]. case_match; [|done]. invert_scan.
    destruct (skip_space x2) as [|d s5] eqn:E5; [done|].
    match goal with H : scan_value _ _ _ = _ |- _ => apply IH in H end.
    repeat case_match; invert_scan; try shorter.
    match goal with H : scan_fields _ _ _ = _ |- _ => apply IH in H end. shorter.
Qed.

Lemma sbind_ext {A B} (m m' : scan A) (f g : A → string → scan B) :
  m = m' → (∀ a r, m' = Value a r → f a r = g a r) → sbind m f = sbind m' g.
Proof. intros ->. destruct m'; cbn; auto. Qed.

Lemma scan_fuel_step fuel : ∀ depth s,
  (2 * String.length s + 1 ≤ fuel → scan_value (S fuel) depth s = scan_value fuel depth s)%nat ∧
  (2 * String.length s + 2 ≤ fuel → scan_items (S fuel) depth s = scan_items fuel depth s)%nat ∧
  (2 * String.length s + 2 ≤ fuel → scan_fields (S fuel) depth s = scan_fields fuel depth s)%nat.
Proof.
  induction fuel as [|fuel IH]; intros depth s; [split_and!; lia|]. split_and!; intros Hf.
  - change (scan_value (S (S fuel)) depth s) with
      ltac:(let t := eval cbn [scan_value] in (scan_value (S (S fuel)) depth s) in exact t).
    cbn [scan_value]. destruct (skip_space s) as [|c s1] eqn:E; [done|].
    pose proof (skip_space_le s) as L. rewrite E in L. cbn [String.length] in L.
    repeat case_match; try done; (apply sbind_ext; [|done]); apply IH; lia.
  - change (scan_items (S (S fuel)) depth s) with
      ltac:(let t := eval cbn [scan_items] in (scan_items (S (S fuel)) depth s) in exact t).
    cbn [scan_items]. apply sbind_ext; [apply IH; lia|]. intros v s1 Hv.
    apply scan_value_lt in Hv. destruct (skip_space s1) as [|d s2] eqn:E; [done|].
    pose proof (skip_space_le s1) as L. rewrite E in L. cbn [String.length] in L.
    case_match; [|done]. apply sbind_ext; [|done]. apply IH. lia.
  - change (scan_fields (S (S fuel)) depth s) with
      ltac:(let t := eval cbn [scan_fields] in (scan_fields (S (S fuel)) depth s) in exact t).
    cbn [scan_fields]. destruct (skip_space s) as [|c s1] eqn:E; [done|].
    pose proof (skip_space_le s) as L. rewrite E in L. cbn [String.length] in L.
    case_match; [|done]. apply sbind_ext; [done|]. intros key s2 Hk%scan_string_lt.
    destruct (skip_space s2) as [|colon s3] eqn:E3; [done|].
    pose proof (skip_space_le s2) as L3. rewrite E3 in L3. cbn [String.length] in L3. case_match; [|done].
    apply sbind_ext; [apply IH; lia|]. intros v s4 Hv%scan_value_lt.
    destruct (skip_space s4) as [|d s5] eqn:E5; [done|].
    pose proof (skip_space_le s4) as L5. rewrite E5 in L5. cbn [String.length] in L5.
    case_match; [|done]. apply sbind_ext; [|done]. apply IH. lia.
Qed.

(** Enough fuel is as good as more. *)
Lemma scan_fuel depth s n m :
  (2 * String.length s + 1 ≤ n)%nat → (n ≤ m)%nat → scan_value m depth s = scan_value n depth s.
Proof.
  intros Hn. induction 1 as [|m Hm IH]; [done|]. rewrite <-IH. apply scan_fuel_step. lia.
Qed.

(** ** Printed values are scanned back *)

Fixpoint tree_of (html : bool) (j : json) : tree :=
  match j with
  | JNull => TNull
  | JBool b => TBool b
  | JNum n => TNum n
  | JStr s => TStr (escape_string html O true s)
  | JArr l => TArr (map (tree_of html) l)
  | JObj l => TObj (map (λ f, (escape_string html O true f.1, tree_of html f.2)) l)
  end.

(** What may follow a number without being read as part of it. *)
Definition number_stop (s : string) : bool :=
  match s with String c _ => negb (digit c) && negb (one_of ".eE" c) | EmptyString => true end.

(** A literal that the scanner reads as it is. *)
Definition number_literal (n : string) : Prop :=
  (∃ c m, n = String c m ∧ Ascii.eqb c "-" || digit c = true) ∧
  ∀ rest, number_stop rest = true → scan_number (n +:+ rest) = Value n rest.

(** The numbers of a value are such literals, and at most [depth] containers nest. *)
#[warnings="-register-all"]
Inductive printable_json : Z → json → Prop :=
  | printable_null d : printable_json d JNull
  | printable_bool d b : printable_json d (JBool b)
  | printable_num d n : number_literal n → printable_json d (JNum n)
  | printable_str d s : printable_json d (JStr s)
  | printable_arr d l : 0 < d → Forall (printable_json (d - 1)) l → printable_json d (JArr l)
  | printable_obj d l : 0 < d → Forall (λ f, printable_json (d - 1) f.2) l → printable_json d (JObj l).

Section json_ind.
Context (P : json → Prop).
Context (Hnull : P JNull) (Hbool : ∀ b, P (JBool b)) (Hnum : ∀ n, P (JNum n)) (Hstr : ∀ s, P (JStr s)).
Context (Harr : ∀ l, Forall P l → P (JArr l)) (Hobj : ∀ l, Forall (λ f, P f.2) l → P (JObj l)).

(** Induction on values with lists of values. *)
Fixpoint json_induction (j : json) : P j :=
  match j with
  | JNull => Hnull
  | JBool b => Hbool b
  | JNum n => Hnum n
  | JStr s => Hstr s
  | JArr l => Harr l (list_ind (Forall P) (Forall_nil_2 P) (λ x l Hl, Forall_cons_2 P x l (json_induction x) Hl) l)
  | JObj l => Hobj l (list_ind (Forall (λ f, P f.2)) (Forall_nil_2 _)
                        (λ x l Hl, Forall_cons_2 (λ f, P f.2) x l (json_induction x.2) Hl) l)
  end.
End json_ind.

(** The first byte of a printed value. *)
Lemma print_head html d j : printable_json d j →
  ∃ c s, print_with html j = String c s ∧ space c = false ∧ Ascii.eqb c "]" = false.
Proof.
  intros Hj. destruct j as [|[]|n|s|l|l]; cbn [print_with]; try (by eexists _, _).
  - inversion Hj as [| |? ? [(c & m & -> & Hc) _]| | |]; subst. exists c, m. split; [done|].
    destruct (Ascii.eqb_spec c "-") as [->|]; [done|]. cbn [orb] in Hc. revert Hc.
    pose proof (byte_cases (λ c, implb (digit c) (negb (space c) && negb (Ascii.eqb c "]"))) c eq_refl) as Hall.
    intros Hc. cbn beta in Hall. rewrite Hc in Hall. cbn [implb] in Hall.
    apply andb_true_iff in Hall as [?%negb_true_iff ?%negb_true_iff]. done.
Qed.

Definition scans (html : bool) (d : Z) (j : json) : Prop := ∃ n, ∀ fuel rest, (n ≤ fuel)%nat →
  number_stop rest = true → scan_value fuel d (print_with html j +:+ rest) = Value (tree_of html j) rest.

Lemma skip_nonspace c s : space c = false → skip_space (String c s) = String c s.
Proof. intros Hc. cbn [skip_space]. by rewrite Hc. Qed.

Lemma scan_items_print html d l : l ≠ [] → Forall (scans html d) l →
  ∃ n, ∀ fuel rest, (n ≤ fuel)%nat →
    scan_items fuel d (join "," (map (print_with html) l) +:+ String "]" rest) = Value (map (tree_of html) l) rest.
Proof.
  intros Hne Hl. induction Hl as [|j l [n Hj] Hl IH]; [done|]. destruct l as [|j' l].
  - exists (S n). intros [|fuel] rest Hf; [lia|]. cbn [map join scan_items].
    rewrite Hj by (done || lia). cbn. done.
  - destruct IH as [m IH]; [done|]. exists (S (n `max` m)). intros [|fuel] rest Hf; [lia|].
    cbn [map join]. change (map (print_with html) (j' :: l)) with (print_with html j' :: map (print_with html) l) in IH.
    rewrite !str_app_assoc. cbn [scan_items]. rewrite str_app_cons, str_app_nil_l, Hj by (done || lia).
    cbn [sbind]. rewrite skip_nonspace by done. change (Ascii.eqb "," ",") with true. cbn iota.
    rewrite IH by lia. done.
Qed.

Lemma scan_fields_print html d l : l ≠ [] → Forall (λ f, scans html d f.2) l →
  ∃ n, ∀ fuel rest, (n ≤ fuel)%nat →
    scan_fields fuel d (join "," (map (λ f, quoted html f.1 +:+ ":" +:+ print_with html f.2) l) +:+ String "}" rest) =
      Value (map (λ f, (escape_string html O true f.1, tree_of html f.2)) l) rest.
Proof.
  set (pf := λ f : string * json, quoted html f.1 +:+ ":" +:+ print_with html f.2).
  assert (∀ f fuel t, scan_fields (S fuel) d (pf f +:+ t) =
    sbind (scan_value fuel d (print_with html f.2 +:+ t)) (λ v s4,
      match skip_space s4 with
      | EmptyString => More
      | String e s5 =>
          if Ascii.eqb e "," then sbind (scan_fields fuel d s5)
            (λ l, Value ((escape_string html O true f.1, v) :: l))
          else if Ascii.eqb e "}" then Value [(escape_string html O true f.1, v)] s5
          else Syntax
      end)) as Hstep.
  { intros f fuel t. unfold pf, quoted. rewrite !str_app_assoc, !str_app_cons, !str_app_assoc.
    rewrite !str_app_cons, !str_app_nil_l. cbn [scan_fields]. rewrite skip_nonspace by done.
    change (ord quote =? 34) with true. cbn iota. rewrite scan_escaped. cbn [sbind].
    rewrite skip_nonspace by done. change (Ascii.eqb ":" ":") with true. done. }
  intros Hne Hl. induction Hl as [|f l [n Hj] Hl IH]; [done|]. destruct l as [|f' l].
  - exists (S n). intros [|fuel] rest Hf; [lia|]. cbn [map join].
    rewrite Hstep, Hj by (done || lia). done.
  - destruct IH as [m IH]; [done|]. exists (S (n `max` m)). intros [|fuel] rest Hf; [lia|].
    cbn [map join] in *. rewrite !str_app_assoc. rewrite Hstep, str_app_cons, str_app_nil_l, Hj by (done || lia).
    cbn [sbind]. rewrite skip_nonspace by done. change (Ascii.eqb "," ",") with true. cbn iota.
    rewrite IH by lia. done.
Qed.

Lemma scans_printable html j : ∀ d, printable_json d j → scans html d j.
Proof.
  induction j as [|b|n|s|l IH|l IH] using json_induction; intros d Hj.
  - exists 1%nat. intros [|fuel] rest Hf _; [lia|]. by destruct rest.
  - exists 1%nat. intros [|fuel] rest Hf _; [lia|]. by destruct b, rest.
  - exists 1%nat. intros [|fuel] rest Hf Hr; [lia|].
    inversion Hj as [| |? ? [(c & m & -> & Hc) Hn]| | |]; subst. cbn [print_with tree_of scan_value].
    destruct (print_head html d _ Hj) as (c' & m' & [= <- <-] & Hsp & _).
    specialize (Hn rest Hr). rewrite str_app_cons in *. rewrite skip_nonspace by done.
    assert (Ascii.eqb c "{" = false ∧ Ascii.eqb c "[" = false ∧ (ord c =? 34) = false) as (-> & -> & ->).
    { destruct (Ascii.eqb_spec c "-") as [->|]; [done|]. cbn [orb] in Hc.
      pose proof (byte_cases (λ c, implb (digit c) (negb (Ascii.eqb c "{") && negb (Ascii.eqb c "[") && negb (ord c =? 34)))
        c eq_refl) as Hall. cbn beta in Hall. rewrite Hc in Hall. cbn [implb] in Hall.
      rewrite !andb_true_iff, !negb_true_iff in Hall. tauto. }
    rewrite Hc, Hn. done.
  - exists 1%nat. intros [|fuel] rest Hf _; [lia|]. cbn [print_with tree_of]. unfold quoted.
    rewrite str_app_cons, str_app_assoc, str_app_cons, str_app_nil_l. cbn [scan_value].
    rewrite skip_nonspace by done. change (ord quote =? 34) with true. cbn -[scan_string escape_string].
    by rewrite scan_escaped.
  - inversion Hj as [| | | |? ? Hd Hl|]; subst.
    destruct l as [|j l].
    { exists 1%nat. intros [|fuel] rest Hf _; [lia|]. cbn. destruct (Z.leb_spec d 0); [lia|]. by destruct rest. }
    destruct (scan_items_print html (d - 1) (j :: l)) as [n Hn]; [done| |].
    { apply Forall_forall. intros x Hx. rewrite Forall_forall in IH, Hl. by apply IH, Hl. }
    exists (S n). intros [|fuel] rest Hf _; [lia|]. cbn [print_with tree_of].
    rewrite !str_app_assoc, str_app_cons, str_app_nil_l. rewrite (str_app_cons "]" "" rest), str_app_nil_l.
    cbn [scan_value]. rewrite skip_nonspace by done. change (Ascii.eqb "[" "{") with false.
    change (Ascii.eqb "[" "[") with true. cbn iota. destruct (Z.leb_spec d 0); [lia|].
    assert (closes "]" (join "," (map (print_with html) (j :: l)) +:+ String "]" rest) = None) as ->.
    { rewrite Forall_cons in Hl. destruct Hl as [Hjd _].
      destruct (print_head html _ _ Hjd) as (c & s & Hp & Hsp & Hne). unfold closes. cbn [map join].
      destruct l; cbn [map]; rewrite Hp, ?str_app_assoc, str_app_cons, skip_nonspace by done; by rewrite Hne. }
    by rewrite Hn by lia.
  - inversion Hj as [| | | | |? ? Hd Hl]; subst.
    destruct l as [|f l].
    { exists 1%nat. intros [|fuel] rest Hf _; [lia|]. cbn. destruct (Z.leb_spec d 0); [lia|]. by destruct rest. }
    destruct (scan_fields_print html (d - 1) (f :: l)) as [n Hn]; [done| |].
    { apply Forall_forall. intros x Hx. rewrite Forall_forall in IH, Hl. by apply IH, Hl. }
    exists (S n). intros [|fuel] rest Hf _; [lia|]. cbn [print_with tree_of].
    rewrite !str_app_assoc, str_app_cons, str_app_nil_l. rewrite (str_app_cons "}" "" rest), str_app_nil_l.
    cbn [scan_value]. rewrite skip_nonspace by done. change (Ascii.eqb "{" "{") with true. cbn iota.
    destruct (Z.leb_spec d 0); [lia|].
    match goal with |- context [closes "}" ?s] => assert (closes "}" s = None) as -> end.
    { unfold closes, quoted. cbn [map join]. destruct l; cbn [map]; by rewrite ?str_app_assoc, str_app_cons. }
    by rewrite Hn by lia.
Qed.

(** The next value after printing is the value that was printed. *)
Lemma next_value_print html j rest :
  printable_json maxNestingDepth j → number_stop rest = true →
  next_value (print_with html j +:+ rest) = Value (tree_of html j) rest.
Proof.
  intros Hj Hr. destruct (scans_printable html j _ Hj) as [n Hn]. unfold next_value.
  set (s := print_with html j +:+ rest). rewrite <-(scan_fuel _ _ _ ((2 * String.length s + 2) + n)%nat) by lia.
  apply Hn; [lia|done].
Qed.

(** ** Printed integers *)

Lemma span_digits_app d rest : all_bytes digit d = true → number_stop rest = true →
  span_digits (d +:+ rest) = (d, rest).
Proof.
  intros Hd Hr. induction d as [|c d IH].
  - rewrite str_app_nil_l. destruct rest as [|c rest]; [done|]. cbn in Hr. cbn [span_digits].
    by destruct (digit c).
  - cbn [all_bytes] in Hd. apply andb_true_iff in Hd as [Hc Hd]. rewrite str_app_cons. cbn [span_digits].
    by rewrite Hc, IH.
Qed.

Lemma pretty_N_go_head x s : (0 < x)%N → ∃ c m, pretty_N_go x s = String c m ∧ c ≠ "0"%char.
Proof.
  revert s. induction (N.lt_wf_0 x) as [x _ IH]. intros s Hx. rewrite pretty_N_go_step by done.
  destruct (decide (x / 10 = 0)%N) as [E|E].
  - rewrite E, pretty_N_go_0. eexists _, _. split; [done|]. rewrite N.mod_small by (by apply N.div_small_iff).
    assert (x < 10)%N by (by apply N.div_small_iff). destruct x as [|p]; [lia|].
    do 4 (destruct p as [p|p|]; try done; try lia).
  - apply IH; [by apply N.div_lt|by apply N.neq_0_lt_0].
Qed.

Lemma pretty_N_shape (n : N) : ∃ c m, pretty n = String c m ∧ digit c = true ∧ all_bytes digit m = true ∧
  (c = "0"%char → m = "").
Proof.
  pose proof (pretty_N_digits n) as Hd. unfold pretty, pretty_N in *. case_decide.
  - by exists "0"%char, "".
  - destruct (pretty_N_go_head n "") as (c & m & E & Hc); [lia|]. rewrite E in *. exists c, m.
    cbn [all_bytes] in Hd. apply andb_true_iff in Hd as [? ?]. split_and!; done.
Qed.

Lemma scan_unsigned_pretty (n : N) rest : number_stop rest = true →
  scan_unsigned (pretty n +:+ rest) = Value (pretty n) rest.
Proof.
  intros Hr. destruct (pretty_N_shape n) as (c & m & E & Hc & Hm & Hz). rewrite E.
  assert (scan_integer (String c m +:+ rest) = Value (String c m) rest) as Hi.
  { rewrite str_app_cons. unfold scan_integer. destruct (Ascii.eqb_spec c "0") as [->|_].
    - by rewrite (Hz eq_refl), str_app_nil_l.
    - unfold scan_digits. rewrite Hc. cbn [span_digits]. by rewrite Hc, span_digits_app. }
  unfold scan_unsigned. rewrite Hi. cbn [sbind].
  assert (scan_fraction rest = Value "" rest ∧ scan_exponent rest = Value "" rest) as [Hfr Hex].
  { destruct rest as [|g rest]; [done|]. cbn in Hr. unfold scan_fraction, scan_exponent.
    destruct (Ascii.eqb_spec g ".") as [->|]; [done|]. split; [done|].
    destruct (one_of "eE" g) eqn:He; [|done]. cbn in He.
    destruct (bool_decide_reflect (g = "e"%char)) as [->|]; [done|].
    destruct (bool_decide_reflect (g = "E"%char)) as [->|]; [done|]. done. }
  rewrite Hfr. cbn [sbind]. rewrite Hex. cbn [sbind]. by rewrite !str_app_nil_r.
Qed.

Lemma pretty_number_literal (z : Z) : number_literal (pretty z).
Proof.
  assert (∀ n : N, number_literal (pretty n)) as Hn.
  { intros n. destruct (pretty_N_shape n) as (c & m & E & Hc & _). split.
    - exists c, m. split; [done|]. by rewrite Hc, orb_true_r.
    - intros rest Hr. pose proof (scan_unsigned_pretty n rest Hr) as Hs. rewrite E, str_app_cons in *.
      unfold scan_number. destruct (Ascii.eqb_spec c "-") as [->|]; [done|]. exact Hs. }
  destruct z as [|p|p]; [exact (Hn 0%N)|exact (Hn (N.pos p))|].
  change (pretty (Z.neg p)) with ("-" +:+ pretty (N.pos p)). split.
  - eexists _, _. by rewrite str_app_cons.
  - intros rest Hr. rewrite str_app_cons, str_app_nil_l, str_app_cons. unfold scan_number. cbn [Ascii.eqb].
    change (Ascii.eqb "-" "-") with true. cbn iota. by rewrite scan_unsigned_pretty.
Qed.

(** [strconv.ParseUint] and [strconv.ParseInt] in base 10, on the literal of a number. *)
Definition ParseUint (bits : Z) (s : string) : option Z :=
  if all_bytes digit s && negb (String.eqb s "") && (decimal 0 s <? 2 ^ bits) then Some (decimal 0 s) else None.

Definition ParseInt (bits : Z) (s : string) : option Z :=
  let '(negative, digits) := match s with
    | String c s' => if Ascii.eqb c "-" then (true, s') else (false, s)
    | EmptyString => (false, "") end in
  if all_bytes digit digits && negb (String.eqb digits "") then
    let v := if negative : bool then - decimal 0 digits else decimal 0 digits in
    if (- 2 ^ (bits - 1) <=? v) && (v <? 2 ^ (bits - 1)) then Some v else None
  else None.

Lemma decimal_pretty_go x s : decimal 0 (pretty_N_go x s) = decimal (Z.of_N x) s.
Proof.
  revert s. induction (N.lt_wf_0 x) as [x _ IH]. intros s. destruct (decide (0 < x)%N) as [Hx|Hx].
  - rewrite pretty_N_go_step, IH by (done || by apply N.div_lt). cbn [decimal].
    assert (∀ d, (d < 10)%N → ord (pretty_N_char d) - 48 = Z.of_N d) as Hchar.
    { intros d Hd. destruct d as [|p]; [done|]. do 4 (destruct p as [p|p|]; try done; try lia). }
    assert (x `mod` 10 < 10)%N as Hm by (by apply N.mod_lt). specialize (Hchar _ Hm).
    f_equal. pose proof (N.div_mod' x 10). lia.
  - assert (x = 0)%N as -> by lia. by rewrite pretty_N_go_0.
Qed.

Lemma decimal_pretty (n : N) : decimal 0 (pretty n) = Z.of_N n.
Proof. unfold pretty, pretty_N. case_decide; [by subst|]. by rewrite decimal_pretty_go. Qed.

Lemma ParseUint_pretty bits z : 0 <= z < 2 ^ bits → ParseUint bits (pretty z) = Some z.
Proof.
  intros Hz. assert (pretty z = pretty (Z.to_N z)) as -> by (by destruct z; [| |lia]).
  unfold ParseUint. rewrite pretty_N_digits, decimal_pretty.
  destruct (pretty_N_shape (Z.to_N z)) as (c & m & -> & _). cbn [String.eqb negb andb].
  destruct (Z.ltb_spec (Z.of_N (Z.to_N z)) (2 ^ bits)); [f_equal|]; lia.
Qed.

Lemma ParseInt_pretty bits z : - 2 ^ (bits - 1) <= z < 2 ^ (bits - 1) → ParseInt bits (pretty z) = Some z.
Proof.
  intros Hz.
  assert (∀ n : N, let s := pretty n in (match s with
    | String c s' => if Ascii.eqb c "-" then (true, s') else (false, s)
    | EmptyString => (false, "") end) = (false, s) ∧ all_bytes digit s && negb (String.eqb s "") = true) as Hn.
  { intros n. cbv zeta. pose proof (pretty_N_digits n) as Hd.
    destruct (pretty_N_shape n) as (c & m & E & Hc & _). rewrite E in *. split; [|by rewrite Hd].
    destruct (Ascii.eqb_spec c "-") as [->|]; done. }
  unfold ParseInt. destruct (decide (0 <= z)) as [Hp|Hp].
  - assert (pretty z = pretty (Z.to_N z)) as -> by (by destruct z; [| |lia]).
    destruct (Hn (Z.to_N z)) as [-> ->]. rewrite decimal_pretty, Z2N.id by lia.
    by destruct (Z.leb_spec (- 2 ^ (bits - 1)) z), (Z.ltb_spec z (2 ^ (bits - 1))); try lia.
  - destruct z as [|p|p]; [lia..|]. change (pretty (Z.neg p)) with ("-" +:+ pretty (N.pos p)).
    rewrite str_app_cons, str_app_nil_l. change (Ascii.eqb "-" "-") with true. cbn iota.
    destruct (Hn (N.pos p)) as [_ ->]. rewrite decimal_pretty. change (- Z.of_N (N.pos p)) with (Z.neg p).
    by destruct (Z.leb_spec (- 2 ^ (bits - 1)) (Z.neg p)), (Z.ltb_spec (Z.neg p) (2 ^ (bits - 1))); try lia.
Qed.
