(* ===== verification/GoRfc3339.v ===== *)
(** * Parsing of times

    [time.Parse] with the layout [time.RFC3339], which [Time.UnmarshalJSON] and
    [time.Parse] callers use, and the calendar behind it.  The result: what
    [Time.MarshalJSON] ([format_time] of [GoJson]) writes is read back exactly. *)

From S2P Require Import Prelude GoRegexp GoBase64 GoStrings GoJson GoNet GoJsonScan.

(** ** The calendar *)

Definition leap (y : Z) : bool := (y mod 4 =? 0) && (negb (y mod 100 =? 0) || (y mod 400 =? 0)).

(** Days of a year before its month [m]. *)
Definition days_before (m y : Z) : Z :=
  match m with
  | 2 => 31 | 3 => 59 | 4 => 90 | 5 => 120 | 6 => 151 | 7 => 181 | 8 => 212 | 9 => 243
  | 10 => 273 | 11 => 304 | 12 => 334 | _ => 0
  end + (if leap y && (2 <? m) then 1 else 0).

Definition days_in (m y : Z) : Z :=
  if m =? 2 then if leap y then 29 else 28
  else if (m =? 4) || (m =? 6) || (m =? 9) || (m =? 11) then 30 else 31.

(** The number of a day since January 1, year 1. *)
Definition day_number (y m d : Z) : Z :=
  365 * (y - 1) + (y - 1) / 4 - (y - 1) / 100 + (y - 1) / 400 + days_before m y + d - 1.

(** ** [time.Parse] *)

Definition digit_value (c : ascii) : Z := ord c - 48.

(** [getnum]: two digits, or one where [fixed] does not ask for two. *)
Definition getnum (fixed : bool) (s : string) : option (Z * string) :=
  match s with
  | String a s1 =>
      if digit a then
        match s1 with
        | String b s2 => if digit b then Some (10 * digit_value a + digit_value b, s2)
                         else if fixed then None else Some (digit_value a, s1)
        | EmptyString => if fixed then None else Some (digit_value a, s1)
        end
      else None
  | EmptyString => None
  end.

(** [skip] of a one-byte prefix. *)
Definition skip_byte (c : ascii) (s : string) : option string :=
  match s with
  | String d s' => if Ascii.eqb c d then Some s' else None
  | EmptyString => None
  end.

Definition parse_year (s : string) : option (Z * string) :=
  let y := str_take 4 s in
  if (len y =? 4) && all_bytes digit y then Some (decimal 0 y, str_drop 4 s) else None.

(** The fraction of a second that may follow the seconds; digits after the ninth are
    dropped. *)
Definition parse_fraction (s : string) : Z * string :=
  match s with
  | String c s1 =>
      if one_of ".," c && match s1 with String d _ => digit d | EmptyString => false end then
        let '(digits, rest) := span_digits s1 in
        let kept := str_take 9 digits in
        (decimal 0 kept * 10 ^ (9 - len kept), rest)
      else (0, s)
  | EmptyString => (0, s)
  end.

(** The zone: [Z] or an offset in seconds. *)
Definition parse_zone (s : string) : option (Z * string) :=
  match s with
  | String sign s1 =>
      if Ascii.eqb sign "Z" then Some (0, s1)
      else
        '(hr, s2) ← getnum true s1;
        s3 ← skip_byte ":" s2;
        '(mm, rest) ← getnum true s3;
        if (24 <? hr) || (60 <? mm) then None
        else if Ascii.eqb sign "+" then Some ((hr * 60 + mm) * 60, rest)
        else if Ascii.eqb sign "-" then Some (- ((hr * 60 + mm) * 60), rest)
        else None
  | EmptyString => None
  end.

(** [time.Parse(time.RFC3339, s)], as an instant. *)
Definition parse_time (s : string) : option time :=
  '(year, s) ← parse_year s;
  s ← skip_byte "-" s;
  '(month, s) ← getnum true s;
  s ← skip_byte "-" s;
  '(day, s) ← getnum true s;
  s ← skip_byte "T" s;
  '(hour, s) ← getnum false s;
  s ← skip_byte ":" s;
  '(minute, s) ← getnum true s;
  s ← skip_byte ":" s;
  '(second, s) ← getnum true s;
  let '(nanosecond, s) := parse_fraction s in
  '(offset, s) ← parse_zone s;
  if negb (String.eqb s "") || (month <? 1) || (12 <? month) || (23 <? hour) || (59 <? minute) || (59 <? second)
     || (day <? 1) || (days_in month year <? day)
  then None
  else Some ((day_number year month day * 86400 + hour * 3600 + minute * 60 + second - offset) * Second
             + nanosecond).

Example parse_offset : parse_time "1970-01-01T02:30:00.5+02:30" = Some (unix_epoch + 500000000).
Proof. by vm_compute. Qed.

Example parse_lenient : parse_time "1970-01-01T0:00:00,25Z" = Some (unix_epoch + 250000000) ∧
  parse_time "1970-02-29T00:00:00Z" = None ∧ parse_time "1970-01-01T00:00:00z" = None.
Proof. by vm_compute. Qed.

(** ** The calendar is inverted *)

(** The year of an era (of 400 years that start in March) from the day of the era. *)
Lemma year_of_era doe : 0 <= doe < 146097 →
  let yoe := (doe - doe / 1460 + doe / 36524 - doe / 146096) / 365 in
  let start y := 365 * y + y / 4 - y / 100 + y / 400 in
  0 <= yoe <= 399 ∧ start yoe <= doe < start (yoe + 1).
Proof.
  intros Hd yoe start. unfold yoe, start. clear yoe start.
  assert (doe < 36524 ∨ 36524 <= doe < 2 * 36524 ∨ 2 * 36524 <= doe < 3 * 36524 ∨
    3 * 36524 <= doe < 4 * 36524 ∨ doe = 146096) as [C|[C|[C|[C|C]]]] by lia.
  5: { subst. vm_compute. repeat split; discriminate. }
  all: replace (doe / 146096) with 0 by divlia.
  1: replace (doe / 36524) with 0 by divlia.
  2: replace (doe / 36524) with 1 by divlia.
  3: replace (doe / 36524) with 2 by divlia.
  4: replace (doe / 36524) with 3 by divlia.
  all: divlia.
Qed.

Lemma leap_step y : y / 4 - y / 100 + y / 400 - ((y - 1) / 4 - (y - 1) / 100 + (y - 1) / 400) =
  if leap y then 1 else 0.
Proof.
  unfold leap. destruct (Z.eqb_spec (y mod 4) 0), (Z.eqb_spec (y mod 100) 0), (Z.eqb_spec (y mod 400) 0);
    cbn; divlia.
Qed.

Lemma day_number_civil n : let '(y, m, d) := civil n in
  day_number y m d = n ∧ 1 <= m <= 12 ∧ 1 <= d <= days_in m y.
Proof.
  unfold civil. set (z := n + 306). set (era := z / 146097). set (doe := z mod 146097).
  assert (z = 146097 * era + doe ∧ 0 <= doe < 146097) as [Hz Hdoe].
  { unfold era, doe. pose proof (Z.div_mod z 146097). pose proof (Z.mod_pos_bound z 146097). lia. }
  pose proof (year_of_era doe Hdoe) as Hy. cbv zeta in Hy.
  set (yoe := (doe - doe / 1460 + doe / 36524 - doe / 146096) / 365) in *. destruct Hy as [Hyoe [Hlo Hhi]].
  set (doy := doe - (365 * yoe + yoe / 4 - yoe / 100)). set (mp := (5 * doy + 2) / 153).
  assert (0 <= doy <= 364 + (if leap (yoe + 1) then 1 else 0)) as Hdoy.
  { pose proof (leap_step (yoe + 1)) as Hl. replace (yoe + 1 - 1) with yoe in Hl by lia.
    assert (yoe / 400 = 0) as E by (apply Z.div_small; lia). rewrite E in *. unfold doy. lia. }
  assert (∀ k, leap (k + era * 400) = leap k) as Hleap.
  { intros k. unfold leap. replace ((k + era * 400) mod 4) with (k mod 4) by divlia.
    replace ((k + era * 400) mod 100) with (k mod 100) by divlia.
    by replace ((k + era * 400) mod 400) with (k mod 400) by divlia. }
  assert (∀ y', yoe + era * 400 = y' - 1 →
    365 * (y' - 1) + (y' - 1) / 4 - (y' - 1) / 100 + (y' - 1) / 400 = n + 306 - doy) as Hstart.
  { intros y' <-. unfold doy. replace ((yoe + era * 400) / 4) with (yoe / 4 + era * 100) by divlia.
    replace ((yoe + era * 400) / 100) with (yoe / 100 + era * 4) by divlia.
    replace ((yoe + era * 400) / 400) with era by divlia. unfold z in Hz. lia. }
  assert (0 <= mp <= 11 ∧ 153 * mp <= 5 * doy + 2 < 153 * mp + 153) as [Hmp Hdm]
    by (unfold mp; destruct (leap _); divlia).
  assert (leap (yoe + era * 400 + 1) = leap (yoe + 1)) as Hnext.
  { rewrite <-(Hleap (yoe + 1)). f_equal. lia. }
  pose proof (Hstart (yoe + era * 400 + 1) ltac:(lia)) as Hs1.
  replace (yoe + era * 400 + 1 - 1) with (yoe + era * 400) in Hs1 by lia.
  pose proof (leap_step (yoe + era * 400)) as Hs0. clearbody mp doy. clear Hlo Hhi Hz Hdoe Hleap Hstart.
  set (m := if mp <? 10 then mp + 3 else mp - 9).
  assert ((m = 3 ∧ mp = 0) ∨ (m = 4 ∧ mp = 1) ∨ (m = 5 ∧ mp = 2) ∨ (m = 6 ∧ mp = 3) ∨ (m = 7 ∧ mp = 4) ∨
    (m = 8 ∧ mp = 5) ∨ (m = 9 ∧ mp = 6) ∨ (m = 10 ∧ mp = 7) ∨ (m = 11 ∧ mp = 8) ∨ (m = 12 ∧ mp = 9) ∨
    (m = 1 ∧ mp = 10) ∨ (m = 2 ∧ mp = 11)) as Hcases by (unfold m; destruct (Z.ltb_spec mp 10); lia).
  clearbody m. unfold day_number, days_before, days_in.
  repeat destruct Hcases as [[-> ->]|Hcases]; [..|destruct Hcases as [-> ->]];
    cbn [Z.leb Z.ltb Z.eqb Z.compare Pos.compare Pos.compare_cont Pos.eqb orb];
    rewrite ?Z.add_0_r, ?andb_true_r, ?andb_false_r, ?Hnext;
    destruct (leap (yoe + era * 400)), (leap (yoe + 1)); divlia.
Qed.

(** ** Printed times are parsed back *)

Lemma decimal_app acc s t : decimal acc (s +:+ t) = decimal (decimal acc s) t.
Proof. revert acc. induction s as [|c s IH]; intros acc; [done|]. rewrite str_app_cons. apply IH. Qed.

Lemma digit_byte v : 0 <= v < 10 → digit (byte (48 + v)) = true ∧ ord (byte (48 + v)) = 48 + v.
Proof.
  intros Hv. split; [|apply ord_byte; lia].
  assert (forallb (λ v, digit (byte (48 + v))) (seqZ 0 10) = true) as Hall by (by vm_compute).
  eapply (proj1 (forallb_forall _ _) Hall), list_elem_of_In, elem_of_seqZ. lia.
Qed.

Lemma zero_pad_spec w n : 0 <= n < 10 ^ Z.of_nat w →
  all_bytes digit (zero_pad w n) = true ∧ String.length (zero_pad w n) = w ∧ decimal 0 (zero_pad w n) = n.
Proof.
  revert n. induction w as [|w IH]; intros n Hn; [cbn in *; split_and!; [done..|lia]|].
  rewrite Nat2Z.inj_succ, Z.pow_succ_r in Hn by lia. cbn [zero_pad].
  destruct (IH (n / 10)) as (Ha & Hl & Hd); [divlia|].
  destruct (digit_byte (n mod 10)) as [Hdig Hord]; [apply Z.mod_pos_bound; lia|].
  rewrite all_bytes_app, str_length_app, decimal_app, Ha, Hl, Hd. cbn [all_bytes String.length decimal].
  rewrite Hdig, Hord. split_and!; [done|lia|divlia].
Qed.

Lemma getnum_pad fixed n t : 0 <= n < 100 → getnum fixed (zero_pad 2 n +:+ t) = Some (n, t).
Proof.
  intros Hn. destruct (zero_pad_spec 2 n Hn) as (Ha & Hl & Hd).
  destruct (zero_pad 2 n) as [|a [|b [|c s]]]; try discriminate Hl. cbn in Ha, Hd.
  rewrite !andb_true_iff in Ha. destruct Ha as (Hda & Hdb & _).
  rewrite !str_app_cons, str_app_nil_l. cbn [getnum]. rewrite Hda, Hdb. unfold digit_value. do 2 f_equal. lia.
Qed.

Lemma parse_year_pad y t : 0 <= y <= 9999 → parse_year (zero_pad 4 y +:+ t) = Some (y, t).
Proof.
  intros Hy. destruct (zero_pad_spec 4 y) as (Ha & Hl & Hd); [change (10 ^ Z.of_nat 4) with 10000; lia|].
  assert (∀ u, str_take (String.length u) (u +:+ t) = u ∧ str_drop (String.length u) (u +:+ t) = t) as Htd.
  { induction u as [|c u [IH1 IH2]]; [by rewrite str_app_nil_l; destruct t|]. rewrite str_app_cons.
    cbn [String.length str_take str_drop]. by rewrite IH1, IH2. }
  specialize (Htd (zero_pad 4 y)). rewrite Hl in Htd. destruct Htd as [Ht Hdr].
  unfold parse_year. rewrite Ht, Hdr, Ha, Hd. unfold len. by rewrite Hl.
Qed.

Lemma skip_byte_cons c t : skip_byte c (String c t) = Some t.
Proof. unfold skip_byte. by rewrite Ascii.eqb_refl. Qed.

Lemma trim_fraction_spec w n : 0 <= n < 10 ^ Z.of_nat w →
  (n = 0 ∧ trim_fraction w n = "") ∨
  ∃ v k, (1 ≤ k ≤ w)%nat ∧ 0 <= v < 10 ^ Z.of_nat k ∧ trim_fraction w n = "." +:+ zero_pad k v ∧
    n = v * 10 ^ (Z.of_nat w - Z.of_nat k).
Proof.
  revert n. induction w as [|w IH]; intros n Hn; [left; cbn in *; split; [lia|done]|].
  cbn [trim_fraction]. destruct (Z.eqb_spec n 0) as [|Hne]; [by left|]. right.
  destruct (Z.eqb_spec (n mod 10) 0) as [Hm|Hm].
  - rewrite Nat2Z.inj_succ, Z.pow_succ_r in Hn by lia.
    destruct (IH (n / 10)) as [[Hz _]|(v & k & Hk & Hv & Ht & Hnk)]; [divlia|divlia|].
    exists v, k. split_and!; [lia|lia|lia|lia|done|].
    replace (Z.of_nat (S w) - Z.of_nat k) with (Z.succ (Z.of_nat w - Z.of_nat k)) by lia.
    rewrite Z.pow_succ_r by lia. divlia.
  - exists n, (S w). split_and!; [lia|lia|lia|lia|done|]. rewrite Z.sub_diag. lia.
Qed.

Lemma parse_fraction_trim n : 0 <= n < 10 ^ 9 → parse_fraction (trim_fraction 9 n +:+ "Z") = (n, "Z").
Proof.
  intros Hn. destruct (trim_fraction_spec 9 n Hn) as [[-> ->]|(v & k & Hk & Hv & -> & ->)]; [done|].
  destruct (zero_pad_spec k v Hv) as (Ha & Hl & Hd).
  rewrite str_app_assoc, str_app_cons, str_app_nil_l. unfold parse_fraction.
  change (one_of ".," ".") with true. cbn [andb].
  rewrite span_digits_app by done. destruct (zero_pad k v) as [|a s] eqn:E; [cbn in Hl; lia|].
  rewrite str_app_cons. cbn [all_bytes] in Ha. apply andb_true_iff in Ha as [-> _].
  rewrite str_take_all by lia. rewrite Hd. unfold len. by rewrite Hl.
Qed.

(** What [Time.MarshalJSON] writes is read back. *)
Lemma parse_format t s : format_time t = Some s → parse_time s = Some t.
Proof.
  unfold format_time. pose proof (day_number_civil (t / Second / 86400)) as Hc.
  destruct (civil (t / Second / 86400)) as [[y m] d]. destruct Hc as (Hn & Hm & Hd).
  rewrite Z.gtb_ltb. destruct (Z.ltb_spec y 0), (Z.ltb_spec 9999 y); try done. cbn [orb].
  match goal with |- Some ?x = Some s → _ => intros Hx; assert (s = x) as -> by congruence; clear Hx end.
  set (secs := t / Second) in *. set (sod := secs mod 86400).
  assert (0 <= sod < 86400) as Hsod by (apply Z.mod_pos_bound; lia).
  assert (0 <= t mod Second < 10 ^ 9) as Hns by (apply Z.mod_pos_bound; done).
  assert (d <= 31) as Hd31 by (unfold days_in in Hd; repeat case_match; lia).
  unfold parse_time.
  repeat (rewrite ?parse_year_pad, ?getnum_pad by (lia || divlia); cbn [mbind option_bind];
    rewrite ?(str_app_cons "-"), ?(str_app_cons "T"), ?(str_app_cons ":"), ?str_app_nil_l, ?skip_byte_cons;
    cbn [mbind option_bind]).
  rewrite parse_fraction_trim by done. cbn -[Z.ltb Z.mul day_number days_in].
  assert ((m <? 1) || (12 <? m) || (23 <? sod / 3600) || (59 <? sod / 60 mod 60) || (59 <? sod mod 60)
    || (d <? 1) || (days_in m y <? d) = false) as Hok.
  { rewrite !orb_false_iff, !Z.ltb_ge. repeat split; try lia; divlia. }
  rewrite !orb_false_iff in Hok. destruct_and!.
  repeat match goal with E : _ = false |- _ => rewrite E; clear E end. cbn [orb]. f_equal. rewrite Hn.
  assert (secs = secs / 86400 * 86400 + sod) as Hsecs by (unfold sod; divlia).
  assert (t = secs * Second + t mod Second) as Ht by (unfold secs, Second; divlia).
  assert (sod = sod / 3600 * 3600 + sod / 60 mod 60 * 60 + sod mod 60) as Hs3 by divlia.
  rewrite Ht at 2. f_equal. f_equal. lia.
Qed.
