(* ===== verification/GoJsonDecode.v ===== *)
(** * The decoder of [encoding/json]

    The second half of [json.Decoder.Decode]: storing a scanned value into a Go value.
    A location may be stored to several times, because keys may repeat; Go then decodes
    into what is already there.  A decoder of type [Dec T] therefore maps all the values
    stored into a location, in order, to its final content: [null] leaves a scalar or a
    struct alone and clears a slice or a pointer, objects for the same struct add their
    fields, and arrays for the same slice store into its elements again.  [None] is an
    error (a wrong kind of value, an integer out of range, an unknown field); the partial
    result that Go leaves behind then is never used. *)

From S2P Require Import Prelude GoRegexp GoBase64 GoStrings GoNet GoJson GoUnicode GoJsonScan GoRfc3339.

Definition Dec (T : Type) : Type := list tree → option T.

(** ** Scalars *)

Fixpoint dec_scalar {T} (read : tree → option T) (old : T) (stored : list tree) : option T :=
  match stored with
  | [] => Some old
  | TNull :: rest => dec_scalar read old rest
  | t :: rest => v ← read t; dec_scalar read v rest
  end.

Definition dec_string : Dec string :=
  dec_scalar (λ t, match t with TStr raw => Some (unquote raw) | _ => None end) "".
Definition dec_bool : Dec bool :=
  dec_scalar (λ t, match t with TBool b => Some b | _ => None end) false.
Definition dec_uint (bits : Z) : Dec Z :=
  dec_scalar (λ t, match t with TNum n => ParseUint bits n | _ => None end) 0.
Definition dec_int (bits : Z) : Dec Z :=
  dec_scalar (λ t, match t with TNum n => ParseInt bits n | _ => None end) 0.

(** [Time.UnmarshalJSON] reads the raw bytes between the quotes. *)
Definition dec_time : Dec time :=
  dec_scalar (λ t, match t with TStr raw => parse_time raw | _ => None end) zero_time.

(** ** Pointers and slices *)

(** [since] holds what was stored since the pointer was last nil. *)
Fixpoint dec_ptr_go {T} (d : Dec T) (since stored : list tree) : option (option T) :=
  match stored with
  | [] => match since with [] => Some None | _ => Some <$> d since end
  | TNull :: rest => match since with [] => Some tt | _ => d since;; Some tt end;; dec_ptr_go d [] rest
  | t :: rest => dec_ptr_go d (since ++ [t]) rest
  end.
Definition dec_ptr {T} (d : Dec T) : Dec (option T) := dec_ptr_go d [].

(** Adds the items of an array to what was stored into each element. *)
Fixpoint store_items (elements : list (list tree)) (items : list tree) : list (list tree) :=
  match elements, items with
  | e :: elements', x :: items' => (e ++ [x]) :: store_items elements' items'
  | _, [] => elements
  | [], _ => (λ x, [x]) <$> items
  end.

(** [elements] holds what was stored into each element of the backing array, [n] is the
    length of the slice; [null] and an empty array start with a new backing array. *)
Fixpoint dec_slice_go {T} (d : Dec T) (elements : list (list tree)) (n : nat) (stored : list tree)
    : option (list T) :=
  match stored with
  | [] => take n <$> mapM d elements
  | TNull :: rest | TArr [] :: rest => mapM d elements;; dec_slice_go d [] 0 rest
  | TArr items :: rest => dec_slice_go d (store_items elements items) (length items) rest
  | _ => None
  end.
Definition dec_slice {T} (d : Dec T) : Dec (list T) := dec_slice_go d [] 0.

(** ** Structs *)

(** The fields of the objects stored into a struct, with their keys unquoted. *)
Fixpoint stored_fields (stored : list tree) : option (list (string * tree)) :=
  match stored with
  | [] => Some []
  | TNull :: rest => stored_fields rest
  | TObj l :: rest => more ← stored_fields rest; Some (map (λ f, (unquote f.1, f.2)) l ++ more)
  | _ => None
  end.

(** The field that a key stands for: the one with this name, or the first one with this
    name up to letter case. *)
Definition field_of (names : list string) (key : string) : option string :=
  match List.find (String.eqb key) names with
  | Some n => Some n
  | None => List.find (EqualFoldASCII key) names
  end.

(** What was stored into the field [n]. *)
Definition values_of (names : list string) (fields : list (string * tree)) (n : string) : list tree :=
  omap (λ f, match field_of names f.1 with
             | Some m => if String.eqb m n then Some f.2 else None
             | None => None end) fields.

(** [strict] after [DisallowUnknownFields]. *)
Definition dec_struct {T} (strict : bool) (names : list string) (body : (string → list tree) → option T)
    : Dec T := λ stored,
  fields ← stored_fields stored;
  if strict && existsb (λ f, negb (is_Some_b (field_of names f.1))) fields then None
  else body (values_of names fields).

(** The fields of a struct are decoded independently of each other. *)
Definition ap {A B} (f : option (A → B)) (x : option A) : option B := g ← f; a ← x; Some (g a).
Infix "<*>" := ap (at level 61, left associativity) : go_scope.

(** ** [Decode] *)

Definition decode_value {T} (d : Dec T) (s : string) : result (T * string) :=
  match next_value s with
  | Value t rest => match d [t] with
                    | Some v => Ok (v, rest)
                    | None => Err (NewError "json: cannot unmarshal value")
                    end
  | Syntax => Err (NewError "json: invalid character")
  | More => Err (NewError "unexpected EOF")
  end.

(** The decimal value [m * 10^e] of a literal without its sign, and the exponent, which
    [strconv.ParseFloat] stops to read once it exceeds 10000. *)
Fixpoint mantissa (m e : Z) (point : bool) (s : string) : Z * Z * string :=
  match s with
  | String c s' =>
      if digit c then mantissa (m * 10 + (ord c - 48)) (if point then e - 1 else e) point s'
      else if Ascii.eqb c "." then mantissa m e true s'
      else (m, e, s)
  | EmptyString => (m, e, "")
  end.

Fixpoint exponent (e : Z) (s : string) : Z :=
  match s with
  | String c s' => exponent (if e <? 10000 then e * 10 + (ord c - 48) else e) s'
  | EmptyString => e
  end.

Definition float_parts (literal : string) : Z * Z :=
  let unsigned := match literal with
    | String c s => if Ascii.eqb c "-" then s else literal | EmptyString => "" end in
  let '(m, e, s) := mantissa 0 0 false unsigned in
  match s with
  | String _ (String c s') =>
      if Ascii.eqb c "-" then (m, e - exponent 0 s')
      else if Ascii.eqb c "+" then (m, e + exponent 0 s') else (m, e + exponent 0 (String c s'))
  | _ => (m, e)
  end.

(** The nearest [float64] is infinite. *)
Definition float_overflows (literal : string) : bool :=
  let '(m, e) := float_parts literal in
  let bound := 2 ^ 1024 - 2 ^ 970 in
  if 0 <=? e then bound <=? m * 10 ^ e else bound * 10 ^ (- e) <=? m.

(** Storing into an [any] fails only on such a number. *)
Fixpoint any_ok (t : tree) : bool :=
  match t with
  | TNum n => negb (float_overflows n)
  | TArr l => forallb any_ok l
  | TObj l => forallb (λ f, any_ok f.2) l
  | _ => true
  end.

(** A second [Decode] into an [any]. *)
#[global] Instance json_syntax : JsonSyntax := λ s,
  if bool_decide (skip_space s = "") then None
  else Some match next_value s with
       | Value t _ => fail_if (negb (any_ok t)) (NewError "json: cannot unmarshal number")
       | Syntax => Err (NewError "json: invalid character")
       | More => Err (NewError "unexpected EOF")
       end.

(** The end of a number or word is only known at the next byte, and that of a string is
    only reported there. *)
Definition needs_byte (t : tree) (rest : string) : bool :=
  bool_decide (rest = "") && match t with TArr _ | TObj _ => false | _ => true end.

(** Whether two calls of [Decode] on a stream that starts with [s] read beyond it. *)
Definition reads_on {T} (d : Dec T) (s : string) : bool :=
  match next_value s with
  | More => true
  | Syntax => false
  | Value t rest =>
      needs_byte t rest ||
      is_Some_b (d [t]) &&
        match next_value rest with More => true | Syntax => false | Value u rest' => needs_byte u rest' end
  end.

(** ** Tests *)

Definition key (s : string) (value : string) : string := literal_of s +:+ ":" +:+ value.

Example decode_repeated_keys :
  let d := dec_struct true ["id"; "list"]
    (λ f, Some pair <*> dec_uint 16 (f "id") <*> dec_slice (dec_int 8) (f "list")) in
  decode_value d ("{" +:+ key "ID" "7" +:+ "," +:+ key "list" "[1,2,3]" +:+ "," +:+ key "id" "null" +:+ ","
    +:+ key "list" "[null,5]" +:+ "} x") = Ok ((7, [1; 5]), " x") ∧
  is_Ok (decode_value d ("{" +:+ key "other" "7" +:+ "}")) = false ∧
  is_Ok (decode_value d ("{" +:+ key "id" "65536" +:+ "}")) = false.
Proof. by vm_compute. Qed.

Example next_any : json_Next " " = None ∧ json_Next "1e309" ≠ Some (Ok tt) ∧ json_Next "1.5e308" = Some (Ok tt).
Proof. by vm_compute. Qed.

(** ** Reading back what was printed *)

Lemma dec_scalar_one {T} (read : tree → option T) old t : t ≠ TNull → dec_scalar read old [t] = read t.
Proof. intros Hne. destruct t; [done|..]; cbn; match goal with |- context [read ?t] => by destruct (read t) end. Qed.

Lemma dec_string_print html s : ValidString s = true → dec_string [tree_of html (JStr s)] = Some s.
Proof. intros Hs. unfold dec_string. rewrite dec_scalar_one by done. cbn. by rewrite unquote_escape. Qed.



Lemma dec_bool_print html b : dec_bool [tree_of html (JBool b)] = Some b.
Proof. done. Qed.

Lemma dec_uint_print html bits z : 0 <= z < 2 ^ bits → dec_uint bits [tree_of html (JInt z)] = Some z.
Proof. intros Hz. unfold dec_uint. rewrite dec_scalar_one by done. by apply ParseUint_pretty. Qed.

Lemma dec_int_print html bits z : - 2 ^ (bits - 1) <= z < 2 ^ (bits - 1) →
  dec_int bits [tree_of html (JInt z)] = Some z.
Proof. intros Hz. unfold dec_int. rewrite dec_scalar_one by done. by apply ParseInt_pretty. Qed.

Lemma dec_slice_print {T} (d : Dec T) html (f : T → json) l :
  Forall (λ x, d [tree_of html (f x)] = Some x) l → dec_slice d [tree_of html (JArr (map f l))] = Some l.
Proof.
  intros Hl. unfold dec_slice. cbn [tree_of]. rewrite map_map. destruct l as [|x l]; [done|].
  assert (mapM d ((λ y, [y]) <$> map (λ x, tree_of html (f x)) (x :: l)) = Some (x :: l)) as Hm.
  { apply mapM_Some_2. induction Hl; [done|]. constructor; [done|]. done. }
  cbn [dec_slice_go map]. cbn [map] in Hm. cbn [store_items]. rewrite Hm. cbn [fmap option_fmap option_map].
  f_equal. rewrite take_ge; [done|]. cbn. by rewrite length_map.
Qed.

Lemma dec_ptr_print {T} (d : Dec T) t v : t ≠ TNull → d [t] = Some v → dec_ptr d [t] = Some (Some v).
Proof. intros Hne Hd. unfold dec_ptr. destruct t; try done; cbn; by rewrite Hd. Qed.

(** What the printed fields store into the field [n]. *)
Definition printed_values (html : bool) (l : list (string * json)) (n : string) : list tree :=
  omap (λ f, if String.eqb f.1 n then Some (tree_of html f.2) else None) l.

Lemma field_of_exact names n : n ∈ names → field_of names n = Some n.
Proof.
  intros Hn. unfold field_of. destruct (List.find (String.eqb n) names) as [m|] eqn:E.
  - apply find_some in E as [_ ->%String.eqb_eq]. done.
  - apply list_elem_of_In in Hn. apply (find_none _ _ E) in Hn. by rewrite String.eqb_refl in Hn.
Qed.

Lemma dec_struct_print {T} strict names (body : (string → list tree) → option T) html l :
  forallb (λ f, existsb (String.eqb f.1) names && ValidString f.1) l = true →
  (∀ g g', (∀ n, g n = g' n) → body g = body g') →
  dec_struct strict names body [tree_of html (JObj l)] = body (printed_values html l).
Proof.
  intros Hl Hext. rewrite forallb_forall in Hl.
  assert (Forall (λ f, f.1 ∈ names ∧ unquote (escape_string html O true f.1) = f.1) l) as Hkeys.
  { apply Forall_forall. intros f Hf%list_elem_of_In. specialize (Hl f Hf). apply andb_true_iff in Hl as [Hn Hv].
    apply existsb_exists in Hn as (m & Hm & E%String.eqb_eq).
    split; [rewrite E; by apply list_elem_of_In|by apply unquote_escape]. }
  clear Hl. unfold dec_struct. cbn [tree_of stored_fields mbind option_bind]. rewrite app_nil_r, map_map.
  assert (existsb (λ f, negb (is_Some_b (field_of names f.1)))
    (map (λ f, (unquote (escape_string html O true f.1), tree_of html f.2)) l) = false) as Hex.
  { induction Hkeys as [|f l [Hn Hu] _ IH]; [done|]. cbn [map existsb fst]. by rewrite Hu, field_of_exact, IH. }
  cbn [fst snd]. cbn [fst snd] in Hex. rewrite Hex, andb_false_r. apply Hext. intros n. unfold values_of, printed_values.
  clear Hex. induction Hkeys as [|f l [Hn Hu] _ IH]; [done|]. cbn [map omap list_omap fst snd] in *.
  rewrite Hu, field_of_exact by done. destruct (String.eqb f.1 n); [by f_equal|done].
Qed.

Lemma decode_value_print {T} (d : Dec T) html j rest v :
  printable_json maxNestingDepth j → number_stop rest = true → d [tree_of html j] = Some v →
  decode_value d (print_with html j +:+ rest) = Ok (v, rest).
Proof. intros Hj Hr Hd. unfold decode_value. by rewrite next_value_print, Hd. Qed.

(** One printed value, and white space after it. *)
Lemma decode_one_print {T} `{JsonDecode T} (d : Dec T) html j rest v trailing multiple :
  (∀ s, json_Decode s = decode_value d s) →
  printable_json maxNestingDepth j → skip_space rest = "" → d [tree_of html j] = Some v →
  decode_one trailing multiple (print_with html j +:+ rest) = Ok v.
Proof.
  intros Hd Hj Hr Hv. unfold decode_one. rewrite Hd, (decode_value_print d html j rest v); try done.
  - cbn [mbind]. cbn. unfold json_Next, json_syntax. by rewrite Hr.
  - destruct rest as [|c rest]; [done|]. cbn in Hr |- *. destruct (space c) eqn:Hc; [|done].
    pose proof (byte_cases (λ c, implb (space c) (negb (digit c) && negb (one_of ".eE" c))) c eq_refl) as Hall.
    cbn beta in Hall. by rewrite Hc in Hall.
Qed.

(** ** What is decoded is typed

    Integers are in the range of their type and strings are valid UTF-8, whatever the
    input. *)

Lemma rune_list_fuel n m s : (String.length s ≤ n)%nat → (String.length s ≤ m)%nat →
  rune_list n s = rune_list m s.
Proof.
  revert m s. induction n as [|n IH]; intros m [|c s] Hn Hm; try (cbn in *; lia); [by destruct m..|].
  destruct m as [|m]; [cbn in Hm; lia|]. rewrite !rune_list_cons.
  pose proof (DecodeRune_size (String c s)) as Hs. destruct (DecodeRune (String c s)) as [r size].
  cbn [snd] in Hs. f_equal. apply IH; rewrite str_drop_length; cbn [String.length] in *; lia.
Qed.

Lemma ValidString_rune r size s t : DecodeRune (s +:+ t) = (r, size) → str_drop size (s +:+ t) = t →
  valid_rune (r, str_take size (s +:+ t)) = true → ValidString t = true → ValidString (s +:+ t) = true.
Proof.
  intros Hd Hdrop Hv Ht. unfold ValidString, runes in *. destruct (s +:+ t) as [|c u] eqn:E; [done|].
  cbn [String.length]. rewrite rune_list_cons, Hd, Hdrop. cbn [forallb]. rewrite Hv. cbn [andb].
  rewrite <-Ht. f_equal. apply rune_list_fuel; [|done].
  rewrite <-Hdrop, str_drop_length. pose proof (DecodeRune_size (String c u)) as Hs. rewrite Hd in Hs.
  cbn [snd String.length] in *. lia.
Qed.

Lemma ValidString_ascii c t : ord c < 128 → ValidString t = true → ValidString (String c t) = true.
Proof.
  intros Hc Ht. change (String c t) with (String c "" +:+ t).
  apply (ValidString_rune (ord c) 1); rewrite ?str_app_cons, ?str_app_nil_l;
    [by apply DecodeRune_ascii|by destruct t| |done].
  unfold valid_rune. cbn [fst snd]. unfold RuneError. by destruct (Z.eqb_spec (ord c) 65533); [lia|].
Qed.

Lemma ValidString_multi p r t : multi p r → ValidString t = true → ValidString (p +:+ t) = true.
Proof.
  intros Hm Ht. destruct (multi_decode p r t Hm) as (size & Hd & Hdrop).
  apply (ValidString_rune r size); try done. unfold valid_rune. cbn [fst snd].
  assert (len (str_take size (p +:+ t)) ≠ 1) as Hne.
  { pose proof (str_take_drop size (p +:+ t)) as Hsplit. rewrite Hdrop in Hsplit.
    apply (f_equal len) in Hsplit. rewrite !len_app in Hsplit.
    assert (2 <= len p) by (destruct Hm; unfold len; cbn; lia). lia. }
  apply Z.eqb_neq in Hne. by rewrite Hne, andb_false_r.
Qed.

Lemma EncodeRune_multi r : 128 <= r < 1114112 → is_surrogate r = false → multi (EncodeRune r) r.
Proof.
  intros Hr Hs. unfold is_surrogate in Hs. unfold EncodeRune.
  destruct (Z.ltb_spec r 128); [lia|]. destruct (Z.ltb_spec r 2048) as [H2|H2];
    [|destruct (Z.ltb_spec r 65536) as [H3|H3]].
  - pose proof (multi2 (byte (192 + r / 64)) (byte (128 + r mod 64))) as Hm.
    rewrite !ord_byte in Hm by divlia.
    replace ((192 + r / 64) mod 32 * 64 + (128 + r mod 64) mod 64) with r in Hm by divlia. apply Hm; divlia.
  - pose proof (multi3 (byte (224 + r / 4096)) (byte (128 + r / 64 mod 64)) (byte (128 + r mod 64))) as Hm.
    rewrite !ord_byte in Hm by divlia.
    replace ((224 + r / 4096) mod 16 * 4096 + (128 + r / 64 mod 64) mod 64 * 64 + (128 + r mod 64) mod 64)
      with r in Hm by divlia.
    apply Hm; [divlia| |divlia]. apply andb_false_iff in Hs. rewrite !Z.leb_gt in Hs.
    unfold second_byte. destruct (Z.eqb_spec (224 + r / 4096) 224), (Z.eqb_spec (224 + r / 4096) 240),
      (Z.eqb_spec (224 + r / 4096) 237), (Z.eqb_spec (224 + r / 4096) 244); divlia.
  - pose proof (multi4 (byte (240 + r / 262144)) (byte (128 + r / 4096 mod 64)) (byte (128 + r / 64 mod 64))
      (byte (128 + r mod 64))) as Hm.
    rewrite !ord_byte in Hm by divlia.
    replace ((240 + r / 262144) mod 8 * 262144 + (128 + r / 4096 mod 64) mod 64 * 4096 +
      (128 + r / 64 mod 64) mod 64 * 64 + (128 + r mod 64) mod 64) with r in Hm by divlia.
    apply Hm; [divlia| |divlia|divlia].
    unfold second_byte. destruct (Z.eqb_spec (240 + r / 262144) 224), (Z.eqb_spec (240 + r / 262144) 240),
      (Z.eqb_spec (240 + r / 262144) 237), (Z.eqb_spec (240 + r / 262144) 244); divlia.
Qed.

Lemma ValidString_EncodeRune r t : 0 <= r < 1114112 → is_surrogate r = false →
  ValidString t = true → ValidString (EncodeRune r +:+ t) = true.
Proof.
  intros Hr Hs Ht. destruct (decide (r < 128)) as [Hlo|Hhi].
  - unfold EncodeRune. destruct (Z.ltb_spec r 128); [|lia]. rewrite str_app_cons, str_app_nil_l.
    apply ValidString_ascii; [|done]. rewrite ord_byte; lia.
  - eapply ValidString_multi; [|done]. apply EncodeRune_multi; [lia|done].
Qed.

Lemma hex_number_range acc s : 0 <= acc → 0 <= hex_number acc s < (acc + 1) * 16 ^ len s.
Proof.
  revert acc. induction s as [|c s IH]; intros acc Hacc; [change (16 ^ len "") with 1; cbn [hex_number]; lia|]. cbn [hex_number].
  assert (0 <= default 0 (hex_value c) < 16) as Hc.
  { pose proof (byte_cases (λ c, (0 <=? default 0 (hex_value c)) && (default 0 (hex_value c) <? 16)) c eq_refl) as Hall.
    cbn beta in Hall. apply andb_true_iff in Hall as [?%Z.leb_le ?%Z.ltb_lt]. lia. }
  specialize (IH (acc * 16 + default 0 (hex_value c)) ltac:(lia)).
  unfold len in *. rewrite str_length_cons, Nat2Z.inj_succ, Z.pow_succ_r by lia.
  pose proof (Z.pow_pos_nonneg 16 (Z.of_nat (String.length s)) ltac:(lia) ltac:(lia)). nia.
Qed.

Lemma hex4_range s : 0 <= hex_number 0 (str_take 4 s) < 65536.
Proof.
  pose proof (hex_number_range 0 (str_take 4 s) ltac:(lia)) as Hr. split; [lia|].
  assert (16 ^ len (str_take 4 s) <= 16 ^ 4); [|lia]. apply Z.pow_le_mono_r; [lia|].
  unfold len. rewrite str_take_length. lia.
Qed.

Lemma DecodeRune_rune s : 0 <= (DecodeRune s).1 < 1114112 ∧ is_surrogate (DecodeRune s).1 = false.
Proof.
  destruct (DecodeRune s) as [r size] eqn:E. cbn [fst]. destruct (decide (size = 1%nat)) as [->|Hne].
  - unfold DecodeRune in E. destruct (Z.ltb_spec (nth_byte s 0) 128).
    + injection E as <-. assert (0 <= nth_byte s 0) by (unfold nth_byte; case_match; [apply ord_range|lia]).
      unfold is_surrogate. destruct (Z.leb_spec 55296 (nth_byte s 0)); [lia|]. split; [lia|done].
    + revert E. repeat case_match; intros [= <-]; done.
  - pose proof (DecodeRune_multi _ _ _ E Hne) as Hm. unfold is_surrogate. rewrite andb_false_iff, !Z.leb_gt.
    destruct Hm as [c0 c1 H0 H1|c0 c1 c2 H0 H1 H2|c0 c1 c2 c3 H0 H1 H2 H3]; unfold second_byte in *;
      [divlia| |];
      destruct (Z.eqb_spec (ord c0) 224), (Z.eqb_spec (ord c0) 240), (Z.eqb_spec (ord c0) 237),
        (Z.eqb_spec (ord c0) 244); divlia.
Qed.

Lemma ValidString_unquote_go fuel raw : ValidString (unquote_go fuel raw) = true.
Proof.
  revert raw. induction fuel as [|fuel IH]; intros [|c s1]; [done..|]. cbn [unquote_go].
  destruct (ord c =? 92).
  - destruct s1 as [|e s2]; [done|]. destruct (Ascii.eqb e "u").
    + pose proof (hex4_range s2) as Hr. destruct (is_surrogate _) eqn:Hs.
      * destruct (surrogate_pair _ _) as [d|] eqn:Hp; [|by apply ValidString_EncodeRune].
        assert (65536 <= d < 1114112) as Hd.
        { unfold surrogate_pair in Hp. destruct (HasPrefix _ _); [|done]. destruct (_ && _) eqn:Hc; [|done].
          unfold is_surrogate in Hs. rewrite !andb_true_iff, !Z.leb_le in Hs, Hc.
          match type of Hp with Some ?x = _ => assert (d = x) by congruence end. lia. }
        apply ValidString_EncodeRune; [lia| |done]. unfold is_surrogate. apply andb_false_iff. right.
        apply Z.leb_gt. lia.
      * apply ValidString_EncodeRune; [lia|done|done].
    + destruct (simple_escape e) eqn:He; [|done]. apply ValidString_ascii; [|done].
      pose proof (byte_cases (λ c, implb (simple_escape c) (ord (escaped_char c) <? 128)) e eq_refl) as Hall.
      cbn beta in Hall. rewrite He in Hall. by apply Z.ltb_lt.
  - destruct (Z.ltb_spec (ord c) 128); [by apply ValidString_ascii|].
    pose proof (DecodeRune_rune (String c s1)) as [Hr Hs]. destruct (DecodeRune (String c s1)) as [r size].
    by apply ValidString_EncodeRune.
Qed.

Lemma ValidString_unquote raw : ValidString (unquote raw) = true.
Proof. apply ValidString_unquote_go. Qed.

Lemma dec_scalar_inv {T} (P : T → Prop) (read : tree → option T) old stored v :
  (∀ t u, read t = Some u → P u) → P old → dec_scalar read old stored = Some v → P v.
Proof.
  intros Hread. revert old. induction stored as [|t stored IH]; intros old Hold; cbn [dec_scalar].
  - by intros [= <-].
  - destruct t; [by apply IH|..]; intros (u & Hu & Hv)%bind_Some; (eapply IH; [by eapply Hread|done]).
Qed.

Lemma dec_string_inv stored s : dec_string stored = Some s → ValidString s = true.
Proof.
  apply (dec_scalar_inv (λ s, ValidString s = true)); [|done].
  intros [] u; try done. intros [= <-]. apply ValidString_unquote.
Qed.

Lemma decimal_nonneg acc s : 0 <= acc → all_bytes digit s = true → 0 <= decimal acc s.
Proof.
  revert acc. induction s as [|c s IH]; intros acc Hacc Hs; [done|]. cbn [all_bytes] in Hs.
  apply andb_true_iff in Hs as [Hc Hs]. cbn [decimal]. apply IH; [|done].
  pose proof (byte_cases (λ c, implb (digit c) (48 <=? ord c)) c eq_refl) as Hall. cbn beta in Hall.
  rewrite Hc in Hall. apply Z.leb_le in Hall. lia.
Qed.

Lemma dec_uint_inv bits stored z : 0 <= bits → dec_uint bits stored = Some z → 0 <= z < 2 ^ bits.
Proof.
  intros Hb. apply (dec_scalar_inv (λ z, 0 <= z < 2 ^ bits)); [|split; [done|by apply Z.pow_pos_nonneg]].
  intros [] u; try done. unfold ParseUint. destruct (_ && _) eqn:E; [|done]. intros [= <-].
  rewrite !andb_true_iff, Z.ltb_lt in E. destruct E as [[Hd _] Hlt]. split; [|done]. by apply decimal_nonneg.
Qed.

Lemma dec_int_inv bits stored z : 1 <= bits → dec_int bits stored = Some z →
  - 2 ^ (bits - 1) <= z < 2 ^ (bits - 1).
Proof.
  intros Hb. pose proof (Z.pow_pos_nonneg 2 (bits - 1) ltac:(lia) ltac:(lia)).
  apply (dec_scalar_inv (λ z, - 2 ^ (bits - 1) <= z < 2 ^ (bits - 1))); [|lia].
  intros [] u; try done. unfold ParseInt.
  match goal with |- context [let '(_, _) := ?p in _] => destruct p as [negative digits] end.
  destruct (_ && _); [|done]. cbv zeta. destruct ((_ <=? _) && _) eqn:E; [|done]. intros [= <-].
  by rewrite andb_true_iff, Z.leb_le, Z.ltb_lt in E.
Qed.

Lemma mapM_inv {A B} (P : B → Prop) (d : A → option B) l vs :
  (∀ a b, d a = Some b → P b) → mapM d l = Some vs → Forall P vs.
Proof. intros Hd Hm%mapM_Some. induction Hm; constructor; eauto. Qed.

Lemma dec_slice_inv {T} (P : T → Prop) (d : Dec T) stored vs :
  (∀ l v, d l = Some v → P v) → dec_slice d stored = Some vs → Forall P vs.
Proof.
  intros Hd. unfold dec_slice. generalize (@nil (list tree)) O.
  induction stored as [|t stored IH]; intros elements n; cbn [dec_slice_go].
  - intros (us & Hus & ->)%fmap_Some. by eapply Forall_take, mapM_inv.
  - destruct t as [| | | |items|]; try done; [|destruct items; [|apply IH]];
      intros Hv; apply bind_Some in Hv as (? & _ & Hv); by eapply IH.
Qed.

Lemma dec_ptr_inv {T} (P : T → Prop) (d : Dec T) stored v :
  (∀ l v, d l = Some v → P v) → dec_ptr d stored = Some v → from_option P True v.
Proof.
  intros Hd. unfold dec_ptr. generalize (@nil tree). induction stored as [|t stored IH]; intros since; cbn [dec_ptr_go].
  - destruct since; [by intros [= <-]|]. intros (u & Hu & ->)%fmap_Some. by eapply Hd.
  - destruct t; try apply IH. intros Hv. apply bind_Some in Hv as (? & _ & Hv). by eapply IH.
Qed.

Lemma dec_struct_inv {T} strict names (body : (string → list tree) → option T) stored v :
  dec_struct strict names body stored = Some v → ∃ f, body f = Some v.
Proof.
  intros (fields & _ & Hb)%bind_Some. destruct (_ && _); [done|]. eauto.
Qed.

Lemma ap_Some {A B} (f : option (A → B)) (x : option A) b :
  f <*> x = Some b ↔ ∃ g a, f = Some g ∧ x = Some a ∧ b = g a.
Proof. unfold ap. destruct f, x; cbn; naive_solver. Qed.
