(* ===== verification/GoFold.v ===== *)
(** * The spellings of a name under [strings.EqualFold]

    The code compares hosts with [strings.EqualFold(host, "localhost")].  Its simple folding
    reaches beyond ASCII: U+017F folds to [s] and U+212A to [k].  This file says which strings
    such a comparison accepts without folding anything: byte for byte, as a choice of pieces. *)

From S2P Require Import Prelude GoRegexp GoBase64 GoStrings GoJson GoNet GoUnicode GoJsonScan GoRfc3339 GoJsonDecode.

(** The string is one of the pieces of each place, in order. *)
Fixpoint spelled (places : list (list string)) (s : string) : Prop :=
  match places with
  | [] => s = ""
  | pieces :: rest => ∃ p t, p ∈ pieces ∧ s = p +:+ t ∧ spelled rest t
  end.

(** The name of the local host in any ASCII case. *)
Definition local_name (host : string) : Prop :=
  spelled [["l"; "L"]; ["o"; "O"]; ["c"; "C"]; ["a"; "A"]; ["l"; "L"]; ["h"; "H"]; ["o"; "O"]; ["s"; "S"];
    ["t"; "T"]] host.

(** The same with U+017F, the long s, where the [s] stands: another name. *)
Definition long_s : string := String (byte 197) (String (byte 191) "").
Definition long_s_name (host : string) : Prop :=
  spelled [["l"; "L"]; ["o"; "O"]; ["c"; "C"]; ["a"; "A"]; ["l"; "L"]; ["h"; "H"]; ["o"; "O"]; [long_s];
    ["t"; "T"]] host.

(** ** Runes and their bytes *)

Lemma runes_step r size p s : DecodeRune (p +:+ s) = (r, size) → str_drop size (p +:+ s) = s → p +:+ s ≠ "" →
  (runes (p +:+ s)).*1 = r :: (runes s).*1.
Proof.
  intros Hd Hdrop Hne. unfold runes. destruct (p +:+ s) as [|c u] eqn:E; [done|]. cbn [String.length].
  rewrite rune_list_cons, Hd, Hdrop. cbn [fmap list_fmap fst]. f_equal. f_equal. apply rune_list_fuel; [|done].
  rewrite <-Hdrop, str_drop_length. pose proof (DecodeRune_size (String c u)) as Hs. rewrite Hd in Hs.
  cbn [snd String.length] in *. lia.
Qed.

(** The first rune of a string: one byte of ASCII, an invalid byte, or a multi-byte encoding. *)
Lemma runes_split c s : ∃ r p t, String c s = p +:+ t ∧ (runes (String c s)).*1 = r :: (runes t).*1 ∧
  (r = RuneError ∨ p = EncodeRune r).
Proof.
  destruct (DecodeRune (String c s)) as [r size] eqn:E. exists r, (str_take size (String c s)), (str_drop size (String c s)).
  rewrite str_take_drop. split; [done|]. split.
  - rewrite <-(str_take_drop size (String c s)) at 1. apply (runes_step r size); by rewrite str_take_drop.
  - destruct (Z.ltb_spec (ord c) 128) as [Hc|Hc].
    { rewrite DecodeRune_ascii in E by done. injection E as <- <-. right. by rewrite EncodeRune_ascii. }
    destruct (decide (size = 1%nat)) as [->|Hne]; [left; by apply (DecodeRune_one _ _ E)|right].
    symmetry. by eapply multi_encode, DecodeRune_multi.
Qed.

(** The encodings that matter decode. *)
Lemma runes_ascii r t : 0 <= r < 128 → (runes (EncodeRune r +:+ t)).*1 = r :: (runes t).*1.
Proof.
  intros Hr. assert (ord (byte r) = r) as Ho by (apply ord_byte; lia).
  assert (EncodeRune r = String (byte r) "") as -> by (rewrite <-Ho at 1; apply EncodeRune_ascii; lia).
  apply (runes_step r 1); rewrite str_app_cons, str_app_nil_l; [|by destruct t|done].
  rewrite DecodeRune_ascii by lia. by rewrite Ho.
Qed.

Lemma runes_multi p r t : multi p r → (runes (p +:+ t)).*1 = r :: (runes t).*1.
Proof.
  intros Hm. destruct (multi_decode p r t Hm) as (size & Hd & Hdrop). apply (runes_step r size); [done..|].
  by destruct Hm.
Qed.

(** ** Folding *)

(** The runes that fold to a lower-case letter. *)
Definition variants (target : Z) : list Z :=
  filter (λ r, fold_ascii r = target) [target; target - 32; 8490; 383].

Lemma fold_variants target r : 97 <= target <= 122 → fold_ascii r = target ↔ r ∈ variants target.
Proof.
  intros Ht. unfold variants. rewrite list_elem_of_filter. split; [intros Hr; split; [done|]|tauto].
  unfold fold_ascii in Hr. rewrite !elem_of_cons.
  destruct (_ && _); [lia|]. destruct (Z.eqb_spec r 8490); [tauto|]. destruct (Z.eqb_spec r 383); tauto.
Qed.

Lemma runes_variant target r t : 97 <= target <= 122 → r ∈ variants target →
  (runes (EncodeRune r +:+ t)).*1 = r :: (runes t).*1.
Proof.
  intros Ht [_ Hr]%list_elem_of_filter. rewrite !elem_of_cons, elem_of_nil in Hr.
  destruct Hr as [->|[->|[->|[->|[]]]]]; [apply runes_ascii; lia..| |]; apply runes_multi.
  - apply (multi3 (byte 226) (byte 132) (byte 170)); vm_compute; intuition discriminate.
  - apply (multi2 (byte 197) (byte 191)); vm_compute; intuition discriminate.
Qed.

Lemma fold_spelled targets s : Forall (λ t, 97 <= t <= 122) targets →
  fold_ascii <$> (runes s).*1 = targets ↔ spelled ((λ t, EncodeRune <$> variants t) <$> targets) s.
Proof.
  intros Ht. revert s. induction Ht as [|target targets Hrange Hrest IH]; intros s.
  { destruct s as [|c s]; [done|]. destruct (runes_split c s) as (r & p & t & -> & Hr & _). rewrite Hr.
    cbn. split; [done|]. intros E. by rewrite E in Hr. }
  cbn [fmap list_fmap spelled]. split.
  - destruct s as [|c s]; [done|]. destruct (runes_split c s) as (r & p & t & -> & Hr & Hp). rewrite Hr.
    cbn [fmap list_fmap]. intros [= Hfold Htail]. exists p, t. split; [|split; [done|by apply IH]].
    destruct Hp as [->| ->]; [exfalso; vm_compute in Hfold; lia|].
    apply list_elem_of_fmap. exists r. split; [done|]. by apply fold_variants.
  - intros (p & t & (r & -> & Hr)%list_elem_of_fmap & -> & Htail%IH).
    rewrite (runes_variant target) by done. cbn [fmap list_fmap]. f_equal; [|done].
    by apply fold_variants in Hr.
Qed.

(** A place with more pieces is a choice between two spellings. *)
Lemma spelled_choice before c1 c2 after s :
  spelled (before ++ (c1 ++ c2) :: after) s ↔ spelled (before ++ c1 :: after) s ∨ spelled (before ++ c2 :: after) s.
Proof.
  revert s. induction before as [|c before IH]; intros s; cbn.
  - split.
    + intros (p & t & Hp & Hs & Ht). apply elem_of_app in Hp as [Hp|Hp]; [left|right]; by exists p, t.
    + intros [(p & t & Hp & Hs & Ht)|(p & t & Hp & Hs & Ht)]; exists p, t; rewrite elem_of_app; tauto.
  - split.
    + intros (p & t & Hp & Hs & [Ht|Ht]%IH); [left|right]; by exists p, t.
    + intros [(p & t & Hp & Hs & Ht)|(p & t & Hp & Hs & Ht)]; exists p, t; rewrite IH; tauto.
Qed.

(** What the comparison with the name of the local host accepts: that name, and one other. *)
Lemma EqualFold_localhost host :
  EqualFoldASCII host "localhost" = true ↔ local_name host ∨ long_s_name host.
Proof.
  unfold EqualFoldASCII. rewrite bool_decide_eq_true.
  assert ((λ r, fold_ascii r.1) <$> runes "localhost" = [108; 111; 99; 97; 108; 104; 111; 115; 116]) as -> by reflexivity.
  assert ((λ r, fold_ascii r.1) <$> runes host = fold_ascii <$> (runes host).*1) as ->
    by apply (list_fmap_compose fst fold_ascii).
  rewrite fold_spelled by (repeat constructor; lia).
  unfold local_name, long_s_name.
  rewrite <-(spelled_choice [["l"; "L"]; ["o"; "O"]; ["c"; "C"]; ["a"; "A"]; ["l"; "L"]; ["h"; "H"]; ["o"; "O"]]
    ["s"; "S"] [long_s] [["t"; "T"]] host).
  assert ((λ t, EncodeRune <$> variants t) <$> [108; 111; 99; 97; 108; 104; 111; 115; 116] =
    [["l"; "L"]; ["o"; "O"]; ["c"; "C"]; ["a"; "A"]; ["l"; "L"]; ["h"; "H"]; ["o"; "O"]; ["s"; "S"; long_s]; ["t"; "T"]])
    as -> by (vm_compute; reflexivity).
  done.
Qed.

(** The two names differ: in ASCII the name has nine bytes. *)
Lemma spelled_length places n s : Forall2 (λ pieces n, Forall (λ p, String.length p = n) pieces) places n →
  spelled places s → String.length s = sum_list n.
Proof.
  intros Hp. revert s. induction Hp as [|pieces n places ns Hpieces Hrest IH]; intros s; cbn [spelled]; [by intros ->|].
  intros (p & t & Hin & -> & Ht). rewrite Forall_forall in Hpieces. rewrite str_length_app.
  cbn [sum_list]. by rewrite (Hpieces _ Hin), (IH _ Ht).
Qed.

Lemma long_s_is_not_local host : long_s_name host → ¬ local_name host.
Proof.
  intros Hl Hn. apply (spelled_length _ [1; 1; 1; 1; 1; 1; 1; 2; 1]%nat) in Hl; [|by repeat constructor].
  apply (spelled_length _ [1; 1; 1; 1; 1; 1; 1; 1; 1]%nat) in Hn; [|by repeat constructor].
  rewrite Hl in Hn. discriminate.
Qed.
