(* ===== verification/GoJsonIndent.v ===== *)
(** * Indented JSON

    [json.Encoder] with [SetIndent("", "  ")]: the layout of [json.Indent], and the scanner of
    [GoJsonScan] on what it writes. *)

From S2P Require Import Prelude GoRegexp GoBase64 GoStrings GoJson GoUnicode GoJsonScan GoJsonDecode.

(** A line break and the indentation of a level. *)
Fixpoint spaces (n : nat) : string :=
  match n with O => "" | S n => String " " (String " " (spaces n)) end.
Definition line (level : nat) : string := String (byte 10) (spaces level).

Fixpoint print_indent (html : bool) (level : nat) (j : json) : string :=
  match j with
  | JNull => "null"
  | JBool b => if b then "true" else "false"
  | JNum n => n
  | JStr s => quoted html s
  | JArr [] => "[]"
  | JArr l =>
      "[" +:+ line (S level) +:+
      join ("," +:+ line (S level)) (map (print_indent html (S level)) l) +:+ line level +:+ "]"
  | JObj [] => "{}"
  | JObj l =>
      "{" +:+ line (S level) +:+
      join ("," +:+ line (S level)) (map (λ f, quoted html f.1 +:+ ": " +:+ print_indent html (S level) f.2) l)
      +:+ line level +:+ "}"
  end.

(** ** Scanning *)

Lemma skip_line level s : skip_space (line level +:+ s) = skip_space s.
Proof.
  unfold line. rewrite str_app_cons. change (skip_space (spaces level +:+ s) = skip_space s).
  induction level as [|level IH]; [by rewrite str_app_nil_l|]. cbn [spaces]. by rewrite !str_app_cons.
Qed.

Lemma scan_value_line fuel d level s : scan_value fuel d (line level +:+ s) = scan_value fuel d s.
Proof. destruct fuel as [|fuel]; [done|]. cbn [scan_value]. by rewrite skip_line. Qed.

Lemma scan_items_line fuel d level s : scan_items fuel d (line level +:+ s) = scan_items fuel d s.
Proof. destruct fuel as [|fuel]; [done|]. cbn [scan_items]. by rewrite scan_value_line. Qed.

Lemma scan_fields_line fuel d level s : scan_fields fuel d (line level +:+ s) = scan_fields fuel d s.
Proof. destruct fuel as [|fuel]; [done|]. cbn [scan_fields]. by rewrite skip_line. Qed.

Lemma number_stop_line level s : number_stop (line level +:+ s) = true.
Proof. by unfold line. Qed.

Lemma closes_line c level s : closes c (line level +:+ s) = closes c s.
Proof. unfold closes. by rewrite skip_line. Qed.

Lemma indent_head html level d j : printable_json d j →
  ∃ c s, print_indent html level j = String c s ∧ space c = false ∧ Ascii.eqb c "]" = false.
Proof.
  intros Hj. destruct j as [|[]|n|s|[|x l]|[|x l]]; cbn [print_indent]; try (by eexists _, _).
  exact (print_head html d (JNum n) Hj).
Qed.

Definition scans_indent (html : bool) (level : nat) (d : Z) (j : json) : Prop := ∃ n, ∀ fuel rest, (n ≤ fuel)%nat →
  number_stop rest = true → scan_value fuel d (print_indent html level j +:+ rest) = Value (tree_of html j) rest.

Lemma scan_items_indent html level level' d l : l ≠ [] → Forall (scans_indent html level d) l →
  ∃ n, ∀ fuel rest, (n ≤ fuel)%nat →
    scan_items fuel d (join ("," +:+ line level) (map (print_indent html level) l) +:+ line level' +:+ String "]" rest) =
      Value (map (tree_of html) l) rest.
Proof.
  intros Hne Hl. induction Hl as [|j l [n Hj] Hl IH]; [done|]. destruct l as [|j' l].
  - exists (S n). intros [|fuel] rest Hf; [lia|]. cbn [map join scan_items].
    rewrite Hj by (apply number_stop_line || lia). cbn [sbind]. rewrite skip_line, skip_nonspace by done. done.
  - destruct IH as [m IH]; [done|]. exists (S (n `max` m)). intros [|fuel] rest Hf; [lia|].
    cbn [map join] in IH |- *. rewrite !str_app_assoc. cbn [scan_items]. rewrite str_app_cons, str_app_nil_l, Hj by (done || lia).
    cbn [sbind]. rewrite skip_nonspace by done. change (Ascii.eqb "," ",") with true. cbn iota.
    rewrite scan_items_line. rewrite IH by lia. done.
Qed.

Lemma scan_fields_indent html level level' d l : l ≠ [] → Forall (λ f, scans_indent html level d f.2) l →
  ∃ n, ∀ fuel rest, (n ≤ fuel)%nat →
    scan_fields fuel d (join ("," +:+ line level)
        (map (λ f, quoted html f.1 +:+ ": " +:+ print_indent html level f.2) l) +:+ line level' +:+ String "}" rest) =
      Value (map (λ f, (escape_string html O true f.1, tree_of html f.2)) l) rest.
Proof.
  set (pf := λ f : string * json, quoted html f.1 +:+ ": " +:+ print_indent html level f.2).
  assert (∀ f fuel t, scan_fields (S fuel) d (pf f +:+ t) =
    sbind (scan_value fuel d (print_indent html level f.2 +:+ t)) (λ v s4,
      match skip_space s4 with
      | EmptyString => More
      | String e s5 =>
          if Ascii.eqb e "," then sbind (scan_fields fuel d s5)
            (λ l, Value ((escape_string html O true f.1, v) :: l))
          else if Ascii.eqb e "}" then Value [(escape_string html O true f.1, v)] s5
          else Syntax
      end)) as Hstep.
  { intros f fuel t. unfold pf, quoted. rewrite !str_app_assoc, !str_app_cons, !str_app_assoc.
    rewrite !str_app_cons, !str_app_nil_l. cbn [scan_fields]. rewrite skip_nonspace by done.
    change (ord quote =? 34) with true. cbn iota. rewrite scan_escaped. cbn [sbind].
    rewrite skip_nonspace by done. change (Ascii.eqb ":" ":") with true. cbn iota.
    assert (scan_value fuel d (String " " (print_indent html level f.2 +:+ t)) =
      scan_value fuel d (print_indent html level f.2 +:+ t)) as -> by (by destruct fuel). done. }
  intros Hne Hl. induction Hl as [|f l [n Hj] Hl IH]; [done|]. destruct l as [|f' l].
  - exists (S n). intros [|fuel] rest Hf; [lia|]. cbn [map join].
    rewrite Hstep, Hj by (apply number_stop_line || lia). cbn [sbind]. by rewrite skip_line, skip_nonspace.
  - destruct IH as [m IH]; [done|]. exists (S (n `max` m)). intros [|fuel] rest Hf; [lia|].
    cbn [map join] in *. rewrite !str_app_assoc. rewrite Hstep, str_app_cons, str_app_nil_l, Hj by (done || lia).
    cbn [sbind]. rewrite skip_nonspace by done. change (Ascii.eqb "," ",") with true. cbn iota.
    rewrite scan_fields_line. rewrite IH by lia. done.
Qed.

Lemma scans_indent_printable html j : ∀ level d, printable_json d j → scans_indent html level d j.
Proof.
  induction j as [|b|n|s|l IH|l IH] using json_induction; intros level d Hj.
  1-4: exact (scans_printable html _ d Hj).
  - inversion Hj as [| | | |? ? Hd Hl|]; subst.
    destruct l as [|j l]; [by apply (scans_printable html (JArr []) d)|].
    destruct (scan_items_indent html (S level) level (d - 1) (j :: l)) as [n Hn]; [done| |].
    { apply Forall_forall. intros x Hx. rewrite Forall_forall in IH, Hl. by apply IH, Hl. }
    exists (S n). intros [|fuel] rest Hf _; [lia|].
    change (print_indent html level (JArr (j :: l))) with ("[" +:+ line (S level) +:+
      join ("," +:+ line (S level)) (map (print_indent html (S level)) (j :: l)) +:+ line level +:+ "]").
    cbn [tree_of]. rewrite !str_app_assoc, str_app_cons, str_app_nil_l. rewrite (str_app_cons "]" "" rest), str_app_nil_l.
    cbn [scan_value]. rewrite skip_nonspace by done. change (Ascii.eqb "[" "{") with false.
    change (Ascii.eqb "[" "[") with true. cbn iota. destruct (Z.leb_spec d 0); [lia|].
    rewrite closes_line, scan_items_line.
    match goal with |- context [closes "]" ?s] => assert (closes "]" s = None) as -> end.
    { rewrite Forall_cons in Hl. destruct Hl as [Hjd _].
      destruct (indent_head html (S level) _ _ Hjd) as (c & s & Hp & Hsp & Hne). unfold closes. cbn [map join].
      destruct l; cbn [map]; rewrite Hp, ?str_app_assoc, str_app_cons, skip_nonspace by done; by rewrite Hne. }
    by rewrite Hn by lia.
  - inversion Hj as [| | | | |? ? Hd Hl]; subst.
    destruct l as [|f l]; [by apply (scans_printable html (JObj []) d)|].
    destruct (scan_fields_indent html (S level) level (d - 1) (f :: l)) as [n Hn]; [done| |].
    { apply Forall_forall. intros x Hx. rewrite Forall_forall in IH, Hl. by apply IH, Hl. }
    exists (S n). intros [|fuel] rest Hf _; [lia|].
    change (print_indent html level (JObj (f :: l))) with ("{" +:+ line (S level) +:+
      join ("," +:+ line (S level)) (map (λ f, quoted html f.1 +:+ ": " +:+ print_indent html (S level) f.2) (f :: l))
      +:+ line level +:+ "}").
    cbn [tree_of]. rewrite !str_app_assoc, str_app_cons, str_app_nil_l. rewrite (str_app_cons "}" "" rest), str_app_nil_l.
    cbn [scan_value]. rewrite skip_nonspace by done. change (Ascii.eqb "{" "{") with true. cbn iota.
    destruct (Z.leb_spec d 0); [lia|]. rewrite closes_line, scan_fields_line.
    match goal with |- context [closes "}" ?s] => assert (closes "}" s = None) as -> end.
    { unfold closes, quoted. cbn [map join]. destruct l; cbn [map]; by rewrite ?str_app_assoc, str_app_cons. }
    by rewrite Hn by lia.
Qed.

(** The next value after printing is the value that was printed. *)
Lemma next_value_indent html j rest :
  printable_json maxNestingDepth j → number_stop rest = true →
  next_value (print_indent html 0 j +:+ rest) = Value (tree_of html j) rest.
Proof.
  intros Hj Hr. destruct (scans_indent_printable html j 0 _ Hj) as [n Hn]. unfold next_value.
  set (s := print_indent html 0 j +:+ rest). rewrite <-(scan_fuel _ _ _ ((2 * String.length s + 2) + n)%nat) by lia.
  apply Hn; [lia|done].
Qed.

Lemma decode_one_indent {T} `{JsonDecode T} (d : Dec T) html j rest v trailing multiple :
  (∀ s, json_Decode s = decode_value d s) →
  printable_json maxNestingDepth j → skip_space rest = "" → number_stop rest = true → d [tree_of html j] = Some v →
  decode_one trailing multiple (print_indent html 0 j +:+ rest) = Ok v.
Proof.
  intros Hd Hj Hr Hn Hv. unfold decode_one. rewrite Hd. unfold decode_value.
  rewrite next_value_indent, Hv by done. cbn [mbind]. cbn. unfold json_Next, json_syntax. by rewrite Hr.
Qed.
