(* ===== verification/GoOs.v ===== *)
(** * [os]: files, directories, faults and power loss

    A world of directories and regular files, the system calls the program makes on
    it, and what a loss of power may leave behind.  Every call consults a schedule of
    outcomes: it succeeds, it fails with an error (a write may have written a prefix),
    or the machine stops before it.

    Durability follows POSIX: the contents of a file survive once it was synced; the
    binding of a name survives once its directory was synced, and until then any of
    the bindings the name had since the last sync may reappear; a directory that was
    created and whose parent was never synced may vanish with its files. *)


From S2P Require Import Prelude GoRegexp GoStrings.

Record File := mkFile {
  f_data : string;
  f_synced : bool;      (** the data is on the medium *)
  f_regular : bool;
  f_perm : Z
}.

Record Dir := mkDir {
  d_perm : Z;
  d_synced : bool       (** its own entry in the parent is on the medium *)
}.

#[global] Instance File_eq_dec : EqDecision File.
Proof. solve_decision. Defined.
#[global] Instance Dir_eq_dec : EqDecision Dir.
Proof. solve_decision. Defined.

(** The outcome of one system call. *)
Inductive outcome :=
  | Done
  | Fault (written : nat) (e : error)
  | Stop.

(** [w_stale] holds, for a name, the bindings it had since its directory was last
    synced, besides the present one; [w_locks] the files under an
    exclusive [flock] of some process. *)
Record World := mkWorld {
  w_dirs : gmap string Dir;
  w_files : gmap string File;
  w_stale : gmap string (list (option File));
  w_locks : gset string;
  w_outcomes : list outcome
}.

(** A computation returns a value, returns an error, or never returns because the
    machine stopped. *)
Inductive io_result (A : Type) :=
  | Ret (value : A)
  | Throw (e : error)
  | Halt.
Arguments Ret {A} _.
Arguments Throw {A} _.
Arguments Halt {A}.

Definition io (A : Type) : Type := World → io_result A * World.

#[global] Instance io_ret : MRet io := λ A a w, (Ret a, w).
#[global] Instance io_bind : MBind io := λ A B f m w,
  match m w with
  | (Ret a, w') => f a w'
  | (Throw e, w') => (Throw e, w')
  | (Halt, w') => (Halt, w')
  end.

Definition throw {A} (e : error) : io A := λ w, (Throw e, w).
Definition io_of {A} (r : result A) : io A := λ w,
  (match r with Ok a => Ret a | Err e => Throw e end, w).

(** [if err := m; err != nil { cleanup; return handler(err) }]. *)
Definition on_error {A} (m : io A) (cleanup : io unit) (handler : error → error) : io A := λ w,
  match m w with
  | (Throw e, w') => match cleanup w' with (Halt, w'') => (Halt, w'') | (_, w'') => (Throw (handler e), w'') end
  | r => r
  end.

(** [_ = m]: the error is dropped. *)
Definition ignore (m : io unit) : io unit := λ w,
  match m w with (Throw _, w') => (Ret tt, w') | r => r end.

Definition io_wrap {A} (context : string) (m : io A) : io A :=
  on_error m (mret tt) (Wrap context).

(** ** System calls *)

Definition set_outcomes (o : list outcome) (w : World) : World :=
  mkWorld (w_dirs w) (w_files w) (w_stale w) (w_locks w) o.

(** [effect] is what the call does when it runs, [partial n] what a failing call leaves
    behind. *)
Definition syscall {A} (effect : World → result A * World) (partial : nat → World → World) : io A := λ w,
  let run w := match effect w with (Ok a, w') => (Ret a, w') | (Err e, w') => (Throw e, w') end in
  match w_outcomes w with
  | [] => run w
  | Done :: o => run (set_outcomes o w)
  | Fault n e :: o => (Throw e, partial n (set_outcomes o w))
  | Stop :: o => (Halt, set_outcomes o w)
  end.

Definition ErrNotExist : string := "os.ErrNotExist".
Definition ErrExist : string := "os.ErrExist".

(** [filepath.Clean]: the segments of a path, with [.] and [..] resolved. *)
Fixpoint segments (path : string) : list string :=
  match path with
  | EmptyString => [""]
  | String c path' =>
      if bool_decide (c = "/"%char) then "" :: segments path'
      else match segments path' with
           | segment :: rest => String c segment :: rest
           | [] => [String c ""]
           end
  end.

(** [out] holds the segments kept so far, the last one first. *)
Fixpoint resolve (rooted : bool) (out : list string) (l : list string) : list string :=
  match l with
  | [] => rev out
  | segment :: rest =>
      if bool_decide (segment = "") || bool_decide (segment = ".") then resolve rooted out rest
      else if bool_decide (segment = "..") then
        match out with
        | last :: out' => if bool_decide (last = "..") then resolve rooted (".." :: out) rest
                          else resolve rooted out' rest
        | [] => resolve rooted (if rooted then [] else [".."]) rest
        end
      else resolve rooted (segment :: out) rest
  end.

Definition filepath_Clean (path : string) : string :=
  let rooted := HasPrefix path "/" in
  let body := String.concat "/" (resolve rooted [] (segments path)) in
  if rooted then "/" +:+ body else if bool_decide (body = "") then "." else body.

Example clean_paths : filepath_Clean "a/./b//../c/" = "a/c" ∧ filepath_Clean "/../x" = "/x" ∧
  filepath_Clean "../../y" = "../../y" ∧ filepath_Clean "" = "." ∧ filepath_Clean "a/.." = ".".
Proof. split_and!; reflexivity. Qed.

(** [filepath.Dir]: the path up to its last separator, cleaned. *)
Definition filepath_Dir (path : string) : string :=
  filepath_Clean (match LastIndexByte path "/"%char with
                  | None => ""
                  | Some i => str_take (S i) path
                  end).

(** [filepath.Base]: the last element, without trailing separators. *)
Definition filepath_Base (path : string) : string :=
  if bool_decide (path = "") then "."
  else default "/" (last (filter (λ segment, segment ≠ "") (segments path))).

Example dir_and_base :
  filepath_Dir "/a/b" = "/a" ∧ filepath_Dir "/a" = "/" ∧ filepath_Dir "a" = "." ∧ filepath_Dir "x/./y//z" = "x/y" ∧
  filepath_Base "/a/b/" = "b" ∧ filepath_Base "a" = "a" ∧ filepath_Base "//" = "/" ∧ filepath_Base "" = ".".
Proof. split_and!; reflexivity. Qed.

Definition filepath_Join (directory name : string) : string := filepath_Clean (directory +:+ "/" +:+ name).

(** The absolute form of a path, to which the system resolves it. *)
Definition absolute (cwd path : string) : string :=
  if HasPrefix path "/" then filepath_Clean path else filepath_Join cwd path.

Definition no_effect : nat → World → World := λ _ w, w.

(** Rebinds a name; the binding it had may reappear until the directory is synced. *)
Definition bind_name (name : string) (f : option File) (w : World) : World :=
  mkWorld (w_dirs w) (partial_alter (λ _, f) name (w_files w))
    (<[name := (w_files w !! name) :: default [] (w_stale w !! name)]> (w_stale w))
    (w_locks w) (w_outcomes w).

(** Changes the file behind a name. *)
Definition update_file (name : string) (g : File → File) (w : World) : World :=
  mkWorld (w_dirs w) (alter g name (w_files w)) (w_stale w) (w_locks w) (w_outcomes w).

(** [os.Stat] of a path that is expected to be a directory: [Ok None] is something
    else. *)
Definition os_Stat (path : string) : io (option Dir) := syscall (λ w,
  (match w_dirs w !! path with
   | Some d => Ok (Some d)
   | None => if bool_decide (is_Some (w_files w !! path)) then Ok None
             else Err (Sentinel ErrNotExist)
   end, w)) no_effect.

(** The directories that [os.MkdirAll] has to create, the innermost first: those of the path
    and of its parents that do not exist.  Every step shortens the path. *)
Fixpoint missing_dirs (fuel : nat) (dirs : gmap string Dir) (path : string) : list string :=
  match fuel with
  | O => []
  | S fuel =>
      if bool_decide (is_Some (dirs !! path)) || bool_decide (path = "/") || bool_decide (path = ".") then []
      else path :: missing_dirs fuel dirs (filepath_Dir path)
  end.

Definition missing (w : World) (path : string) : list string :=
  missing_dirs (S (String.length path)) (w_dirs w) path.

Definition add_dirs (l : list string) (perm : Z) (w : World) : World :=
  mkWorld (foldr (λ d, <[d := mkDir perm false]>) (w_dirs w) l) (w_files w) (w_stale w) (w_locks w) (w_outcomes w).

(** The parents are created one after the other, the outermost first; when one fails the
    others remain.  A file in the way is an error. *)
Definition os_MkdirAll (path : string) (perm : Z) : io unit := syscall (λ w,
  if existsb (λ d, bool_decide (is_Some (w_files w !! d))) (missing w path)
  then (Err (NewError "not a directory"), w)
  else (Ok tt, add_dirs (missing w path) perm w))
  (λ n w, if existsb (λ d, bool_decide (is_Some (w_files w !! d))) (missing w path) then w
          else add_dirs (drop (length (missing w path) - n) (missing w path)) perm w).

(** What [os.Open] opens: a file, with what it holds, or a directory. *)
Inductive Handle :=
  | FileHandle (f : File)
  | DirHandle (d : Dir).

Definition os_Open (path : string) : io Handle := syscall (λ w,
  (match w_files w !! path, w_dirs w !! path with
   | Some f, _ => Ok (FileHandle f)
   | None, Some d => Ok (DirHandle d)
   | None, None => Err (Sentinel ErrNotExist)
   end, w)) no_effect.

(** What the program asks of [os.FileInfo]: [Mode().IsRegular()] and [Mode().Perm()]. *)
Record FileInfo := mkFileInfo {
  fi_regular : bool;
  fi_perm : Z
}.

Definition handle_info (h : Handle) : FileInfo :=
  match h with
  | FileHandle f => mkFileInfo (f_regular f) (f_perm f)
  | DirHandle d => mkFileInfo false (d_perm d)
  end.

Definition file_Stat (h : Handle) : io FileInfo := syscall (λ w, (Ok (handle_info h), w)) no_effect.

(** [io.ReadAll(io.LimitReader(file, limit))]; a directory cannot be read. *)
Definition file_ReadAll (h : Handle) (limit : Z) : io string := syscall (λ w,
  (match h with
   | FileHandle f => Ok (str_take (Z.to_nat limit) (f_data f))
   | DirHandle _ => Err (NewError "is a directory")
   end, w)) no_effect.

(** [os.CreateTemp]: a name not in use, the file empty and private. *)
Definition os_CreateTemp (directory pattern : string) : io string := syscall (λ w,
  if bool_decide (is_Some (w_dirs w !! directory)) then
    let name := fresh_string (directory +:+ "/" +:+ pattern) (w_files w) in
    (Ok name, bind_name name (Some (mkFile "" false true 384)) w)
  else (Err (Sentinel ErrNotExist), w)) no_effect.

(** [os.OpenFile] with [O_WRONLY|O_CREATE|O_EXCL]: a new, empty file. *)
Definition os_CreateExclusive (path : string) (perm : Z) : io unit := syscall (λ w,
  if bool_decide (is_Some (w_files w !! path)) || bool_decide (is_Some (w_dirs w !! path))
  then (Err (Sentinel ErrExist), w)
  else if bool_decide (is_Some (w_dirs w !! filepath_Dir path))
  then (Ok tt, bind_name path (Some (mkFile "" false true perm)) w)
  else (Err (Sentinel ErrNotExist), w)) no_effect.

Definition file_Chmod (name : string) (perm : Z) : io unit := syscall (λ w,
  (Ok tt, update_file name (λ f, mkFile (f_data f) (f_synced f) (f_regular f) perm) w)) no_effect.

(** A failing write may have appended a prefix of the data. *)
Definition append_data (data : string) (f : File) : File :=
  mkFile (f_data f +:+ data) false (f_regular f) (f_perm f).

Definition file_Write (name data : string) : io unit := syscall (λ w,
  (Ok tt, update_file name (append_data data) w))
  (λ n w, update_file name (append_data (str_take n data)) w).

Definition file_Sync (name : string) : io unit := syscall (λ w,
  (Ok tt, update_file name (λ f, mkFile (f_data f) true (f_regular f) (f_perm f)) w)) no_effect.

Definition file_Close : io unit := syscall (λ w, (Ok tt, w)) no_effect.

Definition os_Rename (from to : string) : io unit := syscall (λ w,
  match w_files w !! from with
  | Some f => if bool_decide (is_Some (w_dirs w !! to)) then (Err (NewError "is a directory"), w)
              else (Ok tt, bind_name from None (bind_name to (Some f) w))
  | None => (Err (Sentinel ErrNotExist), w)
  end) no_effect.

Definition os_Remove (name : string) : io unit := syscall (λ w,
  match w_files w !! name with
  | Some _ => (Ok tt, bind_name name None w)
  | None => (Err (Sentinel ErrNotExist), w)
  end) no_effect.

(** [os.Lstat], as a test of existence. *)
Definition os_Lstat (path : string) : io unit := syscall (λ w,
  (if bool_decide (is_Some (w_files w !! path)) || bool_decide (is_Some (w_dirs w !! path))
   then Ok tt else Err (Sentinel ErrNotExist), w)) no_effect.

(** [os.Link]: a second name for a file.  The file is not written through either name
    afterwards, so that the two bindings may carry copies. *)
Definition os_Link (from to : string) : io unit := syscall (λ w,
  match w_files w !! from with
  | None => (Err (Sentinel ErrNotExist), w)
  | Some f =>
      if bool_decide (is_Some (w_files w !! to)) || bool_decide (is_Some (w_dirs w !! to))
      then (Err (Sentinel ErrExist), w)
      else if bool_decide (is_Some (w_dirs w !! filepath_Dir to)) then (Ok tt, bind_name to (Some f) w)
      else (Err (Sentinel ErrNotExist), w)
  end) no_effect.

(** [os.Getwd]: the working directory is the argument. *)
Definition os_Getwd (cwd : string) : io string := syscall (λ w, (Ok cwd, w)) no_effect.

Definition dir_Open (directory : string) : io unit := syscall (λ w,
  (if bool_decide (is_Some (w_dirs w !! directory)) then Ok tt else Err (Sentinel ErrNotExist), w))
  no_effect.

(** [fsync] of a directory makes the bindings of its names durable. *)
Definition dir_Sync (directory : string) : io unit := syscall (λ w,
  (Ok tt, mkWorld (w_dirs w) (w_files w)
     (filter (λ p, filepath_Dir p.1 ≠ directory) (w_stale w)) (w_locks w) (w_outcomes w))) no_effect.

(** [syscall.Flock] with [LOCK_EX|LOCK_NB] and with [LOCK_UN]; closing the descriptor
    releases the lock too, even when the close reports an error. *)
Definition set_locks (l : gset string) (w : World) : World :=
  mkWorld (w_dirs w) (w_files w) (w_stale w) l (w_outcomes w).

Definition flock_EX_NB (name : string) : io unit := syscall (λ w,
  if bool_decide (name ∈ w_locks w) then (Err (NewError "EWOULDBLOCK"), w)
  else (Ok tt, set_locks ({[name]} ∪ w_locks w) w)) no_effect.

Definition flock_UN (name : string) : io unit := syscall (λ w,
  (Ok tt, set_locks (w_locks w ∖ {[name]}) w)) no_effect.

Definition close_locked (name : string) : io unit := syscall (λ w,
  (Ok tt, set_locks (w_locks w ∖ {[name]}) w)) (λ _ w, set_locks (w_locks w ∖ {[name]}) w).

(** [openat] with [O_CREAT|O_RDWR|O_NOFOLLOW|O_NONBLOCK]: creates a missing file; a directory
    cannot be opened for writing. *)
Definition os_Openat (name : string) (perm : Z) : io Handle := syscall (λ w,
  match w_files w !! name, w_dirs w !! name with
  | Some f, _ => (Ok (FileHandle f), w)
  | None, Some _ => (Err (NewError "is a directory"), w)
  | None, None => let f := mkFile "" false true perm in (Ok (FileHandle f), bind_name name (Some f) w)
  end) no_effect.

(** ** Power loss *)

(** Every binding a name may have after power is lost. *)
Definition possible (w : World) (name : string) : list (option File) :=
  (w_files w !! name) :: default [] (w_stale w !! name).

(** What may be found of a binding: nothing of nothing, the data if it was synced,
    anything otherwise. *)
Definition survives (before after : option File) : Prop :=
  match before, after with
  | None, None => True
  | Some f, Some f' =>
      (f_synced f = true → f_data f' = f_data f) ∧ f_synced f' = true ∧
      f_regular f' = f_regular f ∧ f_perm f' = f_perm f
  | _, _ => False
  end.

Definition dir_survives (before after : option Dir) : Prop :=
  match before, after with
  | None, None => True
  | Some d, Some d' => d' = mkDir (d_perm d) true
  | Some d, None => d_synced d = false
  | None, Some _ => False
  end.

Record power_loss (w w' : World) : Prop := {
  pl_dirs d : dir_survives (w_dirs w !! d) (w_dirs w' !! d);
  pl_files name : is_Some (w_dirs w' !! filepath_Dir name) →
    ∃ o, o ∈ possible w name ∧ survives o (w_files w' !! name);
  pl_lost name : is_Some (w_dirs w !! filepath_Dir name) →
    w_dirs w' !! filepath_Dir name = None → w_files w' !! name = None;
  pl_stale : w_stale w' = ∅;
  pl_locks : w_locks w' = ∅
}.

(** ** Reasoning about computations *)

(** [wp m R E w]: run in [w], the computation [m] ends with [R] when it returns and
    with [E] when it fails or the machine stops. *)
Definition wp {A} (m : io A) (R : A → World → Prop) (E : World → Prop) (w : World) : Prop :=
  match m w with
  | (Ret a, w') => R a w'
  | (Throw _, w') | (Halt, w') => E w'
  end.

Lemma wp_ret {A} (a : A) (R : A → World → Prop) E w : R a w → wp (mret a) R E w.
Proof. done. Qed.

Lemma wp_throw {A} e (R : A → World → Prop) (E : World → Prop) w : E w → wp (throw e) R E w.
Proof. done. Qed.

Lemma wp_io_of {A} (r : result A) (R : A → World → Prop) (E : World → Prop) w :
  (∀ a, r = Ok a → R a w) → E w → wp (io_of r) R E w.
Proof. unfold wp, io_of. destruct r; auto. Qed.

Lemma wp_bind {A B} (m : io A) (f : A → io B) R (E : World → Prop) w :
  wp m (λ a, wp (f a) R E) E w → wp (m ≫= f) R E w.
Proof. unfold wp, mbind, io_bind. by destruct (m w) as [[a|e|] w']. Qed.

Lemma wp_mono {A} (m : io A) (R R' : A → World → Prop) (E E' : World → Prop) w :
  wp m R E w → (∀ a w', R a w' → R' a w') → (∀ w', E w' → E' w') → wp m R' E' w.
Proof. unfold wp. destruct (m w) as [[a|e|] w']; auto. Qed.

Lemma wp_and {A} (m : io A) (R R' : A → World → Prop) (E E' : World → Prop) w :
  wp m R E w → wp m R' E' w → wp m (λ a w, R a w ∧ R' a w) (λ w, E w ∧ E' w) w.
Proof. unfold wp. by destruct (m w) as [[a|e|] w']. Qed.

Lemma wp_remember {A} (m : io A) (R : A → World → Prop) (E : World → Prop) w :
  wp m R E w → wp m (λ a w', R a w' ∧ m w = (Ret a, w')) E w.
Proof. unfold wp. by destruct (m w) as [[a|e|] w']. Qed.

Lemma wp_any {A} (m : io A) w : wp m (λ _ _, True) (λ _, True) w.
Proof. unfold wp. by destruct (m w) as [[]]. Qed.

Lemma wp_recover {A} (m : io A) cleanup h (R : A → World → Prop) (E1 E : World → Prop) w :
  wp m R E1 w → (∀ w', E1 w' → E w') → (∀ w', E1 w' → wp cleanup (λ _, E) E w') →
  wp (on_error m cleanup h) R E w.
Proof.
  unfold wp, on_error. destruct (m w) as [[a|e|] w']; [done| |by auto].
  intros HE _ Hc. specialize (Hc w' HE). by destruct (cleanup w') as [[]].
Qed.

Lemma wp_on_error {A} (m : io A) cleanup h (R : A → World → Prop) (E : World → Prop) w :
  wp m R E w → (∀ w', E w' → wp cleanup (λ _, E) E w') → wp (on_error m cleanup h) R E w.
Proof. intros Hm. by apply (wp_recover _ _ _ _ E). Qed.

Lemma wp_io_wrap {A} c (m : io A) (R : A → World → Prop) (E : World → Prop) w :
  wp m R E w → wp (io_wrap c m) R E w.
Proof. intros Hm. by apply wp_on_error. Qed.

Lemma wp_ignore (m : io unit) (I : World → Prop) w :
  wp m (λ _, I) I w → wp (ignore m) (λ _, I) I w.
Proof. unfold wp, ignore. by destruct (m w) as [[a|e|] w']. Qed.

(** Facts about a world that are kept when the next outcome is consumed. *)
Definition outcome_free (P : World → Prop) : Prop :=
  ∀ w x o, w_outcomes w = x :: o → P w → P (set_outcomes o w).

Lemma wp_syscall {A} effect partial (R : A → World → Prop) (E P : World → Prop) w :
  outcome_free P → P w →
  (∀ w', P w' → match effect w' with (Ok a, w'') => R a w'' | (Err _, w'') => E w'' end) →
  (∀ w' n, P w' → E (partial n w')) → (∀ w', P w' → E w') →
  wp (syscall effect partial) R E w.
Proof.
  intros HP Hw He Hp Hs. unfold wp, syscall.
  destruct (w_outcomes w) as [|x o] eqn:Eo.
  - specialize (He w Hw). by destruct (effect w) as [[a|e] w'].
  - specialize (HP w x o Eo Hw). destruct x as [|n e|]; [|by auto..].
    specialize (He _ HP). by destruct (effect _) as [[a|e] w'].
Qed.

(** A call that only looks at the host, whatever its outcome. *)
Lemma wp_sees {A} (effect : World → result A) w (R : A → World → Prop) (E : World → Prop) :
  (∀ w' a, w_files w' = w_files w → effect w' = Ok a → R a w') → (∀ w', w_files w' = w_files w → E w') →
  wp (syscall (λ w, (effect w, w)) no_effect) R E w.
Proof.
  intros HR HE. apply (wp_syscall _ _ _ _ (λ w', w_files w' = w_files w)); [by intros ? ? ? _|done|..].
  - intros w' Hw'. destruct (effect w') as [a|e] eqn:He; [by apply HR|by apply HE].
  - intros w' n Hw'. by apply HE.
  - intros w' Hw'. by apply HE.
Qed.

(** A call without a partial effect, where failing changes nothing. *)
Lemma wp_call {A} effect (R : A → World → Prop) (P : World → Prop) w :
  outcome_free P → P w →
  (∀ w', P w' → match effect w' with (Ok a, w'') => R a w'' | (Err _, w'') => P w'' end) →
  wp (syscall effect no_effect) R P w.
Proof. intros HP Hw He. by apply (wp_syscall _ _ _ _ P). Qed.

(** [P] holds after [m], however it ends, if it held before. *)
Definition keeps {A} (P : World → Prop) (m : io A) : Prop := ∀ w, P w → wp m (λ _, P) P w.

Create HintDb io_keeps.

Section keeps.
Context (P : World → Prop).

Lemma keeps_bind {A B} (m : io A) (f : A → io B) :
  keeps P m → (∀ a, keeps P (f a)) → keeps P (m ≫= f).
Proof. intros Hm Hf w Hw. apply wp_bind. eapply wp_mono; [by apply Hm| |done]. intros a w' ?. by apply Hf. Qed.

Lemma keeps_ret {A} (a : A) : keeps P (mret a).
Proof. by intros w Hw. Qed.

Lemma keeps_throw {A} e : keeps P (throw (A:=A) e).
Proof. by intros w Hw. Qed.

Lemma keeps_io_of {A} (r : result A) : keeps P (io_of r).
Proof. intros w Hw. by apply wp_io_of. Qed.

Lemma keeps_on_error {A} (m : io A) cleanup h :
  keeps P m → keeps P cleanup → keeps P (on_error m cleanup h).
Proof. intros Hm Hc w Hw. apply wp_on_error; [by apply Hm|apply Hc]. Qed.

Lemma keeps_io_wrap {A} c (m : io A) : keeps P m → keeps P (io_wrap c m).
Proof. intros Hm. apply keeps_on_error; [done|apply keeps_ret]. Qed.

Lemma keeps_ignore m : keeps P m → keeps P (ignore m).
Proof. intros Hm w Hw. by apply wp_ignore, Hm. Qed.

Lemma keeps_syscall {A} (effect : World → result A * World) partial :
  outcome_free P → (∀ w, P w → P (effect w).2) → (∀ n w, P w → P (partial n w)) →
  keeps P (syscall effect partial).
Proof.
  intros Hf He Hp w Hw. apply (wp_syscall _ _ _ _ P); [done|done| |auto|done].
  intros w' Hw'. specialize (He w' Hw'). by destruct (effect w') as [[]].
Qed.

Lemma keeps_look {A} (effect : World → result A) :
  outcome_free P → keeps P (syscall (λ w, (effect w, w)) no_effect).
Proof. intros Hf. by apply keeps_syscall. Qed.

Context (Hfree : outcome_free P).

Lemma os_Stat_keeps path : keeps P (os_Stat path).
Proof. by apply keeps_look. Qed.
Lemma file_ReadAll_keeps h n : keeps P (file_ReadAll h n).
Proof. by apply keeps_look. Qed.
Lemma os_Open_keeps path : keeps P (os_Open path).
Proof. by apply keeps_look. Qed.
Lemma dir_Open_keeps path : keeps P (dir_Open path).
Proof. by apply keeps_look. Qed.
Lemma file_Stat_keeps f : keeps P (file_Stat f).
Proof. by apply keeps_look. Qed.
Lemma file_Close_keeps : keeps P file_Close.
Proof. by apply keeps_look. Qed.

End keeps.

#[export] Hint Resolve keeps_bind keeps_ret keeps_throw keeps_io_of keeps_on_error keeps_io_wrap
  keeps_ignore os_Stat_keeps os_Open_keeps dir_Open_keeps file_Stat_keeps file_ReadAll_keeps
  file_Close_keeps : io_keeps.

(** Nothing but the schedule changed. *)
Definition same_files (w w' : World) : Prop :=
  w_dirs w' = w_dirs w ∧ w_files w' = w_files w ∧ w_stale w' = w_stale w ∧ w_locks w' = w_locks w.

(** No injected fault pretends that a file is missing. *)
Definition honest_outcome (o : outcome) : bool :=
  match o with Fault _ e => negb (errors_Is e ErrNotExist) | _ => true end.

Definition honest (w : World) : Prop := Forall (λ o, honest_outcome o = true) (w_outcomes w).

#[global] Instance honest_dec w : Decision (honest w).
Proof. unfold honest. apply _. Defined.

Lemma honest_free w0 : outcome_free (λ w, same_files w0 w ∧ honest w).
Proof.
  intros w x o Eo [Hs Hh]. split; [done|]. unfold honest in *. rewrite Eo in Hh.
  by apply Forall_cons in Hh as [_ Hh].
Qed.

(** ** Names *)

Lemma possible_bind_same name f w : possible (bind_name name f w) name = f :: possible w name.
Proof.
  unfold possible, bind_name. cbn. by rewrite lookup_partial_alter_eq, lookup_insert_eq.
Qed.

Lemma possible_bind_ne name name' f w :
  name ≠ name' → possible (bind_name name f w) name' = possible w name'.
Proof.
  intros Hn. unfold possible, bind_name. cbn.
  by rewrite lookup_partial_alter_ne, lookup_insert_ne by done.
Qed.

Lemma possible_update_ne name name' g w :
  name ≠ name' → possible (update_file name g w) name' = possible w name'.
Proof. intros Hn. unfold possible, update_file. cbn. by rewrite lookup_alter_ne by done. Qed.

Lemma fresh_string_prefix {A} (m : gmap string A) s : ∃ t, fresh_string s m = s +:+ t.
Proof.
  unfold fresh_string. destruct (m !! s) as [a|]; [|exists ""; by autorewrite with gostr].
  generalize 0%N (wf_guard 32 (fresh_string_R_wf s m) 0%N). revert m.
  fix FIX 3. intros m n [?]. simpl. unfold fresh_string_go at 1. simpl.
  destruct (Some_dec (m !! _)) as [[??]|?]; eauto.
Qed.

(** The most favourable outcome of losing power: everything is found as it was. *)
Definition settle (f : File) : File := mkFile (f_data f) true (f_regular f) (f_perm f).

Lemma power_loss_settled w o :
  map_Forall (λ _ d, d_synced d = true) (w_dirs w) →
  power_loss w (mkWorld (w_dirs w) (settle <$> w_files w) ∅ ∅ o).
Proof.
  intros Hd. split; cbn; [| |by intros name [d ->]|done..].
  - intros d. destruct (w_dirs w !! d) as [[p s]|] eqn:E; [|done].
    apply Hd in E. cbn in *. by subst.
  - intros name _. exists (w_files w !! name). split; [left|]. rewrite lookup_fmap.
    by destruct (w_files w !! name).
Qed.

(** The outcome of losing power in which every directory that was not synced is lost. *)
Lemma power_loss_vanish w o :
  map_Forall (λ _ d, d_synced d = false) (w_dirs w) →
  (∀ name, is_Some (w_files w !! name) → is_Some (w_dirs w !! filepath_Dir name)) →
  power_loss w (mkWorld ∅ ∅ ∅ ∅ o).
Proof.
  intros Hd Hf. split; cbn; [| |done..].
  - intros d'. rewrite lookup_empty. destruct (w_dirs w !! d') as [[p s]|] eqn:E; [|done]. by apply Hd in E.
  - intros name []. by rewrite lookup_empty in *.
Qed.

(** ** Directories that come into being *)

Lemma missing_dirs_new fuel dirs path d : d ∈ missing_dirs fuel dirs path → dirs !! d = None.
Proof.
  revert path. induction fuel as [|fuel IH]; intros path; cbn; [by intros ?%elem_of_nil|].
  case_bool_decide as Hd; cbn; [by intros ?%elem_of_nil|]. apply eq_None_not_Some in Hd.
  repeat (case_bool_decide; cbn; [by intros ?%elem_of_nil|]). intros [->|Hin]%elem_of_cons; eauto.
Qed.

(** A path and its parents, without the root. *)
Definition parents (path : string) : list string := missing_dirs (S (String.length path)) ∅ path.

Lemma missing_parents w path d : d ∈ missing w path → d ∈ parents path.
Proof.
  unfold missing, parents. generalize (S (String.length path)). intros fuel. revert path.
  induction fuel as [|fuel IH]; intros path; cbn; [done|]. rewrite lookup_empty.
  rewrite (bool_decide_false (is_Some None)) by (by intros []). cbn.
  case_bool_decide; cbn; [by intros ?%elem_of_nil|].
  destruct (bool_decide (path = "/") || bool_decide (path = ".")); [done|].
  rewrite !elem_of_cons. intros [->|Hd]; [by left|right; auto].
Qed.

Lemma lookup_add_dirs l perm w d :
  w_dirs (add_dirs l perm w) !! d = if decide (d ∈ l) then Some (mkDir perm false) else w_dirs w !! d.
Proof.
  unfold add_dirs. cbn. induction l as [|x l IH]; [done|]. cbn [foldr].
  destruct (decide (x = d)) as [->|Hne].
  - rewrite lookup_insert_eq, decide_True; [done|]. left.
  - rewrite lookup_insert_ne, IH by done. destruct (decide (d ∈ l)) as [Hin|Hin].
    + rewrite decide_True; [done|by right].
    + rewrite decide_False; [done|]. by intros [->|?]%elem_of_cons.
Qed.

Lemma missing_exists w path : is_Some (w_dirs w !! path) → missing w path = [].
Proof. intros Hd. unfold missing. cbn. by rewrite bool_decide_true. Qed.

(** What [os.MkdirAll] can change, whether it fails or not. *)
Lemma mkdir_keeps path perm (P : World → Prop) :
  outcome_free P →
  (∀ w l, P w → (∀ d, d ∈ l → w_dirs w !! d = None) → P (add_dirs l perm w)) →
  keeps P (os_MkdirAll path perm).
Proof.
  intros Hf Ha. assert (∀ w d, d ∈ missing w path → w_dirs w !! d = None) as Hm
    by (intros w d; apply missing_dirs_new).
  apply keeps_syscall; [done|..].
  - intros w Hw. destruct (existsb _ _); [done|]. apply Ha; [done|apply Hm].
  - intros n w Hw. destruct (existsb _ _); [done|]. apply Ha; [done|]. intros d Hd. apply (Hm w).
    by apply (subseteq_drop (length (missing w path) - n)).
Qed.

(** ** Elements of paths *)

Definition slash_free (s : string) : bool := all_bytes (λ c, negb (bool_decide (c = "/"%char))) s.

Lemma slash_free_app s t : slash_free (s +:+ t) = slash_free s && slash_free t.
Proof. apply all_bytes_app. Qed.

Lemma slash_free_cons c s : slash_free (String c s) = true ↔ c ≠ "/"%char ∧ slash_free s = true.
Proof.
  change (slash_free (String c s)) with (negb (bool_decide (c = "/"%char)) && slash_free s).
  by rewrite andb_true_iff, negb_true_iff, bool_decide_eq_false.
Qed.

Lemma segments_cons c s : segments (String c s) =
  if bool_decide (c = "/"%char) then "" :: segments s
  else match segments s with segment :: rest => String c segment :: rest | [] => [String c ""] end.
Proof. done. Qed.

Lemma segments_free s : slash_free s = true → segments s = [s].
Proof.
  induction s as [|c s IH]; [done|]. intros [Hc Hs]%slash_free_cons.
  by rewrite segments_cons, bool_decide_false, (IH Hs).
Qed.

Lemma segments_nonempty s : segments s ≠ [].
Proof. destruct s as [|c s]; [done|]. rewrite segments_cons. case_bool_decide; [done|]. by destruct (segments s). Qed.

Lemma segments_app s t : slash_free t = true → segments (s +:+ String "/" t) = segments s ++ [t].
Proof.
  intros Ht. induction s as [|c s IH].
  - rewrite str_app_nil_l, segments_cons, bool_decide_true by done. by rewrite segments_free.
  - rewrite str_app_cons, !segments_cons, IH. case_bool_decide; [done|].
    pose proof (segments_nonempty s). by destruct (segments s).
Qed.

Lemma segments_slash_free s x : x ∈ segments s → slash_free x = true.
Proof.
  revert x. induction s as [|c s IH]; intros x; [by intros ->%list_elem_of_singleton|]. rewrite segments_cons.
  case_bool_decide as Hc; [intros [->|?]%elem_of_cons; [done|by apply IH]|].
  pose proof (segments_nonempty s) as Hne. destruct (segments s) as [|y rest]; [done|].
  intros [->|Hx]%elem_of_cons; [|apply IH; by right]. apply slash_free_cons. split; [done|]. apply IH. left.
Qed.

(** The last element is free of separators, except that of a path that has no other bytes. *)
Lemma Base_slash_free p : filepath_Base p = "/" ∨ slash_free (filepath_Base p) = true.
Proof.
  unfold filepath_Base. case_bool_decide; [by right|].
  destruct (last _) as [x|] eqn:Hx; [right|by left]. cbn.
  apply last_Some_elem_of, list_elem_of_filter in Hx as [_ Hx]. by eapply segments_slash_free.
Qed.

Lemma Base_app d name : slash_free name = true → name ≠ "" → filepath_Base (d +:+ String "/" name) = name.
Proof.
  intros Hf Hn. unfold filepath_Base. rewrite bool_decide_false.
  - rewrite segments_app, filter_app, filter_cons, decide_True, filter_nil, last_snoc by done. done.
  - intros E. apply (f_equal len) in E. rewrite len_app in E. unfold len in E. cbn in E. lia.
Qed.

(** ** Computations that are not cut short, and locks *)

(** How [m] ends when it is not cut short. *)
Definition ends {A} (m : io A) (R : A → World → Prop) (E : World → Prop) (w : World) : Prop :=
  match m w with
  | (Ret a, w') => R a w'
  | (Throw _, w') => E w'
  | (Halt, _) => True
  end.

Lemma ends_wp {A} (m : io A) R E w : wp m R E w → ends m R E w.
Proof. unfold wp, ends. by destruct (m w) as [[a|e|] w']. Qed.

Lemma ends_bind {A B} (m : io A) (f : A → io B) R E w :
  ends m (λ a w', ends (f a) R E w') E w → ends (m ≫= f) R E w.
Proof. unfold ends, mbind, io_bind. by destruct (m w) as [[a|e|] w']. Qed.

Lemma ends_mono {A} (m : io A) (R R' : A → World → Prop) (E E' : World → Prop) w :
  ends m R E w → (∀ a w', R a w' → R' a w') → (∀ w', E w' → E' w') → ends m R' E' w.
Proof. unfold ends. destruct (m w) as [[a|e|] w']; auto. Qed.

Lemma ends_on_error {A} (m : io A) cleanup h R (E E' : World → Prop) w :
  ends m R E w → (∀ w', E w' → ends cleanup (λ _, E') E' w') → ends (on_error m cleanup h) R E' w.
Proof.
  unfold ends, on_error. destruct (m w) as [[a|e|] w']; [done| |done]. intros He Hc. specialize (Hc w' He).
  by destruct (cleanup w') as [[b|e'|] w2].
Qed.

Lemma ends_ignore (m : io unit) (Q : World → Prop) w : ends m (λ _, Q) Q w → ends (ignore m) (λ _, Q) Q w.
Proof. unfold ends, ignore. by destruct (m w) as [[a|e|] w']. Qed.

(** The locks that are held. *)
Definition holds (l : gset string) (w : World) : Prop := w_locks w = l.

Lemma holds_free l : outcome_free (holds l).
Proof. by intros w x o _ Hw. Qed.
#[export] Hint Resolve holds_free : io_keeps.

(** Facts that the files and directories do not matter for. *)
Record blind (P : World → Prop) : Prop := {
  bl_free : outcome_free P;
  bl_files w d f s : P w → P (mkWorld d f s (w_locks w) (w_outcomes w))
}.

Lemma holds_blind l : blind (holds l).
Proof. split; [apply holds_free|by intros]. Qed.

Lemma honest_outcome_free : outcome_free honest.
Proof.
  intros w x o Eo Hh. unfold honest in *. rewrite Eo in Hh. by apply Forall_cons in Hh as [_ Hh].
Qed.

Lemma honest_blind : blind honest.
Proof. split; [apply honest_outcome_free|by intros]. Qed.

#[export] Hint Resolve holds_blind honest_blind bl_free : io_keeps.

Ltac blind_call P HP :=
  intros; apply keeps_syscall;
    [by apply bl_free|intros w0 Hw0; repeat case_match; first [done|exact (bl_files P HP w0 _ _ _ Hw0)]|
     intros n0 w0 Hw0; first [done|exact (bl_files P HP w0 _ _ _ Hw0)]].

Section blind.
Context (P : World → Prop) (HP : blind P).

Lemma os_MkdirAll_blind d m : keeps P (os_MkdirAll d m).
Proof. apply mkdir_keeps; [by apply bl_free|]. intros w l Hw _. exact (bl_files P HP w _ _ _ Hw). Qed.
Lemma os_CreateTemp_blind d p : keeps P (os_CreateTemp d p).
Proof. blind_call P HP. Qed.
Lemma file_Chmod_blind n p : keeps P (file_Chmod n p).
Proof. blind_call P HP. Qed.
Lemma file_Write_blind n d : keeps P (file_Write n d).
Proof. blind_call P HP. Qed.
Lemma file_Sync_blind n : keeps P (file_Sync n).
Proof. blind_call P HP. Qed.
Lemma os_Rename_blind a b : keeps P (os_Rename a b).
Proof. blind_call P HP. Qed.
Lemma os_Remove_blind n : keeps P (os_Remove n).
Proof. blind_call P HP. Qed.
Lemma dir_Sync_blind d : keeps P (dir_Sync d).
Proof. blind_call P HP. Qed.

End blind.

#[export] Hint Resolve os_MkdirAll_blind os_CreateTemp_blind file_Chmod_blind file_Write_blind file_Sync_blind
  os_Rename_blind os_Remove_blind dir_Sync_blind : io_keeps.
