(* ===== verification/Ed25519.v ===== *)
(** * [crypto/ed25519]

    The signature scheme is an interface: its operations are the class
    [Ed25519], and [Ed25519Laws] states what the package documents and the
    program relies on.  Private keys are 64 bytes, the seed followed by the
    public key, as Go lays them out.  No theorem assumes unforgeability; what an
    accepted signature implies is stated in terms of [ed25519_Verify].

    [ToyEd25519] is a lawful (and insecure) instance: it shows that the laws are
    satisfiable, and the examples evaluate with it. *)

From S2P Require Import Prelude GoRegexp GoBase64 GoSha256 GoStrings.

Definition SeedSize : Z := 32.
Definition PublicKeySize : Z := 32.
Definition PrivateKeySize : Z := 64.
Definition SignatureSize : Z := 64.

Class Ed25519 := {
  NewKeyFromSeed : string → string;
  ed25519_Sign : string → string → string;
  ed25519_Verify : string → string → string → bool;
}.

(** [privateKey.Public()] returns the second half of the key, [privateKey[:32]]
    is the seed. *)
Definition Public (privateKey : string) : string := str_drop 32 privateKey.
Definition Seed (privateKey : string) : string := str_take 32 privateKey.

Class Ed25519Laws `{Ed25519} := {
  NewKeyFromSeed_seed seed : len seed = SeedSize → Seed (NewKeyFromSeed seed) = seed;
  NewKeyFromSeed_len seed : len seed = SeedSize → len (NewKeyFromSeed seed) = PrivateKeySize;
  ed25519_Sign_len k m : len k = PrivateKeySize → len (ed25519_Sign k m) = SignatureSize;
  ed25519_Verify_Sign seed m : len seed = SeedSize →
    ed25519_Verify (Public (NewKeyFromSeed seed)) m (ed25519_Sign (NewKeyFromSeed seed) m) = true;
}.

(** A toy scheme: the public key is the seed and a signature is the public key
    followed by the digest of the message. *)
Definition ToyEd25519 : Ed25519 := {|
  NewKeyFromSeed seed := seed +:+ seed;
  ed25519_Sign k m := str_take 32 (str_drop 32 k) +:+ Sum256 m;
  ed25519_Verify pub m sig := bool_decide (sig = pub +:+ Sum256 m);
|}.

Lemma str_drop_app_exact s t : str_drop (String.length s) (s +:+ t) = t.
Proof. induction s as [|c s IH]; [done|]. by rewrite str_app_cons. Qed.

Lemma str_take_app_exact s t : str_take (String.length s) (s +:+ t) = s.
Proof. induction s as [|c s IH]; [by destruct t|]. rewrite str_app_cons. simpl. by rewrite IH. Qed.

Lemma ToyEd25519_laws : @Ed25519Laws ToyEd25519.
Proof.
  split; unfold SeedSize, PrivateKeySize, SignatureSize;
    cbn [NewKeyFromSeed ed25519_Sign ed25519_Verify ToyEd25519].
  - intros s Hs. unfold Seed. replace 32%nat with (String.length s) by (unfold len in Hs; lia).
    apply str_take_app_exact.
  - intros s Hs. rewrite len_app. lia.
  - intros k m Hk. rewrite len_app, len_Sum256. unfold len in *.
    rewrite str_take_length, str_drop_length. lia.
  - intros s m Hs. apply bool_decide_eq_true. unfold Public.
    assert (str_drop 32 (s +:+ s) = s) as ->.
    { replace 32%nat with (String.length s) by (unfold len in Hs; lia).
      apply str_drop_app_exact. }
    rewrite str_take_all; [done|]. unfold len in Hs. lia.
Qed.

Section keys.
Context `{Ed25519Laws}.

Lemma len_Public k : len k = PrivateKeySize → len (Public k) = PublicKeySize.
Proof.
  unfold len, Public, PrivateKeySize, PublicKeySize. rewrite str_drop_length. lia.
Qed.

Lemma len_Seed k : len k = PrivateKeySize → len (Seed k) = SeedSize.
Proof.
  unfold len, Seed, PrivateKeySize, SeedSize. rewrite str_take_length. lia.
Qed.

End keys.

(** The toy key of a repeated seed byte. *)
Definition toy_key (c : ascii) : string :=
  let seed := String.concat "" (replicate 32 (String c "")) in @NewKeyFromSeed ToyEd25519 seed.
