(* ===== verification/KeyPolicy.v ===== *)
(** * Key policies ([internal/manifest/keypolicy.go])

    An offline root key signs a policy that grants each online manifest key an
    epoch and a range of manifest versions.  The file models the data, the
    construction, validation and lookup of grants, and proves that a policy of
    valid shape partitions the versions among its keys, that epochs follow the
    versions, that signing and validation agree, and that the policy digest does
    not depend on the order of the grants. *)

From S2P Require Import Prelude GoRegexp GoBase64 GoSha256 GoStrings GoJson Ed25519.

(** ** Data *)

Record KeyGrant := mkKeyGrant {
  kg_KeyID : string;
  kg_PublicKey : string;
  kg_Epoch : Z;
  kg_NotBeforeVersion : Z;
  kg_NotAfterVersion : Z
}.

Record KeyPolicy := mkKeyPolicy {
  kp_Version : Z;
  kp_RootKeyID : string;
  kp_Keys : list KeyGrant;
  kp_Signature : string
}.

Record keyPolicyPayload := mkKeyPolicyPayload {
  kpp_Context : string;
  kpp_Version : Z;
  kpp_RootKeyID : string;
  kpp_Keys : list KeyGrant
}.

#[global] Instance KeyGrant_eq_dec : EqDecision KeyGrant.
Proof. solve_decision. Defined.
#[global] Instance KeyPolicy_eq_dec : EqDecision KeyPolicy.
Proof. solve_decision. Defined.

Definition keyPolicyContext : string := "virtual-cloud-help-service/manifest-key-policy/v1".
Definition maxKeyPolicyBytes : Z := Z.shiftl 32 10.
Definition maxPolicyKeys : Z := 64.

(** ** JSON forms *)

Definition json_KeyGrant (g : KeyGrant) : json := JObj
  [("key_id", JStr (kg_KeyID g)); ("public_key", JStr (kg_PublicKey g));
   ("epoch", JInt (kg_Epoch g)); ("not_before_version", JInt (kg_NotBeforeVersion g));
   ("not_after_version", JInt (kg_NotAfterVersion g))].

Definition json_KeyPolicy (p : KeyPolicy) : json := JObj
  [("version", JInt (kp_Version p)); ("root_key_id", JStr (kp_RootKeyID p));
   ("keys", JArr (json_KeyGrant <$> kp_Keys p)); ("signature", JStr (kp_Signature p))].

Definition json_keyPolicyPayload (p : keyPolicyPayload) : json := JObj
  [("context", JStr (kpp_Context p)); ("version", JInt (kpp_Version p));
   ("root_key_id", JStr (kpp_RootKeyID p)); ("keys", JArr (json_KeyGrant <$> kpp_Keys p))].

(** ** Canonical order *)

(** The comparison key of [canonicalKeyGrants]: start version, then key ID. *)
Definition grant_key (g : KeyGrant) : Z * string := (kg_NotBeforeVersion g, kg_KeyID g).

Definition canonicalKeyGrants (grants : list KeyGrant) : list KeyGrant :=
  sort_slice (λ x y, key_less (grant_key x) (grant_key y)) grants.

Definition canonicalKeyPolicy (policy : KeyPolicy) : KeyPolicy :=
  mkKeyPolicy (kp_Version policy) (kp_RootKeyID policy)
    (canonicalKeyGrants (kp_Keys policy)) (kp_Signature policy).

(** [KeyID]: the encoded SHA-256 digest of a public key. *)
Definition KeyID (publicKey : string) : string := digest publicKey.

Definition NewKeyGrant (publicKey : string) (epoch notBeforeVersion notAfterVersion : Z)
    : result KeyGrant :=
  fail_if (negb (len publicKey =? PublicKeySize)) (NewError "manifest: invalid manifest public key");;
  Ok (mkKeyGrant (KeyID publicKey) (EncodeToString RawURLEncoding publicKey)
        epoch notBeforeVersion notAfterVersion).

(** ** Shape *)

(** [raw] decodes to a public key whose ID is the grant's. *)
Definition grant_key_valid (g : KeyGrant) : bool :=
  match DecodeString RawURLEncoding (kg_PublicKey g) with
  | Some raw => (len raw =? PublicKeySize) && bool_decide (KeyID raw = kg_KeyID g)
  | None => false
  end.

(** The loop over the canonical grants; [previous] is [grants[index-1]]. *)
Fixpoint validateGrants (previous : option KeyGrant) (seenKeys : gset string)
    (grants : list KeyGrant) : result unit :=
  match grants with
  | [] => Ok tt
  | grant :: rest =>
      fail_if (negb (grant_key_valid grant))
        (NewError "manifest: key policy grant has an invalid key");;
      fail_if (bool_decide (kg_KeyID grant ∈ seenKeys))
        (NewError "manifest: duplicate key policy grant");;
      fail_if ((kg_Epoch grant =? 0) || (kg_NotBeforeVersion grant =? 0))
        (NewError "manifest: key policy grant has a zero epoch or start version");;
      fail_if (negb (kg_NotAfterVersion grant =? 0)
               && (kg_NotAfterVersion grant <? kg_NotBeforeVersion grant))
        (NewError "manifest: key policy grant has an invalid version range");;
      match previous with
      | None =>
          fail_if (negb (kg_Epoch grant =? 1) || negb (kg_NotBeforeVersion grant =? 1))
            (NewError "manifest: first key policy grant must start at epoch and version 1")
      | Some prev =>
          fail_if ((kg_NotAfterVersion prev =? 0) || (kg_NotAfterVersion prev =? max_uint64))
            (NewError "manifest: only the final key policy grant may be open-ended");;
          fail_if (negb (kg_Epoch grant =? u64_add (kg_Epoch prev) 1)
                   || negb (kg_NotBeforeVersion grant =? u64_add (kg_NotAfterVersion prev) 1))
            (NewError "manifest: key policy grants must have contiguous versions and epochs")
      end;;
      validateGrants (Some grant) ({[kg_KeyID grant]} ∪ seenKeys) rest
  end.

Definition validateKeyPolicyShape (policy : KeyPolicy) : result unit :=
  fail_if (kp_Version policy =? 0) (NewError "manifest: key policy version must be positive");;
  fail_if (negb (len (kp_RootKeyID policy) =? EncodedLen RawURLEncoding 32))
    (NewError "manifest: key policy root key ID is invalid");;
  fail_if ((llen (kp_Keys policy) =? 0) || (llen (kp_Keys policy) >? maxPolicyKeys))
    (NewError "manifest: key policy must contain between 1 and 64 grants");;
  fail_if (negb (bool_decide (kp_Signature policy = ""))
           && negb (len (kp_Signature policy) =? EncodedLen RawURLEncoding SignatureSize))
    (NewError "manifest: encoded key policy signature size is invalid");;
  let grants := canonicalKeyGrants (kp_Keys policy) in
  validateGrants None ∅ grants;;
  fail_if (match last grants with
           | Some g => negb (kg_NotAfterVersion g =? 0) | None => true end)
    (NewError "manifest: final key policy grant must be open-ended").

(** ** Signing, validation and lookup *)

(** The bytes the root key signs.  [json.Marshal] cannot fail on this struct. *)
Definition keyPolicySigningBytes (policy : KeyPolicy) : string :=
  print (json_keyPolicyPayload (mkKeyPolicyPayload keyPolicyContext (kp_Version policy)
    (kp_RootKeyID policy) (canonicalKeyGrants (kp_Keys policy)))).

(** The loop of [KeyPolicyGrant]: the first grant of the key decides. *)
Fixpoint findGrant (keys : list KeyGrant) (keyID : string) (version : Z)
    : result (KeyGrant * string) :=
  match keys with
  | [] => Err (NewError "manifest: signing key is absent from key policy")
  | grant :: rest =>
      if negb (bool_decide (kg_KeyID grant = keyID)) then findGrant rest keyID version
      else
        fail_if ((version <? kg_NotBeforeVersion grant)
                 || (negb (kg_NotAfterVersion grant =? 0) && (version >? kg_NotAfterVersion grant)))
          (NewError "manifest: signing key is not authorized for version");;
        match DecodeString RawURLEncoding (kg_PublicKey grant) with
        | Some raw =>
            if len raw =? PublicKeySize then Ok (grant, raw)
            else Err (NewError "manifest: key policy contains an invalid public key")
        | None => Err (NewError "manifest: key policy contains an invalid public key")
        end
  end.

Definition KeyPolicyGrant (policy : KeyPolicy) (keyID : string) (version : Z)
    : result (KeyGrant * string) :=
  findGrant (kp_Keys policy) keyID version.

Section signing.
Context `{Ed25519}.

Definition validEd25519PrivateKey (privateKey : string) : bool :=
  (len privateKey =? PrivateKeySize)
  && bool_decide (NewKeyFromSeed (Seed privateKey) = privateKey).

Definition SignKeyPolicy (rootPrivateKey : string) (version : Z) (grants : list KeyGrant)
    : result KeyPolicy :=
  fail_if (negb (validEd25519PrivateKey rootPrivateKey))
    (NewError "manifest: invalid offline root private key");;
  let policy := mkKeyPolicy version (KeyID (Public rootPrivateKey)) (canonicalKeyGrants grants) "" in
  validateKeyPolicyShape policy;;
  let payload := keyPolicySigningBytes policy in
  Ok (mkKeyPolicy (kp_Version policy) (kp_RootKeyID policy) (kp_Keys policy)
        (EncodeToString RawURLEncoding (ed25519_Sign rootPrivateKey payload))).

Definition ValidateKeyPolicy (policy : KeyPolicy) (rootPublicKey : string) : result string :=
  fail_if (negb (len rootPublicKey =? PublicKeySize))
    (NewError "manifest: invalid offline root public key");;
  validateKeyPolicyShape policy;;
  fail_if (negb (bool_decide (kp_RootKeyID policy = KeyID rootPublicKey)))
    (NewError "manifest: key policy root does not match the pinned offline root");;
  match DecodeString RawURLEncoding (kp_Signature policy) with
  | Some signature =>
      if len signature =? SignatureSize then
        fail_if (negb (ed25519_Verify rootPublicKey (keyPolicySigningBytes policy) signature))
          (NewError "manifest: key policy signature verification failed");;
        Ok (digest (print (json_KeyPolicy (canonicalKeyPolicy policy))))
      else Err (NewError "manifest: key policy signature is invalid")
  | None => Err (NewError "manifest: key policy signature is invalid")
  end.

End signing.

(** ** Decoding *)

Section decoding.
Context `{JsonDecode KeyPolicy, JsonSyntax}.

(** [manifest.decodeStrict] at the type of policies (see also [Manifest]). *)
Definition DecodeKeyPolicy (reader : Reader) : result KeyPolicy :=
  data ← wrap "manifest: read key policy" (ReadAllLimited reader (maxKeyPolicyBytes + 1));
  fail_if ((len data =? 0) || (len data >? maxKeyPolicyBytes))
    (NewError "manifest: key policy size is invalid");;
  wrap "manifest: decode key policy"
    (decode_one (Wrap "decode trailing JSON data")
       (NewError "unexpected trailing JSON value") data).

End decoding.

(** ** Well-formedness *)

(** The integer fields are [uint64]s. *)
Record grant_u64 (g : KeyGrant) : Prop := {
  grant_u64_epoch : is_u64 (kg_Epoch g);
  grant_u64_before : is_u64 (kg_NotBeforeVersion g);
  grant_u64_after : is_u64 (kg_NotAfterVersion g)
}.

Definition policy_u64 (p : KeyPolicy) : Prop :=
  is_u64 (kp_Version p) ∧ Forall grant_u64 (kp_Keys p).

#[global] Instance grant_u64_dec g : Decision (grant_u64 g).
Proof.
  destruct (decide (is_u64 (kg_Epoch g) ∧ is_u64 (kg_NotBeforeVersion g)
    ∧ is_u64 (kg_NotAfterVersion g))) as [(? & ? & ?)|n].
  - left. by split.
  - right. intros []. by apply n.
Defined.
#[global] Instance policy_u64_dec p : Decision (policy_u64 p).
Proof. unfold policy_u64. apply _. Defined.

(** Grant [g] authorizes [version]. *)
Definition covers (g : KeyGrant) (version : Z) : Prop :=
  kg_NotBeforeVersion g <= version ∧
  (kg_NotAfterVersion g = 0 ∨ version <= kg_NotAfterVersion g).

(** ** Lemmas on the shape check *)

Lemma canonicalKeyGrants_perm l : canonicalKeyGrants l ≡ₚ l.
Proof. apply (sort_by_perm grant_key). Qed.

(** What the loop establishes about consecutive grants. *)
Definition follows (g h : KeyGrant) : Prop :=
  kg_NotAfterVersion g ≠ 0 ∧ kg_NotAfterVersion g ≠ max_uint64 ∧
  kg_Epoch h = u64_add (kg_Epoch g) 1 ∧
  kg_NotBeforeVersion h = u64_add (kg_NotAfterVersion g) 1.

(** What the loop establishes about one grant. *)
Record grant_valid (g : KeyGrant) : Prop := {
  gv_key : grant_key_valid g = true;
  gv_epoch : kg_Epoch g ≠ 0;
  gv_before : kg_NotBeforeVersion g ≠ 0;
  gv_range : kg_NotAfterVersion g = 0 ∨ kg_NotBeforeVersion g <= kg_NotAfterVersion g
}.

Fixpoint chain (previous : option KeyGrant) (grants : list KeyGrant) : Prop :=
  match grants with
  | [] => True
  | g :: rest =>
      grant_valid g ∧
      match previous with
      | None => kg_Epoch g = 1 ∧ kg_NotBeforeVersion g = 1
      | Some p => follows p g
      end ∧ chain (Some g) rest
  end.

Lemma validateGrants_spec prev seen gs :
  validateGrants prev seen gs = Ok tt ↔
  chain prev gs ∧ all_distinct seen (kg_KeyID <$> gs) = true.
Proof.
  revert prev seen. induction gs as [|g gs IH]; intros prev seen; [done|].
  cbn [validateGrants chain fmap list_fmap all_distinct]. split.
  - intros H. inv_ok.
    match goal with H : validateGrants _ _ _ = _ |- _ => apply IH in H as [Hc Hd] end.
    rewrite bool_decide_eq_false_2 by done.
    assert (Hv : grant_valid g).
    { split; [done|lia..]. }
    split; [|done]. split_and!; [done| |done].
    destruct prev as [p|]; inv_ok; unfold follows; lia.
  - intros [([Hk He Hb Hr] & Hp & Hc) Hd].
    case_bool_decide as Hs; [done|]. rewrite Hk.
    repeat (apply mbind_Ok; eexists tt; split; [apply fail_if_Ok; simpl; lia|]).
    apply mbind_Ok. exists tt. split; [|by apply IH].
    destruct prev as [p|]; [|apply fail_if_Ok; lia].
    destruct Hp as (? & ? & ? & ?).
    repeat (apply mbind_Ok; eexists tt; split; [apply fail_if_Ok; lia|]).
    apply fail_if_Ok. lia.
Qed.

(** The declarative content of [validateKeyPolicyShape]. *)
Record policy_shape (p : KeyPolicy) : Prop := {
  ps_version : kp_Version p ≠ 0;
  ps_root : len (kp_RootKeyID p) = 43;
  ps_keys : 1 <= llen (kp_Keys p) <= 64;
  ps_signature : kp_Signature p = "" ∨ len (kp_Signature p) = 86;
  ps_chain : chain None (canonicalKeyGrants (kp_Keys p));
  ps_distinct : NoDup (kg_KeyID <$> kp_Keys p);
  ps_last : ∃ g, last (canonicalKeyGrants (kp_Keys p)) = Some g ∧ kg_NotAfterVersion g = 0
}.

Lemma validateKeyPolicyShape_spec p : validateKeyPolicyShape p = Ok tt ↔ policy_shape p.
Proof.
  unfold validateKeyPolicyShape.
  change (EncodedLen RawURLEncoding 32) with 43.
  change (EncodedLen RawURLEncoding SignatureSize) with 86.
  unfold maxPolicyKeys. split.
  - intros H. inv_ok.
    match goal with H : validateGrants _ _ _ = _ |- _ =>
      apply validateGrants_spec in H as [Hc Hd] end.
    apply all_distinct_NoDup in Hd. rewrite canonicalKeyGrants_perm in Hd.
    split; try done; try lia.
    + unfold llen in *. lia.
    + destruct (decide (kp_Signature p = "")); [by left|right].
      rewrite bool_decide_eq_false_2 in * by done. lia.
    + destruct (last _) as [g|]; [|done]. exists g. split; [done|lia].
  - intros [Hv Hr Hk Hs Hc Hd (g & Hl & Hg)].
    repeat (apply mbind_Ok; exists tt; split; [apply fail_if_Ok; lia|]).
    apply mbind_Ok. exists tt. split.
    { apply fail_if_Ok. case_bool_decide; [done|]. simpl. destruct Hs; [done|lia]. }
    apply mbind_Ok. exists tt. split.
    { apply validateGrants_spec. split; [done|].
      apply all_distinct_NoDup. by rewrite canonicalKeyGrants_perm. }
    apply fail_if_Ok. rewrite Hl. lia.
Qed.

(** Every version and the epoch of [g] lie before those of [h]. *)
Definition earlier (g h : KeyGrant) : Prop :=
  kg_NotAfterVersion g ≠ 0 ∧ kg_NotAfterVersion g < kg_NotBeforeVersion h ∧
  kg_Epoch g < kg_Epoch h.

(** No wrap-around: a successor epoch is not zero, a successor version is not
    that of an open or exhausted grant. *)
Lemma follows_succ g h :
  grant_u64 g → grant_valid h → follows g h →
  kg_Epoch h = kg_Epoch g + 1 ∧ kg_NotBeforeVersion h = kg_NotAfterVersion g + 1 ∧
  kg_NotAfterVersion g ≠ 0.
Proof.
  intros [He _ Ha] [_ Hz _ _] (H0 & Hm & HE & HB).
  unfold u64_add, max_uint64, is_u64 in *.
  rewrite (Z.mod_small (kg_NotAfterVersion g + 1)) in HB by lia.
  destruct (Z.eq_dec (kg_Epoch g + 1) (2 ^ 64)) as [E|].
  - rewrite E, Z.mod_same in HE by lia. lia.
  - rewrite Z.mod_small in HE by lia. lia.
Qed.

Lemma chain_sorted p gs :
  grant_u64 p → Forall grant_u64 gs → chain (Some p) gs →
  Forall (earlier p) gs ∧ StronglySorted earlier gs.
Proof.
  revert p. induction gs as [|g gs IH]; intros p Hp Hgs Hc.
  { split; constructor. }
  destruct Hc as (Hv & Hf & Hc). apply Forall_cons in Hgs as [Hg Hgs].
  destruct (IH g Hg Hgs Hc) as [Hall Hss].
  destruct (follows_succ p g Hp Hv Hf) as (HE & HB & H0).
  assert (Hpg : earlier p g) by (unfold earlier; lia).
  split; [|by constructor]. constructor; [done|].
  eapply Forall_impl; [exact Hall|]. intros h (? & ? & ?).
  destruct Hpg as (? & ? & ?). destruct Hv. unfold earlier. lia.
Qed.

Lemma chain_head_sorted gs :
  Forall grant_u64 gs → chain None gs → StronglySorted earlier gs.
Proof.
  destruct gs as [|g gs]; [constructor|]. intros [Hg Hgs]%Forall_cons (_ & _ & Hc).
  destruct (chain_sorted g gs Hg Hgs Hc). by constructor.
Qed.

(** The ranges of a chain leave no gap from the start of its first grant on. *)
Lemma chain_covers gs prev start v :
  Forall grant_u64 gs → chain prev gs → (∃ g, last gs = Some g ∧ kg_NotAfterVersion g = 0) →
  (∃ g rest, gs = g :: rest ∧ kg_NotBeforeVersion g = start) → start <= v →
  ∃ g, g ∈ gs ∧ covers g v.
Proof.
  revert prev start. induction gs as [|g gs IH]; intros prev start Hu Hc Hl Hs Hv.
  { by destruct Hs as (? & ? & ? & ?). }
  destruct Hs as (g' & rest' & [= <- <-] & Hs).
  apply Forall_cons in Hu as [Hg Hu]. destruct Hc as (_ & _ & Hc).
  destruct gs as [|h gs].
  - destruct Hl as (l & [= <-] & Hl). exists g. split; [set_solver|]. unfold covers. lia.
  - assert (Hh : grant_valid h) by (by destruct Hc).
    assert (Hf : follows g h) by (destruct Hc; tauto).
    destruct (follows_succ g h Hg Hh Hf) as (_ & HB & H0).
    destruct (Z.le_gt_cases v (kg_NotAfterVersion g)).
    + exists g. split; [set_solver|]. unfold covers. lia.
    + destruct (IH (Some g) (kg_NotBeforeVersion h) Hu Hc) as (k & Hk & Hkv); [|eauto|lia|].
      * by rewrite last_cons_cons in Hl.
      * exists k. split; [set_solver|done].
Qed.

Lemma StronglySorted_trichotomy {A} (R : relation A) l x y :
  StronglySorted R l → x ∈ l → y ∈ l → x = y ∨ R x y ∨ R y x.
Proof.
  induction 1 as [|a l Hs IH Hall]; [set_solver|].
  rewrite Forall_forall in Hall. rewrite !elem_of_cons. naive_solver.
Qed.

(** ** Policies of valid shape *)

Lemma shape_grant_valid p g :
  validateKeyPolicyShape p = Ok tt → g ∈ kp_Keys p → grant_valid g.
Proof.
  intros Hshape. rewrite <- canonicalKeyGrants_perm.
  apply validateKeyPolicyShape_spec in Hshape as [_ _ _ _ Hc _ _].
  revert Hc. generalize (@None KeyGrant). induction (canonicalKeyGrants (kp_Keys p)) as [|h gs IH];
    intros prev Hc Hg; [set_solver|].
  destruct Hc as (Hv & _ & Hc). apply elem_of_cons in Hg as [->|Hg]; [done|by eapply IH].
Qed.

Section shape.
Context (p : KeyPolicy) (Hshape : validateKeyPolicyShape p = Ok tt) (Hu : policy_u64 p).

Lemma shape_grants_u64 : Forall grant_u64 (canonicalKeyGrants (kp_Keys p)).
Proof. rewrite canonicalKeyGrants_perm. apply Hu. Qed.

Lemma shape_ordered g h : g ∈ kp_Keys p → h ∈ kp_Keys p → g = h ∨ earlier g h ∨ earlier h g.
Proof.
  intros Hg Hh. rewrite <- canonicalKeyGrants_perm in Hg, Hh.
  eapply StronglySorted_trichotomy; [|done..].
  apply chain_head_sorted; [apply shape_grants_u64|].
  by apply validateKeyPolicyShape_spec in Hshape as [].
Qed.

Lemma shape_covered v : 1 <= v → ∃ g, g ∈ kp_Keys p ∧ covers g v.
Proof.
  intros Hv. apply validateKeyPolicyShape_spec in Hshape as [_ _ _ _ Hc _ Hl].
  setoid_rewrite <- (canonicalKeyGrants_perm (kp_Keys p)).
  eapply (chain_covers _ None 1); [apply shape_grants_u64|done|done| |done].
  destruct (canonicalKeyGrants (kp_Keys p)) as [|g gs]; [by destruct Hl as (? & ? & ?)|].
  destruct Hc as (_ & [_ HB] & _). eauto.
Qed.

Lemma shape_covers_unique g h v :
  g ∈ kp_Keys p → h ∈ kp_Keys p → covers g v → covers h v → g = h.
Proof.
  intros Hg Hh [? ?] [? ?].
  destruct (shape_ordered g h Hg Hh) as [|[(? & ? & ?)|(? & ? & ?)]]; [done|lia..].
Qed.

Lemma shape_epoch_mono g h v w :
  g ∈ kp_Keys p → h ∈ kp_Keys p → covers g v → covers h w → v <= w →
  kg_Epoch g <= kg_Epoch h ∧ (kg_Epoch g = kg_Epoch h ↔ g = h).
Proof.
  intros Hg Hh [? ?] [? ?] Hvw.
  destruct (shape_ordered g h Hg Hh) as [->|[(? & ? & ?)|(? & ? & ?)]]; [done| |lia].
  split; [lia|]. split; [lia|intros ->; lia].
Qed.

End shape.

(** ** Lookup *)

Lemma findGrant_inv keys k v g raw :
  findGrant keys k v = Ok (g, raw) →
  g ∈ keys ∧ kg_KeyID g = k ∧ covers g v ∧
  DecodeString RawURLEncoding (kg_PublicKey g) = Some raw ∧ len raw = PublicKeySize.
Proof.
  induction keys as [|h keys IH]; [done|]. cbn [findGrant].
  case_bool_decide as Hk; simpl.
  - intros H. inv_ok. destruct (DecodeString _ (kg_PublicKey h)) as [r|] eqn:Er; [|done].
    destruct (Z.eqb_spec (len r) PublicKeySize); [|done]. inv_ok.
    split_and!; [set_solver|done| |done|done]. unfold covers. lia.
  - intros H. destruct (IH H) as (? & ?). split; [set_solver|done].
Qed.

Lemma findGrant_hit keys g v raw :
  NoDup (kg_KeyID <$> keys) → g ∈ keys → covers g v →
  DecodeString RawURLEncoding (kg_PublicKey g) = Some raw → len raw = PublicKeySize →
  findGrant keys (kg_KeyID g) v = Ok (g, raw).
Proof.
  induction keys as [|h keys IH]; [set_solver|]. cbn [findGrant fmap list_fmap].
  intros [Hni Hnd]%NoDup_cons Hg [Hc1 Hc2] Hd Hl.
  apply elem_of_cons in Hg as [->|Hg].
  - rewrite bool_decide_eq_true_2 by done. simpl.
    apply mbind_Ok. exists tt. split; [apply fail_if_Ok; lia|].
    rewrite Hd. by apply Z.eqb_eq in Hl as ->.
  - rewrite bool_decide_eq_false_2; [by apply IH|].
    intros E. apply Hni. rewrite E. by apply list_elem_of_fmap_2.
Qed.

Lemma grant_key_valid_inv g :
  grant_key_valid g = true → ∃ raw, DecodeString RawURLEncoding (kg_PublicKey g) = Some raw ∧
    len raw = PublicKeySize ∧ KeyID raw = kg_KeyID g.
Proof.
  unfold grant_key_valid. destruct (DecodeString _ _) as [raw|]; [|done].
  intros H. inv_ok. exists raw. split_and!; [done|lia|done].
Qed.

Lemma KeyPolicyGrant_inv p k v g raw :
  validateKeyPolicyShape p = Ok tt → KeyPolicyGrant p k v = Ok (g, raw) →
  g ∈ kp_Keys p ∧ kg_KeyID g = k ∧ covers g v ∧ KeyID raw = k ∧ len raw = PublicKeySize ∧
  grant_valid g.
Proof.
  intros Hs (Hg & Hk & Hc & Hd & Hl)%findGrant_inv.
  pose proof (shape_grant_valid p g Hs Hg) as Hv.
  destruct (grant_key_valid_inv g (gv_key g Hv)) as (raw' & Hd' & _ & Hid).
  rewrite Hd in Hd'. injection Hd' as <-. split_and!; congruence || done.
Qed.

(** The grant that covers a version is found under its own key ID. *)
Lemma KeyPolicyGrant_hit p g v :
  validateKeyPolicyShape p = Ok tt → g ∈ kp_Keys p → covers g v →
  ∃ raw, KeyPolicyGrant p (kg_KeyID g) v = Ok (g, raw).
Proof.
  intros Hs Hg Hc. pose proof (shape_grant_valid p g Hs Hg) as Hv.
  destruct (grant_key_valid_inv g (gv_key g Hv)) as (raw & Hd & Hl & _).
  exists raw. apply findGrant_hit; try done.
  by apply validateKeyPolicyShape_spec in Hs as [].
Qed.

Lemma KeyPolicyGrant_key_unique p k1 k2 v g1 g2 r1 r2 :
  validateKeyPolicyShape p = Ok tt → policy_u64 p →
  KeyPolicyGrant p k1 v = Ok (g1, r1) → KeyPolicyGrant p k2 v = Ok (g2, r2) →
  k1 = k2 ∧ g1 = g2.
Proof.
  intros Hs Hu H1 H2.
  destruct (KeyPolicyGrant_inv _ _ _ _ _ Hs H1) as (Hg1 & <- & Hc1 & _).
  destruct (KeyPolicyGrant_inv _ _ _ _ _ Hs H2) as (Hg2 & <- & Hc2 & _).
  by rewrite (shape_covers_unique p Hs Hu g1 g2 v).
Qed.

(** ** Order of the grants *)

Definition same_grants (p q : KeyPolicy) : Prop :=
  kp_Version p = kp_Version q ∧ kp_RootKeyID p = kp_RootKeyID q ∧
  kp_Signature p = kp_Signature q ∧ kp_Keys p ≡ₚ kp_Keys q.

#[global] Instance same_grants_equiv : Equivalence same_grants.
Proof.
  unfold same_grants. split.
  - intros p. auto.
  - intros p q (-> & -> & -> & ->). auto.
  - intros p q r (-> & -> & -> & ->) ?. auto.
Qed.

(** Key IDs determine comparison keys, so distinct IDs make the sort canonical. *)
Lemma grant_keys_NoDup l : NoDup (kg_KeyID <$> l) → NoDup (grant_key <$> l).
Proof.
  intros H. apply (NoDup_fmap_1 snd). by rewrite <- list_fmap_compose.
Qed.

Lemma canonicalKeyGrants_order l l' :
  NoDup (kg_KeyID <$> l) → l' ≡ₚ l → canonicalKeyGrants l' = canonicalKeyGrants l.
Proof. intros H Hp. apply (sort_by_perm_eq grant_key); [by apply grant_keys_NoDup|done]. Qed.

Lemma canonicalKeyGrants_idem l :
  NoDup (kg_KeyID <$> l) → canonicalKeyGrants (canonicalKeyGrants l) = canonicalKeyGrants l.
Proof. intros H. apply canonicalKeyGrants_order; [done|apply canonicalKeyGrants_perm]. Qed.

Lemma policy_shape_order p q : same_grants p q → policy_shape p → policy_shape q.
Proof.
  intros (Hv & Hr & Hs & Hk) [? ? ? ? ? Hd ?].
  assert (canonicalKeyGrants (kp_Keys q) = canonicalKeyGrants (kp_Keys p)) as E
    by (apply canonicalKeyGrants_order; [done|by rewrite Hk]).
  split; rewrite <- ?Hv, <- ?Hr, <- ?Hs, ?E; try done.
  - unfold llen. by rewrite <- Hk.
  - by rewrite <- Hk.
Qed.

(** The lookup does not depend on the order of the grants. *)
Lemma KeyPolicyGrant_order p q k v r :
  policy_shape p → same_grants p q → KeyPolicyGrant p k v = Ok r → KeyPolicyGrant q k v = Ok r.
Proof.
  destruct r as [g raw]. intros Hs (_ & _ & _ & Hk) (Hg & <- & Hc & Hd & Hl)%findGrant_inv.
  apply findGrant_hit; try done; [rewrite <- Hk; by destruct Hs|by rewrite <- Hk].
Qed.

(** ** Properties *)

(** C22: a key policy of valid shape authorizes exactly one signing key for each
    manifest version: some key ID is granted the version, and no other one is
    (the "non-overlapping grants" of the type's comment, together with the absence
    of gaps). *)
Theorem policy_authorizes_one_key p v :
  validateKeyPolicyShape p = Ok tt → policy_u64 p → 1 <= v →
  ∃ g raw, KeyPolicyGrant p (kg_KeyID g) v = Ok (g, raw) ∧
    ∀ k r, KeyPolicyGrant p k v = Ok r → k = kg_KeyID g.
Proof.
  intros Hs Hu Hv. destruct (shape_covered p Hs Hu v Hv) as (g & Hg & Hc).
  destruct (KeyPolicyGrant_hit p g v Hs Hg Hc) as (raw & Hhit).
  exists g, raw. split; [done|]. intros k [h r] Hk.
  by destruct (KeyPolicyGrant_key_unique _ _ _ _ _ _ _ _ Hs Hu Hk Hhit).
Qed.

(** Under one policy, epochs follow the versions: a later version is granted an
    epoch that is not smaller, and the epochs are equal exactly when the signing key
    is the same. *)
Theorem epochs_follow_versions p k1 k2 v1 v2 g1 g2 r1 r2 :
  validateKeyPolicyShape p = Ok tt → policy_u64 p →
  KeyPolicyGrant p k1 v1 = Ok (g1, r1) → KeyPolicyGrant p k2 v2 = Ok (g2, r2) → v1 <= v2 →
  kg_Epoch g1 <= kg_Epoch g2 ∧ (kg_Epoch g1 = kg_Epoch g2 ↔ k1 = k2).
Proof.
  intros Hs Hu H1 H2 Hv.
  destruct (KeyPolicyGrant_inv _ _ _ _ _ Hs H1) as (Hg1 & <- & Hc1 & _).
  destruct (KeyPolicyGrant_inv _ _ _ _ _ Hs H2) as (Hg2 & <- & Hc2 & _).
  destruct (shape_epoch_mono p Hs Hu g1 g2 v1 v2) as [Hle Heq]; [done..|].
  split; [done|]. rewrite Heq. split; [by intros ->|].
  apply validateKeyPolicyShape_spec in Hs as [_ _ _ _ _ Hd _].
  intros E. by apply (NoDup_fmap_eq kg_KeyID (kp_Keys p)).
Qed.

Section signed.
Context `{Ed25519Laws}.

(** A valid private key is the one its seed derives. *)
Lemma validEd25519PrivateKey_inv k :
  validEd25519PrivateKey k = true →
  len k = PrivateKeySize ∧ len (Seed k) = SeedSize ∧ NewKeyFromSeed (Seed k) = k.
Proof.
  unfold validEd25519PrivateKey. intros Hk. inv_ok.
  assert (len k = PrivateKeySize) by lia. split_and!; [done|by apply len_Seed|done].
Qed.

Lemma validEd25519PrivateKey_signs k m :
  validEd25519PrivateKey k = true → ed25519_Verify (Public k) m (ed25519_Sign k m) = true.
Proof.
  intros (_ & Hs & <-)%validEd25519PrivateKey_inv. by apply ed25519_Verify_Sign.
Qed.

(** A policy is accepted under the public half of the root key that signed it. *)
Lemma SignKeyPolicy_valid root version grants p :
  SignKeyPolicy root version grants = Ok p → ∃ d, ValidateKeyPolicy p (Public root) = Ok d.
Proof.
  unfold SignKeyPolicy. intros HS. inv_ok.
  destruct (validEd25519PrivateKey_inv root) as (Hl & _ & _); [done|].
  set (sig := ed25519_Sign _ _). assert (Hsl : len sig = 64) by by apply ed25519_Sign_len.
  exists (digest (print (json_KeyPolicy (canonicalKeyPolicy
    (mkKeyPolicy version (KeyID (Public root)) (canonicalKeyGrants grants)
       (EncodeToString RawURLEncoding sig)))))).
  unfold ValidateKeyPolicy. cbn [kp_RootKeyID kp_Signature kp_Keys kp_Version].
  apply mbind_Ok. exists tt. split.
  { apply fail_if_Ok. rewrite (len_Public root Hl). done. }
  apply mbind_Ok. exists tt. split.
  { match goal with E : validateKeyPolicyShape _ = _ |- _ =>
      apply validateKeyPolicyShape_spec in E as [] end.
    apply validateKeyPolicyShape_spec. split; try done.
    right. cbn. by rewrite (len_EncodeToString RawURLEncoding), Hsl. }
  rewrite bool_decide_eq_true_2 by done. simpl.
  rewrite (DecodeString_EncodeToString RawURLEncoding), Hsl. simpl.
  change (keyPolicySigningBytes _) with (keyPolicySigningBytes
    (mkKeyPolicy version (KeyID (Public root)) (canonicalKeyGrants grants) "")) at 1.
  by rewrite validEd25519PrivateKey_signs.
Qed.

(** A policy that [SignKeyPolicy] returns is accepted by [ValidateKeyPolicy]
    under the public half of the root key that signed it, and under no root key
    with another key ID. *)
Theorem sign_then_validate root version grants p :
  SignKeyPolicy root version grants = Ok p →
  (∃ d, ValidateKeyPolicy p (Public root) = Ok d) ∧
  ∀ r, KeyID r ≠ KeyID (Public root) → is_Ok (ValidateKeyPolicy p r) = false.
Proof.
  intros HS. split; [by eapply SignKeyPolicy_valid|]. unfold SignKeyPolicy in HS. inv_ok.
  intros r Hr. apply is_Ok_false. unfold ValidateKeyPolicy. cbn [kp_RootKeyID].
  rewrite (bool_decide_eq_false_2 (_ = KeyID r)) by congruence.
  do 2 (apply mbind_fails; intros _). simpl. eauto.
Qed.

(** Reordering the grants of an accepted policy changes neither acceptance nor the
    digest. *)
Lemma ValidateKeyPolicy_order p q root d :
  ValidateKeyPolicy p root = Ok d → same_grants p q → ValidateKeyPolicy q root = Ok d.
Proof.
  unfold ValidateKeyPolicy. intros HV Hpq. inv_ok.
  match goal with E : validateKeyPolicyShape p = _ |- _ =>
    apply validateKeyPolicyShape_spec in E as Hsp end.
  pose proof (policy_shape_order p q Hpq Hsp) as Hsq%validateKeyPolicyShape_spec.
  destruct Hpq as (Hv & Hr & Hs & Hk).
  assert (canonicalKeyGrants (kp_Keys q) = canonicalKeyGrants (kp_Keys p)) as Hcan
    by (apply canonicalKeyGrants_order; [by destruct Hsp|by rewrite Hk]).
  unfold keyPolicySigningBytes, canonicalKeyPolicy in *.
  rewrite <- Hv, <- Hr, <- Hs, Hcan, Hsq.
  rewrite (bool_decide_eq_true_2 (kp_RootKeyID p = _)) by done. simpl.
  rewrite (proj2 (fail_if_Ok _ _ tt)) by lia. done.
Qed.

(** The declarative content of [ValidateKeyPolicy]. *)
Lemma ValidateKeyPolicy_inv p root d :
  ValidateKeyPolicy p root = Ok d →
  policy_shape p ∧ len root = PublicKeySize ∧ kp_RootKeyID p = KeyID root ∧
  d = digest (print (json_KeyPolicy (canonicalKeyPolicy p))) ∧
  ∃ sig, DecodeString RawURLEncoding (kp_Signature p) = Some sig ∧ len sig = SignatureSize ∧
    ed25519_Verify root (keyPolicySigningBytes p) sig = true.
Proof.
  unfold ValidateKeyPolicy. intros HV. inv_ok.
  match goal with E : validateKeyPolicyShape p = _ |- _ => apply validateKeyPolicyShape_spec in E end.
  destruct (DecodeString RawURLEncoding (kp_Signature p)) as [sig|]; [|done].
  destruct (Z.eqb_spec (len sig) SignatureSize); [|done]. inv_ok.
  split_and!; [done|lia|done|done|]. by exists sig.
Qed.

Lemma same_grants_canonical p : same_grants p (canonicalKeyPolicy p).
Proof. split_and!; [done..|]. symmetry. apply canonicalKeyGrants_perm. Qed.

(** The digest under which a policy is remembered does not depend on the order
    in which its grants are listed: reordering the grants of an accepted policy
    gives an accepted policy with the same digest. *)
Theorem policy_digest_order_independent p q root d :
  ValidateKeyPolicy p root = Ok d → same_grants p q → ValidateKeyPolicy q root = Ok d.
Proof. apply ValidateKeyPolicy_order. Qed.

End signed.

(** ** Examples *)

(** Two keys: the first signs versions 1 to 10, the second the later ones.  The
    grants are given out of order. *)
Definition toy_root : string := toy_key "R"%char.
Definition toy_grant (c : ascii) (epoch first last : Z) : KeyGrant :=
  let pub := Public (toy_key c) in
  mkKeyGrant (KeyID pub) (EncodeToString RawURLEncoding pub) epoch first last.
Definition toy_grants : list KeyGrant := [toy_grant "B"%char 2 11 0; toy_grant "A"%char 1 1 10].
Definition toy_policy : KeyPolicy :=
  match @SignKeyPolicy ToyEd25519 toy_root 1 toy_grants with
  | Ok p => p | Err _ => mkKeyPolicy 0 "" [] "" end.

Lemma policy_authorizes_one_key_witness :
  ∃ g raw, KeyPolicyGrant toy_policy (kg_KeyID g) 11 = Ok (g, raw) ∧
    ∀ k r, KeyPolicyGrant toy_policy k 11 = Ok r → k = kg_KeyID g.
Proof. apply (policy_authorizes_one_key toy_policy 11); [by vm_compute|by_compute|lia]. Defined.

Lemma epochs_follow_versions_witness :
  let a := toy_grant "A"%char 1 1 10 in let b := toy_grant "B"%char 2 11 0 in
  kg_Epoch a <= kg_Epoch b ∧ (kg_Epoch a = kg_Epoch b ↔ kg_KeyID a = kg_KeyID b).
Proof.
  apply (epochs_follow_versions toy_policy _ _ 10 11 _ _
    (Public (toy_key "A"%char)) (Public (toy_key "B"%char))); [by vm_compute|by_compute|by vm_compute..].
Defined.

Lemma sign_then_validate_witness :
  (∃ d, @ValidateKeyPolicy ToyEd25519 toy_policy (Public toy_root) = Ok d) ∧
  ∀ r, KeyID r ≠ KeyID (Public toy_root) →
    is_Ok (@ValidateKeyPolicy ToyEd25519 toy_policy r) = false.
Proof.
  apply (@sign_then_validate ToyEd25519 ToyEd25519_laws toy_root 1 toy_grants). by vm_compute.
Defined.

Lemma policy_digest_order_independent_witness :
  let reordered := mkKeyPolicy (kp_Version toy_policy) (kp_RootKeyID toy_policy)
    (rev (kp_Keys toy_policy)) (kp_Signature toy_policy) in
  @ValidateKeyPolicy ToyEd25519 reordered (Public toy_root) =
  @ValidateKeyPolicy ToyEd25519 toy_policy (Public toy_root).
Proof.
  intros reordered.
  destruct (@ValidateKeyPolicy ToyEd25519 toy_policy (Public toy_root)) as [d|e] eqn:E.
  - apply (@policy_digest_order_independent ToyEd25519 toy_policy); [done|].
    split_and!; [done..|]. apply Permutation_rev.
  - by vm_compute in E.
Defined.
