(* ===== verification/Manifest.v ===== *)
(** * Catalogs and documents ([internal/manifest/manifest.go])

    The data of catalogs, documents, envelopes and client state, the validators
    of catalog contents and documents, the canonical order and the catalog
    digest.  Issuing and verifying envelopes is in [Envelope]. *)

From S2P Require Import Prelude GoRegexp GoBase64 GoSha256 GoStrings GoNet GoJson Ed25519 KeyPolicy.

(** ** Constants and patterns *)

Definition SchemaVersion : Z := 3.
Definition Algorithm : string := "Ed25519".
Definition maxManifestBytes : Z := Z.shiftl 1 20.
Definition maxManifestLife : duration := Hour.
Definition allowedClockSkew : duration := 2 * Minute.
Definition TransportAmneziaWG : string := "amneziawg".
Definition TransportReality : string := "vless-reality".

Definition idPattern : re := head_tail lower_digit lower_digit_dash 62.
Definition regionPattern : re := head_tail lower_digit lower_digit_dash 63.
Definition countryPattern : re := times (Class upper) 2.

(** One label of a host name, under [(?i:...)]. *)
Definition hostLabel : re :=
  Seq (fold lower_digit) (opt (Seq (upto (fold lower_digit_dash) 61) (fold lower_digit))).
Definition hostnamePattern : re :=
  Seq hostLabel (Seq (Star (Seq (literal "."%char) hostLabel)) (opt (literal "."%char))).
Definition credentialPattern : re := head_tail alnum (λ c, alnum c || one_of "._-" c) 127.

(** ** Data *)

Record DiscoveryEndpoint := mkDiscoveryEndpoint {
  de_ID : string;
  de_URL : string;
  de_Priority : Z
}.

Record Endpoint := mkEndpoint {
  ep_ID : string;
  ep_Transport : string;
  ep_Address : string;
  ep_ServerName : string;
  ep_CredentialRef : string;
  ep_Priority : Z
}.

Record Node := mkNode {
  nd_ID : string;
  nd_Region : string;
  nd_CountryCode : string;
  nd_Provider : string;
  nd_ASN : Z;
  nd_Endpoints : list Endpoint
}.

Record Catalog := mkCatalog {
  cat_Revision : Z;
  cat_Discovery : list DiscoveryEndpoint;
  cat_Nodes : list Node
}.

Record Document := mkDocument {
  doc_SchemaVersion : Z;
  doc_Version : Z;
  doc_CatalogRevision : Z;
  doc_IssuedAt : time;
  doc_ExpiresAt : time;
  doc_KeyPolicy : KeyPolicy;
  doc_Discovery : list DiscoveryEndpoint;
  doc_Nodes : list Node
}.

#[global] Instance DiscoveryEndpoint_eq_dec : EqDecision DiscoveryEndpoint.
Proof. solve_decision. Defined.
#[global] Instance Endpoint_eq_dec : EqDecision Endpoint.
Proof. solve_decision. Defined.
#[global] Instance Node_eq_dec : EqDecision Node.
Proof. solve_decision. Defined.
#[global] Instance Document_eq_dec : EqDecision Document.
Proof. solve_decision. Defined.

(** ** JSON forms *)

Definition json_DiscoveryEndpoint (d : DiscoveryEndpoint) : json := JObj
  [("id", JStr (de_ID d)); ("url", JStr (de_URL d)); ("priority", JInt (de_Priority d))].

Definition json_Endpoint (e : Endpoint) : json := JObj (
  [("id", JStr (ep_ID e)); ("transport", JStr (ep_Transport e)); ("address", JStr (ep_Address e))]
  ++ (if bool_decide (ep_ServerName e = "") then [] else [("server_name", JStr (ep_ServerName e))])
  ++ [("credential_ref", JStr (ep_CredentialRef e)); ("priority", JInt (ep_Priority e))]).

Definition json_Node (n : Node) : json := JObj
  [("id", JStr (nd_ID n)); ("region", JStr (nd_Region n));
   ("country_code", JStr (nd_CountryCode n)); ("provider", JStr (nd_Provider n));
   ("asn", JInt (nd_ASN n)); ("endpoints", JArr (json_Endpoint <$> nd_Endpoints n))].

Definition json_Catalog (c : Catalog) : json := JObj
  [("revision", JInt (cat_Revision c));
   ("discovery", JArr (json_DiscoveryEndpoint <$> cat_Discovery c));
   ("nodes", JArr (json_Node <$> cat_Nodes c))].

(** [None] is the error of [Time.MarshalJSON]. *)
Definition json_Document (d : Document) : option json :=
  issued ← JTime (doc_IssuedAt d);
  expires ← JTime (doc_ExpiresAt d);
  Some (JObj
    [("schema_version", JInt (doc_SchemaVersion d)); ("version", JInt (doc_Version d));
     ("catalog_revision", JInt (doc_CatalogRevision d)); ("issued_at", issued);
     ("expires_at", expires); ("key_policy", json_KeyPolicy (doc_KeyPolicy d));
     ("discovery", JArr (json_DiscoveryEndpoint <$> doc_Discovery d));
     ("nodes", JArr (json_Node <$> doc_Nodes d))]).

(** ** Canonical order *)

Definition discovery_key (d : DiscoveryEndpoint) : Z * string := (de_Priority d, de_ID d).
Definition endpoint_key (e : Endpoint) : Z * string := (ep_Priority e, ep_ID e).
(** Nodes are compared by ID alone. *)
Definition node_key (n : Node) : Z * string := (0, nd_ID n).

Definition canonicalDiscovery (discovery : list DiscoveryEndpoint) : list DiscoveryEndpoint :=
  sort_slice (λ x y, key_less (discovery_key x) (discovery_key y)) discovery.

Definition canonicalNode (n : Node) : Node :=
  mkNode (nd_ID n) (nd_Region n) (nd_CountryCode n) (nd_Provider n) (nd_ASN n)
    (sort_slice (λ x y, key_less (endpoint_key x) (endpoint_key y)) (nd_Endpoints n)).

Definition canonicalNodes (nodes : list Node) : list Node :=
  sort_slice (λ x y, key_less (node_key x) (node_key y)) (canonicalNode <$> nodes).

(** ** Validation *)

Definition validHost (host : string) : bool :=
  if is_Some_b (ParseIP host) then true
  else (len host <=? 253) && MatchString hostnamePattern host.

(** [port, err := strconv.Atoi(text)] with the check on [err] and the range. *)
Definition validPort (text : string) : bool :=
  match Atoi text with Some port => (1 <=? port) && (port <=? 65535) | None => false end.

(** The conditions both [validateDiscovery] and the discovery client put on a
    parsed URL. *)
Definition https_url (u : URL) : bool :=
  bool_decide (url_Scheme u = "https") && negb (bool_decide (url_Host u = ""))
  && negb (url_User u) && bool_decide (url_RawQuery u = "") && bool_decide (url_Fragment u = "").

Fixpoint validateDiscoveryLoop (ids : gset string) (l : list DiscoveryEndpoint) : result unit :=
  match l with
  | [] => Ok tt
  | source :: rest =>
      fail_if (negb (MatchString idPattern (de_ID source)))
        (NewError "manifest: discovery has invalid id");;
      fail_if (bool_decide (de_ID source ∈ ids)) (NewError "manifest: duplicate discovery id");;
      fail_if ((de_Priority source =? 0) || (de_Priority source >? 1000))
        (NewError "manifest: discovery priority must be between 1 and 1000");;
      match ParseRequestURI (de_URL source) with
      | None => Err (NewError "manifest: discovery must be an HTTPS URL without credentials, query, or fragment")
      | Some parsed =>
          fail_if (negb (https_url parsed))
            (NewError "manifest: discovery must be an HTTPS URL without credentials, query, or fragment");;
          fail_if (negb (validHost (url_Hostname parsed)))
            (NewError "manifest: discovery has invalid host");;
          fail_if (negb (bool_decide (url_Port parsed = "")) && negb (validPort (url_Port parsed)))
            (NewError "manifest: discovery has invalid port")
      end;;
      validateDiscoveryLoop ({[de_ID source]} ∪ ids) rest
  end.

Definition validateDiscovery (discovery : list DiscoveryEndpoint) : result unit :=
  fail_if ((llen discovery =? 0) || (llen discovery >? 16))
    (NewError "manifest: discovery must contain between 1 and 16 entries");;
  validateDiscoveryLoop ∅ discovery.

Definition validateEndpoint (endpoint : Endpoint) : result unit :=
  fail_if (negb (MatchString idPattern (ep_ID endpoint))) (NewError "invalid id");;
  match SplitHostPort (ep_Address endpoint) with
  | None => Err (NewError "address must be host:port")
  | Some (host, portText) =>
      fail_if (negb (validHost host)) (NewError "address must be host:port");;
      fail_if (negb (validPort portText)) (NewError "address has invalid port")
  end;;
  fail_if (negb (MatchString credentialPattern (ep_CredentialRef endpoint)))
    (NewError "credential_ref is invalid");;
  fail_if ((ep_Priority endpoint =? 0) || (ep_Priority endpoint >? 1000))
    (NewError "priority must be between 1 and 1000");;
  if bool_decide (ep_Transport endpoint = TransportAmneziaWG) then
    fail_if (negb (bool_decide (ep_ServerName endpoint = "")))
      (NewError "server_name is not valid for amneziawg")
  else if bool_decide (ep_Transport endpoint = TransportReality) then
    fail_if ((len (ep_ServerName endpoint) >? 253) || is_Some_b (ParseIP (ep_ServerName endpoint))
             || negb (MatchString hostnamePattern (ep_ServerName endpoint)))
      (NewError "server_name is required for vless-reality")
  else Err (NewError "unsupported transport").

(** The inner loop of [validateCatalogContents]; the set of endpoint IDs is
    shared by all nodes. *)
Fixpoint validateEndpoints (endpointIDs : gset string) (l : list Endpoint)
    : result (gset string) :=
  match l with
  | [] => Ok endpointIDs
  | endpoint :: rest =>
      wrap "manifest: node endpoint" (validateEndpoint endpoint);;
      fail_if (bool_decide (ep_ID endpoint ∈ endpointIDs))
        (NewError "manifest: duplicate endpoint id");;
      validateEndpoints ({[ep_ID endpoint]} ∪ endpointIDs) rest
  end.

Fixpoint validateNodes (nodeIDs endpointIDs : gset string) (l : list Node) : result unit :=
  match l with
  | [] => Ok tt
  | node :: rest =>
      fail_if (negb (MatchString idPattern (nd_ID node))) (NewError "manifest: node has invalid id");;
      fail_if (bool_decide (nd_ID node ∈ nodeIDs)) (NewError "manifest: duplicate node id");;
      fail_if (negb (MatchString regionPattern (nd_Region node)))
        (NewError "manifest: node has invalid region");;
      fail_if (negb (MatchString countryPattern (nd_CountryCode node)))
        (NewError "manifest: node has invalid country code");;
      fail_if (negb (MatchString idPattern (nd_Provider node)))
        (NewError "manifest: node has invalid provider");;
      fail_if (nd_ASN node =? 0) (NewError "manifest: node must have a positive ASN");;
      fail_if ((llen (nd_Endpoints node) =? 0) || (llen (nd_Endpoints node) >? 16))
        (NewError "manifest: node must have between 1 and 16 endpoints");;
      endpointIDs ← validateEndpoints endpointIDs (nd_Endpoints node);
      validateNodes ({[nd_ID node]} ∪ nodeIDs) endpointIDs rest
  end.

Definition validateCatalogContents (discovery : list DiscoveryEndpoint) (nodes : list Node)
    : result unit :=
  validateDiscovery discovery;;
  fail_if ((llen nodes =? 0) || (llen nodes >? 1000))
    (NewError "manifest: nodes must contain between 1 and 1000 entries");;
  validateNodes ∅ ∅ nodes.

Definition Validate (document : Document) : result unit :=
  fail_if (negb (doc_SchemaVersion document =? SchemaVersion))
    (NewError "manifest: unsupported schema version");;
  fail_if (doc_Version document =? 0) (NewError "manifest: version must be greater than zero");;
  fail_if (doc_CatalogRevision document =? 0)
    (NewError "manifest: catalog revision must be greater than zero");;
  fail_if (IsZero (doc_IssuedAt document) || IsZero (doc_ExpiresAt document))
    (NewError "manifest: issuance and expiry times are required");;
  fail_if (negb (After (doc_ExpiresAt document) (doc_IssuedAt document)))
    (NewError "manifest: expiry must be after issuance");;
  fail_if (time_Sub (doc_ExpiresAt document) (doc_IssuedAt document) >? maxManifestLife)
    (NewError "manifest: lifetime exceeds 1h");;
  fail_if (bool_decide (kp_Signature (doc_KeyPolicy document) = ""))
    (NewError "manifest: signed key policy is required");;
  validateKeyPolicyShape (doc_KeyPolicy document);;
  validateCatalogContents (doc_Discovery document) (doc_Nodes document).

(** [CatalogDigest]: the digest of the canonical catalog, once validated. *)
Definition CatalogDigest (catalog : Catalog) : result string :=
  let discovery := canonicalDiscovery (cat_Discovery catalog) in
  let nodes := canonicalNodes (cat_Nodes catalog) in
  validateCatalogContents discovery nodes;;
  Ok (digest (print (json_Catalog (mkCatalog (cat_Revision catalog) discovery nodes)))).

(** ** What the validators establish *)

(** Everything but uniqueness, for one entry. *)
Record discovery_valid (d : DiscoveryEndpoint) : Prop := {
  dv_id : MatchString idPattern (de_ID d) = true;
  dv_priority : de_Priority d ≠ 0 ∧ de_Priority d <= 1000;
  dv_url : ∃ u, ParseRequestURI (de_URL d) = Some u ∧ https_url u = true ∧
    validHost (url_Hostname u) = true ∧ (url_Port u = "" ∨ validPort (url_Port u) = true)
}.

Record node_valid (n : Node) : Prop := {
  nv_id : MatchString idPattern (nd_ID n) = true;
  nv_region : MatchString regionPattern (nd_Region n) = true;
  nv_country : MatchString countryPattern (nd_CountryCode n) = true;
  nv_provider : MatchString idPattern (nd_Provider n) = true;
  nv_asn : nd_ASN n ≠ 0;
  nv_count : 1 <= llen (nd_Endpoints n) <= 16;
  nv_endpoints : Forall (λ e, validateEndpoint e = Ok tt) (nd_Endpoints n)
}.

Definition endpoint_ids (nodes : list Node) : list string :=
  nodes ≫= λ n, ep_ID <$> nd_Endpoints n.

(** The declarative content of [validateCatalogContents]. *)
Record catalog_valid (discovery : list DiscoveryEndpoint) (nodes : list Node) : Prop := {
  cv_discovery_count : 1 <= llen discovery <= 16;
  cv_discovery : Forall discovery_valid discovery;
  cv_discovery_ids : NoDup (de_ID <$> discovery);
  cv_node_count : 1 <= llen nodes <= 1000;
  cv_nodes : Forall node_valid nodes;
  cv_node_ids : NoDup (nd_ID <$> nodes);
  cv_endpoint_ids : NoDup (endpoint_ids nodes)
}.

Lemma validateDiscoveryLoop_spec ids l :
  validateDiscoveryLoop ids l = Ok tt ↔
  Forall discovery_valid l ∧ all_distinct ids (de_ID <$> l) = true.
Proof.
  revert ids. induction l as [|d l IH]; intros ids; [done|].
  cbn [validateDiscoveryLoop fmap list_fmap all_distinct]. rewrite Forall_cons. split.
  - intros H. inv_ok.
    match goal with H : validateDiscoveryLoop _ _ = _ |- _ => apply IH in H as [Hl Hd] end.
    rewrite bool_decide_eq_false_2 by done. split; [|done]. split; [|done].
    destruct (ParseRequestURI (de_URL d)) as [u|] eqn:Eu; [|done]. inv_ok.
    split; [done|lia|]. exists u. split_and!; [done..|].
    destruct (decide (url_Port u = "")); [by left|right].
    rewrite bool_decide_eq_false_2 in * by done. simpl in *. by inv_ok.
  - intros [[[Hid Hp (u & Hu & Hh & Hv & Hport)] Hl] Hd].
    case_bool_decide as Hin; [done|]. rewrite Hid, Hu, Hh, Hv.
    do 3 (step_ok; [simpl; lia|]). apply mbind_Ok. exists tt. split; [|by apply IH].
    do 2 (step_ok; [done|]). apply fail_if_Ok.
    case_bool_decide; [done|]. destruct Hport as [?|E]; [done|by rewrite E].
Qed.

Lemma all_distinct_app s l1 l2 :
  all_distinct s (l1 ++ l2) = true ↔
  all_distinct s l1 = true ∧ all_distinct (list_to_set l1 ∪ s) l2 = true.
Proof.
  rewrite !all_distinct_spec, NoDup_app. set_solver.
Qed.

Lemma validateEndpoints_spec seen l seen' :
  validateEndpoints seen l = Ok seen' ↔
  Forall (λ e, validateEndpoint e = Ok tt) l ∧ all_distinct seen (ep_ID <$> l) = true ∧
  seen' = list_to_set (ep_ID <$> l) ∪ seen.
Proof.
  revert seen. induction l as [|e l IH]; intros seen.
  { cbn. rewrite (union_empty_l_L seen). split; [|by intros (_ & _ & ->)].
    intros [= <-]. split_and!; [constructor|done..]. }
  cbn [validateEndpoints fmap list_fmap all_distinct list_to_set]. rewrite Forall_cons.
  replace ({[ep_ID e]} ∪ list_to_set (ep_ID <$> l) ∪ seen)
    with (list_to_set (ep_ID <$> l) ∪ ({[ep_ID e]} ∪ seen) : gset string) by set_solver. split.
  - intros H. inv_ok.
    match goal with H : validateEndpoints _ _ = _ |- _ => apply IH in H as (Hl & Hd & ->) end.
    by rewrite bool_decide_eq_false_2 by done.
  - intros ([He Hl] & Hd & ->). case_bool_decide as Hin; [done|].
    apply mbind_Ok. exists tt. split; [by apply wrap_Ok|]. step_ok; [done|]. by apply IH.
Qed.

Lemma validateNodes_spec nids eids l :
  validateNodes nids eids l = Ok tt ↔
  Forall node_valid l ∧ all_distinct nids (nd_ID <$> l) = true ∧
  all_distinct eids (endpoint_ids l) = true.
Proof.
  revert nids eids. induction l as [|n l IH]; intros nids eids; [done|].
  cbn [validateNodes fmap list_fmap all_distinct].
  change (endpoint_ids (n :: l)) with ((ep_ID <$> nd_Endpoints n) ++ endpoint_ids l).
  rewrite Forall_cons, all_distinct_app. split.
  - intros H. inv_ok.
    match goal with H : validateNodes _ _ _ = _ |- _ => apply IH in H as (Hl & Hd & He) end.
    match goal with H : validateEndpoints _ _ = _ |- _ =>
      apply validateEndpoints_spec in H as (Hes & Hds & ->) end.
    rewrite bool_decide_eq_false_2 by done. split_and!; [|done..].
    split; try done; [lia|]. unfold llen in *. lia.
  - intros ([[Hi Hr Hc Hp Ha Hn He] Hl] & Hd & Hds & Hdl).
    case_bool_decide as Hin; [done|]. rewrite Hi, Hr, Hc, Hp.
    do 7 (step_ok; [simpl; lia|]). apply mbind_Ok. eexists. split.
    + by apply validateEndpoints_spec.
    + by apply IH.
Qed.

Lemma validateCatalogContents_spec discovery nodes :
  validateCatalogContents discovery nodes = Ok tt ↔ catalog_valid discovery nodes.
Proof.
  unfold validateCatalogContents, validateDiscovery. split.
  - intros H. inv_ok.
    match goal with H : validateNodes _ _ _ = _ |- _ =>
      apply validateNodes_spec in H as (Hn & Hnd & Hed) end.
    match goal with H : validateDiscoveryLoop _ _ = _ |- _ =>
      apply validateDiscoveryLoop_spec in H as (Hd & Hdd) end.
    apply all_distinct_NoDup in Hnd, Hed, Hdd. unfold llen in *.
    split; try done; unfold llen; lia.
  - intros [Hdc Hd Hdi Hnc Hn Hni Hei]. apply mbind_Ok. exists tt. split.
    + step_ok; [lia|]. apply validateDiscoveryLoop_spec. by rewrite all_distinct_NoDup.
    + step_ok; [lia|]. apply validateNodes_spec. by rewrite !all_distinct_NoDup.
Qed.

(** What [Validate] establishes about a document. *)
Record document_valid (d : Document) : Prop := {
  docv_schema : doc_SchemaVersion d = SchemaVersion;
  docv_version : doc_Version d ≠ 0;
  docv_revision : doc_CatalogRevision d ≠ 0;
  docv_issued : doc_IssuedAt d ≠ zero_time;
  docv_expires : doc_ExpiresAt d ≠ zero_time;
  docv_order : doc_IssuedAt d < doc_ExpiresAt d;
  docv_life : doc_ExpiresAt d - doc_IssuedAt d <= Hour;
  docv_signed : kp_Signature (doc_KeyPolicy d) ≠ "";
  docv_policy : policy_shape (doc_KeyPolicy d);
  docv_catalog : catalog_valid (doc_Discovery d) (doc_Nodes d)
}.

Lemma Hour_bound : min_int64 <= Hour < max_int64.
Proof. unfold min_int64, max_int64, Hour, Minute, Second. lia. Qed.

Lemma Validate_inv d : Validate d = Ok tt → document_valid d.
Proof.
  unfold Validate, IsZero, After, maxManifestLife.
  rewrite (time_Sub_gtb _ _ Hour Hour_bound). intros H. inv_ok.
  match goal with H : validateKeyPolicyShape _ = _ |- _ =>
    apply validateKeyPolicyShape_spec in H end.
  match goal with H : validateCatalogContents _ _ = _ |- _ =>
    apply validateCatalogContents_spec in H end.
  split; try done; lia.
Qed.

(** ** Canonical order *)

Lemma canonicalDiscovery_perm l : canonicalDiscovery l ≡ₚ l.
Proof. apply (sort_by_perm discovery_key). Qed.

Lemma canonicalNodes_perm l : canonicalNodes l ≡ₚ canonicalNode <$> l.
Proof. apply (sort_by_perm node_key). Qed.

Lemma canonicalNode_endpoints n : nd_Endpoints (canonicalNode n) ≡ₚ nd_Endpoints n.
Proof. apply (sort_by_perm endpoint_key). Qed.

Lemma ids_NoDup_keys {A} (key : A → Z * string) l :
  NoDup ((λ x, (key x).2) <$> l) → NoDup (key <$> l).
Proof. intros H. apply (NoDup_fmap_1 snd). by rewrite <- list_fmap_compose. Qed.

Lemma canonicalDiscovery_order l l' :
  NoDup (de_ID <$> l) → l' ≡ₚ l → canonicalDiscovery l' = canonicalDiscovery l.
Proof. intros H Hp. by apply (sort_by_perm_eq discovery_key); [apply ids_NoDup_keys|]. Qed.

(** Nodes that differ in the order of their endpoints only. *)
Definition node_equiv (n m : Node) : Prop :=
  nd_ID n = nd_ID m ∧ nd_Region n = nd_Region m ∧ nd_CountryCode n = nd_CountryCode m ∧
  nd_Provider n = nd_Provider m ∧ nd_ASN n = nd_ASN m ∧ nd_Endpoints n ≡ₚ nd_Endpoints m.

(** Catalogs that list the same entries, in any order at every level. *)
Definition catalog_equiv (c c' : Catalog) : Prop :=
  cat_Revision c = cat_Revision c' ∧ cat_Discovery c ≡ₚ cat_Discovery c' ∧
  ∃ nodes, cat_Nodes c ≡ₚ nodes ∧ Forall2 node_equiv nodes (cat_Nodes c').

Lemma canonicalNode_equiv n m :
  NoDup (ep_ID <$> nd_Endpoints n) → node_equiv n m → canonicalNode m = canonicalNode n.
Proof.
  intros Hnd (E1 & E2 & E3 & E4 & E5 & Hp). unfold canonicalNode.
  rewrite E1, E2, E3, E4, E5. f_equal.
  by apply (sort_by_perm_eq endpoint_key); [apply ids_NoDup_keys|].
Qed.

Lemma endpoint_ids_NoDup nodes n :
  NoDup (endpoint_ids nodes) → n ∈ nodes → NoDup (ep_ID <$> nd_Endpoints n).
Proof.
  induction nodes as [|m nodes IH]; [set_solver|].
  change (endpoint_ids (m :: nodes)) with ((ep_ID <$> nd_Endpoints m) ++ endpoint_ids nodes).
  intros (? & _ & ?)%NoDup_app [->|?]%elem_of_cons; auto.
Qed.

Lemma canonicalNodes_NoDup nodes n :
  NoDup (endpoint_ids (canonicalNodes nodes)) → n ∈ nodes → NoDup (ep_ID <$> nd_Endpoints n).
Proof.
  intros Hnd Hn. rewrite <- (canonicalNode_endpoints n).
  apply (endpoint_ids_NoDup (canonicalNodes nodes)); [done|].
  rewrite canonicalNodes_perm. by apply list_elem_of_fmap_2.
Qed.

Lemma canonicalNode_ids (nodes : list Node) : nd_ID <$> (canonicalNode <$> nodes) = nd_ID <$> nodes.
Proof. rewrite <- list_fmap_compose. by apply list_fmap_ext. Qed.

Lemma canonicalNodes_order l l' l'' :
  NoDup (nd_ID <$> canonicalNodes l) → NoDup (endpoint_ids (canonicalNodes l)) →
  l ≡ₚ l' → Forall2 node_equiv l' l'' → canonicalNodes l'' = canonicalNodes l.
Proof.
  intros Hid Heid Hp Heq. rewrite canonicalNodes_perm, canonicalNode_ids in Hid.
  assert (canonicalNode <$> l'' = canonicalNode <$> l') as E.
  { assert (Hnd : ∀ n, n ∈ l' → NoDup (ep_ID <$> nd_Endpoints n)).
    { intros n Hn. rewrite <- Hp in Hn. by eapply canonicalNodes_NoDup. }
    clear Hp Hid Heid. induction Heq as [|n m l' l'' Hnm _ IH]; [done|].
    cbn [fmap list_fmap]. f_equal; [apply canonicalNode_equiv; [apply Hnd; set_solver|done]|].
    apply IH. set_solver. }
  unfold canonicalNodes at 1. rewrite E. apply (sort_by_perm_eq node_key).
  - apply ids_NoDup_keys. change (NoDup (nd_ID <$> (canonicalNode <$> l))).
    by rewrite canonicalNode_ids.
  - by rewrite Hp.
Qed.

(** ** Properties *)

(** C38: [Validate] is exact: it accepts a document if and only if the schema,
    version, revision and lifetime fields are in range, the key policy is signed
    and of valid shape, and the catalog contents satisfy every per-entry rule with
    discovery IDs, node IDs and (across all nodes) endpoint IDs distinct. *)
Theorem validate_exact d : Validate d = Ok tt ↔ document_valid d.
Proof.
  split; [apply Validate_inv|]. intros [].
  unfold Validate, IsZero, After, maxManifestLife.
  rewrite (time_Sub_gtb _ _ Hour Hour_bound). unfold zero_time in *.
  do 6 (step_ok; [lia|]). step_ok; [by apply bool_decide_eq_false_2|].
  apply mbind_Ok. exists tt. split; [by apply validateKeyPolicyShape_spec|].
  by apply validateCatalogContents_spec.
Qed.

(** C39: the catalog digest does not depend on the order in which the operator lists
    discovery mirrors, nodes, or the endpoints of a node: equivalent catalogs are
    both accepted with the same digest. *)
Theorem catalog_digest_order_independent c c' dgst :
  CatalogDigest c = Ok dgst → catalog_equiv c c' → CatalogDigest c' = Ok dgst.
Proof.
  unfold CatalogDigest. intros H (Hr & Hd & nodes & Hn & Heq). inv_ok.
  match goal with H : validateCatalogContents _ _ = _ |- _ =>
    pose proof (proj1 (validateCatalogContents_spec _ _) H) as [_ _ Hdi _ _ Hni Hei]; revert H end.
  rewrite canonicalDiscovery_perm in Hdi.
  rewrite <- (canonicalDiscovery_order (cat_Discovery c) (cat_Discovery c')); [|done|by rewrite Hd].
  rewrite <- (canonicalNodes_order (cat_Nodes c) nodes (cat_Nodes c')); [|done..].
  intros ->. by rewrite Hr.
Qed.

(** ** Examples *)

Definition toy_endpoint (id : string) (priority : Z) : Endpoint :=
  mkEndpoint id TransportReality "203.0.113.7:443" "www.example.com" "cred-1" priority.
Definition toy_udp_endpoint (id : string) (priority : Z) : Endpoint :=
  mkEndpoint id TransportAmneziaWG "[2001:db8::7]:585" "" "cred-2" priority.
Definition toy_node (id provider : string) (asn : Z) (endpoints : list Endpoint) : Node :=
  mkNode id "fra-1" "DE" provider asn endpoints.
Definition toy_discovery : list DiscoveryEndpoint :=
  [mkDiscoveryEndpoint "mirror-b" "https://b.example/v1/manifest" 20;
   mkDiscoveryEndpoint "mirror-a" "https://a.example:8443/v1/manifest" 10].
Definition toy_catalog : Catalog := mkCatalog 1 toy_discovery
  [toy_node "node-2" "timeweb" 9123 [toy_endpoint "ep-3" 30];
   toy_node "node-1" "hetzner" 24940 [toy_endpoint "ep-2" 20; toy_udp_endpoint "ep-1" 10]].
(** The same entries in another order. *)
Definition toy_catalog' : Catalog := mkCatalog 1 (rev toy_discovery)
  [toy_node "node-1" "hetzner" 24940 [toy_udp_endpoint "ep-1" 10; toy_endpoint "ep-2" 20];
   toy_node "node-2" "timeweb" 9123 [toy_endpoint "ep-3" 30]].

Lemma catalog_digest_order_independent_witness :
  CatalogDigest toy_catalog' = CatalogDigest toy_catalog.
Proof.
  destruct (CatalogDigest toy_catalog) as [d|e] eqn:E; [|by vm_compute in E].
  apply (catalog_digest_order_independent toy_catalog); [done|].
  split_and!; [done|apply Permutation_rev|].
  eexists. split; [apply Permutation_swap|].
  repeat constructor.
Defined.

(** ** Divergences between the checks and their messages *)

(** The message of [validateDiscovery] promises a URL "without credentials, query,
    or fragment", but [ParseRequestURI] never sets a fragment: a [#] in the path is
    accepted. *)
Lemma discovery_accepts_fragment :
  validateDiscovery [mkDiscoveryEndpoint "mirror" "https://mirror.example/v1/manifest#part" 10] = Ok tt.
Proof. by vm_compute. Qed.

(** [hostnamePattern] is case-insensitive through [(?i:...)], which folds Unicode
    case: a host name spelled with U+212A (KELVIN SIGN, bytes E2 84 AA) is
    accepted. *)
Lemma hostname_accepts_kelvin_sign :
  validHost (String (byte 226) (String (byte 132) (String (byte 170) "elvin.example"))) = true.
Proof. by vm_compute. Qed.

(** [strconv.Atoi] accepts a sign: an address whose port is spelled [+443] passes. *)
Lemma endpoint_accepts_signed_port :
  validateEndpoint (mkEndpoint "ep" TransportAmneziaWG "vpn.example.com:+443" "" "cred" 1) = Ok tt.
Proof. by vm_compute. Qed.
