(* ===== verification/Envelope.v ===== *)
(** * Issuing and verifying envelopes ([internal/manifest/manifest.go])

    [Issue] signs a canonical document, [Verify] authenticates an envelope
    against the pinned root key and advances the client's [TrustedState].  The
    theorems: what acceptance implies, that the trusted state only moves
    forward, that a client never accepts two payloads at one version over any
    sequence of deliveries, and that issued envelopes are accepted.

    JSON decoding of documents and envelopes is an interface ([JsonDecode],
    [JsonSyntax] of [GoJson]); the completeness lemmas assume of it only that
    it reads back the one payload at hand, which [Wire] proves of the decoder. *)

From S2P Require Import Prelude GoRegexp GoBase64 GoSha256 GoStrings GoNet GoJson Ed25519 KeyPolicy.
From S2P Require Import Manifest.

Record Envelope := mkEnvelope {
  env_Algorithm : string;
  env_KeyID : string;
  env_Payload : string;
  env_Signature : string
}.

Record TrustedState := mkTrustedState {
  ts_Version : Z;
  ts_IssuedAt : time;
  ts_PayloadSHA256 : string;
  ts_PolicyVersion : Z;
  ts_PolicySHA256 : string;
  ts_SigningKeyID : string;
  ts_SigningKeyEpoch : Z
}.

#[global] Instance Envelope_eq_dec : EqDecision Envelope.
Proof. solve_decision. Defined.
#[global] Instance TrustedState_eq_dec : EqDecision TrustedState.
Proof. solve_decision. Defined.

(** The zero value: a client that has accepted nothing. *)
Definition zero_state : TrustedState := mkTrustedState 0 zero_time "" 0 "" "" 0.

Definition validSHA256Digest (encoded : string) : bool :=
  match DecodeString RawURLEncoding encoded with Some raw => len raw =? 32 | None => false end.

Definition validateStateTransition (trusted candidate : TrustedState) : result unit :=
  if ts_Version trusted =? 0 then
    fail_if (negb (bool_decide (ts_PayloadSHA256 trusted = "")) || negb (IsZero (ts_IssuedAt trusted))
             || negb (ts_PolicyVersion trusted =? 0) || negb (bool_decide (ts_PolicySHA256 trusted = ""))
             || negb (bool_decide (ts_SigningKeyID trusted = ""))
             || negb (ts_SigningKeyEpoch trusted =? 0))
      (NewError "manifest: trusted state is internally inconsistent")
  else
    fail_if (bool_decide (ts_PayloadSHA256 trusted = "") || IsZero (ts_IssuedAt trusted)
             || (ts_PolicyVersion trusted =? 0) || bool_decide (ts_PolicySHA256 trusted = "")
             || bool_decide (ts_SigningKeyID trusted = "") || (ts_SigningKeyEpoch trusted =? 0))
      (NewError "manifest: trusted state is incomplete");;
    fail_if (negb (validSHA256Digest (ts_PayloadSHA256 trusted))
             || negb (validSHA256Digest (ts_PolicySHA256 trusted))
             || negb (len (ts_SigningKeyID trusted) =? EncodedLen RawURLEncoding 32))
      (NewError "manifest: trusted state contains invalid digests or key ID");;
    fail_if (ts_PolicyVersion candidate <? ts_PolicyVersion trusted)
      (NewError "manifest: key policy version is older than trusted policy");;
    fail_if ((ts_PolicyVersion candidate =? ts_PolicyVersion trusted)
             && negb (bool_decide (ts_PolicySHA256 candidate = ts_PolicySHA256 trusted)))
      (NewError "manifest: same-version key policy equivocation detected");;
    fail_if (ts_Version candidate <? ts_Version trusted)
      (NewError "manifest: version is older than trusted version");;
    if ts_Version candidate =? ts_Version trusted then
      fail_if (negb (bool_decide (ts_PayloadSHA256 candidate = ts_PayloadSHA256 trusted))
               || negb (time_Equal (ts_IssuedAt candidate) (ts_IssuedAt trusted)))
        (NewError "manifest: same-version payload equivocation detected")
    else
      fail_if (Before (ts_IssuedAt candidate) (ts_IssuedAt trusted))
        (NewError "manifest: issuance time moved backwards");;
      fail_if (ts_SigningKeyEpoch candidate <? ts_SigningKeyEpoch trusted)
        (NewError "manifest: signing key epoch moved backwards");;
      fail_if (bool_decide (ts_SigningKeyID candidate = ts_SigningKeyID trusted)
               && negb (ts_SigningKeyEpoch candidate =? ts_SigningKeyEpoch trusted))
        (NewError "manifest: signing key epoch changed without changing the key");;
      fail_if (negb (bool_decide (ts_SigningKeyID candidate = ts_SigningKeyID trusted))
               && (ts_SigningKeyEpoch candidate <=? ts_SigningKeyEpoch trusted))
        (NewError "manifest: signing key changed without advancing its epoch").

(** The document [Issue] signs. *)
Definition issuedDocument (catalog : Catalog) (version : Z) (keyPolicy : KeyPolicy)
    (now : time) (ttl : duration) : Document :=
  let now := Truncate now Second in
  mkDocument SchemaVersion version (cat_Revision catalog) now (time_Add now ttl)
    (canonicalKeyPolicy keyPolicy) (canonicalDiscovery (cat_Discovery catalog))
    (canonicalNodes (cat_Nodes catalog)).

Section envelope.
Context `{Ed25519}.

Definition Issue (catalog : Catalog) (version : Z) (keyPolicy : KeyPolicy) (rootPublicKey : string)
    (now : time) (ttl : duration) (privateKey : string) : result Envelope :=
  fail_if (negb (validEd25519PrivateKey privateKey))
    (NewError "manifest: invalid Ed25519 private key");;
  fail_if (version =? 0) (NewError "manifest: issued version must be greater than zero");;
  fail_if ((ttl <? Minute) || (ttl >? maxManifestLife))
    (NewError "manifest: ttl must be between 1m and 1h");;
  _ ← ValidateKeyPolicy keyPolicy rootPublicKey;
  let publicKey := Public privateKey in
  _ ← KeyPolicyGrant keyPolicy (KeyID publicKey) version;
  let document := issuedDocument catalog version keyPolicy now ttl in
  Validate document;;
  match json_Document document with
  | None => Err (Wrap "manifest: encode payload" (NewError "year outside of range [0,9999]"))
  | Some j =>
      let payload := print j in
      fail_if (len payload >? maxManifestBytes)
        (NewError "manifest: encoded payload exceeds 1 MiB");;
      let signature := ed25519_Sign privateKey payload in
      Ok (mkEnvelope Algorithm (KeyID publicKey) (EncodeToString RawURLEncoding payload)
            (EncodeToString RawURLEncoding signature))
  end.

Section decoding.
Context `{JsonSyntax} `{JsonDecode Envelope} `{JsonDecode Document}.

(** [manifest.decodeStrict]. *)
Definition decodeStrict {T} `{JsonDecode T} (data : string) : result T :=
  decode_one (Wrap "decode trailing JSON data") (NewError "unexpected trailing JSON value") data.

Definition DecodeEnvelope (reader : Reader) : result Envelope :=
  let maxEnvelopeBytes := EncodedLen RawURLEncoding maxManifestBytes + 1024 in
  data ← wrap "manifest: read envelope" (ReadAllLimited reader (maxEnvelopeBytes + 1));
  fail_if ((len data =? 0) || (len data >? maxEnvelopeBytes))
    (NewError "manifest: envelope size is invalid");;
  wrap "manifest: decode envelope" (decodeStrict data).

(** The state a verified document stands for. *)
Definition candidateState (document : Document) (payload policyDigest : string) (grant : KeyGrant)
    : TrustedState :=
  mkTrustedState (doc_Version document) (doc_IssuedAt document) (digest payload)
    (kp_Version (doc_KeyPolicy document)) policyDigest (kg_KeyID grant) (kg_Epoch grant).

(** [Verify].  Every error return of the code hands back [trusted], so [Err] means
    that the client's state is unchanged. *)
Definition Verify (envelope : Envelope) (rootPublicKey : string) (now : time)
    (trusted : TrustedState) : result (Document * TrustedState) :=
  fail_if (negb (len rootPublicKey =? PublicKeySize))
    (NewError "manifest: invalid offline root public key");;
  fail_if (negb (bool_decide (env_Algorithm envelope = Algorithm)))
    (NewError "manifest: unsupported algorithm");;
  fail_if (bool_decide (env_KeyID envelope = "")) (NewError "manifest: signing key ID is required");;
  let maxEncodedPayload := EncodedLen RawURLEncoding maxManifestBytes in
  fail_if ((len (env_Payload envelope) =? 0) || (len (env_Payload envelope) >? maxEncodedPayload))
    (NewError "manifest: encoded payload size is invalid");;
  fail_if (negb (len (env_Signature envelope) =? EncodedLen RawURLEncoding SignatureSize))
    (NewError "manifest: encoded signature size is invalid");;
  payload ← match DecodeString RawURLEncoding (env_Payload envelope) with
            | Some payload => Ok payload | None => Err (NewError "manifest: decode payload") end;
  fail_if ((len payload =? 0) || (len payload >? maxManifestBytes))
    (NewError "manifest: payload size is invalid");;
  signature ← match DecodeString RawURLEncoding (env_Signature envelope) with
              | Some signature => Ok signature | None => Err (NewError "manifest: decode signature") end;
  document ← wrap "manifest: decode signed document" (decodeStrict payload);
  Validate document;;
  policyDigest ← ValidateKeyPolicy (doc_KeyPolicy document) rootPublicKey;
  '(grant, signingPublicKey) ←
    KeyPolicyGrant (doc_KeyPolicy document) (env_KeyID envelope) (doc_Version document);
  fail_if (negb (len signature =? SignatureSize)
           || negb (ed25519_Verify signingPublicKey payload signature))
    (NewError "manifest: signature verification failed");;
  fail_if (Before now (time_Add (doc_IssuedAt document) (- allowedClockSkew)))
    (NewError "manifest: document is not valid yet");;
  fail_if (negb (Before now (doc_ExpiresAt document)))
    (NewError "manifest: document has expired");;
  let candidate := candidateState document payload policyDigest grant in
  validateStateTransition trusted candidate;;
  if ts_Version trusted =? ts_Version candidate then Ok (document, trusted)
  else Ok (document, candidate).

End decoding.
End envelope.

(** ** Well-formed client state *)

(** The state after something was accepted: every field is set, the digests decode
    to 32 bytes. *)
Record complete (t : TrustedState) : Prop := {
  tc_version : ts_Version t ≠ 0;
  tc_payload : validSHA256Digest (ts_PayloadSHA256 t) = true;
  tc_issued : ts_IssuedAt t ≠ zero_time;
  tc_policy_version : ts_PolicyVersion t ≠ 0;
  tc_policy : validSHA256Digest (ts_PolicySHA256 t) = true;
  tc_key : len (ts_SigningKeyID t) = 43;
  tc_epoch : ts_SigningKeyEpoch t ≠ 0
}.

Definition trusted_wf (t : TrustedState) : Prop := t = zero_state ∨ complete t.

(** [t'] is the same state as [t] or a later one. *)
Record advanced (t t' : TrustedState) : Prop := {
  adv_version : ts_Version t <= ts_Version t';
  adv_same : ts_Version t = ts_Version t' → t = t';
  adv_issued : ts_IssuedAt t <= ts_IssuedAt t';
  adv_policy : ts_PolicyVersion t <= ts_PolicyVersion t';
  adv_policy_same : ts_PolicyVersion t = ts_PolicyVersion t' → ts_PolicySHA256 t = ts_PolicySHA256 t';
  adv_epoch : ts_SigningKeyEpoch t <= ts_SigningKeyEpoch t';
  adv_key : ts_SigningKeyEpoch t = ts_SigningKeyEpoch t' → ts_SigningKeyID t = ts_SigningKeyID t'
}.

(** The trust order of client states: nothing accepted yet, or forward. *)
Definition trust_le (t t' : TrustedState) : Prop :=
  t = zero_state ∨ (complete t' ∧ advanced t t').

Lemma advanced_refl t : advanced t t.
Proof. by split. Qed.

Lemma advanced_trans t u v : advanced t u → advanced u v → advanced t v.
Proof.
  intros [] []. split; try lia.
  - intros E. assert (t = u) as -> by (apply adv_same0; lia). auto.
  - intros E. rewrite adv_policy_same0 by lia. apply adv_policy_same1. lia.
  - intros E. rewrite adv_key0 by lia. apply adv_key1. lia.
Qed.

Lemma complete_not_zero t : complete t → t ≠ zero_state.
Proof. intros [] ->. done. Qed.

Lemma trust_le_trans t u v : trust_le t u → trust_le u v → trust_le t v.
Proof.
  intros [->|[Hc Ha]] Huv; [by left|]. destruct Huv as [->|[Hc' Ha']].
  - by apply complete_not_zero in Hc.
  - right. split; [done|]. by eapply advanced_trans.
Qed.

Lemma trust_le_refl t : trusted_wf t → trust_le t t.
Proof. intros [->|?]; [by left|right]. split; [done|apply advanced_refl]. Qed.

Lemma validSHA256Digest_nonempty s : validSHA256Digest s = true → s ≠ "".
Proof. by intros ? ->. Qed.

Lemma validSHA256Digest_digest s : validSHA256Digest (digest s) = true.
Proof. unfold validSHA256Digest. by rewrite decode_digest, len_Sum256. Qed.

(** ** The transition check *)

(** What [validateStateTransition] accepts from a complete state. *)
Definition allowed (t c : TrustedState) : Prop :=
  ts_PolicyVersion t <= ts_PolicyVersion c ∧
  (ts_PolicyVersion t = ts_PolicyVersion c → ts_PolicySHA256 t = ts_PolicySHA256 c) ∧
  ts_Version t <= ts_Version c ∧
  if decide (ts_Version t = ts_Version c) then
    ts_PayloadSHA256 t = ts_PayloadSHA256 c ∧ ts_IssuedAt t = ts_IssuedAt c
  else
    ts_IssuedAt t <= ts_IssuedAt c ∧ ts_SigningKeyEpoch t <= ts_SigningKeyEpoch c ∧
    (ts_SigningKeyID t = ts_SigningKeyID c ↔ ts_SigningKeyEpoch t = ts_SigningKeyEpoch c).

Lemma validateStateTransition_spec t c :
  validateStateTransition t c = Ok tt ↔ t = zero_state ∨ (complete t ∧ allowed t c).
Proof.
  unfold validateStateTransition, allowed, time_Equal, IsZero, Before.
  destruct (Z.eqb_spec (ts_Version t) 0) as [Hz|Hnz].
  - rewrite fail_if_Ok. split.
    + intros H. left. inv_ok. destruct t; unfold zero_state; simpl in *. f_equal; try done; lia.
    + intros [->|[[] _]]; [done|lia].
  - change (EncodedLen RawURLEncoding 32) with 43. split.
    + intros H. right. inv_ok. split; [split; done || lia|].
      split_and!; [lia| |lia|].
      { intros E'. clear H. case_bool_decide; [done|]. simpl in *. lia. }
      destruct (decide (ts_Version t = ts_Version c)) as [Hv|Hv].
      * destruct (Z.eqb_spec (ts_Version c) (ts_Version t)); [|lia]. inv_ok. split; [done|lia].
      * destruct (Z.eqb_spec (ts_Version c) (ts_Version t)); [lia|]. inv_ok.
        split_and!; [lia..|]. repeat case_bool_decide; simpl in *; split; intros; lia || congruence.
    + intros [->|[[] (Hp & Hps & Hv & Hd)]]; [done|].
      do 2 (step_ok; [repeat (apply orb_false_iff; split); try (apply bool_decide_eq_false_2);
        try (by apply validSHA256Digest_nonempty); try (rewrite ?tc_payload0, ?tc_policy0; done);
        try lia; intros E'; by rewrite E' in tc_key0|]).
      step_ok; [lia|]. step_ok.
      { destruct (Z.eqb_spec (ts_PolicyVersion c) (ts_PolicyVersion t)); [|done].
        rewrite bool_decide_eq_true_2 by (symmetry; auto). done. }
      step_ok; [lia|]. destruct (decide (ts_Version t = ts_Version c)) as [Ev|Ev].
      * rewrite (proj2 (Z.eqb_eq _ _)) by done. destruct Hd as [Hd1 Hd2]. apply fail_if_Ok.
        rewrite bool_decide_eq_true_2 by done. simpl. lia.
      * destruct Hd as (? & ? & Hk). destruct (Z.eqb_spec (ts_Version c) (ts_Version t)); [lia|].
        do 2 (step_ok; [lia|]).
        destruct (decide (ts_SigningKeyID c = ts_SigningKeyID t)) as [Ek|Ek];
          [rewrite bool_decide_eq_true_2 by done|rewrite bool_decide_eq_false_2 by done];
          (step_ok; [|apply fail_if_Ok]); simpl; try done.
        -- symmetry in Ek. apply Hk in Ek. lia.
        -- apply Z.leb_gt. enough (ts_SigningKeyEpoch t ≠ ts_SigningKeyEpoch c) by lia.
           intros E'. apply Hk in E'. congruence.
Qed.

(** ** What acceptance implies *)

Section soundness.
Context `{Ed25519} `{JsonSyntax} `{JsonDecode Document}.

(** The chain of evidence behind an accepted document: the pinned root signed the
    policy, the policy grants the version to the key named by the envelope, that key
    signed the payload, and the clock is inside the validity window. *)
Record authentic (envelope : Envelope) (root : string) (now : time) (document : Document)
    (payload policyDigest : string) (grant : KeyGrant) : Prop := {
  au_payload : DecodeString RawURLEncoding (env_Payload envelope) = Some payload;
  au_size : 0 < len payload <= maxManifestBytes;
  au_document : decodeStrict payload = Ok document;
  au_valid : document_valid document;
  au_policy : ValidateKeyPolicy (doc_KeyPolicy document) root = Ok policyDigest;
  au_root : kp_RootKeyID (doc_KeyPolicy document) = KeyID root;
  au_root_signed : ∃ sig, DecodeString RawURLEncoding (kp_Signature (doc_KeyPolicy document)) = Some sig ∧
    ed25519_Verify root (keyPolicySigningBytes (doc_KeyPolicy document)) sig = true;
  au_grant : grant ∈ kp_Keys (doc_KeyPolicy document);
  au_grant_valid : grant_valid grant;
  au_covers : covers grant (doc_Version document);
  au_grant_id : kg_KeyID grant = env_KeyID envelope;
  au_signed : ∃ key sig, KeyID key = env_KeyID envelope ∧
    DecodeString RawURLEncoding (env_Signature envelope) = Some sig ∧
    ed25519_Verify key payload sig = true;
  au_window : doc_IssuedAt document - allowedClockSkew <= now < doc_ExpiresAt document
}.

Lemma Verify_inv envelope root now t document t' :
  Verify envelope root now t = Ok (document, t') →
  ∃ payload policyDigest grant,
    authentic envelope root now document payload policyDigest grant ∧
    let c := candidateState document payload policyDigest grant in
    validateStateTransition t c = Ok tt ∧
    t' = if decide (ts_Version t = ts_Version c) then t else c.
Proof.
  unfold Verify. intros HV. inv_ok.
  destruct (DecodeString RawURLEncoding (env_Payload envelope)) eqn:Ep; [|done].
  destruct (DecodeString RawURLEncoding (env_Signature envelope)) eqn:Es; [|done]. inv_ok.
  match goal with E : DecodeString _ (env_Payload _) = Some ?p |- _ => rename p into payload end.
  match goal with E : KeyPolicyGrant _ _ _ = Ok ?x |- _ =>
    destruct x as [grant key]; rename E into HG end. inv_ok.
  match goal with E : Validate _ = _ |- _ => apply Validate_inv in E as Hdoc end.
  match goal with E : ValidateKeyPolicy _ _ = Ok ?d |- _ =>
    rename d into policyDigest; rename E into HP end.
  destruct (ValidateKeyPolicy_inv _ _ _ HP) as (Hs & _ & Hr & _ & psig & Hps & _ & Hpv).
  apply validateKeyPolicyShape_spec in Hs.
  destruct (KeyPolicyGrant_inv _ _ _ _ _ Hs HG) as (Hg & Hk & Hc & Hid & _ & Hgv).
  unfold Before, time_Add in *.
  match type of HV with (if _ =? doc_Version ?x then _ else _) = _ => rename x into d;
    assert (document = d ∧ t' = if decide (ts_Version t = doc_Version d) then t
      else candidateState d payload policyDigest grant) as [-> Ht'] end.
  { destruct (Z.eqb_spec (ts_Version t) (doc_Version d)); inv_ok;
      [by rewrite decide_True by done|by rewrite decide_False by done]. }
  eexists payload, policyDigest, grant. split; [|done]. pose proof (len_nonneg payload).
  split; try done; eauto; lia.
Qed.

Lemma candidate_complete envelope root now document payload policyDigest grant :
  authentic envelope root now document payload policyDigest grant →
  complete (candidateState document payload policyDigest grant).
Proof.
  intros [_ _ _ [] HP _ _ _ [] _ Hid (key & sig & Hk & _) _].
  destruct (ValidateKeyPolicy_inv _ _ _ HP) as ([] & _ & _ & -> & _).
  split; cbn; try done.
  - apply validSHA256Digest_digest.
  - apply validSHA256Digest_digest.
  - rewrite Hid, <- Hk. apply len_digest.
Qed.

(** The state after acceptance: complete, not behind the state before, and at the
    accepted document. *)
Lemma Verify_advances envelope root now t document t' payload policyDigest grant :
  authentic envelope root now document payload policyDigest grant →
  let c := candidateState document payload policyDigest grant in
  validateStateTransition t c = Ok tt →
  t' = (if decide (ts_Version t = ts_Version c) then t else c) →
  complete t' ∧ trust_le t t' ∧ ts_Version t' = ts_Version c ∧
  ts_PayloadSHA256 t' = ts_PayloadSHA256 c ∧ ts_IssuedAt t' = ts_IssuedAt c ∧
  ts_PolicyVersion t' <= ts_PolicyVersion c ∧
  (ts_PolicyVersion t' = ts_PolicyVersion c → ts_PolicySHA256 t' = ts_PolicySHA256 c).
Proof.
  intros Hau c [->|[Ht Ha]]%validateStateTransition_spec ->;
    pose proof (candidate_complete _ _ _ _ _ _ _ Hau) as Hc; fold c in Hc.
  - rewrite decide_False by (intros E; by destruct (tc_version c Hc)).
    split_and!; try done. by left.
  - destruct Ha as (Hp & Hps & Hv & Ha).
    destruct (decide (ts_Version t = ts_Version c)) as [E|E].
    + destruct Ha. split_and!; try done. apply trust_le_refl. by right.
    + destruct Ha as (Hi & He & Hk). split_and!; try done. right. split; [done|].
      split; try done; try lia. by apply Hk.
Qed.

End soundness.

(** ** A client over time *)

Section client.
Context `{Ed25519} `{JsonSyntax} `{JsonDecode Document}.
Context (root : string).

(** One delivery of an envelope: an accepted one moves the state and is logged, a
    rejected one changes nothing. *)
Definition deliver (t : TrustedState) (log : list (Document * string)) (e : Envelope) (now : time)
    : TrustedState * list (Document * string) :=
  match Verify e root now t, DecodeString RawURLEncoding (env_Payload e) with
  | Ok (document, t'), Some payload => (t', log ++ [(document, payload)])
  | _, _ => (t, log)
  end.

(** A client that receives any envelopes, at any times, in any order. *)
Fixpoint client (t : TrustedState) (log : list (Document * string))
    (deliveries : list (Envelope * time)) : TrustedState * list (Document * string) :=
  match deliveries with
  | [] => (t, log)
  | (e, now) :: rest => let '(t', log') := deliver t log e now in client t' log' rest
  end.

(** [b] may be accepted after [a]: no rollback of the version, the issuance time or
    the key policy, and one payload per version. *)
Record no_rollback (a b : Document * string) : Prop := {
  nr_version : doc_Version a.1 <= doc_Version b.1;
  nr_issued : doc_IssuedAt a.1 <= doc_IssuedAt b.1;
  nr_policy : kp_Version (doc_KeyPolicy a.1) <= kp_Version (doc_KeyPolicy b.1);
  nr_payload : doc_Version a.1 = doc_Version b.1 → a = b
}.

(** The payloads among the deliveries. *)
Definition payloads (deliveries : list (Envelope * time)) : list string :=
  omap (λ d, DecodeString RawURLEncoding (env_Payload d.1)) deliveries.

(** No two of the delivered payloads are a SHA-256 collision. *)
Definition no_collision (deliveries : list (Envelope * time)) : Prop :=
  Forall (λ p, Forall (λ q, digest p = digest q → p = q) (payloads deliveries))
    (payloads deliveries).

(** The state [t] was reached by accepting [a]. *)
Definition state_of (t : TrustedState) (a : Document * string) : Prop :=
  ts_Version t = doc_Version a.1 ∧ ts_IssuedAt t = doc_IssuedAt a.1 ∧
  ts_PayloadSHA256 t = digest a.2 ∧ ts_PolicyVersion t = kp_Version (doc_KeyPolicy a.1).

(** The invariant of the client: what it logged is delivered and decodes, its state is
    that of a logged document which nothing in the log is ahead of. *)
Record log_inv (delivered : string → Prop) (t : TrustedState) (log : list (Document * string))
    : Prop := {
  li_log : Forall (λ a, delivered a.2 ∧ decodeStrict a.2 = Ok a.1) log;
  li_state : (t = zero_state ∧ log = []) ∨
    complete t ∧ ∃ a, a ∈ log ∧ state_of t a ∧ Forall (λ b, no_rollback b a) log;
  li_sorted : StronglySorted no_rollback log
}.

Lemma no_rollback_refl a : no_rollback a a.
Proof. by split. Qed.

Lemma no_rollback_trans a b c : no_rollback a b → no_rollback b c → no_rollback a c.
Proof.
  intros [] []. split; try lia. intros E.
  assert (a = b) as -> by (apply nr_payload0; lia). auto.
Qed.

Lemma StronglySorted_snoc {A} (R : relation A) l x :
  StronglySorted R l → Forall (λ y, R y x) l → StronglySorted R (l ++ [x]).
Proof.
  induction 1 as [|y l Hs IH Hall]; intros Hx; simpl; [repeat constructor|].
  apply Forall_cons in Hx as [Hy Hx]. constructor; [by apply IH|].
  apply Forall_app. auto.
Qed.

Lemma deliver_inv (delivered : string → Prop) t log e now :
  (∀ p q, delivered p → delivered q → digest p = digest q → p = q) →
  (∀ p, DecodeString RawURLEncoding (env_Payload e) = Some p → delivered p) →
  log_inv delivered t log →
  let '(t', log') := deliver t log e now in log_inv delivered t' log' ∧ trust_le t t'.
Proof.
  intros Hinj Hdel Hinv. unfold deliver.
  assert (Hrefl : trust_le t t).
  { apply trust_le_refl. destruct Hinv as [_ [[? _]|[? _]] _]; [by left|by right]. }
  destruct (Verify e root now t) as [[doc t']|] eqn:HV; [|done].
  destruct (Verify_inv _ _ _ _ _ _ HV) as (payload & pd & g & Hau & Htr & Ht').
  rewrite (au_payload _ _ _ _ _ _ _ Hau).
  destruct (Verify_advances _ _ _ _ _ t' _ _ _ Hau Htr Ht') as (Hc & Hle & Hv & Hp & Hi & Hpv & _).
  split; [|done]. destruct Hinv as [Hlog Hst Hs].
  assert (Hnew : delivered payload ∧ decodeStrict payload = Ok doc).
  { split; [by apply Hdel, (au_payload _ _ _ _ _ _ _ Hau)|apply Hau]. }
  assert (Hahead : Forall (λ b, no_rollback b (doc, payload)) log ∧ state_of t' (doc, payload)).
  { destruct Hst as [[-> ->]|(Hct & a & Ha & (Ev & Ei & Ep & Epv) & Hall)].
    - rewrite decide_False in Ht' by (intros E; by destruct (tc_version t' Hc); rewrite Hv, <- E).
      rewrite Ht'. done.
    - rewrite Forall_forall in Hlog. destruct (Hlog a Ha) as [Hda Hdec].
      apply validateStateTransition_spec in Htr as [->|[_ (Ap & _ & Av & Hd)]];
        [by apply complete_not_zero in Hct|].
      cbn [candidateState ts_Version ts_PolicyVersion ts_IssuedAt ts_PayloadSHA256] in *.
      assert (Hstep : no_rollback a (doc, payload) ∧ state_of t' (doc, payload)).
      { destruct (decide (ts_Version t = doc_Version doc)) as [E|E].
        - assert (a = (doc, payload)) as ->; [|subst t'; by split; [apply no_rollback_refl|]].
          destruct Hd as [Hd _], a as [da pa]; simpl in *.
          destruct Hnew as [Hdp Hdd].
          assert (pa = payload) as -> by (apply Hinj; [done..|congruence]). congruence.
        - subst t'. split; [split; simpl; lia|done]. }
      split; [|apply Hstep]. eapply Forall_impl; [done|].
      intros b Hb. by apply (no_rollback_trans _ a); [|apply Hstep]. }
  destruct Hahead as [Hall Hso]. split.
  - apply Forall_app. by rewrite Forall_singleton.
  - right. split; [done|]. exists (doc, payload). split_and!; [set_solver|done|].
    apply Forall_app. rewrite Forall_singleton. by split; [|apply no_rollback_refl].
  - by apply StronglySorted_snoc.
Qed.

Lemma client_inv (delivered : string → Prop) deliveries t log :
  (∀ p q, delivered p → delivered q → digest p = digest q → p = q) →
  Forall delivered (payloads deliveries) →
  log_inv delivered t log →
  let '(t', log') := client t log deliveries in log_inv delivered t' log' ∧ trust_le t t'.
Proof.
  intros Hinj. revert t log. induction deliveries as [|[e now] ds IH]; intros t log Hdel Hinv.
  { split; [done|]. apply trust_le_refl. destruct Hinv as [_ [[? _]|[? _]] _]; [by left|by right]. }
  cbn [client]. pose proof (deliver_inv delivered t log e now Hinj) as Hd.
  destruct (deliver t log e now) as [t1 log1]. destruct Hd as [Hinv1 Hle1]; [|done|].
  { intros p Hp. unfold payloads in Hdel. cbn [omap list_omap fst] in Hdel. rewrite Hp in Hdel.
    by apply Forall_cons in Hdel as []. }
  specialize (IH t1 log1). destruct (client t1 log1 ds) as [t2 log2].
  destruct IH as [Hinv2 Hle2]; [|done|].
  { revert Hdel. unfold payloads. cbn [omap list_omap fst].
    destruct (DecodeString _ (env_Payload e)); [|done]. by intros []%Forall_cons. }
  split; [done|by eapply trust_le_trans].
Qed.

End client.

(** ** Issued envelopes *)

Section issued.
Context `{Ed25519Laws} `{JsonSyntax} `{JsonDecode Document}.

Lemma EncodedLen_mono n m : n <= m → EncodedLen RawURLEncoding n <= EncodedLen RawURLEncoding m.
Proof. unfold EncodedLen. simpl. divlia. Qed.

(** The decoder reads back the JSON form of [document]. *)
Definition reads_back (document : Document) : Prop :=
  ∃ j, json_Document document = Some j ∧ decodeStrict (print j) = Ok document.

(** What a successful [Issue] signed, and under which grant. *)
Record issued (catalog : Catalog) (version : Z) (policy : KeyPolicy) (root : string) (now : time)
    (ttl : duration) (key : string) (e : Envelope) (payload policyDigest : string) (grant : KeyGrant)
    : Prop := {
  is_key : validEd25519PrivateKey key = true;
  is_policy : ValidateKeyPolicy (canonicalKeyPolicy policy) root = Ok policyDigest;
  is_grant : KeyPolicyGrant (canonicalKeyPolicy policy) (KeyID (Public key)) version = Ok (grant, Public key);
  is_document : Validate (issuedDocument catalog version policy now ttl) = Ok tt;
  is_payload : print <$> json_Document (issuedDocument catalog version policy now ttl) = Some payload;
  is_size : 0 < len payload <= maxManifestBytes;
  is_envelope : e = mkEnvelope Algorithm (KeyID (Public key)) (EncodeToString RawURLEncoding payload)
    (EncodeToString RawURLEncoding (ed25519_Sign key payload))
}.

(** No other public key of the policy shares its digest, the key ID, with [key]'s. *)
Definition key_id_unique (policy : KeyPolicy) (key : string) : Prop :=
  Forall (λ raw, KeyID raw = KeyID (Public key) → raw = Public key)
    (omap (λ g, DecodeString RawURLEncoding (kg_PublicKey g)) (kp_Keys policy)).

Lemma json_Document_nonempty d j : json_Document d = Some j → 0 < len (print j).
Proof. intros (? & _ & (? & _ & [= <-])%bind_Some)%bind_Some. done. Qed.

Lemma Issue_inv catalog version policy root now ttl key e :
  key_id_unique policy key →
  Issue catalog version policy root now ttl key = Ok e →
  ∃ payload policyDigest grant,
    issued catalog version policy root now ttl key e payload policyDigest grant.
Proof.
  intros Huniq. unfold Issue. intros HI. inv_ok.
  match goal with E : ValidateKeyPolicy _ _ = Ok ?d |- _ =>
    rename d into policyDigest; rename E into HP end.
  match goal with E : KeyPolicyGrant _ _ _ = Ok ?x |- _ => destruct x as [g raw]; rename E into HG end.
  pose proof (ValidateKeyPolicy_inv _ _ _ HP) as (Hs & _).
  apply findGrant_inv in HG as HG'. destruct HG' as (Hg & Hid & _ & Hd & _).
  destruct (KeyPolicyGrant_inv _ _ _ _ _ (proj2 (validateKeyPolicyShape_spec _) Hs) HG)
    as (_ & _ & _ & Hraw & _).
  unfold key_id_unique in Huniq. rewrite Forall_forall in Huniq.
  assert (raw = Public key) as -> by (apply Huniq; [apply list_elem_of_omap; eauto|done]).
  destruct (json_Document _) as [j|] eqn:Ej; [|done]. inv_ok.
  exists (print j), policyDigest, g. split; try done.
  - eapply ValidateKeyPolicy_order; [done|apply same_grants_canonical].
  - eapply KeyPolicyGrant_order; [done|apply same_grants_canonical|done].
  - by rewrite Ej.
  - split; [|lia]. by eapply json_Document_nonempty.
Qed.

(** An issued envelope passes every check of [Verify] but the state transition. *)
Lemma Verify_issued catalog version policy root now ttl key e payload pd g at_time t :
  let doc := issuedDocument catalog version policy now ttl in
  issued catalog version policy root now ttl key e payload pd g →
  reads_back doc →
  doc_IssuedAt doc - allowedClockSkew <= at_time < doc_ExpiresAt doc →
  let c := candidateState doc payload pd g in
  validateStateTransition t c = Ok tt →
  Verify e root at_time t = Ok (doc, if decide (ts_Version t = version) then t else c).
Proof.
  intros doc [Hk HP HG Hdoc Hpl Hsz ->] (j & Hj & Hback) Hw c Ht.
  fold doc in Hdoc, Hpl. rewrite Hj in Hpl. injection Hpl as Hpl.
  pose proof (ValidateKeyPolicy_inv _ _ _ HP) as (_ & Hroot & _).
  apply validEd25519PrivateKey_inv in Hk as Hk'. destruct Hk' as (Hlen & _).
  assert (Hsl : len (ed25519_Sign key payload) = SignatureSize) by by apply ed25519_Sign_len.
  pose proof (EncodedLen_mono _ _ (proj2 Hsz)).
  assert (0 < EncodedLen RawURLEncoding (len payload)).
  { unfold EncodedLen. simpl. divlia. }
  unfold Verify. cbn [env_Algorithm env_KeyID env_Payload env_Signature].
  step_ok; [by rewrite Hroot|]. step_ok; [done|].
  step_ok; [apply bool_decide_eq_false_2, digest_nonempty|].
  rewrite !(len_EncodeToString RawURLEncoding), !(DecodeString_EncodeToString RawURLEncoding), Hsl.
  step_ok; [lia|]. step_ok; [done|].
  cbn [mbind result_bind]. step_ok; [lia|].
  rewrite <- Hpl at 1. rewrite Hback. cbn [wrap mbind result_bind]. rewrite Hdoc.
  change (doc_KeyPolicy doc) with (canonicalKeyPolicy policy).
  change (doc_Version doc) with version.
  cbn [mbind result_bind]. rewrite HP. cbn [mbind result_bind]. rewrite HG.
  cbn [mbind result_bind].
  step_ok; [by rewrite Hsl, validEd25519PrivateKey_signs|].
  unfold Before, time_Add. step_ok; [lia|]. step_ok; [lia|].
  fold c. rewrite Ht. cbn [mbind result_bind]. change (ts_Version c) with version.
  destruct (Z.eqb_spec (ts_Version t) version);
    [by rewrite decide_True by done|by rewrite decide_False by done].
Qed.

(** Under one policy, a later version is an allowed successor of an earlier one. *)
Lemma issued_allowed policy root c1 v1 now1 ttl1 key1 e1 p1 pd1 g1 c2 v2 now2 ttl2 key2 e2 p2 pd2 g2 :
  issued c1 v1 policy root now1 ttl1 key1 e1 p1 pd1 g1 →
  issued c2 v2 policy root now2 ttl2 key2 e2 p2 pd2 g2 →
  policy_u64 policy → v1 < v2 → now1 <= now2 →
  allowed (candidateState (issuedDocument c1 v1 policy now1 ttl1) p1 pd1 g1)
    (candidateState (issuedDocument c2 v2 policy now2 ttl2) p2 pd2 g2).
Proof.
  intros [_ HP1 HG1 _ _ _ _] [_ HP2 HG2 _ _ _ _] Hu Hv Hn.
  destruct (ValidateKeyPolicy_inv _ _ _ HP1) as (Hs%validateKeyPolicyShape_spec & _).
  assert (policy_u64 (canonicalKeyPolicy policy)) as Hu'.
  { split; [apply Hu|]. cbn. rewrite canonicalKeyGrants_perm. apply Hu. }
  destruct (KeyPolicyGrant_inv _ _ _ _ _ Hs HG1) as (Hg1 & _ & Hc1 & _).
  destruct (KeyPolicyGrant_inv _ _ _ _ _ Hs HG2) as (Hg2 & _ & Hc2 & _).
  destruct (shape_epoch_mono _ Hs Hu' g1 g2 v1 v2) as [Hle Heq]; [done..|lia|].
  apply validateKeyPolicyShape_spec in Hs as [_ _ _ _ _ Hd _].
  unfold allowed. cbn [candidateState ts_Version ts_PolicyVersion ts_PolicySHA256 ts_IssuedAt
    ts_SigningKeyID ts_SigningKeyEpoch ts_PayloadSHA256 issuedDocument doc_Version doc_IssuedAt
    doc_KeyPolicy].
  rewrite HP1 in HP2. injection HP2 as <-.
  split_and!; [lia|done|lia|]. rewrite decide_False by lia. split_and!; [|done|].
  - apply Truncate_mono; [done|lia].
  - rewrite Heq. split; [|by intros ->]. intros E.
    by apply (NoDup_fmap_eq kg_KeyID (kp_Keys (canonicalKeyPolicy policy))).
Qed.

End issued.

(** ** Properties *)

Section claims.
Context `{Ed25519} `{JsonSyntax} `{JsonDecode Document}.

(** C5: what [Verify] accepts is authentic: the pinned root key signed the key policy,
    the policy grants the document's version to the key the envelope names, that key
    signed exactly the payload bytes the document was decoded from, the document passes
    [Validate], and the clock is inside the validity window (with two minutes of skew
    before issuance, none after expiry). *)
Theorem verify_sound envelope root now t document t' :
  Verify envelope root now t = Ok (document, t') →
  ∃ payload policyDigest grant,
    authentic envelope root now document payload policyDigest grant.
Proof. intros (payload & pd & g & Hau & _)%Verify_inv. eauto. Qed.

(** Accepting moves the client's state forward only: the new state is complete, no
    counter (version, issuance time, policy version, signing epoch) decreased, the
    state is unchanged at an unchanged version, and it stands at the accepted document.
    A well-formed state therefore stays well formed. *)
Theorem verify_advances_state envelope root now t document t' :
  Verify envelope root now t = Ok (document, t') →
  trusted_wf t ∧ complete t' ∧ trust_le t t' ∧
  ts_Version t' = doc_Version document ∧ ts_IssuedAt t' = doc_IssuedAt document ∧
  ∃ payload, DecodeString RawURLEncoding (env_Payload envelope) = Some payload ∧
    ts_PayloadSHA256 t' = digest payload.
Proof.
  intros (payload & pd & g & Hau & Htr & Ht')%Verify_inv.
  destruct (Verify_advances _ _ _ _ _ t' _ _ _ Hau Htr Ht') as (? & ? & ? & ? & ? & _).
  split_and!; try done.
  - apply validateStateTransition_spec in Htr as [?|[? _]]; [by left|by right].
  - exists payload. split; [apply Hau|done].
Qed.

(** C6: over any sequence of deliveries, in any order and from any mirror, a client that
    starts with nothing never rolls back and never sees two payloads for one version:
    the accepted documents are in order of version, issuance time and policy version,
    and equal versions mean the same document and payload (no SHA-256 collision among
    the delivered payloads assumed). *)
Theorem client_never_rolls_back root deliveries :
  no_collision deliveries →
  let '(t, log) := client root zero_state [] deliveries in
  trusted_wf t ∧ StronglySorted no_rollback log ∧
  ∀ a, a ∈ log → doc_Version a.1 <= ts_Version t.
Proof.
  intros Hnc.
  pose proof (client_inv root (.∈ payloads deliveries) deliveries zero_state []) as HI.
  destruct (client root zero_state [] deliveries) as [t log]. destruct HI as [[Hlog Hst Hs] _].
  - intros p q Hp Hq. unfold no_collision in Hnc. rewrite Forall_forall in Hnc.
    pose proof (Hnc p Hp) as Hnp. rewrite Forall_forall in Hnp. by apply Hnp.
  - by apply Forall_forall.
  - split; [done|by left|constructor].
  - destruct Hst as [[-> ->]|(Hc & a & Ha & (Hv & _) & Hall)].
    + split_and!; [by left|constructor|set_solver].
    + split_and!; [by right|done|]. intros b Hb. rewrite Forall_forall in Hall.
      rewrite Hv. by destruct (Hall b Hb).
Qed.

End claims.

(** Two envelopes issued at increasing versions under one policy are both accepted, the
    first by a fresh client and the second by that client's new state. *)
Lemma issued_accepted `{Ed25519Laws} `{JsonSyntax} `{JsonDecode Document}
    policy root c1 v1 now1 ttl1 key1 e1 at1 c2 v2 now2 ttl2 key2 e2 at2 :
  let d1 := issuedDocument c1 v1 policy now1 ttl1 in
  let d2 := issuedDocument c2 v2 policy now2 ttl2 in
  Issue c1 v1 policy root now1 ttl1 key1 = Ok e1 →
  Issue c2 v2 policy root now2 ttl2 key2 = Ok e2 →
  reads_back d1 → reads_back d2 → v1 < v2 → now1 <= now2 → policy_u64 policy →
  key_id_unique policy key1 → key_id_unique policy key2 →
  doc_IssuedAt d1 - allowedClockSkew <= at1 < doc_ExpiresAt d1 →
  doc_IssuedAt d2 - allowedClockSkew <= at2 < doc_ExpiresAt d2 →
  ∃ t1 t2, Verify e1 root at1 zero_state = Ok (d1, t1) ∧ Verify e2 root at2 t1 = Ok (d2, t2).
Proof.
  intros d1 d2 HI1 HI2 Hb1 Hb2 Hv Hn Hu Hk1 Hk2 Hw1 Hw2.
  destruct (Issue_inv _ _ _ _ _ _ _ _ Hk1 HI1) as (p1 & pd1 & g1 & Hi1).
  destruct (Issue_inv _ _ _ _ _ _ _ _ Hk2 HI2) as (p2 & pd2 & g2 & Hi2).
  pose proof (Verify_issued _ _ _ _ _ _ _ _ _ _ _ at1 zero_state Hi1 Hb1 Hw1 eq_refl) as HV1.
  destruct (Verify_inv _ _ _ _ _ _ HV1) as (? & ? & ? & Hau & Htr & Ht).
  destruct (Verify_advances _ _ _ _ _ _ _ _ _ Hau Htr Ht) as (Hc & _).
  rewrite decide_False in HV1, Hc
    by (intros E; by destruct (docv_version _ (au_valid _ _ _ _ _ _ _ Hau))).
  eexists _, _. split; [done|]. eapply Verify_issued; try done.
  apply validateStateTransition_spec. right. split; [done|].
  by eapply issued_allowed.
Qed.

(** ** Examples *)

(** A decoder that knows finitely many documents. *)
Definition toy_decode (docs : list Document) : JsonDecode Document := λ s,
  match list_find (λ d, print <$> json_Document d = Some s) docs with
  | Some (_, d) => Ok (d, "")
  | None => Err (NewError "unknown document")
  end.
Definition toy_syntax : JsonSyntax := λ s, if bool_decide (s = "") then None else Some (Ok tt).

(** Version 10 is issued by the first key, version 11 (with a catalog of the next
    revision) an hour later by the second. *)
Definition toy_tiny (revision : Z) : Catalog := mkCatalog revision
  [mkDiscoveryEndpoint "m" "https://a.example/m" 10]
  [toy_node "n" "hetzner" 24940 [toy_udp_endpoint "e" 10]].
Definition toy_now : time := unix_epoch + 1700000000 * Second + 5.
Definition toy_ttl : duration := 15 * Minute.
Definition toy_doc10 : Document := issuedDocument (toy_tiny 1) 10 toy_policy toy_now toy_ttl.
Definition toy_doc11 : Document := issuedDocument (toy_tiny 2) 11 toy_policy (toy_now + Hour) toy_ttl.
Definition toy_envelope (r : result Envelope) : Envelope :=
  match r with Ok e => e | Err _ => mkEnvelope "" "" "" "" end.
Definition toy_e10 : Envelope := toy_envelope
  (@Issue ToyEd25519 (toy_tiny 1) 10 toy_policy (Public toy_root) toy_now toy_ttl (toy_key "A"%char)).
Definition toy_e11 : Envelope := toy_envelope
  (@Issue ToyEd25519 (toy_tiny 2) 11 toy_policy (Public toy_root) (toy_now + Hour) toy_ttl
     (toy_key "B"%char)).
Definition toy_json : JsonDecode Document := toy_decode [toy_doc10; toy_doc11].

(** The two envelopes delivered with a replay of the first one. *)
Definition toy_deliveries : list (Envelope * time) :=
  [(toy_e10, toy_now); (toy_e11, toy_now + Hour); (toy_e10, toy_now)].

Example toy_client_log :
  (λ a, doc_Version a.1) <$> (@client ToyEd25519 toy_syntax toy_json (Public toy_root)
    zero_state [] toy_deliveries).2 = [10; 11].
Proof. by vm_compute. Qed.

Definition toy_state (r : result (Document * TrustedState)) : TrustedState :=
  match r with Ok (_, t) => t | Err _ => zero_state end.
Definition toy_t10 : TrustedState := toy_state
  (@Verify ToyEd25519 toy_syntax toy_json toy_e10 (Public toy_root) toy_now zero_state).

Lemma toy_accepts10 :
  @Verify ToyEd25519 toy_syntax toy_json toy_e10 (Public toy_root) toy_now zero_state =
  Ok (toy_doc10, toy_t10).
Proof. by vm_compute. Qed.

Lemma verify_sound_witness :
  ∃ payload policyDigest grant, @authentic ToyEd25519 toy_syntax toy_json
    toy_e10 (Public toy_root) toy_now toy_doc10 payload policyDigest grant.
Proof. exact (@verify_sound _ _ _ _ _ _ _ _ _ toy_accepts10). Defined.

Lemma verify_advances_state_witness : complete toy_t10 ∧ trust_le zero_state toy_t10.
Proof.
  destruct (@verify_advances_state _ _ _ _ _ _ _ _ _ toy_accepts10) as (_ & Hc & Hle & _).
  by split.
Defined.

Lemma client_never_rolls_back_witness :
  let '(t, log) := @client ToyEd25519 toy_syntax toy_json (Public toy_root) zero_state []
    toy_deliveries in
  trusted_wf t ∧ StronglySorted no_rollback log ∧ ∀ a, a ∈ log → doc_Version a.1 <= ts_Version t.
Proof.
  apply (@client_never_rolls_back ToyEd25519 toy_syntax toy_json).
  by_compute.
Defined.
