(* ===== verification/Issuance.v ===== *)
(** * Durable issuer state ([internal/issuance/state.go])

    The record the issuer persists before it publishes, its validation, and the
    file store: [Load] and [Save] over the world of [GoOs], with every error branch.
    The theorems: whatever call fails and whenever the machine stops, the state file is the
    old one or the new one, and certainly the new one once [Save] returned; what is loaded is
    what the file holds.  [Wire] closes the loop with its decoder: a saved state is read back. *)

From S2P Require Import Prelude GoRegexp GoBase64 GoSha256 GoStrings GoJson GoOs.

Definition maxStateBytes : Z := Z.shiftl 16 10.

Record State := mkState {
  st_KeyID : string;
  st_KeyEpoch : Z;
  st_PolicyVersion : Z;
  st_PolicySHA256 : string;
  st_LastVersion : Z;
  st_CatalogRevision : Z;
  st_CatalogSHA256 : string;
  st_LastIssuedAt : time
}.

#[global] Instance State_eq_dec : EqDecision State.
Proof. solve_decision. Defined.

(** The zero value of [State]. *)
Definition zero_State : State := mkState "" 0 0 "" 0 0 "" zero_time.

Record FileStore := mkFileStore { fs_Path : string }.

Definition json_State (s : State) : option json :=
  issued ← JTime (st_LastIssuedAt s);
  Some (JObj
    [("key_id", JStr (st_KeyID s)); ("key_epoch", JInt (st_KeyEpoch s));
     ("policy_version", JInt (st_PolicyVersion s)); ("policy_sha256", JStr (st_PolicySHA256 s));
     ("last_version", JInt (st_LastVersion s)); ("catalog_revision", JInt (st_CatalogRevision s));
     ("catalog_sha256", JStr (st_CatalogSHA256 s)); ("last_issued_at", issued)]).

(** What [json.Encoder.Encode] writes: the value without HTML escapes and a newline. *)
Definition encodeState (s : State) : option string :=
  j ← json_State s; Some (print_with false j +:+ String (byte 10) "").

Definition sha256_encoded (encoded : string) : bool :=
  match DecodeString RawURLEncoding encoded with Some raw => len raw =? 32 | None => false end.

Definition legacyPolicyState (state : State) : bool :=
  (st_KeyEpoch state =? 0) && (st_PolicyVersion state =? 0)
  && bool_decide (st_PolicySHA256 state = "").

Definition validate (state : State) (allowLegacy : bool) : result unit :=
  fail_if (bool_decide (st_KeyID state = "") || (st_LastVersion state =? 0)
           || (st_CatalogRevision state =? 0) || IsZero (st_LastIssuedAt state))
    (NewError "issuer state is incomplete");;
  fail_if (negb (sha256_encoded (st_CatalogSHA256 state)))
    (NewError "issuer state catalog digest is invalid");;
  if legacyPolicyState state && allowLegacy then Ok tt
  else
    fail_if ((st_KeyEpoch state =? 0) || (st_PolicyVersion state =? 0)
             || bool_decide (st_PolicySHA256 state = ""))
      (NewError "issuer state key policy fields are incomplete");;
    fail_if (negb (sha256_encoded (st_PolicySHA256 state)))
      (NewError "issuer state key policy digest is invalid").

(** [perm&0o022] and [perm&0o077]: access by group or others. *)
Definition checkDirectory (path : string) : io unit :=
  info ← io_wrap "stat issuer state directory" (os_Stat path);
  match info with
  | None => throw (NewError "issuer state parent must be a directory")
  | Some d =>
      io_of (fail_if (negb (Z.land (d_perm d) 18 =? 0))
        (NewError "issuer state directory must not be writable by group or others"))
  end.

(** [if !errors.Is(err, os.ErrNotExist) { return err }]: a missing file is tolerated. *)
Definition missing_ok {A} (m : io A) : io (option A) := λ w,
  match m w with
  | (Ret a, w') => (Ret (Some a), w')
  | (Throw e, w') => if errors_Is e ErrNotExist then (Ret None, w') else (Throw e, w')
  | (Halt, w') => (Halt, w')
  end.

Section store.
Context `{JsonSyntax} `{JsonDecode State}.

(** [issuance.decodeStrict]. *)
Definition decodeStrict (data : string) : result State :=
  decode_one id (NewError "issuer state contains multiple JSON values") data.

(** [Load]: [None] is [(State{}, false, nil)]. *)
Definition Load (store : FileStore) : io (option State) :=
  io_of (fail_if (bool_decide (fs_Path store = "")) (NewError "issuer state path is required"));;
  _ ← missing_ok (checkDirectory (filepath_Dir (fs_Path store)));
  opened ← missing_ok (io_wrap "open issuer state" (os_Open (fs_Path store)));
  match opened with
  | None => mret None
  | Some file =>
      info ← io_wrap "stat issuer state" (file_Stat file);
      io_of (fail_if (negb (fi_regular info)) (NewError "issuer state must be a regular file"));;
      io_of (fail_if (negb (Z.land (fi_perm info) 63 =? 0))
        (NewError "issuer state permissions must not allow group or other access"));;
      data ← io_wrap "read issuer state" (file_ReadAll file (maxStateBytes + 1));
      io_of (fail_if ((len data =? 0) || (len data >? maxStateBytes))
        (NewError "issuer state size is invalid"));;
      state ← io_of (wrap "decode issuer state" (decodeStrict data));
      io_of (validate state true);;
      mret (Some state)
  end.

End store.

Definition Save (store : FileStore) (state : State) : io unit :=
  io_of (fail_if (bool_decide (fs_Path store = "")) (NewError "issuer state path is required"));;
  io_of (validate state false);;
  let directory := filepath_Dir (fs_Path store) in
  io_wrap "create issuer state directory" (os_MkdirAll directory 448);;
  checkDirectory directory;;
  temporary ← io_wrap "create temporary issuer state" (os_CreateTemp directory ".issuer-state-");
  let cleanup := ignore file_Close;; ignore (os_Remove temporary) in
  on_error (file_Chmod temporary 384) cleanup (Wrap "restrict temporary issuer state");;
  on_error
    (match encodeState state with
     | Some data => file_Write temporary data
     | None => throw (NewError "year outside of range [0,9999]")
     end) cleanup (Wrap "encode issuer state");;
  on_error (file_Sync temporary) cleanup (Wrap "sync issuer state");;
  on_error file_Close (ignore (os_Remove temporary)) (Wrap "close issuer state");;
  on_error (os_Rename temporary (fs_Path store)) (ignore (os_Remove temporary))
    (Wrap "replace issuer state");;
  io_wrap "open issuer state directory" (dir_Open directory);;
  io_wrap "sync issuer state directory" (dir_Sync directory).

(** ** The save protocol *)

(** The file a successful [Save] leaves: synced, regular and private. *)
Definition stateFile (data : string) : File := mkFile data true true 384.

(** Directories are never removed. *)
Definition dirs_grow (w w' : World) : Prop :=
  ∀ d i, w_dirs w !! d = Some i → w_dirs w' !! d = Some i.

Section save.
Context (store : FileStore) (state : State) (w0 : World).

Abbreviation path := (fs_Path store).
Abbreviation directory := (filepath_Dir (fs_Path store)).

(** The state file is not itself named like a temporary file. *)
Definition not_temporary : Prop := HasPrefix path (directory +:+ "/.issuer-state-") = false.

Context (Hpath : not_temporary).

(** The directory passes [checkDirectory]. *)
Definition private_dir (w : World) : Prop :=
  ∃ d, w_dirs w !! directory = Some d ∧ Z.land (d_perm d) 18 = 0.

(** Nothing that concerns the state file happened yet. *)
Definition untouched (w : World) : Prop :=
  dirs_grow w0 w ∧ possible w path = possible w0 path.

(** The temporary file exists, beside an untouched state file. *)
Definition prepared (temporary : string) (f : File) (w : World) : Prop :=
  untouched w ∧ private_dir w ∧ temporary ≠ path ∧
  w_files w !! temporary = Some f.

(** The new state file may be found besides everything that could be found before. *)
Definition renamed (w : World) : Prop := ∃ data,
  validate state false = Ok tt ∧ encodeState state = Some data ∧ dirs_grow w0 w ∧
  possible w path = Some (stateFile data) :: possible w0 path.

(** After a failure or a stop: the old file, or possibly the new one. *)
Definition interrupted (w : World) : Prop := untouched w ∨ renamed w.

(** After success: the new file only. *)
Definition saved (w : World) : Prop := ∃ data,
  validate state false = Ok tt ∧ encodeState state = Some data ∧ dirs_grow w0 w ∧
  private_dir w ∧ possible w path = [Some (stateFile data)].

Lemma remove_interrupted temporary w :
  temporary ≠ path → interrupted w → wp (ignore (os_Remove temporary)) (λ _, interrupted) interrupted w.
Proof.
  intros Hne Hi. apply wp_ignore, wp_call; [by intros ?|done|].
  intros w' Hw'. destruct (w_files w' !! temporary); [|done].
  destruct Hw' as [[Hd Hp]|(data & Hv & He & Hd & Hp)]; [left|right].
  - split; [done|]. by rewrite possible_bind_ne.
  - exists data. by rewrite possible_bind_ne.
Qed.

Lemma cleanup_interrupted temporary w :
  temporary ≠ path → interrupted w →
  wp (ignore file_Close;; ignore (os_Remove temporary)) (λ _, interrupted) interrupted w.
Proof.
  intros Hne Hi. apply wp_bind.
  eapply (wp_mono _ (λ _, interrupted) _ interrupted); [|by intros; apply remove_interrupted|done].
  apply wp_ignore, wp_call; [by intros ?|done|done].
Qed.

Lemma untouched_free : outcome_free untouched.
Proof. by intros ?. Qed.

Lemma checkDirectory_untouched w :
  untouched w →
  wp (checkDirectory directory) (λ _ w, untouched w ∧ private_dir w) untouched w.
Proof.
  intros Hw. apply wp_bind, wp_io_wrap, wp_call; [apply untouched_free|done|].
  intros w' Hw'. destruct (w_dirs w' !! directory) as [d|] eqn:Ed.
  - apply wp_io_of; [|done]. intros [] Hperm%fail_if_Ok. split; [done|].
    exists d. split; [done|]. by apply negb_false_iff, Z.eqb_eq in Hperm.
  - by case_bool_decide.
Qed.

Lemma mkdir_untouched w : untouched w → wp (os_MkdirAll directory 448) (λ _, untouched) untouched w.
Proof.
  apply mkdir_keeps; [apply untouched_free|]. intros w' l [Hd Hp] Hl. split; [|done].
  intros d i Hi%Hd. rewrite lookup_add_dirs, decide_False; [done|]. intros Hin%Hl. congruence.
Qed.

Lemma create_prepared w :
  untouched w ∧ private_dir w →
  wp (os_CreateTemp directory ".issuer-state-")
    (λ t, prepared t (mkFile "" false true 384)) untouched w.
Proof.
  intros Hw. apply (wp_syscall _ _ _ _ (λ w, untouched w ∧ private_dir w));
    [by intros ?|done| |by intros ? ? []..|by intros ? []].
  intros w' [[Hd Hp] Hdir].
  rewrite bool_decide_eq_true_2 by (destruct Hdir as (d & -> & _); eauto).
  set (name := fresh_string _ _).
  assert (Hne : name ≠ path).
  { intros E. destruct (fresh_string_prefix (w_files w') (directory +:+ "/" +:+ ".issuer-state-")) as [t Ht].
    fold name in Ht. unfold not_temporary in Hpath. rewrite <- not_true_iff_false in Hpath.
    apply Hpath, HasPrefix_spec. exists t. symmetry. by etrans; [symmetry; exact Ht|]. }
  split_and!; [split|done..|].
  - done.
  - by rewrite possible_bind_ne.
  - cbn. by rewrite lookup_partial_alter_eq.
Qed.

Lemma prepared_free t f : outcome_free (prepared t f).
Proof. by intros ?. Qed.

Lemma prepared_interrupted t f w : prepared t f w → interrupted w.
Proof. intros [? _]. by left. Qed.

Lemma prepared_update t f g w :
  prepared t f w → prepared t (g f) (update_file t g w).
Proof.
  intros ([Hd Hp] & Hdir & Hne & Hf). split_and!; [split|done..|].
  - done.
  - by rewrite possible_update_ne.
  - cbn. by rewrite lookup_alter_eq, Hf.
Qed.

(** A call on the temporary file that changes it by [g]. *)
Lemma wp_update t f g partial w :
  prepared t f w → (∀ n w, prepared t f w → interrupted (partial n w)) →
  wp (syscall (λ w, (Ok tt, update_file t g w)) partial) (λ _, prepared t (g f)) interrupted w.
Proof.
  intros Hw Hp. apply (wp_syscall _ _ _ _ (prepared t f)); [apply prepared_free|done| |auto|].
  - intros w' Hw'. by apply prepared_update.
  - intros w'. apply prepared_interrupted.
Qed.

Lemma write_prepared t f data w :
  prepared t f w →
  wp (file_Write t data) (λ _, prepared t (append_data data f)) interrupted w.
Proof.
  intros Hw. apply wp_update; [done|]. intros n w' Hw'.
  eapply prepared_interrupted. by apply prepared_update.
Qed.

Lemma rename_renamed t data w :
  validate state false = Ok tt → encodeState state = Some data → prepared t (stateFile data) w →
  wp (os_Rename t path) (λ _ w, renamed w ∧ private_dir w) interrupted w.
Proof.
  intros Hv He Hw. apply (wp_syscall _ _ _ _ (prepared t (stateFile data)));
    [apply prepared_free|done| |by intros; eapply prepared_interrupted..].
  intros w' ([Hd Hp] & Hdir & Hne & Hf). rewrite Hf.
  case_bool_decide; [by left|]. split; [|done].
  exists data. split_and!; [done..|]. rewrite possible_bind_ne, possible_bind_same by done.
  by rewrite Hp.
Qed.

Lemma sync_saved w :
  renamed w ∧ private_dir w →
  wp (dir_Sync directory) (λ _, saved) interrupted w.
Proof.
  intros Hw. apply (wp_syscall _ _ _ _ (λ w, renamed w ∧ private_dir w));
    [by intros ?|done| |by intros ? ? []; right..|by intros ? []; right].
  intros w' [(data & Hv & He & Hd & Hp) Hdir]. exists data. split_and!; [done..|].
  unfold possible in *. cbn. rewrite map_lookup_filter_None_2;
    [simpl; by injection Hp as -> _|].
  right. intros x Hx. simpl. by intros [].
Qed.

(** The specification of [Save]. *)
Lemma Save_spec : wp (Save store state) (λ _, saved) interrupted w0.
Proof.
  assert (Hw0 : untouched w0) by (split; [by intros ?|done]).
  assert (Hui : ∀ w, untouched w → interrupted w) by by left.
  unfold Save. apply wp_bind, wp_io_of; [intros _ _|by apply Hui].
  apply wp_bind, wp_io_of; [intros [] Hv|by apply Hui].
  apply wp_bind, wp_io_wrap. eapply wp_mono; [by apply mkdir_untouched| |done]. intros [] w1 Hw1.
  apply wp_bind. eapply wp_mono; [by apply checkDirectory_untouched| |done]. intros [] w2 Hw2.
  apply wp_bind, wp_io_wrap. eapply wp_mono; [by apply create_prepared| |done]. intros t w3 Hw3.
  assert (Hne : t ≠ path) by by destruct Hw3 as (_ & _ & ? & _).
  assert (Hcl : ∀ w', interrupted w' →
    wp (ignore file_Close;; ignore (os_Remove t)) (λ _, interrupted) interrupted w')
    by (intros; by apply cleanup_interrupted).
  assert (Hrm : ∀ w', interrupted w' →
    wp (ignore (os_Remove t)) (λ _, interrupted) interrupted w')
    by (intros; by apply remove_interrupted).
  assert (Hpi : ∀ f n w', prepared t f w' → interrupted (no_effect n w'))
    by (intros ???; apply prepared_interrupted).
  apply wp_bind, wp_on_error; [|done].
  eapply wp_mono; [apply (wp_update t _ _ _ _ Hw3); by apply Hpi| |done]. intros [] w4 Hw4.
  apply wp_bind, wp_on_error; [|done].
  destruct (encodeState state) as [data|] eqn:He; [|by eapply prepared_interrupted].
  eapply wp_mono; [by apply write_prepared| |done]. intros [] w5 Hw5.
  apply wp_bind, wp_on_error; [|done].
  eapply wp_mono; [apply (wp_update t _ _ _ _ Hw5); by apply Hpi| |done]. intros [] w6 Hw6.
  apply wp_bind, wp_on_error; [|done].
  apply (wp_syscall _ _ _ _ (prepared t (stateFile data)));
    [apply prepared_free|done| |by intros; eapply prepared_interrupted..]. intros w7 Hw7.
  apply wp_bind, wp_on_error; [|done].
  eapply wp_mono; [by eapply rename_renamed| |done]. intros [] w8 Hw8.
  apply wp_bind, wp_io_wrap.
  apply (wp_syscall _ _ _ _ (λ w, renamed w ∧ private_dir w));
    [by intros ?|done| |by intros ? ? []; right..|by intros ? []; right].
  intros w9 Hw9. rewrite bool_decide_eq_true_2 by (destruct Hw9 as [_ (d & -> & _)]; eauto).
  apply wp_io_wrap. by apply sync_saved.
Qed.

End save.

(** ** Loading *)

#[global] Opaque maxStateBytes.

Section load.
Context `{JsonSyntax} `{JsonDecode State}.

Lemma encodeState_nonempty state data : encodeState state = Some data → 0 < len data.
Proof.
  intros (j & _ & [= <-])%bind_Some. rewrite len_app. pose proof (len_nonneg (print_with false j)).
  unfold len at 2. simpl. lia.
Qed.

Lemma validate_legacy state : validate state false = Ok tt → validate state true = Ok tt.
Proof.
  unfold validate. rewrite andb_false_r, andb_true_r.
  intros ([] & E1 & ([] & E2 & Hv)%mbind_Ok)%mbind_Ok.
  apply mbind_Ok. exists tt. split; [done|]. apply mbind_Ok. exists tt. split; [done|].
  by destruct (legacyPolicyState state).
Qed.

Lemma syscall_quiet {A} effect partial w (a : A) :
  w_outcomes w = [] → effect w = (Ok a, w) → syscall effect partial w = (Ret a, w).
Proof. unfold syscall. by intros -> ->. Qed.

(** A private, regular file with a readable state loads, when no call fails. *)
Lemma Load_file store w f state :
  fs_Path store ≠ "" → w_outcomes w = [] → private_dir store w →
  w_files w !! fs_Path store = Some f → f_regular f = true → f_perm f = 384 →
  0 < len (f_data f) <= maxStateBytes → decodeStrict (f_data f) = Ok state →
  validate state true = Ok tt → Load store w = (Ret (Some state), w).
Proof.
  intros Hpath Hq (d & Hd & Hperm) Hf Hreg Hfp Hlen Hdec Hval.
  assert (Hstat : os_Stat (filepath_Dir (fs_Path store)) w = (Ret (Some d), w))
    by (apply syscall_quiet; [done|by rewrite Hd]).
  assert (Hopen : os_Open (fs_Path store) w = (Ret (FileHandle f), w))
    by (apply syscall_quiet; [done|by rewrite Hf]).
  assert (Hread : file_ReadAll (FileHandle f) (maxStateBytes + 1) w = (Ret (f_data f), w)).
  { apply syscall_quiet; [done|]. rewrite str_take_all; [done|]. unfold len in Hlen. lia. }
  assert (Hfs : file_Stat (FileHandle f) w = (Ret (handle_info (FileHandle f)), w)) by by apply syscall_quiet.
  unfold Load, checkDirectory, missing_ok, io_wrap, on_error, io_of, mbind, io_bind.
  rewrite (bool_decide_eq_false_2 (fs_Path store = "")) by done. simpl.
  rewrite Hstat. simpl. rewrite Hperm. simpl. rewrite Hopen. simpl. rewrite Hfs. simpl. rewrite Hreg, Hfp. simpl.
  rewrite Hread.
  rewrite (proj2 (fail_if_Ok _ _ tt)) by lia. rewrite Hdec. simpl. by rewrite Hval.
Qed.

(** A call that only looks. *)
Lemma wp_look {A} (effect : World → result A) w0 w (R : A → World → Prop) :
  same_files w0 w ∧ honest w →
  (∀ a w', same_files w0 w' ∧ honest w' → effect w' = Ok a → R a w') →
  wp (syscall (λ w, (effect w, w)) no_effect) R (λ w, same_files w0 w ∧ honest w) w.
Proof.
  intros Hw HR. apply wp_call; [apply honest_free|done|].
  intros w' Hw'. destruct (effect w') eqn:E; [by apply HR|done].
Qed.

Lemma wp_missing_ok {A} (m : io A) (R : option A → World → Prop) E w :
  wp m (λ a, R (Some a)) (λ w, R None w ∧ E w) w → wp (missing_ok m) R E w.
Proof.
  unfold wp, missing_ok. destruct (m w) as [[a|e|] w']; [done| |by intros []].
  intros [? ?]. by destruct (errors_Is e ErrNotExist).
Qed.

(** What is found at a path. *)
Definition opened_as (w : World) (path : string) : option Handle :=
  match w_files w !! path, w_dirs w !! path with
  | Some f, _ => Some (FileHandle f)
  | None, Some d => Some (DirHandle d)
  | None, None => None
  end.

(** Opening tolerates a missing file only. *)
Lemma wp_open_missing w0 w c path :
  same_files w0 w ∧ honest w →
  wp (missing_ok (io_wrap c (os_Open path)))
    (λ o w, (same_files w0 w ∧ honest w) ∧ o = opened_as w0 path)
    (λ w, same_files w0 w ∧ honest w) w.
Proof.
  intros Hw. pose proof (honest_free w0) as Hfree.
  assert (∀ w, same_files w0 w → opened_as w0 path = opened_as w path) as Hsame.
  { intros w' (E1 & E2 & _). unfold opened_as. by rewrite E1, E2. }
  unfold wp, missing_ok, io_wrap, on_error, os_Open, syscall.
  destruct (w_outcomes w) as [|x o] eqn:Eo.
  - rewrite (Hsame w) by apply Hw. unfold opened_as.
    by destruct (w_files w !! path), (w_dirs w !! path).
  - pose proof (Hfree w x o Eo Hw) as Hw'. rewrite (Hsame w) by apply Hw. unfold opened_as.
    destruct x as [|n e|]; simpl; [|destruct Hw as [_ Hh]|done].
    + by destruct (w_files w !! path), (w_dirs w !! path).
    + unfold honest in Hh. rewrite Eo in Hh. apply Forall_cons in Hh as [Hh%negb_true_iff _].
      by rewrite Hh.
Qed.

(** What [Load] returns, whatever fails: nothing only if there is no file, and a
    state only if the file decodes to it and it is valid.  It changes nothing. *)
Lemma Load_spec store w : honest w →
  wp (Load store) (λ r w', (same_files w w' ∧ honest w') ∧
      match r with
      | None => w_files w !! fs_Path store = None ∧ w_dirs w !! fs_Path store = None
      | Some state => ∃ f, w_files w !! fs_Path store = Some f ∧ validate state true = Ok tt ∧
          decodeStrict (f_data f) = Ok state
      end) (λ w', same_files w w' ∧ honest w') w.
Proof.
  intros Hh. assert (Hw : same_files w w ∧ honest w) by done. unfold Load.
  apply wp_bind, wp_io_of; [intros _ _|done].
  apply wp_bind.
  apply (wp_mono _ (λ _ w', same_files w w' ∧ honest w') _ (λ w', same_files w w' ∧ honest w'));
    [|clear Hw Hh|done].
  { apply wp_missing_ok. apply (wp_mono _ (λ _ w', same_files w w' ∧ honest w') _
      (λ w', same_files w w' ∧ honest w')); [|done|done].
    apply wp_bind, wp_io_wrap, wp_look; [done|]. intros [d|] w' Hw' _; [|done].
    apply wp_io_of; [by intros [] _|done]. }
  intros _ w1 Hw1. apply wp_bind. eapply wp_mono; [by apply wp_open_missing| |done].
  intros o w2 [Hw2 Ho]. unfold opened_as in Ho. destruct o as [h|].
  2:{ apply wp_ret. split; [done|]. by destruct (w_files w !! _), (w_dirs w !! _). }
  apply wp_bind, wp_io_wrap, wp_look; [done|]. intros info w3 Hw3 [= <-].
  apply wp_bind, wp_io_of; [intros [] Hreg%fail_if_Ok|done].
  destruct (w_files w !! fs_Path store) as [f|] eqn:Hf; [injection Ho as ->|by destruct (w_dirs w !! _); simplify_eq].
  apply wp_bind, wp_io_of; [intros _ _|done].
  apply wp_bind, wp_io_wrap, wp_look; [done|]. intros data w4 Hw4 [= <-].
  apply wp_bind, wp_io_of; [intros [] Hsz%fail_if_Ok|done].
  apply wp_bind, wp_io_of; [intros state Hdec%wrap_Ok|done].
  apply wp_bind, wp_io_of; [intros [] Hval|done].
  split; [done|]. exists f. split_and!; [done..|].
  rewrite str_take_all in Hdec; [done|]. unfold len in Hsz. rewrite str_take_length in Hsz.
  apply orb_false_iff in Hsz as [Hs0%Z.eqb_neq Hs1]. rewrite Z.gtb_ltb in Hs1.
  apply Z.ltb_ge in Hs1. lia.
Qed.

End load.

(** ** What saving and loading leave alone *)

Lemma checkDirectory_keeps d (P : World → Prop) : outcome_free P → keeps P (checkDirectory d).
Proof.
  intros Hf. apply keeps_bind; [eauto with io_keeps|]. intros [i|]; auto with io_keeps.
Qed.
#[export] Hint Resolve mkdir_keeps checkDirectory_keeps : io_keeps.

Lemma Save_blind (P : World → Prop) store state : blind P → keeps P (Save store state).
Proof.
  intros HP. assert (∀ name, keeps P (match encodeState state with
    | Some data => file_Write name data | None => throw (NewError "year outside of range [0,9999]") end)).
  { intros name. destruct (encodeState state); auto with io_keeps. }
  unfold Save. cbv zeta. repeat (apply keeps_bind; [solve [auto 6 with io_keeps]|intros ?]). auto with io_keeps.
Qed.

Lemma missing_ok_keeps {A} (P : World → Prop) (m : io A) : keeps P m → keeps P (missing_ok m).
Proof.
  intros Hm w Hw. specialize (Hm w Hw). unfold wp, missing_ok in *. destruct (m w) as [[a|e|] w']; try done.
  by destruct (errors_Is e ErrNotExist).
Qed.

#[export] Hint Resolve Save_blind missing_ok_keeps : io_keeps.

Lemma Load_keeps `{JsonSyntax} `{JsonDecode State} (P : World → Prop) store :
  outcome_free P → keeps P (Load store).
Proof.
  intros Hf. unfold Load. repeat (apply keeps_bind; [solve [auto with io_keeps]|intros ?]).
  case_match; auto 12 with io_keeps.
Qed.

(** ** Properties *)

Section claims.
Context `{JsonSyntax} `{JsonDecode State}.

(** C14: saving is atomic: whatever call of [Save] fails and wherever the machine stops
    in it, a loss of power leaves at the path one of the files that could be found there
    before the call, or the complete new file, never a partial one. *)
Theorem save_is_atomic store state w w1 w2 r :
  not_temporary store → Save store state w = (r, w1) → power_loss w1 w2 →
  is_Some (w_dirs w2 !! filepath_Dir (fs_Path store)) →
  ∃ o, survives o (w_files w2 !! fs_Path store) ∧
    (o ∈ possible w (fs_Path store) ∨
     ∃ data, encodeState state = Some data ∧ o = Some (stateFile data)).
Proof.
  intros Hnt HS HP Hdir. destruct (pl_files _ _ HP _ Hdir) as (o & Ho & Hsv).
  exists o. split; [done|].
  pose proof (Save_spec store state w Hnt) as Hsp. unfold wp in Hsp. rewrite HS in Hsp.
  assert (interrupted store state w w1 ∨ saved store state w w1) as [[[_ Hp]|Hr]|Hs]
    by (destruct r; auto).
  - left. by rewrite <- Hp.
  - destruct Hr as (data & _ & He & _ & Hp). rewrite Hp in Ho.
    apply elem_of_cons in Ho as [->|Ho]; eauto.
  - destruct Hs as (data & _ & He & _ & _ & Hp). rewrite Hp in Ho.
    apply list_elem_of_singleton in Ho as ->. eauto.
Qed.

(** [Load] never invents state: it reports "no state" only if there is no file, and
    a state only if the file decodes to it and the state passes [validate]; whatever
    fails, it changes nothing on disk. *)
Theorem load_is_faithful store w r w' :
  honest w → Load store w = (Ret r, w') →
  same_files w w' ∧
  match r with
  | None => w_files w !! fs_Path store = None ∧ w_dirs w !! fs_Path store = None
  | Some state => validate state true = Ok tt ∧
      ∃ f, w_files w !! fs_Path store = Some f ∧ decodeStrict (f_data f) = Ok state
  end.
Proof.
  intros Hh HL. pose proof (Load_spec store w Hh) as Hsp. unfold wp in Hsp. rewrite HL in Hsp.
  destruct Hsp as [[Hs _] Hr]. split; [done|]. destruct r as [s|]; [|done].
  destruct Hr as (f & Hf & Hv & Hd). eauto.
Qed.

End claims.

(** ** Examples *)

Definition toy_digest : string := digest "policy".
Definition toy_state : State :=
  mkState (digest "key") 1 1 toy_digest 7 3 (digest "catalog") (unix_epoch + 1700000000 * Second).
Definition toy_store : FileStore := mkFileStore "/var/lib/issuer/state.json".
Definition toy_State_decode (states : list State) : JsonDecode State := λ s,
  match list_find (λ x, encodeState x = Some s) states with
  | Some (_, x) => Ok (x, "")
  | None => Err (NewError "unknown state")
  end.
Definition toy_eof : JsonSyntax := λ s, if bool_decide (s = "") then None else Some (Ok tt).

(** A world with the directory on disk and no state file. *)
Definition toy_world (o : list outcome) : World :=
  mkWorld {["/var/lib/issuer" := mkDir 448 true]} ∅ ∅ ∅ o.
Definition toy_after (o : list outcome) : World := (Save toy_store toy_state (toy_world o)).2.
(** After power was lost: the bindings that were current, nothing pending. *)
Definition toy_reboot (w : World) : World := mkWorld (w_dirs w) (settle <$> w_files w) ∅ ∅ [].

(** The rename is done but syncing the directory fails. *)
Definition toy_faults : list outcome := replicate 9 Done ++ [Fault 0 (NewError "EIO")].

Lemma save_is_atomic_witness :
  ∃ o, survives o (w_files (toy_reboot (toy_after toy_faults)) !! fs_Path toy_store) ∧
    (o ∈ possible (toy_world toy_faults) (fs_Path toy_store) ∨
     ∃ data, encodeState toy_state = Some data ∧ o = Some (stateFile data)).
Proof.
  apply (save_is_atomic toy_store toy_state (toy_world toy_faults) (toy_after toy_faults) _
    (Throw (Wrap "sync issuer state directory" (NewError "EIO")))).
  3: apply power_loss_settled; by_compute.
  3: by_compute.
  all: vm_compute; reflexivity || discriminate.
Defined.

Lemma load_is_faithful_witness :
  same_files (toy_world []) (toy_world []) ∧
  w_files (toy_world []) !! fs_Path toy_store = None ∧ w_dirs (toy_world []) !! fs_Path toy_store = None.
Proof.
  apply (@load_is_faithful toy_eof (toy_State_decode []) toy_store (toy_world []) None); [|done].
  by_compute.
Defined.

(** ** A gap in the durability of the first save *)

(** [Save] creates the state directory but never syncs its parent: starting without
    the directory, a state reported as saved can be gone after a loss of power. *)
Lemma first_save_may_vanish : ∃ w w1 w2,
  Save toy_store toy_state w = (Ret tt, w1) ∧ power_loss w1 w2 ∧
  ∀ syntax decode, @Load syntax decode toy_store w2 = (Ret None, w2).
Proof.
  set (w := mkWorld ∅ ∅ ∅ ∅ []).
  assert (Hd : w_dirs (Save toy_store toy_state w).2 = list_to_map
    [("/var/lib/issuer", mkDir 448 false); ("/var/lib", mkDir 448 false); ("/var", mkDir 448 false)])
    by (vm_compute; reflexivity).
  assert (Hf : w_files (Save toy_store toy_state w).2 =
    {[fs_Path toy_store := stateFile (default "" (encodeState toy_state))]})
    by (vm_compute; reflexivity).
  assert (Hr : (Save toy_store toy_state w).1 = Ret tt) by (vm_compute; reflexivity).
  destruct (Save toy_store toy_state w) as [r w1] eqn:E. cbn [fst snd] in *. subst r.
  exists w, w1, w. split_and!; [done| |done].
  apply power_loss_vanish; rewrite Hd; [by_compute|].
  intros name [f Hname]. rewrite Hf, lookup_singleton_Some in Hname. destruct Hname as [<- _]. by_compute.
Qed.
