(* ===== verification/Catalog.v ===== *)
(** * The catalog file ([internal/catalog/file.go])

    [LoadFile] reads the operator's catalog with a size limit and strict decoding.  The
    issuer takes its loader as a parameter, so the file also states what a loader
    promises ([CatalogLoader]), and shows that [LoadFile] keeps the promise. *)

From S2P Require Import Prelude GoRegexp GoBase64 GoStrings GoNet GoJson GoOs Ed25519 KeyPolicy Manifest Issuance.

Definition maxCatalogBytes : Z := Z.shiftl 1 20.
#[global] Opaque maxCatalogBytes.

Section load.
Context `{JsonSyntax} `{JsonDecode Catalog}.

(** Decoding one value and [ensureEOF]. *)
Definition decodeCatalog (data : string) : result Catalog :=
  '(catalog, rest) ← wrap "decode catalog" (json_Decode data);
  match json_Next rest with
  | None => Ok catalog
  | Some (Err e) => Err (Wrap "decode trailing catalog data" e)
  | Some (Ok _) => Err (NewError "catalog contains multiple JSON values")
  end.

Definition LoadFile (path : string) : io Catalog :=
  file ← io_wrap "open catalog" (os_Open path);
  data ← io_wrap "read catalog" (file_ReadAll file (maxCatalogBytes + 1));
  io_of (fail_if (len data >? maxCatalogBytes) (NewError "catalog exceeds 1 MiB"));;
  io_of (decodeCatalog data).

End load.

(** What the issuer relies on: loading only looks. *)
Class CatalogLoader (load : string → io Catalog) : Prop := {
  loader_looks path w : keeps (λ w', same_files w w' ∧ honest w') (load path);
  loader_blind P path : blind P → keeps P (load path)
}.

#[global] Instance LoadFile_loader `{JsonSyntax} `{JsonDecode Catalog} : CatalogLoader LoadFile.
Proof.
  split.
  - intros path w. pose proof (honest_free w). unfold LoadFile. auto 8 with io_keeps.
  - intros P path HP. unfold LoadFile. auto 8 with io_keeps.
Qed.
