(* ===== verification/ProcessLock.v ===== *)
(** * The process lock ([internal/issuance/lock_linux.go])

    One issuer at a time works on a state path: [AcquireProcessLock] takes an exclusive
    [flock] on a private file beside it.  [Locker] is the interface the issuer is
    written against (its [processLocker] and [lockAcquirer]); what it promises is that
    locking leaves the state file alone, that a lock is taken only when it is free, and that
    closing releases it.

    A [flock] belongs to the file that is open; here it is kept under the name of the file,
    which is the same as long as nobody removes or replaces the lock file of a running
    process.  The program never does. *)

From S2P Require Import Prelude GoRegexp GoStrings GoJson GoOs Issuance.

(** The lock file of a state path: [filepath.Base(statePath)+".lock"], opened relative to the
    directory of the state; a name that begins with a separator would be absolute. *)
Definition lockName (statePath : string) : string :=
  let name := filepath_Base statePath +:+ ".lock" in
  if HasPrefix name "/" then name
  else if bool_decide (filepath_Dir statePath = "/") then "/" +:+ name
  else filepath_Dir statePath +:+ "/" +:+ name.

(** Everything [AcquireProcessLock] does before it takes the lock. *)
Definition open_lock (statePath : string) : io unit :=
  io_of (fail_if (bool_decide (statePath = "")) (NewError "issuer state path is required"));;
  let directory := filepath_Dir statePath in
  io_wrap "create issuer state directory" (os_MkdirAll directory 448);;
  checkDirectory directory;;
  io_wrap "open issuer state directory" (dir_Open directory);;
  io_wrap "open issuer state directory handle" (dir_Open directory);;
  file ← io_wrap "open issuer process lock" (os_Openat (lockName statePath) 384);
  info ← on_error (file_Stat file) (ignore file_Close) (Wrap "stat issuer process lock");
  on_error (io_of (fail_if (negb (fi_regular info) || negb (Z.land (fi_perm info) 63 =? 0))
      (NewError "issuer process lock must be a private regular file")))
    (ignore file_Close) id.

(** [AcquireProcessLock]; the handle is the name of the locked file. *)
Definition AcquireProcessLock (statePath : string) : io string :=
  open_lock statePath;;
  on_error (flock_EX_NB (lockName statePath)) (ignore file_Close)
    (Wrap "lock issuer state (another issuer may be active)");;
  mret (lockName statePath).

(** [ProcessLock.Close]; [None] is a lock whose file is [nil]. *)
Definition ProcessLock_Close (lock : option string) : io (option string) :=
  match lock with
  | None => mret None
  | Some name =>
      on_error (flock_UN name) (ignore (close_locked name)) (Wrap "unlock issuer state");;
      io_wrap "close issuer process lock" (close_locked name);;
      mret None
  end.

(** The host when the process that worked on a state path has ended: the kernel closed its
    descriptors, and with them released its lock. *)
Definition exited (statePath : string) (w : World) : World :=
  set_locks (w_locks w ∖ {[lockName statePath]}) w.

(** ** The interface of the issuer *)

(** The state file and the directories are left alone. *)
Definition leaves_state (path : string) (w w' : World) : Prop :=
  dirs_grow w w' ∧ possible w' path = possible w path.

(** [lock_file] is the file whose [flock] stands for the lock of a state path. *)
Class Locker := {
  acquireLock : string → io string;
  lock_Close : string → io unit;
  lock_file : string → string
}.

Class LockerLaws `{Locker} : Prop := {
  acquireLock_frame path w : keeps (leaves_state path w) (acquireLock path);
  acquireLock_honest path : keeps honest (acquireLock path);
  lock_Close_frame path lock w : keeps (leaves_state path w) (lock_Close lock);
  acquireLock_ends l path w : holds l w →
    ends (acquireLock path) (λ lock w', lock = lock_file path ∧ (lock ∉ l) ∧ holds ({[lock]} ∪ l) w') (holds l) w;
  lock_Close_ends l lock w : lock ∉ l → holds ({[lock]} ∪ l) w →
    ends (lock_Close lock) (λ _, holds l) (holds l) w
}.

#[global] Instance ProcessLocker : Locker := {|
  acquireLock := AcquireProcessLock;
  lock_Close name := ProcessLock_Close (Some name);; mret tt;
  lock_file := lockName
|}.

Lemma leaves_state_free path w0 : outcome_free (leaves_state path w0).
Proof. by intros ?. Qed.

Lemma lockName_ne p : lockName p ≠ p.
Proof.
  assert (∀ s, s ≠ s +:+ ".lock") as Hlong.
  { intros s E. apply (f_equal len) in E. rewrite len_app in E. unfold len at 3 in E. cbn in E. lia. }
  unfold lockName. destruct (Base_slash_free p) as [E|Hf].
  - rewrite E. change ("/.lock" ≠ p). intros Hp. rewrite <-Hp in E. done.
  - assert (slash_free (filepath_Base p +:+ ".lock") = true) as Hfl by (by rewrite slash_free_app, Hf).
    assert (filepath_Base p +:+ ".lock" ≠ "") as Hne.
    { intros E. apply (f_equal len) in E. rewrite len_app in E. pose proof (len_nonneg (filepath_Base p)).
      change (len ".lock") with 5 in E. change (len "") with 0 in E. lia. }
    destruct (HasPrefix _ "/") eqn:Hp.
    { apply HasPrefix_spec in Hp as [t Ht]. rewrite Ht in Hfl. done. }
    intros E. apply (Hlong (filepath_Base p)). rewrite <-E at 1.
    case_bool_decide; [apply (Base_app "")|apply Base_app]; done.
Qed.

Lemma openat_keeps name perm (P : World → Prop) :
  outcome_free P → (∀ w f, P w → P (bind_name name f w)) → keeps P (os_Openat name perm).
Proof.
  intros Hf Hb. apply keeps_syscall; [done| |done]. intros w Hw.
  destruct (w_files w !! name), (w_dirs w !! name); try done. by apply Hb.
Qed.

#[export] Hint Resolve openat_keeps : io_keeps.


Lemma open_lock_keeps path (P : World → Prop) :
  outcome_free P →
  (∀ w l, P w → (∀ d, d ∈ l → w_dirs w !! d = None) → P (add_dirs l 448 w)) →
  (∀ w f, P w → P (bind_name (lockName path) f w)) →
  keeps P (open_lock path).
Proof.
  intros Hf Hd Hb. unfold open_lock.
  repeat (apply keeps_bind; [auto with io_keeps|intros ?]); auto 6 with io_keeps.
Qed.

Lemma leaves_refl path w : leaves_state path w w.
Proof. split; [by intros ?|done]. Qed.

Lemma leaves_mkdir path w0 w l perm :
  leaves_state path w0 w → (∀ d, d ∈ l → w_dirs w !! d = None) → leaves_state path w0 (add_dirs l perm w).
Proof.
  intros (Hd & Hp) Hn. split; [|done]. intros d i Hi%Hd. rewrite lookup_add_dirs, decide_False; [done|].
  intros Hin%Hn. congruence.
Qed.

Lemma leaves_bind path w0 w name f :
  name ≠ path → leaves_state path w0 w → leaves_state path w0 (bind_name name f w).
Proof. intros Hne (Hd & Hp). split; [done|]. by rewrite possible_bind_ne. Qed.

Lemma leaves_locks path w0 w l : leaves_state path w0 w → leaves_state path w0 (set_locks l w).
Proof. by intros (Hd & Hp). Qed.

Lemma leaves_exited path w : leaves_state path w (exited path w).
Proof. apply leaves_locks, leaves_refl. Qed.

(** What opening and locking the file keep. *)
Lemma AcquireProcessLock_keeps path (P : World → Prop) :
  keeps P (open_lock path) → outcome_free P → (∀ w l, P w → P (set_locks l w)) →
  keeps P (AcquireProcessLock path).
Proof.
  intros Ho Hf Hl. apply keeps_bind; [done|intros _; apply keeps_bind; [|auto with io_keeps]].
  apply keeps_on_error; [|auto with io_keeps].
  apply keeps_syscall; [done| |done]. intros w' Hw'. destruct (bool_decide _); cbn; auto.
Qed.

(** Taking and releasing the lock. *)
Lemma AcquireProcessLock_ends l path w : holds l w →
  ends (acquireLock path) (λ lock w', lock = lockName path ∧ (lock ∉ l) ∧ holds ({[lock]} ∪ l) w') (holds l) w.
Proof.
  intros Hw. apply ends_wp. unfold acquireLock, ProcessLocker, AcquireProcessLock. apply wp_bind.
  eapply wp_mono; [apply (open_lock_keeps path (holds l)); [apply holds_free|done|done|done]| |done].
  intros [] w1 Hw1. apply wp_bind, wp_on_error.
  - apply wp_call; [apply holds_free|done|]. intros w2 Hw2. unfold holds in Hw2. rewrite Hw2.
    case_bool_decide; [done|]. by apply wp_ret.
  - apply keeps_ignore, file_Close_keeps, holds_free.
Qed.

Lemma ProcessLock_Close_ends l name w : name ∉ l → holds ({[name]} ∪ l) w →
  ends (lock_Close name) (λ _, holds l) (holds l) w.
Proof.
  intros Hl Hw. unfold holds in Hw.
  assert (∀ l', l' = {[name]} ∪ l ∨ l' = l → l' ∖ {[name]} = l) as Hd by set_solver.
  assert (∀ w, w_locks w = {[name]} ∪ l ∨ w_locks w = l → ends (close_locked name) (λ _, holds l) (holds l) w) as Hc.
  { intros w1 Hw1. unfold ends, close_locked, syscall, holds.
    destruct (w_outcomes w1) as [|[|n e|] o]; cbn; try apply Hd; done. }
  unfold lock_Close, ProcessLocker, ProcessLock_Close. apply ends_bind, ends_bind.
  apply (ends_on_error _ _ _ _ (λ w', w_locks w' = {[name]} ∪ l ∨ w_locks w' = l)).
  - unfold ends, flock_UN, syscall. destruct (w_outcomes w) as [|[|n e|] o]; cbn; [| |by left|done];
      rewrite Hw, Hd by (by left); apply ends_bind, (ends_on_error _ _ _ _ (holds l)); try done;
      apply Hc; by right.
  - intros w' Hw'. apply ends_ignore. by apply Hc.
Qed.

#[global] Instance ProcessLocker_laws : LockerLaws.
Proof.
  split; [intros path..|apply AcquireProcessLock_ends|apply ProcessLock_Close_ends].
  - intros w. apply AcquireProcessLock_keeps; [|apply leaves_state_free|auto using leaves_locks].
    apply open_lock_keeps; [apply leaves_state_free|auto using leaves_mkdir|].
    intros w' f Hw'. apply leaves_bind; [apply lockName_ne|done].
  - apply AcquireProcessLock_keeps; [|apply honest_outcome_free|done].
    by apply open_lock_keeps; [apply honest_outcome_free|..].
  - intros lock w. pose proof (leaves_state_free path w) as Hf.
    assert (keeps (leaves_state path w) (flock_UN lock))
      by (apply keeps_syscall; auto using leaves_locks).
    assert (keeps (leaves_state path w) (close_locked lock))
      by (apply keeps_syscall; auto using leaves_locks).
    unfold lock_Close, ProcessLocker, ProcessLock_Close. auto 8 with io_keeps.
Qed.

(** ** Exclusion *)

(** While the lock file is locked no attempt to acquire it returns. *)
Lemma acquire_blocked path w :
  lockName path ∈ w_locks w →
  wp (AcquireProcessLock path) (λ _ _, False) (λ w, lockName path ∈ w_locks w) w.
Proof.
  intros Hw. set (P w := lockName path ∈ w_locks w).
  apply wp_bind, (wp_mono _ (λ _, P) _ P); [|intros [] w1 Hw1|done].
  { apply (open_lock_keeps path P); [by intros ?|by intros ?|by intros ?|done]. }
  apply wp_bind, wp_on_error.
  - apply wp_call; [by intros ?|done|]. intros w' Hw'. by rewrite bool_decide_eq_true_2.
  - apply keeps_ignore, file_Close_keeps. by intros ?.
Qed.

(** Closing releases the lock, also when it reports an error. *)
Lemma close_releases name w :
  match lock_Close name w with
  | (Halt, _) => True
  | (_, w') => name ∉ w_locks w'
  end.
Proof.
  assert (Hcl : ∀ w, match close_locked name w with (Halt, _) => True | (_, w') => name ∉ w_locks w' end).
  { intros w'. unfold close_locked, syscall.
    destruct (w_outcomes w') as [|[|n e|] o]; cbn; [set_solver..|done]. }
  unfold lock_Close, ProcessLocker, ProcessLock_Close, io_wrap, on_error, ignore, mbind, io_bind.
  destruct (flock_UN name w) as [[[]|e|] w1]; [|specialize (Hcl w1)|done].
  - specialize (Hcl w1). by destruct (close_locked name w1) as [[[]|e|] w2].
  - by destruct (close_locked name w1) as [[[]|e'|] w2].
Qed.

(** C17: the process lock excludes: once [AcquireProcessLock] returned, the lock file was
    free before and is locked now, and no other acquisition for the same state path
    returns, whatever calls fail, until the holder closes the lock; closing always
    releases it. *)
Theorem process_lock_excludes path w h w' :
  AcquireProcessLock path w = (Ret h, w') →
  (h ∉ w_locks w) ∧ h ∈ w_locks w' ∧
  (∀ w2, w_locks w' ⊆ w_locks w2 → ∀ h2 w3, AcquireProcessLock path w2 ≠ (Ret h2, w3)) ∧
  ∀ w2 r w3, lock_Close h w2 = (r, w3) → r ≠ Halt → h ∉ w_locks w3.
Proof.
  intros HA.
  assert (Hh : wp (AcquireProcessLock path) (λ h w', h = lockName path ∧ h ∈ w_locks w') (λ _, True) w).
  { apply wp_bind. apply (wp_mono _ (λ _ _, True) _ (λ _, True));
      [by apply (open_lock_keeps path (λ _, True))|intros [] w1 _|done].
    apply wp_bind, wp_on_error;
      [|intros w2 _; apply (keeps_ignore (λ _, True)); [by apply file_Close_keeps|done]].
    apply (wp_syscall _ _ _ _ (λ _, True)); try done.
    intros w2 _. case_bool_decide; [done|]. cbn. split; [done|set_solver]. }
  unfold wp in Hh. rewrite HA in Hh. destruct Hh as [-> Hin].
  split_and!; [|done| |].
  - intros Hb. pose proof (acquire_blocked path w Hb) as Hbl. unfold wp in Hbl. by rewrite HA in Hbl.
  - intros w2 Hsub h2 w3 HA2. pose proof (acquire_blocked path w2 ltac:(set_solver)) as Hbl.
    unfold wp in Hbl. by rewrite HA2 in Hbl.
  - intros w2 r w3 HC Hr. pose proof (close_releases (lockName path) w2) as Hcl.
    rewrite HC in Hcl. by destruct r.
Qed.

(** ** Examples *)

Lemma process_lock_excludes_witness :
  ∃ w', AcquireProcessLock "/var/lib/issuer/state.json" (toy_world []) =
      (Ret "/var/lib/issuer/state.json.lock", w') ∧
    ∀ h2 w3, AcquireProcessLock "/var/lib/issuer/state.json" w' ≠ (Ret h2, w3).
Proof.
  destruct (AcquireProcessLock "/var/lib/issuer/state.json" (toy_world [])) as [r w'] eqn:E.
  assert (r = Ret "/var/lib/issuer/state.json.lock") as -> by (vm_compute in E; congruence).
  exists w'. split; [done|].
  destruct (process_lock_excludes _ _ _ _ E) as (_ & _ & Hx & _). by apply Hx.
Defined.
