(* ===== verification/Issuer.v ===== *)
(** * The manifest issuer ([internal/service/issuer.go])

    [NewIssuer] checks the signing key against the durable state, [Issue] caches and
    refreshes, [refresh] persists the next state before it returns an envelope.  The
    issuer is modelled over the world of [GoOs], its lock ([Locker]) and its catalog
    loader ([CatalogLoader]).

    [step] composes issuers over time: any number of processes start on one state path, serve
    requests, stop or are killed, power is lost at any moment, the operator edits other files.
    Over every such history the lock lets one issuer work, and the published envelopes never
    equivocate. *)

From S2P Require Import Prelude GoRegexp GoBase64 GoSha256 GoStrings GoNet GoJson GoOs Ed25519.
From S2P Require Import KeyPolicy Manifest Envelope Issuance Catalog ProcessLock.

Record IssuerOptions := mkIssuerOptions {
  opt_CatalogPath : string;
  opt_StatePath : string;
  opt_TTL : duration;
  opt_CacheFor : duration;
  opt_PrivateKey : string;
  opt_RootKey : string;
  opt_KeyPolicy : KeyPolicy
}.

Record Issuer := mkIssuer {
  is_catalogPath : string;
  is_ttl : duration;
  is_cacheFor : duration;
  is_privateKey : string;
  is_keyID : string;
  is_keyEpoch : Z;
  is_rootKey : string;
  is_keyPolicy : KeyPolicy;
  is_policySHA : string;
  is_stateStore : FileStore;
  is_processLock : string;
  is_state : State;
  is_cached : Envelope;
  is_cacheUntil : time;
  is_validUntil : time;
  is_retryAt : time;
  is_lastError : option error;
  is_closed : bool
}.

Definition zero_Envelope : Envelope := mkEnvelope "" "" "" "".

(** The updates [Issue] makes. *)
Definition with_state (i : Issuer) (s : State) : Issuer :=
  mkIssuer (is_catalogPath i) (is_ttl i) (is_cacheFor i) (is_privateKey i) (is_keyID i)
    (is_keyEpoch i) (is_rootKey i) (is_keyPolicy i) (is_policySHA i) (is_stateStore i)
    (is_processLock i) s (is_cached i) (is_cacheUntil i) (is_validUntil i) (is_retryAt i)
    (is_lastError i) (is_closed i).
Definition with_cache (i : Issuer) (cached : Envelope) (cacheUntil validUntil retryAt : time)
    (lastError : option error) : Issuer :=
  mkIssuer (is_catalogPath i) (is_ttl i) (is_cacheFor i) (is_privateKey i) (is_keyID i)
    (is_keyEpoch i) (is_rootKey i) (is_keyPolicy i) (is_policySHA i) (is_stateStore i)
    (is_processLock i) (is_state i) cached cacheUntil validUntil retryAt lastError (is_closed i).
Definition with_closed (i : Issuer) : Issuer :=
  mkIssuer (is_catalogPath i) (is_ttl i) (is_cacheFor i) (is_privateKey i) (is_keyID i)
    (is_keyEpoch i) (is_rootKey i) (is_keyPolicy i) (is_policySHA i) (is_stateStore i)
    (is_processLock i) (is_state i) (is_cached i) (is_cacheUntil i) (is_validUntil i)
    (is_retryAt i) (is_lastError i) true.

Definition minDuration (left right : duration) : duration := if left <? right then left else right.
Definition minTime (left right : time) : time := if Before left right then left else right.

(** Runs [m] and hands its error to the caller as a value. *)
Definition io_try {A} (m : io A) : io (result A) := λ w,
  match m w with
  | (Ret a, w') => (Ret (Ok a), w')
  | (Throw e, w') => (Ret (Err e), w')
  | (Halt, w') => (Halt, w')
  end.

(** The checks of [NewIssuer] on the durations. *)
Definition checkDurations (ttl cacheFor : duration) : result unit :=
  fail_if ((ttl <? Minute) || (ttl >? Hour)) (NewError "issuer: TTL must be between 1m and 1h");;
  fail_if ((cacheFor <? Second) || (cacheFor >? ttl ÷ 2))
    (NewError "issuer: cache duration must be between 1s and half the manifest TTL").

(** The checks of [NewIssuer] on the durable state, once migrated. *)
Definition checkDurable (policy : KeyPolicy) (policyDigest : string) (state : State) : result unit :=
  fail_if (st_LastVersion state =? max_uint64) (NewError "issuer: manifest version space exhausted");;
  fail_if (kp_Version policy <? st_PolicyVersion state)
    (NewError "issuer: key policy version is older than durable policy");;
  fail_if ((kp_Version policy =? st_PolicyVersion state)
           && negb (bool_decide (policyDigest = st_PolicySHA256 state)))
    (NewError "issuer: key policy changed without increasing its version");;
  if kp_Version policy =? st_PolicyVersion state then
    match KeyPolicyGrant policy (st_KeyID state) (st_LastVersion state) with
    | Ok (previousGrant, _) =>
        fail_if (negb (kg_Epoch previousGrant =? st_KeyEpoch state))
          (NewError "issuer: durable signing state is inconsistent with the key policy")
    | Err _ => Err (NewError "issuer: durable signing state is inconsistent with the key policy")
    end
  else Ok tt.

(** The checks of [NewIssuer] on the grant of the current key. *)
Definition checkGrant (keyID : string) (grant : KeyGrant) (state : State) : result unit :=
  fail_if (bool_decide (keyID = st_KeyID state) && negb (kg_Epoch grant =? st_KeyEpoch state))
    (NewError "issuer: signing key epoch changed without changing the key");;
  fail_if (negb (bool_decide (keyID = st_KeyID state)) && (kg_Epoch grant <=? st_KeyEpoch state))
    (NewError "issuer: replacement signing key does not advance the durable epoch").

Section issuer.
Context `{Ed25519} `{JsonSyntax} `{JsonDecode State} `{Locker}.
Context (loadCatalog : string → io Catalog).

(** Gives a legacy state (written before key policies) the fields of the policy. *)
Definition migrate (store : FileStore) (policy : KeyPolicy) (policyDigest : string) (state : State)
    : io State :=
  if st_PolicyVersion state =? 0 then
    '(previousGrant, _) ← io_of (wrap "issuer: legacy state key is not authorized by the offline-root policy"
      (KeyPolicyGrant policy (st_KeyID state) (st_LastVersion state)));
    let state' := mkState (st_KeyID state) (kg_Epoch previousGrant) (kp_Version policy) policyDigest
      (st_LastVersion state) (st_CatalogRevision state) (st_CatalogSHA256 state) (st_LastIssuedAt state) in
    io_wrap "issuer: migrate legacy state to offline-root policy" (Save store state');;
    mret state'
  else mret state.

(** [NewIssuer] after the lock was taken; every error it returns closes the lock. *)
Definition openIssuer (options : IssuerOptions) (policyDigest : string) (lock : string) : io Issuer :=
  let store := mkFileStore (opt_StatePath options) in
  let policy := opt_KeyPolicy options in
  loaded ← Load store;
  let keyID := KeyID (Public (opt_PrivateKey options)) in
  state ← match loaded with
          | Some state => migrate store policy policyDigest state
          | None => mret zero_State
          end;
  nextVersion ← match loaded with
                | Some _ => io_of (checkDurable policy policyDigest state);;
                            mret (u64_add (st_LastVersion state) 1)
                | None => mret 1
                end;
  '(grant, _) ← io_of (wrap "issuer: current signing key is not authorized for the next version"
    (KeyPolicyGrant policy keyID nextVersion));
  io_of (match loaded with Some _ => checkGrant keyID grant state | None => Ok tt end);;
  mret (mkIssuer (opt_CatalogPath options) (opt_TTL options) (opt_CacheFor options)
    (opt_PrivateKey options) keyID (kg_Epoch grant) (opt_RootKey options) policy policyDigest
    store lock state zero_Envelope zero_time zero_time zero_time None false).

Definition NewIssuer (options : IssuerOptions) : io Issuer :=
  io_of (fail_if (negb (len (opt_PrivateKey options) =? PrivateKeySize))
    (NewError "issuer: invalid Ed25519 private key"));;
  policyDigest ← io_of (wrap "issuer: validate key policy"
    (ValidateKeyPolicy (opt_KeyPolicy options) (opt_RootKey options)));
  io_of (checkDurations (opt_TTL options) (opt_CacheFor options));;
  lock ← acquireLock (opt_StatePath options);
  on_error (openIssuer options policyDigest lock) (ignore (lock_Close lock)) id.

(** The checks of [refresh] against the state in memory. *)
Definition checkCatalog (i : Issuer) (catalog : Catalog) (catalogDigest : string) (now : time)
    : result unit :=
  if 0 <? st_LastVersion (is_state i) then
    fail_if (cat_Revision catalog <? st_CatalogRevision (is_state i))
      (NewError "issuer: catalog revision is older than durable revision");;
    fail_if ((cat_Revision catalog =? st_CatalogRevision (is_state i))
             && negb (bool_decide (catalogDigest = st_CatalogSHA256 (is_state i))))
      (NewError "issuer: catalog changed without increasing its revision");;
    fail_if (Before now (st_LastIssuedAt (is_state i)))
      (NewError "issuer: system clock moved behind the last issuance time");;
    fail_if (st_LastVersion (is_state i) =? max_uint64)
      (NewError "issuer: manifest version space exhausted")
  else Ok tt.

(** [refresh] up to the call of [Save]: the envelope and the state to persist. *)
Definition prepare (i : Issuer) (now : time) : io (Envelope * State) :=
  catalogDocument ← io_wrap "issuer: load manifest catalog" (loadCatalog (is_catalogPath i));
  catalogDigest ← io_of (wrap "issuer: validate manifest catalog" (CatalogDigest catalogDocument));
  io_of (checkCatalog i catalogDocument catalogDigest now);;
  let nextVersion := u64_add (st_LastVersion (is_state i)) 1 in
  envelope ← io_of (wrap "issuer: sign manifest"
    (Envelope.Issue catalogDocument nextVersion (is_keyPolicy i) (is_rootKey i) now (is_ttl i)
       (is_privateKey i)));
  mret (envelope, mkState (is_keyID i) (is_keyEpoch i) (kp_Version (is_keyPolicy i)) (is_policySHA i)
    nextVersion (cat_Revision catalogDocument) catalogDigest now).

Definition refresh (i : Issuer) (now : time) : io (Envelope * Issuer) :=
  '(envelope, nextState) ← prepare i now;
  io_wrap "issuer: persist monotonic state before publish" (Save (is_stateStore i) nextState);;
  mret (envelope, with_state i nextState).

(** [issuer.cached.Payload != "" && now.Before(until)]. *)
Definition cached_until (i : Issuer) (now until : time) : bool :=
  negb (bool_decide (env_Payload (is_cached i) = "")) && Before now until.

(** The second half of [Issue]: refresh, and remember the outcome. *)
Definition reissue (i : Issuer) (now : time) : io (result Envelope * Issuer) :=
  r ← io_try (refresh i now);
  mret (match r with
  | Err e =>
      let retryAt := time_Add now (minDuration (5 * Second) (is_cacheFor i)) in
      if cached_until i now (is_validUntil i) then
        (Ok (is_cached i), with_cache i (is_cached i) (minTime retryAt (is_validUntil i))
           (is_validUntil i) retryAt (Some e))
      else (Err e, with_cache i (is_cached i) (is_cacheUntil i) (is_validUntil i) retryAt (Some e))
  | Ok (envelope, i') =>
      (Ok envelope, with_cache i' envelope (time_Add now (is_cacheFor i)) (time_Add now (is_ttl i))
         zero_time None)
  end).

(** [Issue]: the result and the issuer after the call. *)
Definition Issue (i : Issuer) (clock : time) : io (result Envelope * Issuer) :=
  if is_closed i then mret (Err (NewError "issuer: closed"), i)
  else
    let now := Truncate clock Second in
    if (0 <? st_LastVersion (is_state i)) && Before now (st_LastIssuedAt (is_state i)) then
      mret (Err (NewError "issuer: system clock moved behind the last issuance time"), i)
    else if cached_until i now (is_cacheUntil i) then mret (Ok (is_cached i), i)
    else
      match is_lastError i with
      | Some e =>
          if Before now (is_retryAt i) then
            mret (if cached_until i now (is_validUntil i) then Ok (is_cached i) else Err e, i)
          else reissue i now
      | None => reissue i now
      end.

Definition Close (i : Issuer) : io (result unit * Issuer) :=
  if is_closed i then mret (Ok tt, i)
  else r ← io_try (lock_Close (is_processLock i)); mret (r, with_closed i).

End issuer.

(** ** Order of states *)

(** [t] may be published after [s]: the version is larger, no other counter decreased,
    and what is identified by an unchanged counter is unchanged. *)
Record newer (s t : State) : Prop := {
  nw_version : st_LastVersion s < st_LastVersion t;
  nw_issued : st_LastIssuedAt s <= st_LastIssuedAt t;
  nw_policy : st_PolicyVersion s <= st_PolicyVersion t;
  nw_policy_same : st_PolicyVersion s = st_PolicyVersion t → st_PolicySHA256 s = st_PolicySHA256 t;
  nw_epoch : st_KeyEpoch s <= st_KeyEpoch t;
  nw_key_same : st_KeyEpoch s = st_KeyEpoch t → st_KeyID s = st_KeyID t;
  nw_revision : st_CatalogRevision s <= st_CatalogRevision t;
  nw_catalog_same : st_CatalogRevision s = st_CatalogRevision t → st_CatalogSHA256 s = st_CatalogSHA256 t
}.

Lemma newer_trans s t u : newer s t → newer t u → newer s u.
Proof.
  intros [] []. split; try lia; intros.
  - etrans; [apply nw_policy_same0|apply nw_policy_same1]; lia.
  - etrans; [apply nw_key_same0|apply nw_key_same1]; lia.
  - etrans; [apply nw_catalog_same0|apply nw_catalog_same1]; lia.
Qed.

(** The key and policy of the running issuer succeed those of its state. *)
Definition key_ok (i : Issuer) : Prop := 0 < st_LastVersion (is_state i) →
  st_PolicyVersion (is_state i) <= kp_Version (is_keyPolicy i) ∧
  (st_PolicyVersion (is_state i) = kp_Version (is_keyPolicy i) →
    st_PolicySHA256 (is_state i) = is_policySHA i) ∧
  st_KeyEpoch (is_state i) <= is_keyEpoch i ∧
  (st_KeyEpoch (is_state i) = is_keyEpoch i → st_KeyID (is_state i) = is_keyID i).

Lemma checkDurable_inv policy dgst s :
  checkDurable policy dgst s = Ok tt →
  st_LastVersion s ≠ max_uint64 ∧ st_PolicyVersion s <= kp_Version policy ∧
  (st_PolicyVersion s = kp_Version policy → st_PolicySHA256 s = dgst).
Proof.
  unfold checkDurable. intros ([] & E1 & ([] & E2 & ([] & E3 & _)%mbind_Ok)%mbind_Ok)%mbind_Ok.
  apply fail_if_Ok in E1, E2, E3. split_and!; [lia|lia|].
  intros E. rewrite E, Z.eqb_refl in E3. simpl in E3. by inv_ok.
Qed.

Lemma checkGrant_inv keyID grant s :
  checkGrant keyID grant s = Ok tt →
  st_KeyEpoch s <= kg_Epoch grant ∧ (st_KeyEpoch s = kg_Epoch grant → st_KeyID s = keyID).
Proof.
  unfold checkGrant. intros ([] & E1%fail_if_Ok & E2%fail_if_Ok)%mbind_Ok.
  case_bool_decide; simpl in *; split; intros; try congruence; lia.
Qed.

Lemma checkCatalog_inv i catalog dgst now :
  checkCatalog i catalog dgst now = Ok tt → 0 < st_LastVersion (is_state i) →
  st_CatalogRevision (is_state i) <= cat_Revision catalog ∧
  (st_CatalogRevision (is_state i) = cat_Revision catalog → st_CatalogSHA256 (is_state i) = dgst) ∧
  st_LastIssuedAt (is_state i) <= now ∧ st_LastVersion (is_state i) ≠ max_uint64.
Proof.
  unfold checkCatalog, Before. intros Hc Hv. rewrite (proj2 (Z.ltb_lt _ _)) in Hc by done.
  revert Hc. intros ([] & E1 & ([] & E2 & ([] & E3 & E4)%mbind_Ok)%mbind_Ok)%mbind_Ok.
  apply fail_if_Ok in E1, E2, E3, E4. split_and!; [lia| |lia|lia].
  intros E. rewrite E, Z.eqb_refl in E2. simpl in E2. by inv_ok.
Qed.

(** ** What a refresh prepares *)

Section refresh.
Context `{Ed25519} `{JsonSyntax} `{JsonDecode State} `{Locker}.
Context (loadCatalog : string → io Catalog) `{!CatalogLoader loadCatalog}.

(** The state names the key and policy of the issuer. *)
Definition names_key (i : Issuer) (s : State) : Prop :=
  st_PolicyVersion s = kp_Version (is_keyPolicy i) ∧ st_PolicySHA256 s = is_policySHA i ∧
  st_KeyEpoch s = is_keyEpoch i ∧ st_KeyID s = is_keyID i.

Lemma Issue_version_pos catalog version policy root now ttl key e :
  Envelope.Issue catalog version policy root now ttl key = Ok e → version ≠ 0.
Proof. intros ([] & _ & ([] & E%fail_if_Ok & _)%mbind_Ok)%mbind_Ok. lia. Qed.

(** The envelope was signed for the version, time, policy and key of the state. *)
Definition signed_as (s : State) (e : Envelope) : Prop := ∃ catalog policy root ttl key,
  Envelope.Issue catalog (st_LastVersion s) policy root (st_LastIssuedAt s) ttl key = Ok e ∧
  kp_Version policy = st_PolicyVersion s ∧ KeyID (Public key) = st_KeyID s ∧
  cat_Revision catalog = st_CatalogRevision s ∧ CatalogDigest catalog = Ok (st_CatalogSHA256 s).

Lemma prepare_spec i now w :
  honest w → is_keyID i = KeyID (Public (is_privateKey i)) →
  is_u64 (st_LastVersion (is_state i)) → key_ok i →
  wp (prepare loadCatalog i now)
    (λ p w', same_files w w' ∧ is_u64 (st_LastVersion p.2) ∧ st_LastVersion p.2 ≠ 0 ∧
      names_key i p.2 ∧ signed_as p.2 p.1 ∧
      (0 < st_LastVersion (is_state i) → newer (is_state i) p.2))
    (λ w', same_files w w') w.
Proof.
  intros Hh Hid Hu Hk. unfold prepare.
  apply wp_bind, wp_io_wrap. eapply wp_mono; [apply (loader_looks (is_catalogPath i) w w)| |].
  { by split. }
  2: by intros w' [? _].
  intros catalog w1 [Hw1 _]. apply wp_bind, wp_io_of; [intros dgst Hd%wrap_Ok|done].
  apply wp_bind, wp_io_of; [intros [] Hc|done].
  apply wp_bind, wp_io_of; [intros e He%wrap_Ok|done].
  apply wp_ret. cbn [fst snd st_LastVersion].
  split_and!; [done|unfold u64_add, is_u64 in *; divlia|by eapply Issue_version_pos|done| |].
  - eexists catalog, _, _, _, _. split_and!; done.
  - intros Hv. destruct (checkCatalog_inv _ _ _ _ Hc Hv) as (? & ? & ? & ?).
    destruct (Hk Hv) as (? & ? & ? & ?).
    split; cbn; try done. unfold u64_add, is_u64, max_uint64 in *. divlia.
Qed.

End refresh.

(** ** The lock *)

Lemma io_try_keeps {A} (P : World → Prop) (m : io A) : keeps P m → keeps P (io_try m).
Proof.
  intros Hm w Hw. specialize (Hm w Hw). unfold wp, io_try in *. by destruct (m w) as [[a|e|] w'].
Qed.
#[export] Hint Resolve io_try_keeps : io_keeps.

Section locking.
Context `{Ed25519} `{JsonSyntax} `{JsonDecode State} `{LockerLaws}.
Context (loadCatalog : string → io Catalog).

Lemma openIssuer_blind P options policyDigest lock : blind P → keeps P (openIssuer options policyDigest lock).
Proof.
  intros HP. unfold openIssuer, migrate. apply keeps_bind; [by apply Load_keeps, bl_free|]. intros loaded.
  apply keeps_bind; [destruct loaded as [state|]; [destruct (_ =? 0)|]; auto with io_keeps|intros state].
  - apply keeps_bind; [auto with io_keeps|intros [g raw]]. auto with io_keeps.
  - apply keeps_bind; [destruct loaded; auto with io_keeps|intros nextVersion].
    apply keeps_bind; [auto with io_keeps|intros [g raw]]. auto with io_keeps.
Qed.

Lemma openIssuer_lock options policyDigest lock w :
  wp (openIssuer options policyDigest lock) (λ i _, is_processLock i = lock ∧ is_closed i = false) (λ _, True) w.
Proof.
  unfold openIssuer. cbv zeta.
  do 3 (apply wp_bind; eapply wp_mono; [apply wp_any| |done]; intros ? ? _).
  apply wp_bind. eapply wp_mono; [apply wp_any| |done]. intros [grant raw] ? _.
  apply wp_bind. eapply wp_mono; [apply wp_any| |done]. intros ? ? _. by apply wp_ret.
Qed.

Lemma NewIssuer_ends l options w : holds l w →
  ends (NewIssuer options)
    (λ i w', let lock := lock_file (opt_StatePath options) in
       is_processLock i = lock ∧ is_closed i = false ∧ (lock ∉ l) ∧ holds ({[lock]} ∪ l) w')
    (holds l) w.
Proof.
  intros Hw. unfold NewIssuer.
  assert (∀ A B (r : result A) (f : A → io B) R, (∀ a, ends (f a) R (holds l) w) →
    ends (io_of r ≫= f) R (holds l) w) as Hof.
  { intros A B r f R Hf. apply ends_bind. unfold ends at 1, io_of. destruct r; [apply Hf|done]. }
  do 3 (apply Hof; intros ?). apply ends_bind. eapply ends_mono; [by apply (acquireLock_ends l)| |done].
  intros lock w1 (-> & Hl & Hw1). apply (ends_on_error _ _ _ _ (holds ({[lock_file (opt_StatePath options)]} ∪ l))).
  - apply ends_wp. eapply wp_mono;
      [apply wp_and; [apply openIssuer_lock|by apply (openIssuer_blind (holds ({[lock_file (opt_StatePath options)]} ∪ l))), Hw1; apply holds_blind]|..].
    + intros i w2 [[-> ->] Hw2]. done.
    + by intros w2 [_ Hw2].
  - intros w' Hw'. apply ends_ignore. by apply lock_Close_ends.
Qed.

Lemma refresh_time i now w :
  wp (refresh loadCatalog i now)
    (λ p _, p.2 = with_state i (is_state p.2) ∧ st_LastIssuedAt (is_state p.2) = now ∧
       0 < st_LastVersion (is_state p.2)) (λ _, True) w.
Proof.
  unfold refresh, prepare. apply wp_bind, wp_bind.
  eapply wp_mono; [apply wp_any| |done]. intros catalog w1 _.
  apply wp_bind, wp_io_of; [intros dgst _|done]. apply wp_bind, wp_io_of; [intros [] _|done].
  apply wp_bind, wp_io_of; [intros e He%wrap_Ok%Issue_version_pos|done]. apply wp_ret.
  apply wp_bind. eapply wp_mono; [apply wp_any| |done]. intros [] w2 _. apply wp_ret. cbn.
  split_and!; [done..|]. unfold u64_add in *. pose proof (Z.mod_pos_bound (st_LastVersion (is_state i) + 1) (2 ^ 64)).
  lia.
Qed.

(** [Issue] returns its errors as values. *)
Lemma Issue_handle i clock w :
  ends (Issue loadCatalog i clock)
    (λ p _, is_processLock p.2 = is_processLock i ∧ is_closed p.2 = is_closed i) (λ _, False) w.
Proof.
  assert (∀ now, ends (reissue loadCatalog i now)
    (λ p _, is_processLock p.2 = is_processLock i ∧ is_closed p.2 = is_closed i) (λ _, False) w) as Hr.
  { intros now. unfold reissue. apply ends_bind. unfold io_try.
    pose proof (refresh_time i now w) as Ht. unfold wp, ends in *.
    destruct (refresh loadCatalog i now w) as [[[e i']|e|] w']; [|cbn; by case_match|done].
    destruct Ht as (Hi & _). cbn [fst snd] in *. rewrite Hi. done. }
  unfold Issue. destruct (is_closed i) eqn:Hc; [by unfold ends; cbn; rewrite Hc|]. cbv zeta.
  repeat case_match; try apply Hr; unfold ends; cbn; by rewrite ?Hc.
Qed.

Context `{!CatalogLoader loadCatalog}.

Lemma prepare_blind P i now : blind P → keeps P (prepare loadCatalog i now).
Proof. intros HP. unfold prepare. pose proof (loader_blind P). auto 12 with io_keeps. Qed.

Lemma refresh_blind P i now : blind P → keeps P (refresh loadCatalog i now).
Proof.
  intros HP. unfold refresh. apply keeps_bind; [by apply prepare_blind|]. intros [e st]. auto with io_keeps.
Qed.

Lemma Issue_blind P i clock : blind P → keeps P (Issue loadCatalog i clock).
Proof.
  intros HP. assert (∀ now, keeps P (reissue loadCatalog i now)) as Hr.
  { intros now. unfold reissue. pose proof (refresh_blind P). auto with io_keeps. }
  unfold Issue. destruct (is_closed i); [auto with io_keeps|]. cbv zeta.
  repeat case_match; auto with io_keeps.
Qed.

(** A closed issuer does nothing. *)
Lemma Issue_closed i clock w : is_closed i = true →
  Issue loadCatalog i clock w = (Ret (Err (NewError "issuer: closed"), i), w).
Proof. unfold Issue. by intros ->. Qed.

End locking.

(** ** Histories *)

(** The issuer of one process. *)
Record Sys := mkSys {
  sys_world : World;
  sys_issuer : option Issuer;
  sys_log : list (State * Envelope)   (** every envelope handed out, with its state *)
}.

(** A host with the issuers of all its processes. *)
Record Host := mkHost {
  ho_world : World;
  ho_processes : list Issuer;
  ho_log : list (State * Envelope)
}.

(** The log after a request. *)
Definition log_after (log : list (State * Envelope)) (res : result Envelope) (i : Issuer)
    : list (State * Envelope) :=
  match res with Ok e => log ++ [(is_state i, e)] | Err _ => log end.

(** The kernel closes the descriptors of a process that ends, and with them releases the lock
    that its issuer holds. *)
Definition reaped (i : Issuer) (w : World) : World :=
  if is_closed i then w else set_locks (w_locks w ∖ {[is_processLock i]}) w.

Definition opens (processes : list Issuer) : list Issuer := filter (λ i, is_closed i = false) processes.
#[global] Arguments opens : simpl never.

Section history.
Context `{Ed25519} `{JsonSyntax} `{JsonDecode State} `{Locker}.
Context (loadCatalog : string → io Catalog) (statePath : string).

Abbreviation store := (mkFileStore statePath).

(** The states this request may write are read back by the decoder. *)
Definition writes_readable (i : Issuer) (clock : time) (w : World) : Prop :=
  ∀ e st w' data, prepare loadCatalog i (Truncate clock Second) w = (Ret (e, st), w') →
    encodeState st = Some data → decodeStrict data = Ok st.

(** What can happen on a host.  Any number of processes start on the state path at any time,
    also while others run; a process that is killed while it starts loses the lock it may have
    taken. *)
Inductive step : Host → Host → Prop :=
  | step_start options w processes log r w' :
      opt_StatePath options = statePath → honest w → NewIssuer options w = (r, w') →
      step (mkHost w processes log)
        (match r with
         | Ret i => mkHost w' (i :: processes) log
         | Throw _ => mkHost w' processes log
         | Halt => mkHost (set_locks (w_locks w) w') processes log
         end)
  | step_issue before i after clock w log res i' w' :
      honest w → writes_readable i clock w → Issue loadCatalog i clock w = (Ret (res, i'), w') →
      step (mkHost w (before ++ i :: after) log) (mkHost w' (before ++ i' :: after) (log_after log res i'))
  | step_interrupted before i after clock w log r w' :
      honest w → writes_readable i clock w → Issue loadCatalog i clock w = (r, w') →
      step (mkHost w (before ++ i :: after) log) (mkHost (reaped i w') (before ++ after) log)
  | step_close before i after w log r i' w' :
      Close i w = (Ret (r, i'), w') →
      step (mkHost w (before ++ i :: after) log) (mkHost w' (before ++ i' :: after) log)
  | step_kill before i after w log :
      step (mkHost w (before ++ i :: after) log) (mkHost (reaped i w) (before ++ after) log)
  | step_power_loss w processes log w' :
      power_loss w w' → step (mkHost w processes log) (mkHost w' [] log)
  | step_elsewhere w processes log w' :
      leaves_state statePath w w' → (lock_file statePath ∈ w_locks w' ↔ lock_file statePath ∈ w_locks w) →
      step (mkHost w processes log) (mkHost w' processes log).

(** Everything published is at or before [s]. *)
Definition covers_log (log : list (State * Envelope)) (s : State) : Prop :=
  ∀ p, p ∈ log → p.1 = s ∨ newer p.1 s.

(** What a binding of the state path may be: anything as long as nothing was published,
    then only a synced file with a valid state that covers the log. *)
Definition binding_ok (log : list (State * Envelope)) (o : option File) : Prop :=
  log = [] ∨ ∃ f s, o = Some f ∧ f_synced f = true ∧ decodeStrict (f_data f) = Ok s ∧
    validate s false = Ok tt ∧ covers_log log s.

Record disk_ok (w : World) (log : list (State * Envelope)) : Prop := {
  dk_dir : ∃ d, w_dirs w !! filepath_Dir statePath = Some d ∧ d_synced d = true;
  dk_file o : o ∈ possible w statePath → binding_ok log o
}.

Record issuer_ok (i : Issuer) (log : list (State * Envelope)) : Prop := {
  ik_store : is_stateStore i = store;
  ik_keyID : is_keyID i = KeyID (Public (is_privateKey i));
  ik_u64 : is_u64 (st_LastVersion (is_state i));
  ik_key : key_ok i;
  ik_fresh : st_LastVersion (is_state i) = 0 → log = [];
  ik_covers : covers_log log (is_state i);
  ik_cached : env_Payload (is_cached i) ≠ "" →
    (is_state i, is_cached i) ∈ log ∧
    ∀ p, p ∈ log → p = (is_state i, is_cached i) ∨ newer p.1 (is_state i)
}.

(** The published sequence: repetitions of one entry, then newer ones. *)
Definition published (a b : State * Envelope) : Prop := a = b ∨ newer a.1 b.1.

Record sys_ok (s : Sys) : Prop := {
  sk_disk : disk_ok (sys_world s) (sys_log s);
  sk_issuer i : sys_issuer s = Some i → issuer_ok i (sys_log s);
  sk_log : StronglySorted published (sys_log s);
  sk_signed : Forall (λ p, signed_as p.1 p.2) (sys_log s)
}.

Lemma disk_ok_leaves w w' log : disk_ok w log → leaves_state statePath w w' → disk_ok w' log.
Proof.
  intros [(d & Hd & Hs) Hf] [Hg Hp]. split; [exists d; split; [by apply Hg|done]|].
  intros o. rewrite Hp. apply Hf.
Qed.

Lemma disk_ok_same w w' log : disk_ok w log → same_files w w' → disk_ok w' log.
Proof.
  intros Hd (E1 & E2 & E3 & _). apply (disk_ok_leaves w); [done|]. split.
  - intros d i. by rewrite E1.
  - unfold possible. by rewrite E2, E3.
Qed.

Lemma disk_ok_power_loss w w' log : disk_ok w log → power_loss w w' → disk_ok w' log.
Proof.
  intros [(d & Hd & Hs) Hf] HP.
  pose proof (pl_dirs _ _ HP (filepath_Dir statePath)) as Hd'. rewrite Hd in Hd'.
  unfold dir_survives in Hd'. destruct (w_dirs w' !! _) as [d'|] eqn:Ed; [|congruence].
  split; [exists d'; by subst d'|]. intros o Ho. unfold possible in Ho.
  rewrite (pl_stale _ _ HP), lookup_empty in Ho. apply list_elem_of_singleton in Ho as ->.
  destruct (pl_files _ _ HP statePath) as (b & Hb & Hsv); [by rewrite Ed|].
  destruct (Hf b Hb) as [->|(f & s & -> & Hfs & Hdec & Hv & Hc)]; [by left|right].
  unfold survives in Hsv. destruct (w_files w' !! statePath) as [f'|]; [|done].
  destruct Hsv as (Hdata & Hs' & _). exists f', s. split_and!; [done..| |done|done].
  by rewrite Hdata.
Qed.

(** Saving a state that covers the log keeps the disk sound; once it returned, the disk
    is sound for the log with the state appended. *)
Lemma disk_ok_save w log s e :
  not_temporary store → disk_ok w log → (∀ p, p ∈ log → newer p.1 s) →
  (∀ data, encodeState s = Some data → decodeStrict data = Ok s) →
  wp (Save store s) (λ _ w', disk_ok w' (log ++ [(s, e)])) (λ w', disk_ok w' log) w.
Proof.
  intros Hnt Hd Hnew Hback. pose proof Hd as [(d & Hdir & Hs) Hf].
  assert (Hcov : covers_log (log ++ [(s, e)]) s).
  { intros p [Hp|Hp%list_elem_of_singleton]%elem_of_app; [right; auto|left; by subst]. }
  assert (Hcov' : covers_log log s) by (intros p Hp; apply Hcov; set_solver).
  eapply wp_mono; [by apply Save_spec|..].
  - intros [] w' (data & Hv & He & Hg & _ & Hp). split; [exists d; split; [by apply Hg|done]|].
    cbn [fs_Path] in Hp. intros o. rewrite Hp. intros ->%list_elem_of_singleton. right.
    exists (stateFile data), s. split_and!; auto.
  - intros w' [[Hg Hp]|(data & Hv & He & Hg & Hp)].
    + by apply (disk_ok_leaves w).
    + split; [exists d; split; [by apply Hg|done]|]. cbn [fs_Path] in Hp. intros o. rewrite Hp.
      intros [->|Ho]%elem_of_cons; [|by apply Hf]. right.
      exists (stateFile data), s. split_and!; auto.
Qed.

Lemma disk_ok_save_first w s :
  not_temporary store → disk_ok w [] →
  wp (Save store s) (λ _ w', disk_ok w' []) (λ w', disk_ok w' []) w.
Proof.
  intros Hnt [(d & Hdir & Hs) _].
  assert (Hgrow : ∀ w', dirs_grow w w' → disk_ok w' []).
  { intros w' Hg. split; [exists d; split; [by apply Hg|done]|by left]. }
  eapply wp_mono; [by apply Save_spec|..].
  - by intros [] w' (data & _ & _ & Hg & _); apply Hgrow.
  - by intros w' [[Hg _]|(data & _ & _ & Hg & _)]; apply Hgrow.
Qed.

Lemma disk_ok_prefix w log l : disk_ok w (log ++ l) → disk_ok w log.
Proof.
  intros [Hd Hf]. split; [done|]. intros o Ho.
  destruct (Hf o Ho) as [[-> _]%app_eq_nil|(f & s & ? & ? & ? & ? & Hc)]; [by left|right].
  exists f, s. split_and!; try done. intros p Hp. apply Hc. set_solver.
Qed.

Lemma disk_ok_repeat w log p : p ∈ log → disk_ok w log → disk_ok w (log ++ [p]).
Proof.
  intros Hp [Hd Hf]. split; [done|]. intros o Ho.
  destruct (Hf o Ho) as [->|(f & s & ? & ? & ? & ? & Hc)]; [set_solver|right].
  exists f, s. split_and!; try done. intros q Hq. apply Hc. set_solver.
Qed.

Context (Hnt : not_temporary store).
Context (Htyped : ∀ data s, decodeStrict data = Ok s → is_u64 (st_LastVersion s)).

Lemma validate_true_version s : validate s true = Ok tt → st_LastVersion s ≠ 0.
Proof. intros ([] & E%fail_if_Ok & _)%mbind_Ok. inv_ok. lia. Qed.

Lemma validate_false_policy s : validate s false = Ok tt → st_PolicyVersion s ≠ 0.
Proof.
  intros ([] & _ & ([] & _ & Hv)%mbind_Ok)%mbind_Ok. rewrite andb_false_r in Hv. inv_ok. lia.
Qed.

(** A loaded state covers the log, migrated or not. *)
Lemma migrate_spec w log policy dgst f s :
  disk_ok w log → w_files w !! statePath = Some f → decodeStrict (f_data f) = Ok s →
  wp (migrate store policy dgst s)
    (λ s' w', disk_ok w' log ∧ covers_log log s' ∧ st_LastVersion s' = st_LastVersion s)
    (λ w', disk_ok w' log) w.
Proof.
  intros Hd Hf Hdec. unfold migrate.
  assert (Hb : binding_ok log (Some f)) by (apply (dk_file _ _ Hd); rewrite <- Hf; left).
  destruct Hb as [->|(f' & s' & [= <-] & _ & Hdec' & Hv & Hc)].
  - destruct (st_PolicyVersion s =? 0).
    + apply wp_bind, wp_io_of; [intros [g raw] _|done].
      apply wp_bind, wp_io_wrap. eapply wp_mono; [by apply disk_ok_save_first| |done].
      intros [] w' Hw'. split_and!; [done| |done]. intros p. set_solver.
    + apply wp_ret. split_and!; [done| |done]. intros p. set_solver.
  - rewrite Hdec in Hdec'. injection Hdec' as <-.
    apply validate_false_policy in Hv. rewrite (proj2 (Z.eqb_neq _ _)) by done.
    by apply wp_ret.
Qed.

Lemma openIssuer_spec w log options dgst lock :
  opt_StatePath options = statePath → honest w → disk_ok w log →
  wp (openIssuer options dgst lock) (λ i w', disk_ok w' log ∧ issuer_ok i log)
    (λ w', disk_ok w' log) w.
Proof.
  intros Hpath Hh Hd. unfold openIssuer. rewrite Hpath.
  assert (Hsame : ∀ w', same_files w w' ∧ honest w' → disk_ok w' log).
  { intros w' [Hs _]. by eapply disk_ok_same. }
  apply wp_bind. eapply wp_mono; [by apply Load_spec| |done].
  intros [s|] w1 [Hw1 Hl]; cbn [fs_Path] in Hl.
  - destruct Hl as (f & Hf & Hv & Hdec). apply Hsame in Hw1 as Hd1.
    assert (Hf1 : w_files w1 !! statePath = Some f) by (destruct Hw1 as [(_ & -> & _) _]; done).
    apply wp_bind. eapply wp_mono; [by eapply migrate_spec| |done].
    intros s' w2 (Hd2 & Hc & Hver). apply validate_true_version in Hv. apply Htyped in Hdec.
    apply wp_bind, wp_bind, wp_io_of; [intros [] Hdur|done]. apply wp_ret.
    apply wp_bind, wp_io_of; [intros [grant raw] _|done].
    apply wp_bind, wp_io_of; [intros [] Hg|done]. apply wp_ret. split; [done|].
    destruct (checkDurable_inv _ _ _ Hdur) as (_ & Hp & Hps).
    destruct (checkGrant_inv _ _ _ Hg) as (He & Hes).
    split; cbn; try done; [by rewrite Hver|intros E; by rewrite Hver in E].
  - apply wp_bind, wp_ret, wp_bind, wp_ret, wp_bind, wp_io_of; [intros [grant raw] _|by apply Hsame].
    apply wp_bind, wp_io_of; [intros [] _|by apply Hsame]. apply wp_ret. split; [by apply Hsame|].
    assert (log = []) as ->.
    { destruct (dk_file _ _ Hd None) as [|(f & s & ? & _)]; [|done|done].
      rewrite <- (proj1 Hl). left. }
    split; cbn; try done. by intros p Hp%elem_of_nil.
Qed.

Context `{!LockerLaws}.

Lemma NewIssuer_spec w log options :
  opt_StatePath options = statePath → honest w → disk_ok w log →
  wp (NewIssuer options) (λ i w', disk_ok w' log ∧ issuer_ok i log) (λ w', disk_ok w' log) w.
Proof.
  intros Hpath Hh Hd. unfold NewIssuer.
  apply wp_bind, wp_io_of; [intros [] _|done]. apply wp_bind, wp_io_of; [intros dgst _|done].
  apply wp_bind, wp_io_of; [intros [] _|done]. apply wp_bind. rewrite Hpath.
  eapply wp_mono; [apply wp_and;
    [apply (acquireLock_frame statePath w), leaves_refl|by apply acquireLock_honest]|..].
  - intros lock w1 [Hl Hh1]. assert (Hd1 : disk_ok w1 log) by by eapply disk_ok_leaves.
    apply wp_on_error; [by apply openIssuer_spec|]. intros w2 Hd2. apply wp_ignore.
    eapply wp_mono; [apply (lock_Close_frame statePath lock w2), leaves_refl|..];
      intros; by eapply disk_ok_leaves.
  - intros w1 [Hl _]. by eapply disk_ok_leaves.
Qed.

Context `{!CatalogLoader loadCatalog}.

(** What a request leaves behind. *)
Definition request_ok (log : list (State * Envelope)) (p : result Envelope * Issuer) (w : World)
    : Prop :=
  disk_ok w (log_after log p.1 p.2) ∧ issuer_ok p.2 (log_after log p.1 p.2) ∧
  match p.1 with
  | Ok e => (signed_as (is_state p.2) e ∨ (is_state p.2, e) ∈ log) ∧
            Forall (λ q, published q (is_state p.2, e)) log
  | Err _ => True
  end.

Lemma issuer_ok_cache i log c cu vu ra le :
  issuer_ok i log → c = is_cached i → issuer_ok (with_cache i c cu vu ra le) log.
Proof. by intros [] ->. Qed.

Lemma request_error i log w e : disk_ok w log → issuer_ok i log → request_ok log (Err e, i) w.
Proof. by intros. Qed.

(** Handing out the cached envelope again. *)
Lemma request_cached i i' log w now until :
  disk_ok w log → issuer_ok i log → issuer_ok i' log → is_state i' = is_state i →
  is_cached i' = is_cached i → cached_until i now until = true →
  request_ok log (Ok (is_cached i), i') w.
Proof.
  intros Hd Hi Hi' Es Ec Hc. unfold cached_until in Hc.
  assert (Hne : env_Payload (is_cached i) ≠ "") by (inv_ok; done).
  destruct (ik_cached _ _ Hi Hne) as [Hin Hall]. unfold request_ok, log_after. cbn. rewrite Es.
  split_and!; [by apply disk_ok_repeat| |by right|by apply Forall_forall].
  destruct Hi'. split; rewrite ?Es, ?Ec in *; try done.
  - intros E. rewrite (ik_fresh0 E) in Hin. set_solver.
  - intros p Hp. apply ik_covers0. set_solver.
  - intros _. split; [set_solver|]. intros p Hp. apply Hall. set_solver.
Qed.

(** What a successful refresh establishes. *)
Record refreshed (i : Issuer) (log : list (State * Envelope)) (p : Envelope * Issuer) (w : World)
    : Prop := {
  rf_disk : disk_ok w (log ++ [(is_state p.2, p.1)]);
  rf_signed : signed_as (is_state p.2) p.1;
  rf_newer q : q ∈ log → newer q.1 (is_state p.2);
  rf_u64 : is_u64 (st_LastVersion (is_state p.2));
  rf_pos : st_LastVersion (is_state p.2) ≠ 0;
  rf_names : names_key i (is_state p.2);
  rf_issuer : p.2 = with_state i (is_state p.2)
}.

Lemma refresh_spec i log w clock :
  honest w → writes_readable i clock w → disk_ok w log → issuer_ok i log →
  wp (refresh loadCatalog i (Truncate clock Second)) (refreshed i log) (λ w', disk_ok w' log) w.
Proof.
  intros Hh Hread Hd [Hst Hid Hu Hk Hfresh Hcov _]. unfold refresh. apply wp_bind.
  eapply wp_mono; [by apply wp_remember, prepare_spec|..].
  2: by intros; eapply disk_ok_same.
  intros [e s] w1 [(Hs & Hu' & Hpos & Hnames & Hsig & Hnew) Hrun]. cbn [fst snd] in *.
  assert (Hlog : ∀ q, q ∈ log → newer q.1 s).
  { intros q Hq. assert (0 < st_LastVersion (is_state i)) as Hv.
    { unfold is_u64 in Hu. destruct (decide (st_LastVersion (is_state i) = 0)) as [E|E]; [|lia].
      rewrite (Hfresh E) in Hq. set_solver. }
    destruct (Hcov q Hq) as [->|Hq']; [auto|]. eapply newer_trans; eauto. }
  apply wp_bind, wp_io_wrap. rewrite Hst.
  eapply wp_mono; [apply (disk_ok_save w1 log s e); [done|by eapply disk_ok_same|done|]| |done].
  { intros data. by apply (Hread e s w1). }
  intros [] w2 Hw2. by apply wp_ret.
Qed.

Lemma request_refreshed i log e i' cu vu ra w :
  issuer_ok i log → refreshed i log (e, i') w →
  request_ok log (Ok e, with_cache i' e cu vu ra None) w.
Proof.
  intros [] [Hd Hs Hn Hu Hp (N1 & N2 & N3 & N4) Hi]. cbn [fst snd] in *. rewrite Hi. clear Hi.
  assert (Hall : ∀ p, p ∈ log ++ [(is_state i', e)] →
    p = (is_state i', e) ∨ newer p.1 (is_state i')).
  { intros p [Hp'|Hp'%list_elem_of_singleton]%elem_of_app; auto. }
  unfold request_ok, log_after. cbn.
  split_and!; [done| |by left|apply Forall_forall; intros q Hq; right; auto].
  split; cbn; try done.
  - unfold key_ok. cbn. intros _. split_and!; [lia|congruence|lia|congruence].
  - intros p Hp'. destruct (Hall p Hp') as [->|]; auto.
  - intros _. split; [set_solver|done].
Qed.

Lemma reissue_spec i log w clock :
  honest w → writes_readable i clock w → disk_ok w log → issuer_ok i log →
  wp (reissue loadCatalog i (Truncate clock Second)) (request_ok log) (λ w', disk_ok w' log) w.
Proof.
  intros Hh Hread Hd Hi. unfold reissue, io_try. apply wp_bind.
  pose proof (refresh_spec i log w clock Hh Hread Hd Hi) as Hr. unfold wp in *.
  destruct (refresh loadCatalog i (Truncate clock Second) w) as [[[e i']|err|] w1]; [| |done].
  - by apply (request_refreshed i).
  - cbn. destruct (cached_until i (Truncate clock Second) (is_validUntil i)) eqn:Ec.
    + by eapply request_cached; try done; apply issuer_ok_cache.
    + apply request_error; [done|by apply issuer_ok_cache].
Qed.

Lemma Issue_spec i log w clock :
  honest w → writes_readable i clock w → disk_ok w log → issuer_ok i log →
  wp (Issue loadCatalog i clock) (request_ok log) (λ w', disk_ok w' log) w.
Proof.
  intros Hh Hread Hd Hi. unfold Issue.
  assert (Herr : ∀ e, request_ok log (Err e, i) w) by (intros; by apply request_error).
  destruct (is_closed i); [by apply wp_ret|].
  destruct ((0 <? _) && _); [by apply wp_ret|].
  destruct (cached_until i _ (is_cacheUntil i)) eqn:Ec; [by eapply wp_ret, request_cached|].
  destruct (is_lastError i) as [e|]; [|by apply reissue_spec].
  destruct (Before _ (is_retryAt i)); [|by apply reissue_spec]. apply wp_ret.
  destruct (cached_until i _ (is_validUntil i)) eqn:Ev; [by eapply request_cached|done].
Qed.

Lemma sys_ok_init w d :
  w_dirs w !! filepath_Dir statePath = Some d → d_synced d = true → sys_ok (mkSys w None []).
Proof.
  intros Hd Hs. split; cbn; [|done|constructor..]. split; [by exists d|intros; by left].
Qed.

Lemma request_sys_ok w running log res i' w' :
  sys_ok (mkSys w running log) → request_ok log (res, i') w' →
  sys_ok (mkSys w' (Some i') (log_after log res i')).
Proof.
  intros [_ _ Hlog Hsig] (Hd & Hi & Hr). cbn in *. split; cbn.
  - done.
  - by intros ? [= <-].
  - destruct res as [e|e]; [|done]. apply StronglySorted_snoc; [done|apply Hr].
  - destruct res as [e|e]; [|done]. apply Forall_app. split; [done|]. apply Forall_singleton.
    destruct Hr as [[?|Hin] _]; [done|]. rewrite Forall_forall in Hsig. by apply (Hsig _ Hin).
Qed.

(** At most one process is open, on the lock of the state path, which is held; it is sound. *)
Record host_ok (h : Host) : Prop := {
  hk_sys : sys_ok (mkSys (ho_world h) (head (opens (ho_processes h))) (ho_log h));
  hk_one : (length (opens (ho_processes h)) <= 1)%nat;
  hk_lock i : i ∈ opens (ho_processes h) →
    is_processLock i = lock_file statePath ∧ lock_file statePath ∈ w_locks (ho_world h)
}.

Lemma opens_closed before i after : is_closed i = true → opens (before ++ i :: after) = opens (before ++ after).
Proof. intros Hc. unfold opens. rewrite !filter_app, filter_cons, decide_False; [done|]. by rewrite Hc. Qed.

Lemma opens_open before i after : is_closed i = false →
  opens (before ++ i :: after) = opens before ++ i :: opens after.
Proof. intros Hc. unfold opens. by rewrite filter_app, filter_cons, decide_True. Qed.

(** The only open process. *)
Lemma opens_alone w before i after log : host_ok (mkHost w (before ++ i :: after) log) → is_closed i = false →
  opens before = [] ∧ opens after = [] ∧ sys_ok (mkSys w (Some i) log) ∧
  is_processLock i = lock_file statePath ∧ lock_file statePath ∈ w_locks w.
Proof.
  intros [Hs Hone Hl] Hc. cbn in *. rewrite opens_open in * by done. rewrite length_app in Hone. cbn in Hone.
  assert (opens before = []) as Hb by (destruct (opens before); [done|cbn in Hone; lia]).
  assert (opens after = []) as Ha by (destruct (opens after); [done|cbn in Hone; lia]).
  rewrite Hb, Ha in *. split_and!; try done; apply (Hl i); set_solver.
Qed.

(** A host on which no process is open. *)
Lemma host_ok_none w processes log : sys_ok (mkSys w None log) → opens processes = [] → host_ok (mkHost w processes log).
Proof. intros Hs Ho. split; cbn; rewrite Ho; [done|cbn; lia|set_solver]. Qed.

(** The open process goes on. *)
Lemma host_ok_some w before i after log : opens before = [] → opens after = [] → is_closed i = false →
  sys_ok (mkSys w (Some i) log) → is_processLock i = lock_file statePath → lock_file statePath ∈ w_locks w →
  host_ok (mkHost w (before ++ i :: after) log).
Proof.
  intros Hb Ha Hc Hs Hp Hl. split; cbn; rewrite opens_open, Hb, Ha by done; [done|cbn; lia|set_solver].
Qed.

Lemma sys_ok_world w w' running running' log :
  sys_ok (mkSys w running log) → disk_ok w' log → running' = running ∨ running' = None →
  sys_ok (mkSys w' running' log).
Proof. intros [_ Hi Hl Hs] Hd Hr. split; cbn in *; try done. by destruct Hr as [->| ->]. Qed.

Lemma host_start options w processes log r w' :
  opt_StatePath options = statePath → honest w → NewIssuer options w = (r, w') →
  host_ok (mkHost w processes log) →
  host_ok (match r with
           | Ret i => mkHost w' (i :: processes) log
           | Throw _ => mkHost w' processes log
           | Halt => mkHost (set_locks (w_locks w) w') processes log
           end).
Proof.
  intros Hp Hh HN [Hs Hone Hl]. cbn in *. pose proof (sk_disk _ Hs) as Hd.
  pose proof (NewIssuer_spec w log options Hp Hh Hd) as Hsp.
  pose proof (NewIssuer_ends (w_locks w) options w eq_refl) as He.
  unfold wp, ends in *. rewrite HN in Hsp, He. rewrite Hp in He. destruct r as [i|e|].
  - destruct He as (Hi & Hc & Hnew & Hw'). destruct Hsp as [Hd' Hi'].
    assert (opens processes = []) as Ho.
    { destruct (opens processes) as [|j l]; [done|]. destruct (Hl j) as [_ Hin]; [left|done]. }
    apply (host_ok_some w' [] i processes); try done; [|rewrite Hw'; set_solver].
    destruct Hs as [_ _ Hlog Hsig]. split; cbn in *; try done. by intros ? [= <-].
  - unfold holds in He. split; cbn; [by eapply sys_ok_world; eauto|done|]. intros j Hj. rewrite He. by apply Hl.
  - split; cbn; [|done|done]. eapply sys_ok_world; [done| |by left].
    by apply (disk_ok_leaves w'), leaves_locks, leaves_refl.
Qed.

Lemma request_disk i clock w log r w' :
  honest w → writes_readable i clock w → Issue loadCatalog i clock w = (r, w') →
  disk_ok w log → issuer_ok i log → disk_ok w' log.
Proof.
  intros Hh Hr HI Hd Hi. pose proof (Issue_spec i log w clock Hh Hr Hd Hi) as Hsp. unfold wp in Hsp.
  rewrite HI in Hsp. destruct r as [[res i']|e|]; [|done..]. destruct Hsp as [Hd' _].
  destruct res as [e|e]; [by apply (disk_ok_prefix _ _ [(is_state i', e)])|done].
Qed.

Lemma host_issue before i after clock w log res i' w' :
  honest w → writes_readable i clock w → Issue loadCatalog i clock w = (Ret (res, i'), w') →
  host_ok (mkHost w (before ++ i :: after) log) → host_ok (mkHost w' (before ++ i' :: after) (log_after log res i')).
Proof.
  intros Hh Hr HI Hok. destruct (is_closed i) eqn:Hc.
  { rewrite Issue_closed in HI by done. by injection HI as <- <- <-. }
  destruct (opens_alone _ _ _ _ _ Hok Hc) as (Hb & Ha & Hs & Hp & Hl). pose proof Hs as [Hd Hi _ _]. cbn in *.
  pose proof (Issue_spec i log w clock Hh Hr Hd (Hi i eq_refl)) as Hsp.
  pose proof (Issue_handle loadCatalog i clock w) as Hk.
  pose proof (Issue_blind loadCatalog _ i clock (holds_blind (w_locks w)) w eq_refl) as Hw.
  unfold wp, ends in *. rewrite HI in Hsp, Hk, Hw. cbn in Hk. destruct Hk as [Hk Hc']. unfold holds in Hw.
  apply host_ok_some; [done|done|congruence|by eapply request_sys_ok|congruence|by rewrite Hw].
Qed.

Lemma host_reaped before i after w w' log :
  host_ok (mkHost w (before ++ i :: after) log) → (is_closed i = true → w' = w) →
  (is_closed i = false → issuer_ok i log → disk_ok w log → disk_ok w' log) →
  host_ok (mkHost (reaped i w') (before ++ after) log).
Proof.
  intros Hok Hsame Hd. unfold reaped. destruct (is_closed i) eqn:Hc.
  { rewrite Hsame by done. destruct Hok as [Hs Hone Hl]. cbn in *. rewrite opens_closed in * by done. by split. }
  destruct (opens_alone _ _ _ _ _ Hok Hc) as (Hb & Ha & Hs & _ & _). apply host_ok_none.
  - eapply sys_ok_world; [done| |by right]. destruct Hs as [Hdk Hi _ _]. cbn in *.
    apply (disk_ok_leaves w'); [auto|]. apply leaves_locks, leaves_refl.
  - unfold opens in *. by rewrite filter_app, Hb, Ha.
Qed.

Lemma host_close before i after w log r i' w' :
  Close i w = (Ret (r, i'), w') →
  host_ok (mkHost w (before ++ i :: after) log) → host_ok (mkHost w' (before ++ i' :: after) log).
Proof.
  intros HC Hok. unfold Close in HC. destruct (is_closed i) eqn:Hc.
  { by injection HC as <- <- <-. }
  destruct (opens_alone _ _ _ _ _ Hok Hc) as (Hb & Ha & Hs & _ & _).
  pose proof (lock_Close_frame statePath (is_processLock i) w w (leaves_refl _ _)) as Hf.
  unfold wp in Hf. unfold mbind, io_bind, io_try in HC.
  assert (is_closed i' = true ∧ leaves_state statePath w w') as [Hc' Hlv].
  { destruct (lock_Close (is_processLock i) w) as [[a|e|] w1]; [..|done]; by injection HC as <- <- <-. }
  apply host_ok_none.
  - eapply sys_ok_world; [done| |by right]. destruct Hs as [Hdk _ _ _]. by eapply disk_ok_leaves.
  - rewrite opens_closed by done. unfold opens in *. by rewrite filter_app, Hb, Ha.
Qed.

Lemma host_ok_step h h' : step h h' → host_ok h → host_ok h'.
Proof.
  intros Hstep Hok. destruct Hstep as
    [options w ps log r w' Hp Hh HN|before i after clock w log res i' w' Hh Hr HI
    |before i after clock w log r w' Hh Hr HI|before i after w log r i' w' HC|before i after w log
    |w ps log w' HP|w ps log w' HL Hlock].
  - by eapply host_start.
  - by eapply host_issue.
  - eapply host_reaped; [done| |by intros _ Hi Hd; eapply request_disk].
    intros Hc. rewrite Issue_closed in HI by done. by injection HI as <- <-.
  - by eapply host_close.
  - by eapply host_reaped.
  - apply host_ok_none; [|done]. eapply sys_ok_world; [apply Hok| |by right].
    eapply disk_ok_power_loss; [apply Hok|done].
  - destruct Hok as [Hs Hone Hl]. split; cbn in *; [|done|].
    + eapply sys_ok_world; [done| |by left]. by eapply disk_ok_leaves; [apply Hs|].
    + intros j Hj. rewrite Hlock. by apply Hl.
Qed.

(** C4: over any history of a host (any number of processes that start on one state path at any
    time with any keys and policies, requests at any clock, failing system calls, kills and
    losses of power at any moment) at most one process has an open issuer, and the published
    envelopes never equivocate: in the order of publication they are repetitions or have
    a strictly larger version with no earlier issuance time, policy version, key epoch or
    catalog revision, and each one was signed for the version, time, policy and key of
    the state persisted for it. *)
Theorem issuer_never_equivocates w d h :
  w_dirs w !! filepath_Dir statePath = Some d → d_synced d = true →
  rtc step (mkHost w [] []) h →
  (length (opens (ho_processes h)) <= 1)%nat ∧
  StronglySorted published (ho_log h) ∧ Forall (λ p, signed_as p.1 p.2) (ho_log h) ∧
  ∀ p q, p ∈ ho_log h → q ∈ ho_log h → st_LastVersion p.1 = st_LastVersion q.1 → p = q.
Proof.
  intros Hd Hs Hrun.
  assert (Hok : host_ok (mkHost w [] [])) by (apply host_ok_none; [by eapply sys_ok_init|done]).
  assert (Hok' : host_ok h).
  { clear Hd Hs. induction Hrun as [|x y z Hstep _ IH]; [done|]. by eapply IH, host_ok_step. }
  destruct Hok' as [[_ _ Hl Hsig] Hone _]. split_and!; [done..|].
  intros p q Hp Hq Hv. destruct (StronglySorted_trichotomy _ _ p q Hl Hp Hq) as [|[[|[]]|[|[]]]];
    done || lia.
Qed.

End history.

(** ** The cache *)

Section cache.
Context `{Ed25519} `{JsonSyntax} `{JsonDecode State} `{Locker}.
Context (loadCatalog : string → io Catalog).

(** The durations [NewIssuer] accepts, and what a filled cache means. *)
Record cache_ok (i : Issuer) : Prop := {
  co_ttl : Minute <= is_ttl i <= Hour;
  co_cacheFor : Second <= is_cacheFor i <= is_ttl i / 2;
  co_cached : env_Payload (is_cached i) ≠ "" →
    0 < st_LastVersion (is_state i) ∧
    is_validUntil i = st_LastIssuedAt (is_state i) + is_ttl i ∧ is_cacheUntil i <= is_validUntil i
}.

(** The envelope the issuer stands for is not expired at [now]. *)
Definition current (i : Issuer) (now : time) : Prop :=
  st_LastIssuedAt (is_state i) <= now < st_LastIssuedAt (is_state i) + is_ttl i.

Lemma reissue_current i clock w :
  cache_ok i →
  (0 < st_LastVersion (is_state i) → st_LastIssuedAt (is_state i) <= Truncate clock Second) →
  wp (reissue loadCatalog i (Truncate clock Second))
    (λ p _, cache_ok p.2 ∧ (is_Ok p.1 = true → current p.2 (Truncate clock Second)))
    (λ _, True) w.
Proof.
  intros [Ht Hc Hcached] Hclock. unfold reissue, io_try. apply wp_bind.
  set (now := Truncate clock Second) in *.
  pose proof (refresh_time loadCatalog i now w) as Hr. unfold wp in *.
  destruct (refresh loadCatalog i now w) as [[[e i']|err|] w1]; [| |done].
  - destruct Hr as (Hi & Hnow & Hv). cbn [fst snd] in *. rewrite Hi. unfold current. cbn.
    split; [|unfold Minute, Second in *; lia]. split; cbn; [done..|]. intros _.
    unfold time_Add. split_and!; [done|lia|]. unfold Minute, Second in *. divlia.
  - cbn. unfold cached_until. case_bool_decide as Hp; cbn.
    { split; [|done]. by split. }
    destruct (Hcached Hp) as (Hv & Hvu & Hcu). unfold Before.
    destruct (Z.ltb_spec now (is_validUntil i)) as [Hlt|Hge]; cbn.
    + split; [|intros _; unfold current; cbn; auto with lia]. split; cbn; [done..|]. intros _.
      split_and!; [done..|]. unfold minTime, Before. by destruct (Z.ltb_spec (time_Add now
        (minDuration (5 * Second) (is_cacheFor i))) (is_validUntil i)); lia.
    + split; [|done]. by split.
Qed.

Lemma cached_current i now until :
  cache_ok i → (0 < st_LastVersion (is_state i) → st_LastIssuedAt (is_state i) <= now) →
  (until = is_cacheUntil i ∨ until = is_validUntil i) →
  cached_until i now until = true → current i now.
Proof.
  intros Hok Hcl Hu. unfold cached_until, Before. case_bool_decide as Hp; [done|].
  intros Hlt%Z.ltb_lt. destruct (co_cached _ Hok Hp) as (? & ? & ?). unfold current. naive_solver lia.
Qed.

(** [Issue] never hands out an expired envelope, fresh, cached, or kept through a
    failed refresh: whatever it returns was issued at or before the (truncated) clock and
    expires after it.  The invariant of the cache is preserved. *)
Theorem issue_serves_current i clock w r i' w' :
  cache_ok i → Issue loadCatalog i clock w = (Ret (r, i'), w') →
  cache_ok i' ∧ (is_Ok r = true → current i' (Truncate clock Second)).
Proof.
  intros Hok HI.
  enough (wp (Issue loadCatalog i clock)
    (λ p _, cache_ok p.2 ∧ (is_Ok p.1 = true → current p.2 (Truncate clock Second))) (λ _, True) w) as Hw.
  { unfold wp in Hw. by rewrite HI in Hw. }
  clear HI. unfold Issue. destruct (is_closed i); [by apply wp_ret|].
  destruct ((0 <? _) && Before _ _) eqn:Ecl; [by apply wp_ret|].
  assert (Hcl : 0 < st_LastVersion (is_state i) →
    st_LastIssuedAt (is_state i) <= Truncate clock Second) by (unfold Before in Ecl; lia).
  destruct (cached_until i _ (is_cacheUntil i)) eqn:Ec.
  { apply wp_ret. split; [done|]. intros _. apply (cached_current i _ (is_cacheUntil i)); auto. }
  destruct (is_lastError i) as [e|]; [|by apply reissue_current].
  destruct (Before _ (is_retryAt i)); [|by apply reissue_current].
  apply wp_ret. split; [done|]. cbn.
  destruct (cached_until i _ (is_validUntil i)) eqn:Ev; [|done].
  intros _. apply (cached_current i _ (is_validUntil i)); auto.
Qed.

(** C26: failed refreshes are throttled: once a refresh failed at [now], every request
    until [min(5s, cacheFor)] later is answered without any system call and leaves the
    issuer as it is: with the cached envelope while it is valid, with the error
    otherwise. *)
Theorem failed_refresh_is_throttled i now w e w1 :
  refresh loadCatalog i now w = (Throw e, w1) →
  cache_ok i → is_closed i = false →
  (0 < st_LastVersion (is_state i) → st_LastIssuedAt (is_state i) <= now) →
  ∃ res i', reissue loadCatalog i now w = (Ret (res, i'), w1) ∧
    ∀ clock w2, now <= Truncate clock Second < now + Z.min (5 * Second) (is_cacheFor i) →
      Issue loadCatalog i' clock w2 =
        (Ret (if cached_until i' (Truncate clock Second) (is_validUntil i') then Ok (is_cached i')
              else Err e, i'), w2).
Proof.
  intros Hr Hok Hc Hcl. unfold reissue, mbind, io_bind, io_try. rewrite Hr.
  assert (Hmin : minDuration (5 * Second) (is_cacheFor i) = Z.min (5 * Second) (is_cacheFor i)).
  { unfold minDuration. destruct (Z.ltb_spec (5 * Second) (is_cacheFor i)); lia. }
  pose proof (co_cached _ Hok) as Hcached.
  destruct (cached_until i now (is_validUntil i)) eqn:Ec; eexists _, _; (split; [done|]);
    intros clock w2 Hw; unfold Issue; cbn; rewrite Hc; unfold Before, time_Add; rewrite Hmin;
    (destruct ((0 <? _) && _) eqn:Eb; [exfalso; lia|]);
    rewrite (proj2 (Z.ltb_lt _ (now + _))) by lia;
    unfold cached_until, minTime, Before in *; cbn in *.
  - case_bool_decide as Hp; [done|]. destruct (Hcached Hp) as (_ & _ & Hcu). cbn in *.
    destruct (Z.ltb_spec (now + Z.min (5 * Second) (is_cacheFor i)) (is_validUntil i));
      destruct (Z.ltb_spec (Truncate clock Second) (is_validUntil i)); try done; try lia;
      destruct (Z.ltb_spec (Truncate clock Second) (now + Z.min (5 * Second) (is_cacheFor i)));
      done || lia.
  - case_bool_decide as Hp; [done|]. destruct (Hcached Hp) as (_ & _ & Hcu). cbn in *.
    by rewrite (proj2 (Z.ltb_ge (Truncate clock Second) (is_cacheUntil i))) by lia.
Qed.

End cache.

(** ** Examples *)

Definition toy_options : IssuerOptions :=
  mkIssuerOptions "catalog.json" (fs_Path toy_store) toy_ttl Minute (toy_key "A"%char) (Public toy_root)
    toy_policy.
Definition toy_loader (path : string) : io Catalog := mret (toy_tiny 1).

#[global] Instance toy_loader_laws : CatalogLoader toy_loader.
Proof. split; intros; apply keeps_ret. Qed.

Definition toy_decoder : JsonDecode State := toy_State_decode [].
Definition toy_no_issuer : Issuer := mkIssuer "" 0 0 "" "" 0 "" toy_policy "" toy_store "" zero_State
  zero_Envelope 0 0 0 None false.
Definition toy_start : io_result Issuer * World :=
  @NewIssuer ToyEd25519 toy_eof toy_decoder ProcessLocker toy_options (toy_world []).
Definition toy_value {A} (default : A) (r : io_result A) : A :=
  match r with Ret a => a | Throw _ | Halt => default end.
Definition toy_issuer : Issuer := toy_value toy_no_issuer toy_start.1.
Definition toy_reply : io_result (result Envelope * Issuer) * World :=
  @Issue ToyEd25519 toy_loader toy_issuer toy_now toy_start.2.
Definition toy_reply_value : result Envelope * Issuer :=
  toy_value (Err (NewError ""), toy_no_issuer) toy_reply.1.

Lemma toy_start_eq : toy_start = (Ret toy_issuer, toy_start.2).
Proof. vm_compute. reflexivity. Qed.
Definition toy_published : Envelope := toy_envelope toy_reply_value.1.
Definition toy_entry : State * Envelope := (is_state toy_reply_value.2, toy_published).
Lemma toy_reply_eq : toy_reply = (Ret (Ok toy_published, toy_reply_value.2), toy_reply.2).
Proof. vm_compute. reflexivity. Qed.

(** The decoder of the run: it knows the one state that is written. *)
Definition toy_run_decoder : JsonDecode State := toy_State_decode [is_state toy_reply_value.2].

Lemma toy_typed states data s :
  Forall (λ s, is_u64 (st_LastVersion s)) states →
  @decodeStrict toy_eof (toy_State_decode states) data = Ok s → is_u64 (st_LastVersion s).
Proof.
  intros Hall. unfold decodeStrict, decode_one, json_Decode, toy_State_decode.
  destruct (list_find _ states) as [[n x]|] eqn:E; [|done].
  apply list_find_Some in E as (Hl & _ & _). cbn. intros [= <-].
  exact (Forall_lookup_1 _ _ _ _ Hall Hl).
Qed.

Lemma toy_start_run :
  @NewIssuer ToyEd25519 toy_eof toy_run_decoder ProcessLocker toy_options (toy_world []) =
  (Ret toy_issuer, toy_start.2).
Proof. vm_compute. reflexivity. Qed.

Lemma toy_readable : @writes_readable ToyEd25519 toy_eof toy_run_decoder toy_loader toy_issuer toy_now
  toy_start.2.
Proof.
  assert (Hp : (@prepare ToyEd25519 toy_loader toy_issuer (Truncate toy_now Second) toy_start.2).1 =
    Ret (toy_published, is_state toy_reply_value.2)) by (vm_compute; reflexivity).
  intros e s w' data Hrun Hdata. rewrite Hrun in Hp. cbn [fst] in Hp.
  pose proof (f_equal (λ r, (toy_value (zero_Envelope, zero_State) r).2) Hp) as Hs.
  cbn [toy_value snd] in Hs. clear Hp Hrun. rewrite Hs in *. clear Hs.
  unfold decodeStrict, decode_one, json_Decode, toy_run_decoder, toy_State_decode.
  cbn [list_find]. by rewrite decide_True.
Qed.

(** A second process starts while the first one runs. *)
Definition toy_second : io_result Issuer * World :=
  @NewIssuer ToyEd25519 toy_eof toy_run_decoder ProcessLocker toy_options toy_reply.2.

Lemma toy_second_refused : ∃ e,
  @NewIssuer ToyEd25519 toy_eof toy_run_decoder ProcessLocker toy_options toy_reply.2 = (Throw e, toy_second.2).
Proof. eexists. vm_compute. reflexivity. Qed.

(** An issuer starts and publishes version 1, a second process is refused, and power is lost. *)
Definition toy_history : Host := mkHost (toy_reboot toy_second.2) [] [toy_entry].

Lemma toy_run : rtc (@step ToyEd25519 toy_eof toy_run_decoder ProcessLocker toy_loader (fs_Path toy_store))
  (mkHost (toy_world []) [] []) toy_history.
Proof.
  apply (rtc_l _ _ (mkHost toy_start.2 [toy_issuer] [])).
  { exact (step_start toy_loader (fs_Path toy_store) toy_options (toy_world []) [] []
      (Ret toy_issuer) toy_start.2 eq_refl ltac:(by_compute) toy_start_run). }
  apply (rtc_l _ _ (mkHost toy_reply.2 [toy_reply_value.2] [toy_entry])).
  { exact (step_issue toy_loader (fs_Path toy_store) [] toy_issuer [] toy_now toy_start.2 []
      (Ok toy_published) toy_reply_value.2 toy_reply.2 ltac:(by_compute) toy_readable toy_reply_eq). }
  destruct toy_second_refused as [e He].
  apply (rtc_l _ _ (mkHost toy_second.2 [toy_reply_value.2] [toy_entry])).
  { exact (step_start toy_loader (fs_Path toy_store) toy_options toy_reply.2 [toy_reply_value.2] [toy_entry]
      (Throw e) toy_second.2 eq_refl ltac:(by_compute) He). }
  apply (rtc_l _ _ toy_history); [|apply rtc_refl].
  apply step_power_loss, power_loss_settled; by_compute.
Qed.

Lemma issuer_never_equivocates_witness :
  StronglySorted published (ho_log toy_history) ∧
  Forall (λ p, @signed_as ToyEd25519 p.1 p.2) (ho_log toy_history) ∧
  ∀ p q, p ∈ ho_log toy_history → q ∈ ho_log toy_history →
    st_LastVersion p.1 = st_LastVersion q.1 → p = q.
Proof.
  apply (@issuer_never_equivocates ToyEd25519 toy_eof toy_run_decoder ProcessLocker toy_loader
    (fs_Path toy_store)) with (w := toy_world []) (d := mkDir 448 true).
  - vm_compute. reflexivity.
  - intros data s. apply toy_typed. by_compute.
  - apply _.
  - apply _.
  - vm_compute. reflexivity.
  - reflexivity.
  - apply toy_run.
Defined.

(** A request half a minute later is answered from the cache. *)
Lemma issue_serves_current_witness :
  ∃ i' w', @Issue ToyEd25519 toy_loader toy_reply_value.2 (toy_now + 30 * Second) toy_reply.2 =
      (Ret (Ok toy_published, i'), w') ∧
    current i' (Truncate (toy_now + 30 * Second) Second).
Proof.
  assert (Hok : cache_ok toy_reply_value.2).
  { split; [vm_compute; done..|]. intros _. split_and!; vm_compute; done. }
  assert (HI : @Issue ToyEd25519 toy_loader toy_reply_value.2 (toy_now + 30 * Second) toy_reply.2 =
    (Ret (Ok toy_published, toy_reply_value.2), toy_reply.2)) by (vm_compute; reflexivity).
  eexists _, _. split; [exact HI|].
  by apply (issue_serves_current toy_loader _ _ _ _ _ _ Hok HI).
Defined.

(** The catalog cannot be loaded. *)
Definition toy_broken (path : string) : io Catalog := throw (NewError "EIO").

Lemma failed_refresh_is_throttled_witness :
  ∃ res i', @reissue ToyEd25519 toy_broken toy_issuer toy_now (toy_world []) =
      (Ret (res, i'), toy_world []) ∧
    ∀ clock w2, toy_now <= Truncate clock Second < toy_now + Z.min (5 * Second) (is_cacheFor toy_issuer) →
      @Issue ToyEd25519 toy_broken i' clock w2 =
        (Ret (if cached_until i' (Truncate clock Second) (is_validUntil i') then Ok (is_cached i')
              else Err (Wrap "issuer: load manifest catalog" (NewError "EIO")), i'), w2).
Proof.
  apply (failed_refresh_is_throttled toy_broken toy_issuer toy_now (toy_world [])).
  - reflexivity.
  - split; [vm_compute; done..|]. intros Hp. by destruct Hp; vm_compute.
  - vm_compute. reflexivity.
  - assert (E : st_LastVersion (is_state toy_issuer) = 0) by (vm_compute; reflexivity). lia.
Defined.
