(* ===== verification/Selector.v ===== *)
(** * Connection planning ([internal/selector])

    [Rank] turns a verified document and the client's observations into a bounded
    sequence of connection attempts, [Cooldown] computes retry delays and
    [ClassifyProbe] maps probe evidence to a failure class. *)

From S2P Require Import Prelude GoRegexp GoBase64 GoStrings GoNet GoJson Ed25519 KeyPolicy Manifest.

(** ** Data *)

Definition defaultMaxCandidates : Z := 8.

Record Options := mkOptions {
  op_UDPAvailable : bool;
  op_MaxCandidates : Z
}.

Record Observation := mkObservation {
  ob_ConsecutiveFailures : Z;
  ob_CooldownUntil : time;
  ob_LastSuccess : time;
  ob_TransferVerified : bool
}.

(** What a lookup of a missing key yields. *)
Definition zero_Observation : Observation := mkObservation 0 zero_time zero_time false.

Record Candidate := mkCandidate {
  ca_NodeID : string;
  ca_Provider : string;
  ca_ASN : Z;
  ca_Endpoint : Endpoint
}.

Record Plan := mkPlan {
  pl_Candidates : list Candidate;
  pl_RetryAt : time
}.

Record scoredCandidate := mkScored {
  sc_candidate : Candidate;
  sc_score : Z
}.

#[global] Instance Candidate_eq_dec : EqDecision Candidate.
Proof. solve_decision. Defined.
#[global] Instance scoredCandidate_eq_dec : EqDecision scoredCandidate.
Proof. solve_decision. Defined.

(** ** Scoring *)

Section rank.
Context (observations : gmap string Observation) (now : time) (udp : bool).

(** [observations[endpoint.ID]]. *)
Definition observation (e : Endpoint) : Observation :=
  default zero_Observation (observations !! ep_ID e).

Definition score (e : Endpoint) : Z :=
  let o := observation e in
  let s := u64_add (u64_mul (ep_Priority e) 1000) (u64_mul (ob_ConsecutiveFailures o) 100000) in
  if ob_TransferVerified o && negb (IsZero (ob_LastSuccess o)) && (s >=? 100) then u64_sub s 100
  else s.

(** The transport can be used at all. *)
Definition usable (e : Endpoint) : bool :=
  negb (bool_decide (ep_Transport e = TransportAmneziaWG) && negb udp).

Definition cooling (e : Endpoint) : bool := Before now (ob_CooldownUntil (observation e)).

(** The body of the inner loop of [Rank]. *)
Definition visit (node : Node) (acc : list scoredCandidate * time) (e : Endpoint)
    : list scoredCandidate * time :=
  let '(active, retryAt) := acc in
  if negb (usable e) then acc
  else if cooling e then
    let until := ob_CooldownUntil (observation e) in
    (active, if IsZero retryAt || Before until retryAt then until else retryAt)
  else
    (active ++ [mkScored (mkCandidate (nd_ID node) (nd_Provider node) (nd_ASN node) e) (score e)],
     retryAt).

(** Both loops: the candidates in document order and the earliest end of a cooldown. *)
Definition collect (nodes : list Node) : list scoredCandidate * time :=
  foldl (λ acc node, foldl (visit node) acc (nd_Endpoints node)) ([], zero_time) nodes.

End rank.

(** The comparison key of the candidates. *)
Definition scored_key (c : scoredCandidate) : Z * string :=
  (sc_score c, ep_ID (ca_Endpoint (sc_candidate c))).

Definition sortCandidates (active : list scoredCandidate) : list scoredCandidate :=
  sort_slice (λ x y, key_less (scored_key x) (scored_key y)) active.

(** ** Diversity *)

(** One loop of [mostDiverse]: the first candidate within the window that passes. *)
Fixpoint scan (wanted : Candidate → bool) (maximumScore : Z) (index : nat)
    (candidates : list scoredCandidate) : option nat :=
  match candidates with
  | [] => None
  | item :: rest =>
      if sc_score item >? maximumScore then None
      else if wanted (sc_candidate item) then Some index
      else scan wanted maximumScore (S index) rest
  end.

Definition mostDiverse (candidates : list scoredCandidate) (seenProviders : gset string)
    (seenASNs : gset Z) : nat :=
  match candidates with
  | [] => O
  | first :: _ =>
      let maximumScore := u64_add (sc_score first) 10000 in
      let providerSeen c := bool_decide (ca_Provider c ∈ seenProviders) in
      let asnSeen c := bool_decide (ca_ASN c ∈ seenASNs) in
      match scan (λ c, negb (providerSeen c) && negb (asnSeen c)) maximumScore 0 candidates with
      | Some index => index
      | None =>
          match scan (λ c, negb (providerSeen c) || negb (asnSeen c)) maximumScore 0 candidates with
          | Some index => index
          | None => O
          end
      end
  end.

(** The selection loop; [slots] is how many candidates may still be added. *)
Fixpoint choose (slots : nat) (active : list scoredCandidate) (seenProviders : gset string)
    (seenASNs : gset Z) : list Candidate :=
  match slots with
  | O => []
  | S slots' =>
      let index := mostDiverse active seenProviders seenASNs in
      match active !! index with
      | None => []
      | Some item =>
          let selected := sc_candidate item in
          selected :: choose slots' (delete index active)
            ({[ca_Provider selected]} ∪ seenProviders) ({[ca_ASN selected]} ∪ seenASNs)
      end
  end.

Definition effectiveMax (options : Options) : Z :=
  if op_MaxCandidates options =? 0 then defaultMaxCandidates else op_MaxCandidates options.

Definition Rank (document : Document) (observations : gmap string Observation) (now : time)
    (options : Options) : result Plan :=
  Validate document;;
  let max := effectiveMax options in
  fail_if ((max <? 1) || (max >? 16)) (NewError "selector: max candidates must be between 1 and 16");;
  let '(active, retryAt) := collect observations now (op_UDPAvailable options) (doc_Nodes document) in
  Ok (mkPlan (choose (Z.to_nat max) (sortCandidates active) ∅ ∅) retryAt).

(** ** Cooldowns *)

(** [type FailureClass string]. *)
Definition FailureClass : Type := string.
Definition FailureNone : FailureClass := "".
Definition FailureDNS : FailureClass := "dns".
Definition FailureHandshake : FailureClass := "handshake".
Definition FailureTransfer : FailureClass := "transfer".
Definition FailureSuspected : FailureClass := "suspected-censorship".
Definition FailureAllowlist : FailureClass := "suspected-allowlist".

#[global] Instance FailureClass_eq_dec : EqDecision FailureClass := _.

Definition cooldownBounds (class : FailureClass) : result (duration * duration) :=
  if bool_decide (class = FailureDNS) then Ok (5 * Second, 2 * Minute)
  else if bool_decide (class = FailureHandshake) then Ok (15 * Second, 10 * Minute)
  else if bool_decide (class = FailureTransfer) then Ok (30 * Second, 15 * Minute)
  else if bool_decide (class = FailureSuspected) then Ok (2 * Minute, 30 * Minute)
  else if bool_decide (class = FailureAllowlist) then Ok (15 * Minute, 6 * Hour)
  else Err (NewError "selector: unknown failure class").

(** The loop of [Cooldown]; [remaining] is [consecutiveFailures - count]. *)
Fixpoint cooldownLoop (remaining : nat) (delay capDuration : duration) : duration :=
  match remaining with
  | O => if delay >? capDuration then capDuration else delay
  | S remaining' =>
      if delay <? capDuration then
        if delay >? capDuration / 2 then capDuration
        else cooldownLoop remaining' (delay * 2) capDuration
      else if delay >? capDuration then capDuration else delay
  end.

Definition Cooldown (class : FailureClass) (consecutiveFailures : Z) : result duration :=
  '(base, capDuration) ← cooldownBounds class;
  if consecutiveFailures =? 0 then Ok 0
  else Ok (cooldownLoop (Z.to_nat (consecutiveFailures - 1)) base capDuration).

(** ** Probes *)

Definition minimumVerifiedTransferBytes : Z := 64 * 1024.

Record ProbeEvidence := mkProbeEvidence {
  pe_Resolved : bool;
  pe_AllowedWitnessReachable : bool;
  pe_EndpointReachable : bool;
  pe_HandshakeComplete : bool;
  pe_ProtectedDNSResolved : bool;
  pe_TunnelRouteConfirmed : bool;
  pe_UploadedBytes : Z;
  pe_DownloadedBytes : Z
}.

Definition ClassifyProbe (evidence : ProbeEvidence) : FailureClass :=
  if negb (pe_Resolved evidence) then FailureDNS
  else if negb (pe_EndpointReachable evidence) then
    if pe_AllowedWitnessReachable evidence then FailureAllowlist else FailureHandshake
  else if negb (pe_HandshakeComplete evidence) then FailureHandshake
  else if negb (pe_ProtectedDNSResolved evidence) || negb (pe_TunnelRouteConfirmed evidence)
       || (pe_UploadedBytes evidence <? minimumVerifiedTransferBytes)
       || (pe_DownloadedBytes evidence <? minimumVerifiedTransferBytes) then FailureTransfer
  else FailureNone.

Definition ProbeHealthy (evidence : ProbeEvidence) : bool :=
  bool_decide (ClassifyProbe evidence = FailureNone).

(** ** Lemmas on cooldowns *)

(** The loop computes the capped power of two. *)
Lemma cooldownLoop_spec n delay cap :
  0 < delay → cap mod 2 = 0 → cooldownLoop n delay cap = Z.min cap (delay * 2 ^ Z.of_nat n).
Proof.
  revert delay. induction n as [|n IH]; intros delay Hd Hc; cbn [cooldownLoop].
  - replace (delay * 2 ^ Z.of_nat 0) with delay by lia.
    rewrite Z.gtb_ltb. destruct (Z.ltb_spec cap delay); lia.
  - rewrite Nat2Z.inj_succ, Z.pow_succ_r by lia.
    assert (1 <= 2 ^ Z.of_nat n) by (pose proof (Z.pow_pos_nonneg 2 (Z.of_nat n)); lia).
    rewrite !Z.gtb_ltb. destruct (Z.ltb_spec delay cap).
    + destruct (Z.ltb_spec (cap / 2) delay).
      * assert (cap <= delay * 2) by divlia. nia.
      * rewrite IH by lia. f_equal. lia.
    + destruct (Z.ltb_spec cap delay); nia.
Qed.

Lemma cooldownBounds_inv class base cap :
  cooldownBounds class = Ok (base, cap) → 0 < base < cap ∧ cap mod 2 = 0 ∧ cap <= 6 * Hour.
Proof.
  unfold cooldownBounds. repeat case_bool_decide; intros [= <- <-]; split_and!; done.
Qed.

(** ** Lemmas on selection *)

Lemma scan_Some wanted max i l j :
  scan wanted max i l = Some j →
  ∃ k x, j = (i + k)%nat ∧ l !! k = Some x ∧ sc_score x <= max ∧ wanted (sc_candidate x) = true.
Proof.
  revert i. induction l as [|y l IH]; intros i; [done|]. cbn [scan]. rewrite Z.gtb_ltb.
  destruct (Z.ltb_spec max (sc_score y)); [done|]. destruct (wanted (sc_candidate y)) eqn:Ew.
  - intros [= <-]. exists 0%nat, y. split_and!; [lia|done..].
  - intros (k & x & -> & ?)%IH. exists (S k), x. split; [lia|done].
Qed.

Definition score_le (x y : scoredCandidate) : Prop := sc_score x <= sc_score y.

Lemma scan_None wanted max i l x :
  StronglySorted score_le l → scan wanted max i l = None → x ∈ l → sc_score x <= max →
  wanted (sc_candidate x) = false.
Proof.
  intros Hs. revert i. induction Hs as [|y l Hs IH Hall]; intros i; [set_solver|].
  cbn [scan]. rewrite Z.gtb_ltb. rewrite Forall_forall in Hall.
  destruct (Z.ltb_spec max (sc_score y)) as [Hlt|Hge].
  - intros _ [->|Hx]%elem_of_cons Hm; [lia|]. specialize (Hall x Hx). unfold score_le in Hall. lia.
  - destruct (wanted (sc_candidate y)) eqn:Ew; [done|].
    intros Hn [->|Hx]%elem_of_cons Hm; [done|by eapply IH].
Qed.

(** The window of a list of candidates: within 10 000 points of the best one. *)
Definition in_window (active : list scoredCandidate) (x : scoredCandidate) : Prop :=
  ∀ y, y ∈ active → sc_score x <= sc_score y + 10000.

Definition fresh (sp : gset string) (sa : gset Z) (c : Candidate) : Prop :=
  (ca_Provider c ∉ sp) ∧ (ca_ASN c ∉ sa).

(** Scores far from the end of the [uint64] range. *)
Definition small (x : scoredCandidate) : Prop := 0 <= sc_score x < 2 ^ 63.

(** What [mostDiverse] returns for a sorted list: an element of the window, and one of a
    fresh provider and ASN if the window has any. *)
Lemma mostDiverse_spec active sp sa :
  StronglySorted score_le active → Forall small active → active ≠ [] →
  ∃ x, active !! mostDiverse active sp sa = Some x ∧ in_window active x ∧
    ∀ y, y ∈ active → in_window active y → fresh sp sa (sc_candidate y) → fresh sp sa (sc_candidate x).
Proof.
  intros Hs Hsm Hne. destruct active as [|first rest]; [done|]. unfold mostDiverse.
  assert (Hfirst : ∀ y, y ∈ first :: rest → sc_score first <= sc_score y).
  { apply StronglySorted_inv in Hs as [_ Hall]. rewrite Forall_forall in Hall.
    intros y [->|Hy]%elem_of_cons; [lia|by apply Hall]. }
  assert (Hmax : u64_add (sc_score first) 10000 = sc_score first + 10000).
  { apply Forall_cons in Hsm as [Hf _]. unfold small, u64_add in *. apply Z.mod_small. lia. }
  rewrite Hmax. set (l := first :: rest) in *.
  assert (Hwin : ∀ x, sc_score x <= sc_score first + 10000 → in_window l x).
  { intros x Hx y Hy. specialize (Hfirst y Hy). lia. }
  assert (Hwin' : ∀ y, in_window l y → sc_score y <= sc_score first + 10000).
  { intros y Hy. apply Hy. unfold l. set_solver. }
  assert (Hb : ∀ c, negb (bool_decide (ca_Provider c ∈ sp)) && negb (bool_decide (ca_ASN c ∈ sa)) = true
    ↔ fresh sp sa c) by (intros c; unfold fresh; do 2 case_bool_decide; naive_solver).
  destruct (scan _ _ 0 l) as [j|] eqn:E1.
  { apply scan_Some in E1 as (k & x & -> & Hk & Hx & Hw%Hb). exists x. split_and!; auto. }
  assert (Hnone : ∀ y, y ∈ l → in_window l y → fresh sp sa (sc_candidate y) → False).
  { intros y Hy Hyw Hf. pose proof (scan_None _ _ _ _ y Hs E1 Hy (Hwin' y Hyw)).
    apply Hb in Hf. congruence. }
  clear E1 Hb. destruct (scan _ _ 0 l) as [j|] eqn:E2.
  - apply scan_Some in E2 as (k & x & -> & Hk & Hx & _). exists x. split_and!; [done|auto|].
    intros y Hy Hyw Hf. by destruct (Hnone y).
  - exists first. split_and!; [done|apply Hwin; lia|]. intros y Hy Hyw Hf. by destruct (Hnone y).
Qed.

(** The picks of the selection loop, with what is left at each of them. *)
Fixpoint picks (active : list scoredCandidate) (sp : gset string) (sa : gset Z)
    (sel : list scoredCandidate) : Prop :=
  match sel with
  | [] => True
  | x :: sel' => ∃ rest, active ≡ₚ x :: rest ∧ in_window active x ∧
      (∀ y, y ∈ active → in_window active y → fresh sp sa (sc_candidate y) →
        fresh sp sa (sc_candidate x)) ∧
      picks rest ({[ca_Provider (sc_candidate x)]} ∪ sp) ({[ca_ASN (sc_candidate x)]} ∪ sa) sel'
  end.

Lemma StronglySorted_delete {A} (R : relation A) i l : StronglySorted R l → StronglySorted R (delete i l).
Proof.
  intros Hs. revert i. induction Hs as [|x l Hs IH Hall]; intros [|i]; cbn; [constructor..|done|].
  constructor; [apply IH|]. apply Forall_delete. done.
Qed.

Lemma choose_spec slots active sp sa :
  StronglySorted score_le active → Forall small active →
  ∃ sel, choose slots active sp sa = sc_candidate <$> sel ∧ picks active sp sa sel ∧
    length sel = (slots `min` length active)%nat.
Proof.
  revert active sp sa. induction slots as [|slots IH]; intros active sp sa Hs Hsm.
  { by exists []. }
  cbn [choose]. destruct (decide (active = [])) as [->|Hne]; [by exists []|].
  destruct (mostDiverse_spec active sp sa Hs Hsm Hne) as (x & Hx & Hw & Hf). rewrite Hx.
  destruct (IH (delete (mostDiverse active sp sa) active) ({[ca_Provider (sc_candidate x)]} ∪ sp)
    ({[ca_ASN (sc_candidate x)]} ∪ sa)) as (sel & Hc & Hp & Hl).
  { by apply StronglySorted_delete. }
  { by apply Forall_delete. }
  exists (x :: sel). split_and!; [by rewrite Hc| |].
  - exists (delete (mostDiverse active sp sa) active). split_and!; [|done..].
    by apply delete_Permutation.
  - cbn [length]. rewrite Hl. apply lookup_lt_Some in Hx as Hlt.
    rewrite length_delete by eauto. lia.
Qed.

(** What the picks mean for the whole sequence. *)
Lemma picks_sub active sp sa sel :
  picks active sp sa sel → ∃ rest, active ≡ₚ sel ++ rest.
Proof.
  revert active sp sa. induction sel as [|x sel IH]; intros active sp sa; [by exists active|].
  intros (rest & Hp & _ & _ & Hr). destruct (IH _ _ _ Hr) as [rest' Hrest].
  exists rest'. by rewrite Hp, Hrest.
Qed.

Lemma picks_at active sp sa l1 x l2 :
  picks active sp sa (l1 ++ x :: l2) →
  ∃ left, active ≡ₚ l1 ++ left ∧ x ∈ left ∧ in_window left x ∧
    let sp' := list_to_set (ca_Provider ∘ sc_candidate <$> l1) ∪ sp in
    let sa' := list_to_set (ca_ASN ∘ sc_candidate <$> l1) ∪ sa in
    ∀ y, y ∈ left → in_window left y → fresh sp' sa' (sc_candidate y) → fresh sp' sa' (sc_candidate x).
Proof.
  revert active sp sa. induction l1 as [|z l1 IH]; intros active sp sa.
  - intros (rest & Hp & Hw & Hf & _). exists active. cbn [fmap list_fmap list_to_set].
    rewrite !union_empty_l_L. split_and!; [done| |done|done]. rewrite Hp. set_solver.
  - intros (rest & Hp & _ & _ & Hr). destruct (IH _ _ _ Hr) as (left & Hl & Hx & Hw & Hf).
    exists left. split_and!; [by rewrite Hp, Hl|done..|].
    cbn [fmap list_fmap list_to_set compose]. cbn [compose] in Hf.
    rewrite <- !(union_assoc_L {[_]}), !(union_comm_L {[_]}), <- !union_assoc_L in *.
    intros y Hy Hyw. by apply Hf.
Qed.

(** ** What the loops collect *)

Section collected.
Context (observations : gmap string Observation) (now : time) (udp : bool).

(** Worth an attempt now. *)
Definition available (e : Endpoint) : bool :=
  usable udp e && negb (cooling observations now e).

Definition scored (node : Node) (e : Endpoint) : scoredCandidate :=
  mkScored (mkCandidate (nd_ID node) (nd_Provider node) (nd_ASN node) e) (score observations e).

Definition eligible (nodes : list Node) : list scoredCandidate :=
  nodes ≫= λ n, scored n <$> filter (λ e, available e = true) (nd_Endpoints n).

(** Usable, but to be left alone until its cooldown ends. *)
Definition waiting (e : Endpoint) : bool := usable udp e && cooling observations now e.

Definition until (e : Endpoint) : time := ob_CooldownUntil (observation observations e).

Definition earlier (r : time) (e : Endpoint) : time :=
  if waiting e then if IsZero r || Before (until e) r then until e else r else r.

Lemma visit_endpoints node es active r :
  foldl (visit observations now udp node) (active, r) es =
  (active ++ (scored node <$> filter (λ e, available e = true) es), foldl earlier r es).
Proof.
  revert active r. induction es as [|e es IH]; intros active r; cbn [foldl].
  { by rewrite app_nil_r. }
  unfold visit at 2, earlier at 2, waiting. rewrite filter_cons.
  destruct (decide (available e = true)) as [Ha|Ha]; unfold available in Ha;
    destruct (usable udp e), (cooling observations now e) eqn:Ec; cbn in *; try done;
    rewrite IH; [|done..].
  by rewrite <- app_assoc.
Qed.

Lemma collect_spec nodes :
  collect observations now udp nodes =
  (eligible nodes, foldl earlier zero_time (nodes ≫= nd_Endpoints)).
Proof.
  unfold collect. change (eligible nodes) with ([] ++ eligible nodes).
  generalize (@nil scoredCandidate) zero_time. induction nodes as [|n nodes IH]; intros active r; cbn.
  { by rewrite app_nil_r. }
  rewrite visit_endpoints, IH. unfold eligible. cbn. by rewrite <- app_assoc, foldl_app.
Qed.

(** The running minimum over the endpoints in cooldown. *)
Lemma earlier_spec es r :
  0 <= now → (r = zero_time ∨ now < r) →
  let r' := foldl earlier r es in
  (r' = zero_time ∧ r = zero_time ∧ Forall (λ e, waiting e = false) es) ∨
  (now < r' ∧ (r' = r ∨ ∃ e, e ∈ es ∧ waiting e = true ∧ until e = r') ∧
   (r ≠ zero_time → r' <= r) ∧ ∀ e, e ∈ es → waiting e = true → r' <= until e).
Proof.
  intros Hnow. revert r. induction es as [|e es IH]; intros r Hr; cbn [foldl].
  { destruct Hr as [->|Hr]; [left; split_and!; [done..|constructor]|right].
    split_and!; [done|by left|lia|set_solver]. }
  destruct (waiting e) eqn:Ew.
  - assert (Hu : now < until e).
    { unfold waiting, cooling, Before in Ew. unfold until. lia. }
    set (r1 := if IsZero r || Before (until e) r then until e else r).
    assert (earlier r e = r1) as -> by (unfold earlier; by rewrite Ew).
    assert (Hr1 : now < r1 ∧ r1 <= until e ∧ (r ≠ zero_time → r1 <= r) ∧ (r1 = r ∨ r1 = until e)).
    { unfold r1, IsZero, Before, zero_time in *.
      destruct (Z.eqb_spec r 0), (Z.ltb_spec (until e) r); cbn; split_and!; lia. }
    destruct (IH r1 ltac:(lia)) as [(_ & E & _)|(H1 & H2 & H3 & H4)].
    { unfold zero_time in E. lia. }
    assert (foldl earlier r1 es <= r1) by (apply H3; unfold zero_time; lia).
    right. split_and!; [done| |intros Hz; destruct Hr1 as (_ & _ & Hle & _); specialize (Hle Hz); lia|].
    + destruct H2 as [->|(e' & ? & ? & ?)]; [|right; exists e'; set_solver].
      destruct Hr1 as (_ & _ & _ & [->| ->]); [by left|right; exists e; set_solver].
    + intros e' [->|He']%elem_of_cons Hw; [lia|auto].
  - assert (earlier r e = r) as -> by (unfold earlier; by rewrite Ew).
    destruct (IH r Hr) as [(E1 & E2 & H3)|(H1 & H2 & H3 & H4)]; [left|right].
    + split_and!; [done..|]. by constructor.
    + split_and!; [done| |done|].
      * destruct H2 as [?|(e' & ? & ? & ?)]; [by left|right; exists e'; set_solver].
      * intros e' [->|He']%elem_of_cons Hw; [congruence|auto].
Qed.

End collected.

(** ** Ranking *)

(** The integers of the catalog and the observations are [uint16]s. *)
Definition rank_typed (document : Document) (observations : gmap string Observation) : Prop :=
  Forall (λ n, Forall (λ e, is_u16 (ep_Priority e)) (nd_Endpoints n)) (doc_Nodes document) ∧
  map_Forall (λ _ o, is_u16 (ob_ConsecutiveFailures o)) observations.

#[global] Instance rank_typed_dec d o : Decision (rank_typed d o).
Proof. unfold rank_typed. apply _. Defined.

Section ranking.
Context (document : Document) (observations : gmap string Observation) (now : time) (udp : bool).
Context (Hvalid : document_valid document) (Htyped : rank_typed document observations).

Abbreviation candidates := (eligible observations now udp (doc_Nodes document)).

Lemma eligible_inv x : x ∈ candidates → ∃ n e, n ∈ doc_Nodes document ∧ e ∈ nd_Endpoints n ∧
  available observations now udp e = true ∧ x = scored observations n e.
Proof.
  unfold eligible. intros (n & Hx & Hn)%list_elem_of_bind.
  apply list_elem_of_fmap in Hx as (e & -> & [Ha He]%list_elem_of_filter). eauto 6.
Qed.

Lemma observation_u16 e : is_u16 (ob_ConsecutiveFailures (observation observations e)).
Proof.
  unfold observation. destruct (_ !! _) as [o|] eqn:E; [|by split].
  by apply (proj2 Htyped) in E.
Qed.

(** The score in the integers: no addition, multiplication or subtraction wraps. *)
Lemma score_exact n e :
  n ∈ doc_Nodes document → e ∈ nd_Endpoints n →
  let o := observation observations e in
  let s := ep_Priority e * 1000 + ob_ConsecutiveFailures o * 100000 in
  1 <= ep_Priority e <= 1000 ∧
  score observations e =
    s - (if ob_TransferVerified o && negb (IsZero (ob_LastSuccess o)) then 100 else 0).
Proof.
  intros Hn He o s. pose proof (observation_u16 e) as Hf. fold o in Hf.
  assert (Hp : is_u16 (ep_Priority e)).
  { destruct Htyped as [Ht _]. rewrite Forall_forall in Ht. specialize (Ht n Hn).
    rewrite Forall_forall in Ht. auto. }
  assert (Hv : validateEndpoint e = Ok tt).
  { destruct Hvalid as [_ _ _ _ _ _ _ _ _ [_ _ _ _ Hns _ _]]. rewrite Forall_forall in Hns.
    destruct (Hns n Hn) as [_ _ _ _ _ _ Hes]. rewrite Forall_forall in Hes. auto. }
  assert (Hr : 1 <= ep_Priority e <= 1000).
  { unfold validateEndpoint in Hv. inv_ok. unfold is_u16 in Hp. lia. }
  split; [done|]. unfold score. fold o. unfold u64_add, u64_mul, is_u16 in *.
  rewrite !(Z.mod_small (_ * _)) by lia. rewrite Z.mod_small by lia. fold s.
  destruct (ob_TransferVerified o && negb (IsZero (ob_LastSuccess o))) eqn:Eb; cbn [andb].
  - rewrite (proj2 (Z.geb_le s 100)) by (unfold s; lia). unfold u64_sub. apply Z.mod_small.
    unfold s. lia.
  - lia.
Qed.

Lemma eligible_small : Forall small candidates.
Proof.
  apply Forall_forall. intros x (n & e & Hn & He & _ & ->)%eligible_inv. unfold small. cbn.
  destruct (score_exact n e Hn He) as [Hp ->]. pose proof (observation_u16 e) as Hf. unfold is_u16 in Hf.
  destruct (_ && _); lia.
Qed.

Lemma eligible_ids nodes :
  (λ x, ep_ID (ca_Endpoint (sc_candidate x))) <$> eligible observations now udp nodes =
  nodes ≫= λ n, ep_ID <$> filter (λ e, available observations now udp e = true) (nd_Endpoints n).
Proof.
  unfold eligible. induction nodes as [|n nodes IH]; [done|]. cbn.
  rewrite fmap_app, IH. f_equal. by rewrite <- list_fmap_compose.
Qed.

Lemma eligible_ids_sublist nodes :
  (λ x, ep_ID (ca_Endpoint (sc_candidate x))) <$> eligible observations now udp nodes
    `sublist_of` endpoint_ids nodes.
Proof.
  rewrite eligible_ids. unfold endpoint_ids. induction nodes as [|n nodes IH]; [done|]. cbn.
  apply sublist_app; [|done]. apply fmap_sublist, sublist_filter.
Qed.

Lemma eligible_distinct : NoDup ((λ x, ep_ID (ca_Endpoint (sc_candidate x))) <$> candidates).
Proof.
  eapply sublist_NoDup; [|apply eligible_ids_sublist].
  by destruct Hvalid as [_ _ _ _ _ _ _ _ _ []].
Qed.

Lemma sortCandidates_perm l : sortCandidates l ≡ₚ l.
Proof. apply (sort_by_perm scored_key). Qed.

Lemma sortCandidates_sorted l : StronglySorted score_le (sortCandidates l).
Proof.
  eapply StronglySorted_impl; [|apply (sort_by_sorted scored_key)].
  intros x y. unfold key_le, key_less, score_le, scored_key. cbn.
  destruct (Z.eqb_spec (sc_score y) (sc_score x)); lia.
Qed.

(** The plan as the picks of the selection loop. *)
Lemma Rank_inv options plan :
  op_UDPAvailable options = udp → Rank document observations now options = Ok plan →
  ∃ sel, pl_Candidates plan = sc_candidate <$> sel ∧
    picks (sortCandidates candidates) ∅ ∅ sel ∧
    llen sel = Z.min (effectiveMax options) (llen candidates) ∧ 1 <= effectiveMax options <= 16 ∧
    pl_RetryAt plan = foldl (earlier observations now udp) zero_time (doc_Nodes document ≫= nd_Endpoints).
Proof.
  intros Hudp HR. unfold Rank in HR. rewrite Hudp, collect_spec in HR. clear Hudp. inv_ok. cbn.
  set (max := effectiveMax options) in *.
  destruct (choose_spec (Z.to_nat max) (sortCandidates candidates) ∅ ∅) as (sel & Hc & Hp & Hl).
  { apply sortCandidates_sorted. }
  { rewrite sortCandidates_perm. apply eligible_small. }
  exists sel. split_and!; [done..| |lia|lia|done].
  rewrite sortCandidates_perm in Hl. unfold llen. lia.
Qed.

End ranking.

(** ** Properties *)

Lemma Rank_valid document observations now options plan :
  Rank document observations now options = Ok plan → document_valid document.
Proof. unfold Rank. intros ([] & Hv & _)%mbind_Ok. by apply Validate_inv. Qed.

(** C25: a plan is sound and as long as it can be: it attempts distinct endpoints of the
    document, each with the node, provider and ASN it belongs to, over a usable
    transport and outside its cooldown, and it has as many entries as there are such
    endpoints, up to the requested bound. *)
Theorem rank_plan_sound document observations now options plan :
  rank_typed document observations → Rank document observations now options = Ok plan →
  NoDup (ep_ID ∘ ca_Endpoint <$> pl_Candidates plan) ∧
  (∀ c, c ∈ pl_Candidates plan → ∃ n, n ∈ doc_Nodes document ∧ ca_Endpoint c ∈ nd_Endpoints n ∧
     c = mkCandidate (nd_ID n) (nd_Provider n) (nd_ASN n) (ca_Endpoint c) ∧
     usable (op_UDPAvailable options) (ca_Endpoint c) = true ∧
     cooling observations now (ca_Endpoint c) = false) ∧
  llen (pl_Candidates plan) = Z.min (effectiveMax options)
    (llen (eligible observations now (op_UDPAvailable options) (doc_Nodes document))) ∧
  1 <= effectiveMax options <= 16.
Proof.
  intros Ht HR. pose proof (Rank_valid _ _ _ _ _ HR) as Hv.
  destruct (Rank_inv document observations now _ Hv Ht options plan eq_refl HR)
    as (sel & -> & Hp & Hl & Hmax & _).
  destruct (picks_sub _ _ _ _ Hp) as (rest & Hrest). rewrite sortCandidates_perm in Hrest.
  split_and!; [| |by unfold llen in *; rewrite length_fmap|lia..].
  - pose proof (eligible_distinct document observations now (op_UDPAvailable options) Hv) as Hd.
    rewrite Hrest, fmap_app in Hd. apply NoDup_app in Hd as [Hd _].
    by rewrite <- list_fmap_compose.
  - intros c (x & -> & Hx)%list_elem_of_fmap.
    destruct (eligible_inv document observations now (op_UDPAvailable options) x)
      as (n & e & Hn & He & Ha & ->).
    { rewrite Hrest. set_solver. }
    exists n. unfold available in Ha. cbn. inv_ok. split_and!; done.
Qed.

(** Diversity never resurrects a substantially worse path: at every position the
    chosen endpoint scores within 10 000 points of every endpoint still available, and if
    one within that window has a provider and an ASN that were not tried yet, the chosen
    one has too. *)
Theorem rank_prefers_diversity_in_window document observations now options plan l1 c l2 :
  rank_typed document observations → Rank document observations now options = Ok plan →
  pl_Candidates plan = l1 ++ c :: l2 →
  let sc := λ c, score observations (ca_Endpoint c) in
  let left := filter (λ d, d ∉ l1) (sc_candidate <$>
    eligible observations now (op_UDPAvailable options) (doc_Nodes document)) in
  let new := λ d, (ca_Provider d ∉ ca_Provider <$> l1) ∧ (ca_ASN d ∉ ca_ASN <$> l1) in
  c ∈ left ∧ (∀ d, d ∈ left → sc c <= sc d + 10000) ∧
  ((∃ d, d ∈ left ∧ new d ∧ ∀ d', d' ∈ left → sc d <= sc d' + 10000) → new c).
Proof.
  intros Ht HR Hplan sc left new. pose proof (Rank_valid _ _ _ _ _ HR) as Hv.
  destruct (Rank_inv document observations now _ Hv Ht options plan eq_refl HR)
    as (sel & Hsel & Hp & _). rewrite Hplan in Hsel. symmetry in Hsel.
  apply fmap_app_inv in Hsel as (s1 & s2 & -> & Hs2 & ->).
  destruct s2 as [|x s2]; [done|]. injection Hs2 as -> ->.
  destruct (picks_at _ _ _ _ _ _ Hp) as (rest & Hrest & Hx & Hw & Hf).
  rewrite sortCandidates_perm in Hrest.
  set (cands := eligible observations now (op_UDPAvailable options) (doc_Nodes document)) in *.
  assert (Hscore : ∀ y, y ∈ cands → sc_score y = sc (sc_candidate y)).
  { intros y Hy. by destruct (eligible_inv _ _ _ _ _ Hy) as (n & e & _ & _ & _ & ->). }
  assert (Hleft : ∀ d, d ∈ left ↔ ∃ y, y ∈ rest ∧ d = sc_candidate y).
  { intros d. unfold left. rewrite list_elem_of_filter, !list_elem_of_fmap. split.
    - intros [Hni (y & -> & Hy)]. exists y. split; [|done].
      rewrite Hrest in Hy. apply elem_of_app in Hy as [Hy|Hy]; [|done].
      destruct Hni. eauto.
    - intros (y & Hy & ->). split; [|exists y; split; [done|]; rewrite Hrest; set_solver].
      intros (z & Hz & Hz1).
      pose proof (eligible_distinct document observations now (op_UDPAvailable options) Hv) as Hd.
      fold cands in Hd. rewrite Hrest, fmap_app in Hd. apply NoDup_app in Hd as (_ & Hd & _).
      apply (Hd (ep_ID (ca_Endpoint (sc_candidate z)))).
      + by apply (list_elem_of_fmap_2 (λ x, ep_ID (ca_Endpoint (sc_candidate x)))).
      + rewrite <- Hz. by apply (list_elem_of_fmap_2 (λ x, ep_ID (ca_Endpoint (sc_candidate x)))). }
  assert (Hin : ∀ y, y ∈ rest → y ∈ cands) by (intros y; rewrite Hrest; set_solver).
  assert (Hwin : ∀ y, y ∈ rest →
    (in_window rest y ↔ ∀ d, d ∈ left → sc (sc_candidate y) <= sc d + 10000)).
  { intros y Hy. unfold in_window. rewrite <- Hscore by auto. split.
    - intros Hwy d (z & Hz & ->)%Hleft. rewrite <- Hscore by auto. by apply Hwy.
    - intros Hwy z Hz. rewrite (Hscore z) by auto. apply Hwy, Hleft. eauto. }
  assert (Hnew : ∀ d, fresh (list_to_set (ca_Provider ∘ sc_candidate <$> s1) ∪ ∅)
    (list_to_set (ca_ASN ∘ sc_candidate <$> s1) ∪ ∅) d ↔ new d).
  { intros d. unfold fresh, new. rewrite !list_fmap_compose. set_solver. }
  split_and!; [apply Hleft; eauto|by apply Hwin|].
  intros (d & (y & Hy & ->)%Hleft & Hd & Hdw). apply Hnew. apply (Hf y); [done|by apply Hwin|].
  by apply Hnew.
Qed.

(** When endpoints are in cooldown, [RetryAt] is the earliest moment at which one of
    them becomes available again, and it is the zero time exactly when no usable endpoint
    is in cooldown. *)
Theorem rank_retry_at document observations now options plan :
  0 <= now → Rank document observations now options = Ok plan →
  let waits := waiting observations now (op_UDPAvailable options) in
  let all := doc_Nodes document ≫= nd_Endpoints in
  (pl_RetryAt plan = zero_time ∧ Forall (λ e, waits e = false) all) ∨
  (now < pl_RetryAt plan ∧ (∃ e, e ∈ all ∧ waits e = true ∧ until observations e = pl_RetryAt plan) ∧
   ∀ e, e ∈ all → waits e = true → pl_RetryAt plan <= until observations e).
Proof.
  intros Hnow HR waits all. unfold Rank in HR. rewrite collect_spec in HR. inv_ok. cbn.
  destruct (earlier_spec observations now (op_UDPAvailable options) all zero_time Hnow)
    as [(H1 & _ & H2)|(H1 & [H2|H2] & _ & H4)]; [by left|by left|..].
  - fold all. rewrite H2 in H1. unfold zero_time in H1. lia.
  - by right.
Qed.

(** The plan does not depend on the order in which the document lists its nodes. *)
Theorem rank_order_independent document document' observations now options plan :
  Rank document observations now options = Ok plan → Validate document' = Ok tt →
  doc_Nodes document' ≡ₚ doc_Nodes document →
  ∃ plan', Rank document' observations now options = Ok plan' ∧
    pl_Candidates plan' = pl_Candidates plan.
Proof.
  intros HR Hv' Hn. pose proof (Rank_valid _ _ _ _ _ HR) as Hv. unfold Rank in *.
  rewrite collect_spec in HR. inv_ok. rewrite Hv'. cbn [mbind result_bind].
  rewrite (proj2 (fail_if_Ok _ _ tt)) by lia. cbn [mbind result_bind]. rewrite collect_spec.
  eexists. split; [done|]. cbn. f_equal.
  apply (sort_by_perm_eq scored_key); [|by unfold eligible; rewrite Hn].
  apply ids_NoDup_keys. by apply eligible_distinct.
Qed.

(** C40: [Cooldown] is the capped exponential: the base delay of the class doubled for every
    further failure, never above the cap of the class, and 0 without a failure.  (The loop
    always terminates, and no intermediate delay leaves [time.Duration].) *)
Theorem cooldown_is_capped_exponential class n base cap :
  cooldownBounds class = Ok (base, cap) → is_u16 n →
  Cooldown class n = Ok (if n =? 0 then 0 else Z.min cap (base * 2 ^ (n - 1))).
Proof.
  intros Hb Hn. destruct (cooldownBounds_inv _ _ _ Hb) as (? & ? & _). unfold Cooldown. rewrite Hb. cbn.
  destruct (Z.eqb_spec n 0); [done|]. unfold is_u16 in Hn.
  rewrite cooldownLoop_spec by lia. do 4 f_equal. lia.
Qed.

(** A probe counts as healthy exactly when every stage succeeded and at least 64 KiB
    went through the tunnel in each direction, and every other outcome is mapped to a class
    that [Cooldown] knows. *)
Theorem probe_healthy_exact e :
  (ProbeHealthy e = true ↔
     pe_Resolved e = true ∧ pe_EndpointReachable e = true ∧ pe_HandshakeComplete e = true ∧
     pe_ProtectedDNSResolved e = true ∧ pe_TunnelRouteConfirmed e = true ∧
     65536 <= pe_UploadedBytes e ∧ 65536 <= pe_DownloadedBytes e) ∧
  (ProbeHealthy e = false → is_Ok (cooldownBounds (ClassifyProbe e)) = true).
Proof.
  unfold ProbeHealthy, ClassifyProbe, minimumVerifiedTransferBytes.
  destruct e as [r a ep h d t u dn]; cbn.
  destruct r, ep, h, d, t, a, (Z.ltb_spec u (64 * 1024)), (Z.ltb_spec dn (64 * 1024)); cbn;
    (split; [split|]); intros; destruct_and?; try done; try lia; split_and!; done || lia.
Qed.

(** ** Examples *)

(** Three endpoints, one of them in cooldown and one over UDP. *)
Definition toy_nodes : list Node :=
  [toy_node "node-1" "hetzner" 24940 [toy_udp_endpoint "ep-1" 10; toy_endpoint "ep-2" 11];
   toy_node "node-2" "timeweb" 9123 [toy_endpoint "ep-3" 12]; toy_node "node-3" "hetzner" 24940 [toy_endpoint "ep-4" 5]].
Definition toy_document (nodes : list Node) : Document :=
  mkDocument SchemaVersion 1 1 unix_epoch (unix_epoch + Minute) toy_policy toy_discovery nodes.
Definition toy_observations : gmap string Observation :=
  {["ep-4" := mkObservation 2 (unix_epoch + Hour) zero_time false]}.
Definition toy_plan : Plan := Eval vm_compute in
  match Rank (toy_document toy_nodes) toy_observations unix_epoch (mkOptions true 0) with
  | Ok p => p | Err _ => mkPlan [] 0 end.

Lemma toy_rank : Rank (toy_document toy_nodes) toy_observations unix_epoch (mkOptions true 0) = Ok toy_plan.
Proof. vm_compute. reflexivity. Qed.

Example toy_plan_ids : ep_ID ∘ ca_Endpoint <$> pl_Candidates toy_plan = ["ep-1"; "ep-3"; "ep-2"].
Proof. reflexivity. Qed.

Lemma rank_plan_sound_witness : llen (pl_Candidates toy_plan) = 3 ∧ 1 <= 8 <= 16 ∧
  NoDup (ep_ID ∘ ca_Endpoint <$> pl_Candidates toy_plan).
Proof.
  destruct (rank_plan_sound (toy_document toy_nodes) toy_observations unix_epoch (mkOptions true 0)
    toy_plan ltac:(by_compute) toy_rank) as (Hd & _ & _ & Hm).
  split_and!; [done|lia|lia|exact Hd].
Defined.

Lemma rank_prefers_diversity_in_window_witness :
  ∃ l1 c l2, pl_Candidates toy_plan = l1 ++ c :: l2 ∧ l1 ≠ [] ∧
    ∀ d, d ∈ filter (λ d, d ∉ l1) (sc_candidate <$> eligible toy_observations unix_epoch true toy_nodes) →
      score toy_observations (ca_Endpoint c) <= score toy_observations (ca_Endpoint d) + 10000.
Proof.
  set (c := mkCandidate "node-2" "timeweb" 9123 (toy_endpoint "ep-3" 12)).
  exists (take 1 (pl_Candidates toy_plan)), c, (drop 2 (pl_Candidates toy_plan)).
  split; [reflexivity|]. split; [done|].
  apply (rank_prefers_diversity_in_window (toy_document toy_nodes) toy_observations unix_epoch
    (mkOptions true 0) toy_plan (take 1 (pl_Candidates toy_plan)) c (drop 2 (pl_Candidates toy_plan))
    ltac:(by_compute) toy_rank eq_refl).
Defined.

Lemma rank_retry_at_witness :
  pl_RetryAt toy_plan = unix_epoch + Hour ∧ unix_epoch < pl_RetryAt toy_plan.
Proof.
  destruct (rank_retry_at (toy_document toy_nodes) toy_observations unix_epoch (mkOptions true 0)
    toy_plan ltac:(done) toy_rank) as [[H _]|(H & _)]; [done|by split].
Defined.

Lemma rank_order_independent_witness :
  ∃ plan', Rank (toy_document (rev toy_nodes)) toy_observations unix_epoch (mkOptions true 0) = Ok plan' ∧
    pl_Candidates plan' = pl_Candidates toy_plan.
Proof.
  apply (rank_order_independent (toy_document toy_nodes)); [exact toy_rank|vm_compute; reflexivity|].
  symmetry. apply Permutation_rev.
Defined.

Lemma cooldown_is_capped_exponential_witness :
  Cooldown FailureHandshake 4 = Ok (120 * Second) ∧ Cooldown FailureHandshake 65535 = Ok (10 * Minute).
Proof.
  split.
  - rewrite (cooldown_is_capped_exponential FailureHandshake 4 (15 * Second) (10 * Minute));
      [reflexivity|reflexivity|unfold is_u16; lia].
  - reflexivity.
Defined.

Lemma probe_healthy_exact_witness :
  ProbeHealthy (mkProbeEvidence true false true true true true 65536 65535) = false ∧
  is_Ok (cooldownBounds (ClassifyProbe (mkProbeEvidence true false true true true true 65536 65535))) = true.
Proof.
  split; [reflexivity|].
  apply (proj2 (probe_healthy_exact (mkProbeEvidence true false true true true true 65536 65535))).
  reflexivity.
Defined.
