(* ===== verification/Discovery.v ===== *)
(** * The discovery client ([internal/discovery/client.go])

    [Fetch] tries mirrors one after the other, each within its share of the time budget,
    and returns the first manifest that verifies.  The HTTP exchange is an interface
    ([Network]): its answers are arbitrary, the one law assumed (where a theorem is about
    time) is that a request ends by the deadline of its context.

    The model is run on a clock of instants; [attempts] is a log of what was tried. *)

From S2P Require Import Prelude GoRegexp GoBase64 GoSha256 GoStrings GoNet GoJson GoMime Ed25519.
From S2P Require Import KeyPolicy Manifest Envelope.

Definition defaultAttemptTimeout : duration := 12 * Second.
Definition defaultOverallTimeout : duration := 60 * Second.
Definition sourceIDPattern : re := head_tail lower_digit lower_digit_dash 62.

(** Zero stands for an option that was not set.  [cl_Now] is the wall clock at an instant. *)
Record Client := mkClient {
  cl_RootKey : string;
  cl_Now : time → time;
  cl_MaxAttempts : Z;
  cl_AttemptTimeout : duration;
  cl_OverallTimeout : duration
}.

Record Result := mkResult {
  rs_Document : Document;
  rs_Trusted : TrustedState;
  rs_SourceID : string
}.

(** The caller's context: its deadline and when it is cancelled, if ever. *)
Record Context := mkContext {
  ctx_deadline : option time;
  ctx_cancelled : option time
}.

(** What the client reads of an HTTP response; the URL is that of the last request made,
    [None] if there is none. *)
Record Response := mkResponse {
  rp_RequestURL : option (string * string);
  rp_StatusCode : Z;
  rp_ContentType : string;
  rp_Body : Reader
}.

(** [http.NewRequestWithContext] and [http.Client.Do]: a request sent at an instant with a
    deadline yields a response or an error, and the instant at which its body was read.
    [EqualFold] is [strings.EqualFold]. *)
Class Network := {
  http_NewRequest : URL → result unit;
  http_Do : URL → time → time → result Response * time;
  EqualFold : string → string → bool
}.

(** A context with a deadline is honoured. *)
Class NetworkLaws `{Network} : Prop :=
  http_Do_deadline u start deadline :
    start <= deadline → start <= (http_Do u start deadline).2 <= deadline.

Definition validateSource (source : DiscoveryEndpoint) : result URL :=
  match ParseRequestURI (de_URL source) with
  | Some parsed =>
      if https_url parsed then Ok parsed
      else Err (NewError "source must be an HTTPS URL without credentials, query, or fragment")
  | None => Err (NewError "source must be an HTTPS URL without credentials, query, or fragment")
  end.

(** The loop that validates the sources. *)
Fixpoint validateSources (seenIDs : gset string) (sources : list DiscoveryEndpoint) : result unit :=
  match sources with
  | [] => Ok tt
  | source :: rest =>
      fail_if (negb (MatchString sourceIDPattern (de_ID source))) (NewError "discovery: invalid source ID");;
      fail_if ((de_Priority source =? 0) || (de_Priority source >? 1000))
        (NewError "discovery: source priority must be between 1 and 1000");;
      fail_if (bool_decide (de_ID source ∈ seenIDs)) (NewError "discovery: duplicate source ID");;
      _ ← wrap "discovery: source" (validateSource source);
      validateSources ({[de_ID source]} ∪ seenIDs) rest
  end.

(** [context.WithTimeout]: the earlier deadline wins. *)
Definition with_timeout (parent : option time) (now : time) (timeout : duration) : time :=
  match parent with Some d => Z.min d (now + timeout) | None => now + timeout end.

(** [fetchContext.Err() != nil]. *)
Definition ctx_done (ctx : Context) (deadline now : time) : bool :=
  (deadline <=? now) || match ctx_cancelled ctx with Some c => c <=? now | None => false end.

Section client.
Context `{Ed25519} `{JsonSyntax} `{JsonDecode Envelope} `{JsonDecode Document} `{Network}.

(** What is accepted of a response. *)
Definition checkResponse (parsed : URL) (response : Response) : result unit :=
  fail_if (match rp_RequestURL response with
           | None => true
           | Some (scheme, host) =>
               negb (bool_decide (scheme = "https")) || negb (EqualFold host (url_Host parsed))
           end) (NewError "redirected discovery response changed origin");;
  fail_if (negb (rp_StatusCode response =? 200)) (NewError "unexpected HTTP status");;
  fail_if (match ParseMediaType (rp_ContentType response) with
           | Some mediaType => negb (bool_decide (mediaType = "application/json"))
           | None => true
           end) (NewError "unexpected Content-Type").

(** [fetchOne], started at [start] with a deadline: the outcome and when it ended. *)
Definition fetchOne (rootKey : string) (source : DiscoveryEndpoint) (now : time)
    (trusted : TrustedState) (start deadline : time) : result (Document * TrustedState) * time :=
  match validateSource source with
  | Err e => (Err e, start)
  | Ok parsed =>
      match wrap "create request" (http_NewRequest parsed) with
      | Err e => (Err e, start)
      | Ok _ =>
          let '(answer, finish) := http_Do parsed start deadline in
          (response ← wrap "request manifest" answer;
           checkResponse parsed response;;
           envelope ← DecodeEnvelope (rp_Body response);
           Verify envelope rootKey now trusted, finish)
      end
  end.

(** One entry of the log: the mirror, when it was tried and for how long at most. *)
Record Attempt := mkAttempt {
  at_Source : DiscoveryEndpoint;
  at_Start : time;
  at_Budget : duration
}.

(** The loop of [Fetch] over the ordered mirrors, at instant [now]. *)
Fixpoint fetchLoop (client : Client) (ctx : Context) (trusted : TrustedState)
    (attemptTimeout : duration) (deadline : time) (now : time) (failures : list error)
    (ordered : list DiscoveryEndpoint) : result Result * list Attempt :=
  let failed := Err (match failures with
    | [] => NewError "discovery: no sources were provided"
    | _ => NewError "discovery: all attempted sources failed" end) in
  match ordered with
  | [] => (failed, [])
  | source :: rest =>
      let fairShare := Z.quot (deadline - now) (llen ordered) in
      let attemptBudget := if fairShare <? attemptTimeout then fairShare else attemptTimeout in
      if attemptBudget <=? 0 then (failed, [])
      else
        let '(outcome, finish) := fetchOne (cl_RootKey client) source (cl_Now client now) trusted now
          (Z.min deadline (now + attemptBudget)) in
        let attempt := mkAttempt source now attemptBudget in
        match outcome with
        | Ok (document, nextState) => (Ok (mkResult document nextState (de_ID source)), [attempt])
        | Err e =>
            let failures := failures ++ [Wrap (de_ID source) e] in
            if ctx_done ctx deadline finish then
              (Err (NewError "discovery: all attempted sources failed"), [attempt])
            else
              let '(r, log) := fetchLoop client ctx trusted attemptTimeout deadline finish failures rest in
              (r, attempt :: log)
        end
  end.

(** [value] or its default when it is zero. *)
Definition or_default (value default : Z) : Z := if value =? 0 then default else value.

(** The checks of [Fetch] on its configuration. *)
Definition checkClient (client : Client) (sources : list DiscoveryEndpoint) : result unit :=
  fail_if (negb (len (cl_RootKey client) =? PublicKeySize))
    (NewError "discovery: a pinned offline root public key is required");;
  fail_if ((llen sources =? 0) || (llen sources >? 16))
    (NewError "discovery: sources must contain between 1 and 16 entries");;
  let maxAttempts := or_default (cl_MaxAttempts client) (llen sources) in
  fail_if ((maxAttempts <? 1) || (maxAttempts >? 16))
    (NewError "discovery: max attempts must be between 1 and 16");;
  let attemptTimeout := or_default (cl_AttemptTimeout client) defaultAttemptTimeout in
  fail_if ((attemptTimeout <? Second) || (attemptTimeout >? 30 * Second))
    (NewError "discovery: attempt timeout must be between 1s and 30s");;
  let overallTimeout := or_default (cl_OverallTimeout client) defaultOverallTimeout in
  fail_if ((overallTimeout <? 5 * Second) || (overallTimeout >? 5 * Minute))
    (NewError "discovery: overall timeout must be between 5s and 5m");;
  validateSources ∅ sources.

(** The mirrors in the order in which they are tried. *)
Definition orderSources (client : Client) (sources : list DiscoveryEndpoint) : list DiscoveryEndpoint :=
  take (Z.to_nat (or_default (cl_MaxAttempts client) (llen sources)))
    (sort_slice (λ x y, key_less (discovery_key x) (discovery_key y)) sources).

(** [Fetch] called at instant [now]: the result and the log of attempts. *)
Definition Fetch (client : Client) (ctx : Context) (sources : list DiscoveryEndpoint)
    (trusted : TrustedState) (now : time) : result Result * list Attempt :=
  match checkClient client sources with
  | Err e => (Err e, [])
  | Ok _ =>
      let overallTimeout := or_default (cl_OverallTimeout client) defaultOverallTimeout in
      let attemptTimeout := or_default (cl_AttemptTimeout client) defaultAttemptTimeout in
      fetchLoop client ctx trusted attemptTimeout (with_timeout (ctx_deadline ctx) now overallTimeout)
        now [] (orderSources client sources)
  end.

End client.

(** ** The HTTP client *)

(** [fetchOne] copies the client and replaces its [CheckRedirect] by one that returns
    [http.ErrUseLastResponse]: [Do] sends one request and returns its response, a redirect like
    any other.  What is left of an [http.Client] is its time-out, zero for none, and its
    transport: one exchange, which ends by the deadline that it is given. *)
Record HTTPClient := mkHTTPClient {
  hc_Timeout : duration;
  hc_RoundTrip : URL → time → time → result (Z * string * Reader) * time
}.

(** The fields of the transport (dialing, TLS 1.3, connection limits) are inside the exchange. *)
Definition DefaultHTTPClient (roundTrip : URL → time → time → result (Z * string * Reader) * time) : HTTPClient :=
  mkHTTPClient (12 * Second) roundTrip.

Definition client_Do (client : HTTPClient) (u : URL) (start deadline : time) : result Response * time :=
  let deadline := if hc_Timeout client =? 0 then deadline else Z.min deadline (start + hc_Timeout client) in
  let '(answer, finish) := hc_RoundTrip client u start deadline in
  (match answer with
   | Ok (status, contentType, body) => Ok (mkResponse (Some (url_Scheme u, url_Host u)) status contentType body)
   | Err e => Err e
   end, finish).

(** The network that a client is. *)
Definition client_network (newRequest : URL → result unit) (fold : string → string → bool) (client : HTTPClient)
    : Network := {| http_NewRequest := newRequest; http_Do := client_Do client; EqualFold := fold |}.

(** A transport that honours deadlines makes a lawful network. *)
Lemma client_network_laws newRequest fold client :
  0 <= hc_Timeout client →
  (∀ u start deadline, start <= deadline → start <= (hc_RoundTrip client u start deadline).2 <= deadline) →
  @NetworkLaws (client_network newRequest fold client).
Proof.
  intros Ht Hr u start deadline Hd. unfold http_Do, client_network, client_Do.
  set (d := if _ =? 0 then _ else _). assert (start <= d <= deadline) as Hb.
  { unfold d. destruct (Z.eqb_spec (hc_Timeout client) 0); lia. }
  pose proof (Hr u start d). destruct (hc_RoundTrip client u start d) as [[[[status ct] body]|e] finish]; cbn in *; lia.
Qed.

(** A redirect is not followed, it is refused: no request leaves the origin of the mirror. *)
Lemma redirect_is_refused `{Ed25519} `{JsonSyntax} `{JsonDecode Envelope} `{JsonDecode Document}
    newRequest fold client rootKey source now trusted start deadline u status ct body finish :
  validateSource source = Ok u → newRequest u = Ok tt →
  (∀ d, hc_RoundTrip client u start d = (Ok (status, ct, body), finish)) → status ≠ 200 →
  ∃ e, @fetchOne _ _ _ _ (client_network newRequest fold client) rootKey source now trusted start deadline = (Err e, finish).
Proof.
  intros Hv Hn Hr Hs. unfold fetchOne, http_NewRequest, http_Do, client_network, client_Do.
  rewrite Hv, Hn, Hr. cbn. unfold checkResponse. cbn.
  destruct (_ || _); cbn; [eauto|]. destruct (Z.eqb_spec status 200); [done|]. cbn. eauto.
Qed.

(** ** Lemmas on the loop *)

Section loop.
Context `{Ed25519} `{JsonSyntax} `{JsonDecode Envelope} `{JsonDecode Document} `{Network}.
Context (client : Client) (ctx : Context) (trusted : TrustedState).

(** The envelope came from the mirror: its URL was requested at this moment, and the response,
    which passed its checks, decodes to it. *)
Definition answered_with (source : DiscoveryEndpoint) (now : time) (envelope : Envelope) : Prop :=
  ∃ parsed response deadline finish,
    validateSource source = Ok parsed ∧ http_Do parsed now deadline = (Ok response, finish) ∧
    checkResponse parsed response = Ok tt ∧ DecodeEnvelope (rp_Body response) = Ok envelope.

(** The evidence behind a result: an envelope of the mirror, verified. *)
Definition fetched (source : DiscoveryEndpoint) (now : time) (document : Document) (t : TrustedState)
    : Prop := ∃ envelope, answered_with source now envelope ∧
  Verify envelope (cl_RootKey client) (cl_Now client now) trusted = Ok (document, t).

Lemma fetchOne_Ok source now deadline document t finish :
  fetchOne (cl_RootKey client) source (cl_Now client now) trusted now deadline =
    (Ok (document, t), finish) → fetched source now document t.
Proof.
  unfold fetchOne. destruct (validateSource source) as [parsed|] eqn:Ev; [|done].
  destruct (wrap _ (http_NewRequest parsed)); [|done].
  destruct (http_Do parsed now deadline) as [answer f] eqn:Ed. intros [= HO _]. inv_ok.
  eexists. split; [|done]. eexists parsed, _, deadline, f. split_and!; [done|exact Ed|done..].
Qed.

(** The attempts are a prefix of the mirrors; a result comes from the last one. *)
Lemma fetchLoop_spec attemptTimeout deadline now failures ordered r log :
  fetchLoop client ctx trusted attemptTimeout deadline now failures ordered = (r, log) →
  (at_Source <$> log) `prefix_of` ordered ∧
  Forall (λ a, 0 < at_Budget a <= attemptTimeout) log ∧
  (∀ res, r = Ok res → ∃ l a, log = l ++ [a] ∧ rs_SourceID res = de_ID (at_Source a) ∧
     fetched (at_Source a) (at_Start a) (rs_Document res) (rs_Trusted res)).
Proof.
  revert now failures r log. induction ordered as [|source rest IH]; intros now failures r log; cbn [fetchLoop].
  { intros [= <- <-]. split_and!; [apply prefix_nil|done|done]. }
  set (share := Z.quot _ _). set (budget := if share <? attemptTimeout then share else attemptTimeout).
  assert (budget <= attemptTimeout) by (unfold budget; destruct (Z.ltb_spec share attemptTimeout); lia).
  destruct (Z.leb_spec budget 0).
  { intros [= <- <-]. split_and!; [apply prefix_nil|done|done]. }
  destruct (fetchOne _ _ _ _ _ _) as [[[d t]|e] finish] eqn:Ef.
  { intros [= <- <-]. split_and!.
    - cbn. apply prefix_cons, prefix_nil.
    - apply Forall_singleton. cbn. lia.
    - intros res [= <-]. exists [], (mkAttempt source now budget). split_and!; [done..|].
      by eapply fetchOne_Ok. }
  destruct (ctx_done ctx deadline finish).
  { intros [= <- <-]. split_and!; [cbn; apply prefix_cons, prefix_nil| |done].
    apply Forall_singleton. cbn. lia. }
  destruct (fetchLoop _ _ _ _ _ _ _ rest) as [r' log'] eqn:El. intros [= <- <-].
  destruct (IH _ _ _ _ El) as (Hp & Hb & Hr). split_and!.
  - cbn. by apply prefix_cons.
  - constructor; [cbn; lia|done].
  - intros res ->. destruct (Hr res eq_refl) as (l & a & -> & ?).
    exists (mkAttempt source now budget :: l), a. by split.
Qed.

(** With requests that honour their deadline and no cancellation, a loop over [k] of [n]
    mirrors that still has its share of the time tries all of them unless one succeeds. *)
Lemma fetchLoop_fair `{!NetworkLaws} attemptTimeout deadline now failures ordered r log n overall :
  ctx_cancelled ctx = None → 0 < attemptTimeout → 0 < n <= overall →
  overall * llen ordered <= (deadline - now) * n → llen ordered <= n →
  fetchLoop client ctx trusted attemptTimeout deadline now failures ordered = (r, log) →
  (∀ res, r ≠ Ok res) →
  at_Source <$> log = ordered ∧ Forall (λ a, Z.min attemptTimeout (overall / n) <= at_Budget a) log.
Proof.
  intros Hc Ha Hn. revert now failures r log.
  induction ordered as [|source rest IH]; intros now failures r log Hshare Hlen; cbn [fetchLoop].
  { intros [= <- <-] _. done. }
  set (k := llen (source :: rest)) in *.
  assert (Hk : 1 <= k ∧ llen rest = k - 1) by (unfold k, llen; cbn [length]; lia). destruct Hk as [Hk Hrest].
  assert (Hq : (deadline - now) ÷ k = (deadline - now) / k) by (apply Z.quot_div_nonneg; nia).
  rewrite Hq. set (share := (deadline - now) / k).
  assert (Hs : overall / n <= share).
  { unfold share. apply Z.div_le_lower_bound; [lia|].
    assert (n * (overall / n) <= overall) by (apply Z.mul_div_le; lia). nia. }
  assert (Hs1 : 1 <= overall / n) by (apply Z.div_le_lower_bound; lia).
  assert (Hs2 : k * share <= deadline - now) by (apply Z.mul_div_le; lia).
  set (budget := if share <? attemptTimeout then share else attemptTimeout).
  assert (Hb : Z.min attemptTimeout (overall / n) <= budget ∧ 0 < budget <= share)
    by (unfold budget; destruct (Z.ltb_spec share attemptTimeout); lia).
  destruct (Z.leb_spec budget 0); [lia|].
  destruct (fetchOne _ _ _ _ _ _) as [outcome finish] eqn:Ef.
  assert (Hfin : now <= finish <= now + share).
  { unfold fetchOne in Ef. destruct (validateSource source) as [u|]; [|injection Ef as _ <-; lia].
    destruct (wrap _ _); [|injection Ef as _ <-; lia].
    pose proof (http_Do_deadline u now (Z.min deadline (now + budget)) ltac:(nia)) as Hd.
    destruct (http_Do _ _ _) as [ans f]. injection Ef as _ <-. cbn in Hd. lia. }
  destruct outcome as [[d t]|e]; [intros [= <- <-] Hr; by destruct (Hr (mkResult d t (de_ID source)))|].
  assert (Hleft : overall * (k - 1) <= (deadline - finish) * n).
  { apply (Z.mul_le_mono_pos_l _ _ k); [lia|].
    assert (overall * k * (k - 1) <= (deadline - now) * n * (k - 1)) by (apply Z.mul_le_mono_nonneg_r; lia).
    assert ((deadline - now) * (k - 1) <= k * (deadline - finish)) by nia.
    assert ((deadline - now) * (k - 1) * n <= k * (deadline - finish) * n)
      by (apply Z.mul_le_mono_nonneg_r; lia). lia. }
  unfold ctx_done. rewrite Hc, orb_false_r. destruct (Z.leb_spec deadline finish).
  - intros [= <- <-] _. assert (k = 1) by nia. destruct rest; [|unfold llen in Hrest; cbn in Hrest; lia].
    split; [done|]. apply Forall_singleton. cbn. lia.
  - destruct (fetchLoop _ _ _ _ _ _ _ rest) as [r' log'] eqn:El. intros [= <- <-] Hr.
    destruct (IH finish _ _ _ ltac:(rewrite Hrest; lia) ltac:(lia) El Hr) as [HS HB].
    split; [cbn; by rewrite HS|]. constructor; [cbn; lia|done].
Qed.

End loop.

(** ** Properties *)

Lemma validateSources_inv seen sources :
  validateSources seen sources = Ok tt → all_distinct seen (de_ID <$> sources) = true.
Proof.
  revert seen. induction sources as [|s l IH]; intros seen; [done|]. cbn [validateSources].
  intros HV. inv_ok. cbn [fmap list_fmap all_distinct]. rewrite bool_decide_eq_false_2 by done. auto.
Qed.

Lemma checkClient_inv client sources :
  checkClient client sources = Ok tt →
  1 <= llen sources <= 16 ∧ 1 <= or_default (cl_MaxAttempts client) (llen sources) <= 16 ∧
  Second <= or_default (cl_AttemptTimeout client) defaultAttemptTimeout <= 30 * Second ∧
  5 * Second <= or_default (cl_OverallTimeout client) defaultOverallTimeout <= 5 * Minute ∧
  NoDup (de_ID <$> sources).
Proof.
  unfold checkClient. intros HC. inv_ok.
  match goal with E : validateSources _ _ = _ |- _ => apply validateSources_inv in E end.
  rewrite all_distinct_NoDup in *. unfold llen in *. split_and!; done || lia.
Qed.

Section claims.
Context `{Ed25519} `{JsonSyntax} `{JsonDecode Envelope} `{JsonDecode Document} `{Network}.

(** C18: whatever the mirrors answer, a document that [Fetch] returns is authentic and does
    not roll back: the last attempt requested the URL of one of the given sources, the one that
    the result names; the response to that request, with the status, origin and type that are
    required, decodes to an envelope, and the document is the one that this envelope carries,
    verified against the pinned root at the clock of the client; and the client state it comes
    with is a successor of the caller's. *)
Theorem fetch_returns_verified client ctx sources trusted now res log :
  Fetch client ctx sources trusted now = (Ok res, log) →
  ∃ attempt envelope payload policyDigest grant,
    last log = Some attempt ∧ at_Source attempt ∈ sources ∧ de_ID (at_Source attempt) = rs_SourceID res ∧
    answered_with (at_Source attempt) (at_Start attempt) envelope ∧
    authentic envelope (cl_RootKey client) (cl_Now client (at_Start attempt)) (rs_Document res)
      payload policyDigest grant ∧
    trust_le trusted (rs_Trusted res) ∧ ts_Version (rs_Trusted res) = doc_Version (rs_Document res).
Proof.
  unfold Fetch. destruct (checkClient client sources); [|done]. intros HF.
  destruct (fetchLoop_spec _ _ _ _ _ _ _ _ _ _ HF) as ([k Hk] & _ & Hr).
  destruct (Hr res eq_refl) as (l & a & -> & Hid & (env & Hans & HV)).
  destruct (Verify_inv _ _ _ _ _ _ HV) as (payload & pd & g & Hau & Htr & Ht').
  destruct (Verify_advances _ _ _ _ _ _ _ _ _ Hau Htr Ht') as (_ & Hle & Hver & _).
  exists a, env, payload, pd, g. split_and!; [by rewrite last_snoc| |done..].
  rewrite <- (sort_by_perm discovery_key sources). fold (canonicalDiscovery sources).
  apply (subseteq_take (Z.to_nat (or_default (cl_MaxAttempts client) (llen sources)))).
  change (at_Source a ∈ orderSources client sources). rewrite Hk, fmap_app. set_solver.
Qed.

(** Mirrors are tried one at a time in order of priority: the attempts are a prefix of
    the sources sorted by priority and ID, at most as many as configured, each with a
    positive budget within the attempt timeout, and only the last one succeeds; an invalid
    configuration or source is refused before any request is made. *)
Theorem fetch_tries_in_priority_order client ctx sources trusted now r log :
  Fetch client ctx sources trusted now = (r, log) →
  (at_Source <$> log) `prefix_of` canonicalDiscovery sources ∧
  llen log <= 16 ∧ Forall (λ a, 0 < at_Budget a <= 30 * Second) log ∧
  (is_Ok (checkClient client sources) = true →
    llen log <= or_default (cl_MaxAttempts client) (llen sources)) ∧
  (is_Ok (checkClient client sources) = false → log = [] ∧ is_Ok r = false) ∧
  ∀ res, r = Ok res → ∃ a, last log = Some a ∧ de_ID (at_Source a) = rs_SourceID res.
Proof.
  unfold Fetch. destruct (checkClient client sources) as [[]|e] eqn:Ec.
  - intros HF. destruct (fetchLoop_spec _ _ _ _ _ _ _ _ _ _ HF) as (Hp & Hb & Hr).
    destruct (checkClient_inv _ _ Ec) as (_ & Hm & Ha & _).
    assert (Hlen : llen log <= or_default (cl_MaxAttempts client) (llen sources)).
    { apply prefix_length in Hp. rewrite length_fmap in Hp. unfold orderSources in Hp.
      rewrite length_take in Hp. unfold llen at 1. lia. }
    split_and!; [|lia| |done|done|].
    + etrans; [done|]. unfold orderSources. apply prefix_take.
    + eapply Forall_impl; [done|]. cbn. lia.
    + intros res Hres. destruct (Hr res Hres) as (l & a & -> & Hid & _). exists a.
      by rewrite last_snoc.
  - intros [= <- <-]. split_and!; [apply prefix_nil|done..].
Qed.

(** C19: the time budget is shared fairly: when requests honour their deadlines and the
    caller neither cancels nor sets a shorter deadline, [Fetch] gives up only after it tried
    every selected mirror, each with at least its equal share of the overall timeout (or the
    full attempt timeout), so that slow mirrors cannot starve the later ones. *)
Theorem fetch_is_fair `{!NetworkLaws} client ctx sources trusted now e log :
  Fetch client ctx sources trusted now = (Err e, log) → is_Ok (checkClient client sources) = true →
  ctx_cancelled ctx = None → ctx_deadline ctx = None →
  let n := llen (orderSources client sources) in
  at_Source <$> log = orderSources client sources ∧ 1 <= n <= 16 ∧
  Forall (λ a, Z.min (or_default (cl_AttemptTimeout client) defaultAttemptTimeout)
    (or_default (cl_OverallTimeout client) defaultOverallTimeout / n) <= at_Budget a) log.
Proof.
  intros HF Hck Hc Hd n. apply is_Ok_true in Hck as [[] Hck].
  destruct (checkClient_inv _ _ Hck) as (Hl & Hm & Ha & Ho & _).
  assert (Hn : 1 <= n <= 16).
  { unfold n, orderSources, llen. rewrite length_take, (sort_by_perm discovery_key sources).
    unfold llen in *. lia. }
  unfold Fetch in HF. rewrite Hck, Hd in HF. unfold with_timeout in HF.
  unfold Second, Minute in *.
  apply (fetchLoop_fair _ _ _ _ _ _ _ _ _ _ n
    (or_default (cl_OverallTimeout client) defaultOverallTimeout)) in HF as [HS HB]; try done; try lia.
Qed.

End claims.

(** ** Examples *)

(** Two mirrors: the first answers with a server error after three seconds, the second
    serves an envelope. *)
Definition toy_sources : list DiscoveryEndpoint :=
  [mkDiscoveryEndpoint "mirror-b" "https://b.example/v1/manifest" 20;
   mkDiscoveryEndpoint "mirror-a" "https://a.example/v1/manifest" 10].
Definition toy_roundTrip (status : Z) (u : URL) (start deadline : time) : result (Z * string * Reader) * time :=
  (Ok (if bool_decide (url_Host u = "b.example") then 200 else status, "application/json; charset=utf-8",
       mkReader "envelope" None), Z.min deadline (start + 3 * Second)).
Definition toy_network (status : Z) : Network :=
  client_network (λ _, Ok tt) (λ a b, bool_decide (a = b)) (DefaultHTTPClient (toy_roundTrip status)).
Definition toy_envelope_decoder : JsonDecode Envelope := λ _, Ok (toy_e10, "").

Lemma toy_network_laws status : @NetworkLaws (toy_network status).
Proof. apply client_network_laws; [done|]. intros u start deadline Hd. cbn. unfold Second. lia. Qed.

Definition toy_client : Client := mkClient (Public toy_root) id 0 0 0.
Definition toy_fetch (status : Z) (sources : list DiscoveryEndpoint) : result Result * list Attempt :=
  @Fetch ToyEd25519 toy_syntax toy_envelope_decoder toy_json (toy_network status) toy_client
    (mkContext None None) sources zero_state toy_now.
Definition toy_result : Result := mkResult toy_doc10 toy_t10 "mirror-b".

Lemma toy_fetch_ok : ∃ log, toy_fetch 503 toy_sources = (Ok toy_result, log).
Proof. exists (toy_fetch 503 toy_sources).2. vm_compute. reflexivity. Qed.

Lemma fetch_returns_verified_witness :
  ∃ attempt envelope payload policyDigest grant,
    at_Source attempt ∈ toy_sources ∧ de_ID (at_Source attempt) = "mirror-b" ∧
    @answered_with toy_syntax toy_envelope_decoder (toy_network 503) (at_Source attempt) (at_Start attempt) envelope ∧
    @authentic ToyEd25519 toy_syntax toy_json envelope (Public toy_root) (at_Start attempt) toy_doc10
      payload policyDigest grant ∧
    trust_le zero_state toy_t10 ∧ ts_Version toy_t10 = doc_Version toy_doc10.
Proof.
  destruct toy_fetch_ok as [log Hlog].
  destruct (@fetch_returns_verified ToyEd25519 toy_syntax toy_envelope_decoder toy_json (toy_network 503)
    toy_client (mkContext None None) toy_sources zero_state toy_now toy_result log Hlog)
    as (attempt & envelope & payload & pd & grant & _ & Hrest).
  exists attempt, envelope, payload, pd, grant. exact Hrest.
Defined.

(** Only the failing mirror is configured. *)
Definition toy_failing : list DiscoveryEndpoint := [mkDiscoveryEndpoint "mirror-a" "https://a.example/v1/manifest" 10].

Lemma fetch_tries_in_priority_order_witness :
  (at_Source <$> (toy_fetch 503 toy_failing).2) `prefix_of` canonicalDiscovery toy_failing.
Proof.
  apply (@fetch_tries_in_priority_order ToyEd25519 toy_syntax toy_envelope_decoder toy_json
    (toy_network 503) toy_client (mkContext None None) toy_failing zero_state toy_now
    (toy_fetch 503 toy_failing).1 (toy_fetch 503 toy_failing).2).
  apply surjective_pairing.
Defined.

Lemma fetch_is_fair_witness :
  at_Source <$> (toy_fetch 503 toy_failing).2 = orderSources toy_client toy_failing.
Proof.
  apply (@fetch_is_fair ToyEd25519 toy_syntax toy_envelope_decoder toy_json (toy_network 503)
    (toy_network_laws 503) toy_client (mkContext None None) toy_failing zero_state toy_now
    (NewError "discovery: all attempted sources failed") (toy_fetch 503 toy_failing).2);
    vm_compute; reflexivity.
Defined.
