(* ===== verification/VpnNode.v ===== *)
(** * VPN nodes: observations and provider records

    [internal/vpnnode/node.go] and [internal/vpnnode/provider.go]: the data a
    provider reports about a node and the validators every observation passes,
    and the provider of the pilot in [internal/providers/timeweb] (its API client is in
    [TimewebClient]).  [float64] is
    the specification of binary64 in [SpecFloat]. *)

From Stdlib Require Import SpecFloat.
From S2P Require Import Prelude GoRegexp GoStrings GoNet.

(** ** Data *)

Definition identifierPattern : re := head_tail lower_digit lower_digit_dash 62.

Abbreviation Transport := string (only parsing).
Definition TransportAmneziaWG : Transport := "amneziawg".
Definition TransportXRayReality : Transport := "xray_reality".

Abbreviation State := string (only parsing).
Definition StateReady : State := "READY".
Definition StateDegraded : State := "DEGRADED".
Definition StateDown : State := "DOWN".

Record TransportHealth := mkTransportHealth {
  th_Transport : Transport;
  th_Up : bool
}.

Record Health := mkHealth {
  he_State : State;
  he_Transports : list TransportHealth;
  he_ObservedAt : time
}.

Record Listener := mkListener {
  li_Network : string;
  li_Address : string;
  li_Port : Z;  (* uint16 *)
  li_Owner : string;
  li_Public : bool
}.

Record Workload := mkWorkload {
  wl_Name : string;
  wl_Image : string;
  wl_Runtime : string;
  wl_State : string;
  wl_RestartPolicy : string
}.

Record Inventory := mkInventory {
  inv_OS : string;
  inv_Kernel : string;
  inv_Listeners : list Listener;
  inv_Workloads : list Workload;
  inv_ObservedAt : time
}.

Definition float64 : Type := spec_float.
(** An integer constant converted to [float64]. *)
Definition float64_of (z : Z) : float64 := binary_normalize 53 1024 z 0 false.

Record Metrics := mkMetrics {
  me_CPUPercent : float64;
  me_MemoryTotalBytes : Z;  (* uint64 *)
  me_MemoryUsedBytes : Z;
  me_NetworkRXBytes : Z;
  me_NetworkTXBytes : Z;
  me_ActiveConnectionCount : option Z;
  me_ConfigRevision : string;
  me_ObservedAt : time
}.

(** ** Validators *)

Definition ValidateID (value : string) : result unit :=
  fail_if (negb (MatchString identifierPattern value)) (NewError "vpnnode: invalid identifier").

Definition ValidateTransport (value : Transport) : result unit :=
  if bool_decide (value = TransportAmneziaWG) || bool_decide (value = TransportXRayReality)
  then Ok tt else Err (NewError "vpnnode: unsupported transport").

Fixpoint validateCapabilityLoop (seen : gset string) (values : list Transport) : result unit :=
  match values with
  | [] => Ok tt
  | value :: values' =>
      ValidateTransport value;;
      fail_if (bool_decide (value ∈ seen)) (NewError "vpnnode: duplicate transport");;
      validateCapabilityLoop ({[value]} ∪ seen) values'
  end.

Definition ValidateCapabilities (values : list Transport) : result unit :=
  fail_if ((llen values =? 0) || (llen values >? 8))
    (NewError "vpnnode: capabilities must contain between 1 and 8 transports");;
  validateCapabilityLoop ∅ values.

Definition transport_key (t : Transport) : Z * string := (0, t).

Definition CanonicalCapabilities (values : list Transport) : result (list Transport) :=
  ValidateCapabilities values;;
  Ok (sort_slice (λ x y, key_less (transport_key x) (transport_key y)) values).

(** The loop of [ValidateHealth], with its running [upCount]. *)
Fixpoint healthLoop (seen : gset string) (upCount : Z) (transports : list TransportHealth)
    : result Z :=
  match transports with
  | [] => Ok upCount
  | transport :: transports' =>
      ValidateTransport (th_Transport transport);;
      fail_if (bool_decide (th_Transport transport ∈ seen))
        (NewError "vpnnode: duplicate transport health");;
      healthLoop ({[th_Transport transport]} ∪ seen)
        (if th_Up transport then upCount + 1 else upCount) transports'
  end.

Definition ValidateHealth (value : Health) : result unit :=
  fail_if (negb (bool_decide (he_State value = StateReady) ||
                 bool_decide (he_State value = StateDegraded) ||
                 bool_decide (he_State value = StateDown)))
    (NewError "vpnnode: invalid node state");;
  fail_if (IsZero (he_ObservedAt value))
    (NewError "vpnnode: health observation time is required");;
  fail_if ((llen (he_Transports value) =? 0) || (llen (he_Transports value) >? 8))
    (NewError "vpnnode: transport health must contain between 1 and 8 entries");;
  upCount ← healthLoop ∅ 0 (he_Transports value);
  fail_if (bool_decide (he_State value = StateReady) &&
           negb (upCount =? llen (he_Transports value)))
    (NewError "vpnnode: READY requires every transport to be up");;
  fail_if (bool_decide (he_State value = StateDegraded) &&
           ((upCount =? 0) || (upCount =? llen (he_Transports value))))
    (NewError "vpnnode: DEGRADED requires both healthy and unhealthy transports");;
  fail_if (bool_decide (he_State value = StateDown) && negb (upCount =? 0))
    (NewError "vpnnode: DOWN requires every transport to be down").

Fixpoint validateListeners (listeners : list Listener) : result unit :=
  match listeners with
  | [] => Ok tt
  | listener :: listeners' =>
      fail_if (negb (bool_decide (li_Network listener = "tcp")) &&
               negb (bool_decide (li_Network listener = "udp")))
        (NewError "vpnnode: unsupported listener network");;
      fail_if ((li_Port listener =? 0) || bool_decide (li_Owner listener = "") ||
               negb (is_Some_b (ParseIP (li_Address listener))))
        (NewError "vpnnode: listener requires an IP address, port, and owner");;
      validateListeners listeners'
  end.

Fixpoint validateWorkloads (workloads : list Workload) : result unit :=
  match workloads with
  | [] => Ok tt
  | workload :: workloads' =>
      fail_if (bool_decide (wl_Name workload = "") || bool_decide (wl_Runtime workload = "") ||
               bool_decide (wl_State workload = ""))
        (NewError "vpnnode: workload name, runtime, and state are required");;
      validateWorkloads workloads'
  end.

Definition ValidateInventory (value : Inventory) : result unit :=
  fail_if (IsZero (inv_ObservedAt value))
    (NewError "vpnnode: inventory observation time is required");;
  fail_if (bool_decide (inv_OS value = "") || bool_decide (inv_Kernel value = ""))
    (NewError "vpnnode: inventory OS and kernel are required");;
  fail_if ((llen (inv_Listeners value) >? 256) || (llen (inv_Workloads value) >? 256))
    (NewError "vpnnode: inventory exceeds pilot bounds");;
  validateListeners (inv_Listeners value);;
  validateWorkloads (inv_Workloads value).

Definition IsNaN (f : float64) : bool := match f with S754_nan => true | _ => false end.
Definition IsInf (f : float64) : bool := match f with S754_infinity _ => true | _ => false end.

Definition ValidateMetrics (value : Metrics) : result unit :=
  fail_if (IsZero (me_ObservedAt value))
    (NewError "vpnnode: metrics observation time is required");;
  fail_if (IsNaN (me_CPUPercent value) || IsInf (me_CPUPercent value) ||
           SFltb (me_CPUPercent value) (float64_of 0) ||
           SFltb (float64_of 100) (me_CPUPercent value))
    (NewError "vpnnode: CPU percent must be between 0 and 100");;
  fail_if ((me_MemoryTotalBytes value =? 0) ||
           (me_MemoryUsedBytes value >? me_MemoryTotalBytes value))
    (NewError "vpnnode: memory values are invalid");;
  fail_if (len (me_ConfigRevision value) >? 128)
    (NewError "vpnnode: config revision is too long").

(** ** Provider records *)

Definition regionPattern : re := head_tail lower_digit lower_digit_dash 62.

Definition ErrOperationUnsupported : error := Sentinel "vpnnode: provider operation is not supported".

Abbreviation ProvisioningStatus := string (only parsing).
Definition ProvisioningPending : ProvisioningStatus := "pending".
Definition ProvisioningReady : ProvisioningStatus := "ready".
Definition ProvisioningFailed : ProvisioningStatus := "failed".

Record CreateNodeInput := mkCreateNodeInput {
  ci_Region : string;
  ci_SSHPublicKeyReference : string;
  ci_Labels : gmap string string
}.

Record NodeRecord := mkNodeRecord {
  nr_ID : string;
  nr_Provider : string;
  nr_Region : string;
  nr_Status : ProvisioningStatus
}.

(** [pi_Address] is [None] for the zero [netip.Addr], which is not valid. *)
Record PublicIP := mkPublicIP {
  pi_ID : string;
  pi_Address : option Addr
}.

Definition label_ok (label : string * string) : bool :=
  MatchString identifierPattern label.1 && negb (bool_decide (label.2 = "")) &&
  negb (len label.2 >? 128).

(** The labels are visited in an unspecified order; the error does not depend on it. *)
Definition ValidateCreateNodeInput (input : CreateNodeInput) : result unit :=
  fail_if (negb (MatchString regionPattern (ci_Region input))) (NewError "vpnnode: invalid region");;
  fail_if (bool_decide (ci_SSHPublicKeyReference input = "") ||
           (len (ci_SSHPublicKeyReference input) >? 256))
    (NewError "vpnnode: SSH public key reference must contain between 1 and 256 bytes");;
  fail_if (Z.of_nat (size (ci_Labels input)) >? 32) (NewError "vpnnode: too many labels");;
  fail_if (negb (forallb label_ok (map_to_list (ci_Labels input))))
    (NewError "vpnnode: invalid provisioning label").

Definition ValidateNodeRecord (record : NodeRecord) : result unit :=
  ValidateID (nr_ID record);;
  fail_if (bool_decide (nr_Provider record = "") || (len (nr_Provider record) >? 64) ||
           negb (MatchString regionPattern (nr_Region record)))
    (NewError "vpnnode: node provider and region are invalid");;
  fail_if (negb (bool_decide (nr_Status record = ProvisioningPending) ||
                 bool_decide (nr_Status record = ProvisioningReady) ||
                 bool_decide (nr_Status record = ProvisioningFailed)))
    (NewError "vpnnode: invalid provisioning status").

Definition ValidatePublicIP (value : PublicIP) : result unit :=
  let invalid := NewError "vpnnode: public IP is invalid" in
  fail_if (bool_decide (pi_ID value = "") || (len (pi_ID value) >? 128)) invalid;;
  match pi_Address value with
  | None => Err invalid
  | Some a => fail_if (IsUnspecified a || IsPrivate a || IsLoopback a || IsLinkLocalUnicast a) invalid
  end.

(** ** The node interface and the Timeweb node *)

(** [vpnnode.Node]: the read-only operations of a node. *)
Record Node := mkNode {
  node_ID : string;
  node_Provider : string;
  node_Health : result Health;
  node_Capabilities : result (list Transport);
  node_Inventory : result Inventory;
  node_Metrics : result Metrics
}.

(** What the callers of the interface rely on: an observation that is returned
    has passed the validator of its type. *)
Class NodeLaws (node : Node) : Prop := {
  node_id_valid : ValidateID (node_ID node) = Ok tt;
  node_health_valid h : node_Health node = Ok h → ValidateHealth h = Ok tt;
  node_capabilities_valid c : node_Capabilities node = Ok c → CanonicalCapabilities c = Ok c;
  node_inventory_valid i : node_Inventory node = Ok i → ValidateInventory i = Ok tt;
  node_metrics_valid m : node_Metrics node = Ok m → ValidateMetrics m = Ok tt
}.

(** [timeweb.Observer]: the collector, which is not part of the repository. *)
Record Observer := mkObserver {
  ob_Health : string → result Health;
  ob_Capabilities : string → result (list Transport);
  ob_Inventory : string → result Inventory;
  ob_Metrics : string → result Metrics
}.

Module Timeweb.

Definition ProviderName : string := "timeweb-cloud".

Definition Node_Health (id : string) (observer : Observer) : result Health :=
  value ← wrap "timeweb: observe health" (ob_Health observer id);
  wrap "timeweb: invalid health observation" (ValidateHealth value);;
  Ok value.

Definition Node_Capabilities (id : string) (observer : Observer) : result (list Transport) :=
  values ← wrap "timeweb: observe capabilities" (ob_Capabilities observer id);
  wrap "timeweb: invalid capabilities observation" (CanonicalCapabilities values).

Definition Node_Inventory (id : string) (observer : Observer) : result Inventory :=
  value ← wrap "timeweb: observe inventory" (ob_Inventory observer id);
  wrap "timeweb: invalid inventory observation" (ValidateInventory value);;
  Ok value.

Definition Node_Metrics (id : string) (observer : Observer) : result Metrics :=
  value ← wrap "timeweb: observe metrics" (ob_Metrics observer id);
  wrap "timeweb: invalid metrics observation" (ValidateMetrics value);;
  Ok value.

(** [NewNode] with the methods of the node it builds; [None] is the nil observer. *)
Definition NewNode (id : string) (observer : option Observer) : result Node :=
  ValidateID id;;
  match observer with
  | None => Err (NewError "timeweb: observer is required")
  | Some observer => Ok (mkNode id ProviderName (Node_Health id observer)
      (Node_Capabilities id observer) (Node_Inventory id observer) (Node_Metrics id observer))
  end.

(** The provider of the pilot refuses every lifecycle operation. *)
Definition unsupported (operation : string) : error :=
  Wrap ("timeweb: " +:+ operation) ErrOperationUnsupported.

Definition CreateNode (input : CreateNodeInput) : result NodeRecord := Err (unsupported "create node").
Definition DeleteNode (id : string) : result unit := Err (unsupported "delete node").
Definition GetNode (id : string) : result NodeRecord := Err (unsupported "get node").
Definition AttachPublicIP (id : string) : result PublicIP := Err (unsupported "attach public IP").
Definition DetachPublicIP (id ip : string) : result unit := Err (unsupported "detach public IP").

End Timeweb.

(** ** What the validators establish *)

Definition supported (t : Transport) : Prop := t = TransportAmneziaWG ∨ t = TransportXRayReality.

Lemma ValidateTransport_spec t : ValidateTransport t = Ok tt ↔ supported t.
Proof.
  unfold ValidateTransport, supported. do 2 case_bool_decide; simpl; naive_solver.
Qed.

Lemma validateCapabilityLoop_spec seen l :
  validateCapabilityLoop seen l = Ok tt ↔ Forall supported l ∧ all_distinct seen l = true.
Proof.
  revert seen. induction l as [|t l IH]; intros seen; [done|].
  cbn [validateCapabilityLoop all_distinct]. rewrite Forall_cons, <- ValidateTransport_spec.
  destruct (ValidateTransport t) as [[]|e]; cbn -[all_distinct]; [|naive_solver].
  case_bool_decide; cbn -[all_distinct]; [|rewrite IH; tauto]. split; [done|by intros [_ ?]].
Qed.

Lemma ValidateCapabilities_spec l :
  ValidateCapabilities l = Ok tt ↔ 1 <= llen l <= 8 ∧ Forall supported l ∧ NoDup l.
Proof.
  unfold ValidateCapabilities. rewrite <- all_distinct_NoDup, <- validateCapabilityLoop_spec.
  unfold llen. destruct (_ || _) eqn:E; simpl; [|intuition lia]. split; [done|lia].
Qed.

Lemma ValidateCapabilities_perm l l' :
  l ≡ₚ l' → ValidateCapabilities l = Ok tt → ValidateCapabilities l' = Ok tt.
Proof.
  intros Hp. rewrite !ValidateCapabilities_spec. unfold llen. by rewrite Hp.
Qed.

Lemma CanonicalCapabilities_inv l c :
  CanonicalCapabilities l = Ok c →
  ValidateCapabilities l = Ok tt ∧ c = sort_slice (λ x y, key_less (transport_key x) (transport_key y)) l.
Proof. unfold CanonicalCapabilities. intros H. by inv_ok. Qed.

Lemma transport_keys_NoDup l : NoDup l → NoDup (transport_key <$> l).
Proof. apply NoDup_fmap_2. by intros x y [= ->]. Qed.

Lemma CanonicalCapabilities_perm l l' c :
  l ≡ₚ l' → CanonicalCapabilities l = Ok c → CanonicalCapabilities l' = Ok c.
Proof.
  intros Hp [Hv ->]%CanonicalCapabilities_inv. unfold CanonicalCapabilities.
  rewrite (ValidateCapabilities_perm _ _ Hp Hv). cbn. f_equal.
  apply (sort_by_perm_eq transport_key); [|by symmetry].
  apply ValidateCapabilities_spec in Hv as (_ & _ & Hnd). by apply transport_keys_NoDup.
Qed.

Lemma CanonicalCapabilities_permuted l c : CanonicalCapabilities l = Ok c → c ≡ₚ l.
Proof. intros [_ ->]%CanonicalCapabilities_inv. apply (sort_by_perm transport_key). Qed.

(** The state that a list of transport observations stands for. *)
Definition node_state (ts : list TransportHealth) : State :=
  if forallb th_Up ts then StateReady
  else if existsb th_Up ts then StateDegraded else StateDown.

Definition up_count (ts : list TransportHealth) : Z := llen (filter (λ t, Is_true (th_Up t)) ts).

Lemma up_count_cons t ts : up_count (t :: ts) = (if th_Up t then 1 else 0) + up_count ts.
Proof.
  unfold up_count, llen. rewrite filter_cons. destruct (th_Up t); simpl; [|done]. lia.
Qed.

Lemma up_count_range ts : 0 <= up_count ts <= llen ts.
Proof.
  unfold up_count, llen. pose proof (length_filter (λ t, Is_true (th_Up t)) ts). lia.
Qed.

Lemma healthLoop_spec seen n ts m :
  healthLoop seen n ts = Ok m ↔
  Forall (supported ∘ th_Transport) ts ∧ all_distinct seen (th_Transport <$> ts) = true ∧
  m = n + up_count ts.
Proof.
  revert seen n. induction ts as [|t ts IH]; intros seen n.
  { cbn. rewrite Z.add_0_r. naive_solver. }
  cbn [healthLoop all_distinct fmap list_fmap]. rewrite Forall_cons, up_count_cons. cbn [compose].
  rewrite <- ValidateTransport_spec.
  destruct (ValidateTransport (th_Transport t)) as [[]|e]; simpl; [|naive_solver].
  case_bool_decide; simpl; [split; [done|by intros (_ & ? & _)]|].
  rewrite IH. destruct (th_Up t); rewrite ?Z.add_assoc; intuition lia.
Qed.

Lemma forallb_up ts : forallb th_Up ts = (up_count ts =? llen ts).
Proof.
  induction ts as [|t ts IH]; [done|]. simpl. rewrite IH, up_count_cons.
  pose proof (up_count_range ts). unfold llen in *. rewrite length_cons, Nat2Z.inj_succ.
  destruct (th_Up t); cbn [andb]; repeat case Z.eqb_spec; lia.
Qed.

Lemma existsb_up ts : existsb th_Up ts = negb (up_count ts =? 0).
Proof.
  induction ts as [|t ts IH]; [done|]. simpl. rewrite IH, up_count_cons.
  pose proof (up_count_range ts). destruct (th_Up t); cbn [orb]; repeat case Z.eqb_spec; lia.
Qed.

#[global] Instance Timeweb_laws id observer node :
  Timeweb.NewNode id observer = Ok node → NodeLaws node.
Proof.
  unfold Timeweb.NewNode. intros H. apply mbind_Ok in H as ([] & Hid & H).
  destruct observer as [ob|]; [|done]. injection H as <-. split; cbn; [done| | | |].
  - intros h H. unfold Timeweb.Node_Health in H. by inv_ok.
  - intros c H. unfold Timeweb.Node_Capabilities in H. inv_ok.
    eapply CanonicalCapabilities_perm; [|done]. symmetry. by apply CanonicalCapabilities_permuted.
  - intros i H. unfold Timeweb.Node_Inventory in H. by inv_ok.
  - intros m H. unfold Timeweb.Node_Metrics in H. by inv_ok.
Qed.

(** ** Claims *)

(** [ValidateHealth] accepts an observation exactly when it is dated, lists
    between one and eight supported transports without repetition, and its
    state is the one its transports determine: READY when every transport is
    up, DOWN when none is, DEGRADED otherwise. *)
Theorem health_state_is_determined h :
  ValidateHealth h = Ok tt ↔
  he_ObservedAt h ≠ zero_time ∧ 1 <= llen (he_Transports h) <= 8 ∧
  Forall (supported ∘ th_Transport) (he_Transports h) ∧
  NoDup (th_Transport <$> he_Transports h) ∧
  he_State h = node_state (he_Transports h).
Proof.
  unfold ValidateHealth, node_state, IsZero. rewrite forallb_up, existsb_up, <- all_distinct_NoDup.
  pose proof (healthLoop_spec ∅ 0 (he_Transports h)) as Hloop.
  pose proof (up_count_range (he_Transports h)).
  destruct h as [st ts at_]; cbn in *. split.
  - intros Hv. inv_ok. apply Hloop in E2 as (Hs & Hd & ->). simpl in *.
    split_and!; [lia|lia|lia|done|done|].
    repeat case_bool_decide; simplify_eq/=;
      destruct (Z.eqb_spec (up_count ts) (llen ts)), (Z.eqb_spec (up_count ts) 0); simpl in *;
      try done; try lia.
  - intros (Hat & Hlen & Hs & Hd & ->).
    destruct (Hloop (up_count ts)) as [_ Hl]. rewrite (Hl ltac:(done)).
    destruct (up_count ts =? llen ts) eqn:Eu, (up_count ts =? 0) eqn:Ez; simpl; try lia;
      (step_ok; [by apply Z.eqb_neq|]); (step_ok; [lia|]); by rewrite ?Eu, ?Ez.
Qed.

(** The capabilities a node reports are canonical: [CanonicalCapabilities]
    returns the reported transports in strictly increasing order, the same list
    for every order in which the provider enumerates them. *)
Theorem capabilities_are_canonical l l' c :
  CanonicalCapabilities l = Ok c → l ≡ₚ l' →
  CanonicalCapabilities l' = Ok c ∧ c ≡ₚ l' ∧
  StronglySorted (λ x y, str_ltb x y = true) c ∧ Forall supported c.
Proof.
  intros Hc Hp. split; [by eapply CanonicalCapabilities_perm|].
  pose proof (CanonicalCapabilities_permuted _ _ Hc) as Hpc.
  apply CanonicalCapabilities_inv in Hc as [Hv Ec].
  apply ValidateCapabilities_spec in Hv as (_ & Hs & Hnd).
  split_and!; [by rewrite Hpc| |by rewrite Hpc].
  rewrite <- Hpc in Hnd. pose proof (sort_by_sorted transport_key l) as Hsort.
  rewrite <- Ec in Hsort. clear -Hsort Hnd. induction Hsort as [|x c Hs IH Hx]; constructor.
  - apply IH. by apply NoDup_cons in Hnd as [_ ?].
  - apply Forall_forall. intros y Hy. rewrite Forall_forall in Hx. specialize (Hx y Hy).
    apply NoDup_cons in Hnd as [Hn _]. unfold key_le, key_less, transport_key in Hx. simpl in Hx.
    destruct (str_ltb_total x y) as [?|[->|?]]; [done|done|congruence].
Qed.

Lemma capabilities_are_canonical_witness :
  CanonicalCapabilities [TransportXRayReality; TransportAmneziaWG] =
  Ok [TransportAmneziaWG; TransportXRayReality].
Proof.
  refine (proj1 (capabilities_are_canonical
    [TransportAmneziaWG; TransportXRayReality] [TransportXRayReality; TransportAmneziaWG]
    [TransportAmneziaWG; TransportXRayReality] _ _)).
  - vm_compute. reflexivity.
  - apply perm_swap.
Defined.
