(* ===== verification/Identifiers.v ===== *)
(** * Identifiers

    The UUIDs of the pilot services: the pattern and the generator that
    [internal/pilotaccess/access.go], [internal/pilottelemetry/telemetry.go] and
    [internal/pilotaccess/postgres/store.go] each carry a copy of, and classes of
    bytes. *)

From S2P Require Import Prelude GoRegexp GoBase64 GoSha256 GoStrings GoNet.

(** [[0-9a-f]]. *)
Definition hexadecimal (c : ascii) : bool := digit c || rng "a"%char "f"%char c.

Definition dash : re := literal "-"%char.

Definition uuidPattern : re :=
  Seq (times (Class hexadecimal) 8) (Seq dash (Seq (times (Class hexadecimal) 4) (Seq dash
  (Seq (Class (rng "1"%char "5"%char)) (Seq (times (Class hexadecimal) 3) (Seq dash
  (Seq (Class (one_of "89ab")) (Seq (times (Class hexadecimal) 3) (Seq dash
  (times (Class hexadecimal) 12)))))))))).

(** [raw[i] = f(raw[i])]. *)
Definition set_byte (i : nat) (f : Z → Z) (raw : string) : string :=
  str_take i raw +:+
  match str_drop i raw with
  | EmptyString => ""
  | String c rest => String (byte (f (ord c))) rest
  end.

Definition slice (i j : nat) (raw : string) : string := str_take (j - i) (str_drop i raw).

(** The hexadecimal form of 16 bytes with the version and variant bits forced;
    the verb widths are those of the slices, so that nothing is padded. *)
Definition formatUUID (raw : string) : string :=
  let raw := set_byte 6 (λ b, Z.lor (Z.land b 15) 64) raw in
  let raw := set_byte 8 (λ b, Z.lor (Z.land b 63) 128) raw in
  hex_EncodeToString (slice 0 4 raw) +:+ "-" +:+ hex_EncodeToString (slice 4 6 raw) +:+ "-" +:+
  hex_EncodeToString (slice 6 8 raw) +:+ "-" +:+ hex_EncodeToString (slice 8 10 raw) +:+ "-" +:+
  hex_EncodeToString (slice 10 16 raw).

(** [newUUID], on what [rand.Read] delivers. *)
Definition newUUID (random : result string) : result string :=
  raw ← random; Ok (formatUUID raw).

(** The printable ASCII characters. *)
Definition printable (c : ascii) : bool := rng " "%char "~"%char c.

(** ** Byte classes *)

(** An inclusion of byte classes, by computation. *)
Lemma class_incl (p q : ascii → bool) c :
  forallb (λ n, implb (p (byte n)) (q (byte n))) (seqZ 0 256) = true → p c = true → q c = true.
Proof.
  intros Hall Hp. pose proof (byte_cases (λ c, implb (p c) (q c)) c Hall) as Hc. cbn in Hc.
  by rewrite Hp in Hc.
Qed.

(** ** Generated identifiers *)

Lemma matches_times_class p n s :
  all_bytes p s = true → String.length s = n → matches (times (Class p) n) s.
Proof.
  revert n. induction s as [|c s IH]; intros [|n]; simpl; try done; [constructor|].
  intros [Hc Hs]%andb_true_iff [= Hn]. apply matches_Seq. exists (String c ""), s.
  split_and!; [done|by constructor|by apply IH].
Qed.

Lemma hex_hexadecimal s :
  all_bytes hexadecimal (hex_EncodeToString s) = true ∧
  String.length (hex_EncodeToString s) = (2 * String.length s)%nat.
Proof.
  induction s as [|c s [IH1 IH2]]; [done|]. cbn [hex_EncodeToString all_bytes String.length].
  rewrite IH1, IH2, andb_true_r. split; [|lia].
  apply (byte_cases (λ c, hexadecimal (hex_digit (ord c / 16)) && hexadecimal (hex_digit (ord c mod 16)))).
  by vm_compute.
Qed.

Lemma matches_app r1 r2 u v : matches r1 u → matches r2 v → matches (Seq r1 r2) (u +:+ v).
Proof. intros. apply matches_Seq. eauto. Qed.

Lemma hex_group n s :
  String.length s = n → matches (times (Class hexadecimal) (2 * n)) (hex_EncodeToString s).
Proof.
  intros <-. destruct (hex_hexadecimal s). by apply matches_times_class.
Qed.

(** A group whose first digit is constrained. *)
Lemma hex_group_first (p : ascii → bool) c d :
  p (hex_digit (ord c / 16)) = true →
  matches (Seq (Class p) (times (Class hexadecimal) 3))
    (hex_EncodeToString (String c (String d ""))).
Proof.
  intros Hp. apply matches_Seq. eexists (String _ ""), _. split_and!; [done|by constructor|].
  destruct (hex_hexadecimal (String c (String d ""))) as [Hall _].
  cbn [hex_EncodeToString all_bytes] in Hall. apply andb_true_iff in Hall as [_ Hall].
  by apply matches_times_class.
Qed.

Lemma matches_Seq_assoc r1 r2 r3 s :
  matches (Seq (Seq r1 r2) r3) s → matches (Seq r1 (Seq r2 r3)) s.
Proof.
  rewrite !matches_Seq. intros (u & v & -> & (u1 & u2 & -> & ? & ?)%matches_Seq & ?).
  exists u1, (u2 +:+ v). autorewrite with gostr. split_and!; [done..|]. by apply matches_app.
Qed.

Lemma matches_dash r s : matches r s → matches (Seq dash r) (String "-"%char s).
Proof. intros. apply (matches_app dash r "-"); [by constructor|done]. Qed.

Lemma formatUUID_canonical raw :
  String.length raw = 16%nat → MatchString uuidPattern (formatUUID raw) = true.
Proof.
  intros Hlen. apply MatchString_spec.
  do 16 (destruct raw as [|? raw]; [done|]). destruct raw; [|done]. clear Hlen.
  unfold formatUUID, set_byte, slice. cbn [str_take str_drop Nat.sub]. autorewrite with gostr.
  cbn [str_take str_drop]. autorewrite with gostr. cbn [str_take str_drop].
  unfold uuidPattern.
  apply matches_app; [by apply (hex_group 4)|]. apply matches_dash.
  apply matches_app; [by apply (hex_group 2)|]. apply matches_dash, matches_Seq_assoc.
  apply matches_app; [apply hex_group_first|apply matches_dash, matches_Seq_assoc].
  { refine (byte_cases (λ c, rng "1"%char "5"%char
      (hex_digit (ord (byte (Z.lor (Z.land (ord c) 15) 64)) / 16))) _ _). by vm_compute. }
  apply matches_app; [apply hex_group_first|apply matches_dash; by apply (hex_group 6)].
  refine (byte_cases (λ c, one_of "89ab"
    (hex_digit (ord (byte (Z.lor (Z.land (ord c) 63) 128)) / 16))) _ _). by vm_compute.
Qed.

(** A pattern whose matches are printable and of one length. *)
Definition shaped (r : re) (n : nat) : Prop :=
  ∀ s, matches r s → all_bytes printable s = true ∧ String.length s = n.

Lemma shaped_Seq r s n m : shaped r n → shaped s m → shaped (Seq r s) (n + m).
Proof.
  intros Hr Hs w (u & v & -> & [Hu1 Hu2]%Hr & [Hv1 Hv2]%Hs)%matches_Seq.
  rewrite all_bytes_app, Hu1, Hv1. autorewrite with gostr. auto.
Qed.

Lemma shaped_Class p : (∀ c, p c = true → printable c = true) → shaped (Class p) 1.
Proof. intros Hp w (c & -> & Hc)%matches_Class. simpl. by rewrite (Hp _ Hc). Qed.

Lemma shaped_times r k n : shaped r k → shaped (times r n) (n * k).
Proof.
  intros Hr. induction n as [|n IH]; simpl; [|by apply shaped_Seq].
  by intros w ->%matches_Eps.
Qed.

Lemma uuid_shape : shaped uuidPattern 36.
Proof.
  assert (∀ n, shaped (times (Class hexadecimal) n) (n * 1)) as Hh.
  { intros n. apply shaped_times, shaped_Class.
    intros c. by apply class_incl. }
  assert (shaped dash 1) as Hd.
  { apply shaped_Class. by intros c ->%bool_decide_eq_true. }
  assert (shaped (Class (rng "1"%char "5"%char)) 1 ∧ shaped (Class (one_of "89ab")) 1) as [Hv Hr].
  { split; apply shaped_Class; intros c; by apply class_incl. }
  exact (shaped_Seq _ _ 8 28 (Hh 8%nat) (shaped_Seq _ _ 1 27 Hd (shaped_Seq _ _ 4 23 (Hh 4%nat)
    (shaped_Seq _ _ 1 22 Hd (shaped_Seq _ _ 1 21 Hv (shaped_Seq _ _ 3 18 (Hh 3%nat)
    (shaped_Seq _ _ 1 17 Hd (shaped_Seq _ _ 1 16 Hr (shaped_Seq _ _ 3 13 (Hh 3%nat)
    (shaped_Seq _ _ 1 12 Hd (Hh 12%nat))))))))))).
Qed.

(** ** Identifiers keep the randomness they are made of *)

(** The bits of 16 random bytes that an identifier shows: all but the four of the
    version and the two of the variant. *)
Definition random_bits (raw : string) : string :=
  set_byte 8 (λ b, Z.land b 63) (set_byte 6 (λ b, Z.land b 15) raw).

Lemma hex_inj s t : hex_EncodeToString s = hex_EncodeToString t → s = t.
Proof.
  assert (∀ c, byte (unhex (hex_digit (ord c / 16)) (hex_digit (ord c mod 16))) = c) as Hback.
  { intros c. refine (proj1 (bool_decide_eq_true _) (byte_cases (λ c, bool_decide
      (byte (unhex (hex_digit (ord c / 16)) (hex_digit (ord c mod 16))) = c)) c _)). by vm_compute. }
  revert t. induction s as [|c s IH]; intros [|d t]; try done. cbn [hex_EncodeToString].
  intros [= H1 H2 H3]. rewrite <- (Hback c), <- (Hback d), H1, H2. by rewrite (IH t).
Qed.

Lemma str_app_inj a b s t :
  String.length a = String.length b → a +:+ s = b +:+ t → a = b ∧ s = t.
Proof.
  revert b. induction a as [|c a IH]; intros [|d b] Hl; try done. rewrite !str_app_cons.
  intros [= -> Happ]. simpl in Hl. by destruct (IH b) as [-> ->]; [lia|done|].
Qed.

Lemma hex_app_inj a b s t : String.length a = String.length b →
  hex_EncodeToString a +:+ s = hex_EncodeToString b +:+ t → a = b ∧ s = t.
Proof.
  intros Hl Happ. destruct (hex_hexadecimal a) as [_ Ha], (hex_hexadecimal b) as [_ Hb].
  apply str_app_inj in Happ as [Hab ->]; [|lia]. split; [by apply hex_inj|done].
Qed.

Lemma after_dash s t : String "-" s = String "-" t → s = t.
Proof. by intros [= ->]. Qed.

(** The bits that are not forced can be read back. *)
Lemma forced_inj (keep force : Z) c d :
  forallb (λ n, Z.land (ord (byte (Z.lor (Z.land n keep) force))) keep =? Z.land n keep) (seqZ 0 256) = true →
  byte (Z.lor (Z.land (ord c) keep) force) = byte (Z.lor (Z.land (ord d) keep) force) →
  byte (Z.land (ord c) keep) = byte (Z.land (ord d) keep).
Proof.
  intros Hall E. assert (∀ x, Z.land (ord (byte (Z.lor (Z.land (ord x) keep) force))) keep =
    Z.land (ord x) keep) as Hback.
  { intros x. apply Z.eqb_eq, (proj1 (forallb_forall _ _) Hall), list_elem_of_In, elem_of_seqZ.
    pose proof (ord_range x). lia. }
  by rewrite <- (Hback c), <- (Hback d), E.
Qed.

Lemma formatUUID_random raw raw' :
  String.length raw = 16%nat → String.length raw' = 16%nat →
  formatUUID raw = formatUUID raw' → random_bits raw = random_bits raw'.
Proof.
  intros Hl Hl'. do 16 (destruct raw as [|? raw]; [done|]). destruct raw; [|done]. clear Hl.
  do 16 (destruct raw' as [|? raw']; [done|]). destruct raw'; [|done]. clear Hl'.
  unfold formatUUID, random_bits, set_byte, slice. cbn [str_take str_drop Nat.sub].
  autorewrite with gostr. cbn [str_take str_drop]. autorewrite with gostr. cbn [str_take str_drop].
  intros E. apply hex_app_inj in E as [E1 E]; [|done]. apply after_dash in E.
  apply hex_app_inj in E as [E2 E]; [|done]. apply after_dash in E.
  apply hex_app_inj in E as [E3 E]; [|done]. apply after_dash in E.
  apply hex_app_inj in E as [E4 E]; [|done]. apply after_dash, hex_inj in E as E5.
  injection E1 as -> -> -> ->. injection E2 as -> ->. injection E5 as -> -> -> -> -> ->.
  injection E3 as E3 ->. injection E4 as E4 ->.
  apply (forced_inj 15 64) in E3; [|by vm_compute]. apply (forced_inj 63 128) in E4; [|by vm_compute].
  by rewrite E3, E4.
Qed.

(** The identifiers the services generate are canonical and keep their
    randomness.  On any 16 random bytes [newUUID] returns a string that [Validate]
    accepts as an identifier and that is 36 characters long; two of them are the same
    only when the random bytes agree on all the 122 bits that the version and the
    variant do not fix; and a failure of the random source is returned. *)
Theorem generated_ids_are_canonical raw :
  len raw = 16 →
  (∃ id, newUUID (Ok raw) = Ok id ∧ MatchString uuidPattern id = true ∧ len id = 36) ∧
  (∀ raw', len raw' = 16 → newUUID (Ok raw') = newUUID (Ok raw) → random_bits raw' = random_bits raw) ∧
  (∀ e, newUUID (Err e) = Err e).
Proof.
  unfold len. intros Hlen. assert (MatchString uuidPattern (formatUUID raw) = true) as Hm
    by (apply formatUUID_canonical; lia).
  split_and!; [exists (formatUUID raw)| |done].
  - split_and!; [done..|]. apply MatchString_spec, uuid_shape in Hm as [_ Hl]. by rewrite Hl.
  - intros raw' Hlen' E. apply formatUUID_random; [lia..|]. by injection E.
Qed.

Lemma generated_ids_are_canonical_witness : ∃ id,
  newUUID (Ok "0123456789abcdef") = Ok id ∧ MatchString uuidPattern id = true ∧ len id = 36.
Proof.
  refine (proj1 (generated_ids_are_canonical "0123456789abcdef" _)). reflexivity.
Defined.
