(* ===== verification/GoSql.v ===== *)
(** * [database/sql] on PostgreSQL

    A session with the server: the committed tables, the open transaction and
    the outcomes of the calls to come.  Every call may fail, and a commit (or a
    statement outside a transaction) may be applied without being acknowledged.
    What the server does with the values of columns is the parameter
    [Postgres]. *)

From S2P Require Import Prelude GoRegexp GoStrings Identifiers.

(** An error of [database/sql]: no row, an error of the server with its SQLSTATE,
    or a failure of the connection. *)
Inductive sql_error :=
  | ErrNoRows
  | PgError (code : string)
  | DriverError (e : error).

Definition sql_error_value (e : sql_error) : error :=
  match e with
  | ErrNoRows => Sentinel "sql: no rows in result set"
  | PgError code => NewError ("SQLSTATE " +:+ code)
  | DriverError e => e
  end.

(** What the server does with a value given for a [uuid] or a [timestamptz]
    column ([None] when it refuses it), the [char_length] of a text, the sum of a
    [timestamptz] and a number of days, which depends on the time zone of the
    session, and the character class and collation of texts, which depend on the
    locale of the database. *)
Class Postgres := {
  pg_uuid : string → option string;
  pg_timestamptz : time → option time;
  pg_char_length : string → option Z;
  pg_add_days : time → Z → time;
  pg_cntrl : string → bool;
  pg_text_le : string → string → bool
}.

(** A bound on the times used, far inside the range of [timestamptz]. *)
Definition last_timestamp : time := 10000 * 365 * 24 * Hour.

(** The documented behaviour the service relies on: canonical UUIDs and whole
    seconds are stored as they are, and ASCII text is measured in bytes.  Nothing is
    assumed of [pg_add_days]: the program does not set the time zone of its sessions. *)
Class PostgresLaws `{Postgres} : Prop := {
  pg_uuid_canonical s : MatchString uuidPattern s = true → pg_uuid s = Some s;
  pg_timestamptz_seconds t :
    0 <= t < last_timestamp → t mod Second = 0 → pg_timestamptz t = Some t;
  pg_char_length_ascii s : all_bytes printable s = true →
    pg_char_length s = Some (len s)
}.

(** The time zone of the session has no daylight saving time: every day has 24 hours. *)
Definition days_of_24_hours `{Postgres} : Prop := ∀ t n, pg_add_days t n = t + n * 24 * Hour.

(** The outcome of a call to the server: it works, or it breaks with an error;
    a commit that breaks may have been applied. *)
Inductive outcome :=
  | Works
  | Breaks (e : error) (applied : bool).

Record Session (T : Type) := mkSession {
  se_tables : T;
  se_transaction : option T;
  se_outcomes : list outcome
}.
Arguments mkSession {T} _ _ _.
Arguments se_tables {T} _.
Arguments se_transaction {T} _.
Arguments se_outcomes {T} _.

(** A call on a session over tables [T], with errors [E]. *)
Definition sql (T E A : Type) : Type := Session T → (E + A) * Session T.

#[global] Instance sum_ret E : MRet (sum E) := λ _, inr.
#[global] Instance sum_bind E : MBind (sum E) := λ _ _ f m,
  match m with inl e => inl e | inr a => f a end.
#[global] Instance sql_ret T E : MRet (sql T E) := λ _ a s, (inr a, s).
#[global] Instance sql_bind T E : MBind (sql T E) := λ _ _ f m s,
  match m s with (inl e, s') => (inl e, s') | (inr a, s') => f a s' end.

Section session.
Context {T : Type}.

Definition map_err {E E' A} (f : E → E') (m : sql T E A) : sql T E' A := λ s,
  match m s with (inl e, s') => (inl (f e), s') | (inr a, s') => (inr a, s') end.

Definition of_result {A} (m : result A) : sql T error A := λ s,
  match m with Ok a => (inr a, s) | Err e => (inl e, s) end.

(** A call to the server: what it does when it works, what it does when it breaks. *)
Definition call {A} (works : Session T → (sql_error + A) * Session T)
    (breaks : bool → Session T → Session T) : sql T sql_error A := λ s,
  match se_outcomes s with
  | Breaks e applied :: o =>
      (inl (DriverError e), breaks applied (mkSession (se_tables s) (se_transaction s) o))
  | o => works (mkSession (se_tables s) (se_transaction s) (tail o))
  end.

Definition ErrTxDone : error := Sentinel "sql: transaction has already been committed or rolled back".

Definition BeginTx : sql T sql_error unit :=
  call (λ s, (inr tt, mkSession (se_tables s) (Some (se_tables s)) (se_outcomes s))) (λ _ s, s).

Definition apply_transaction (s : Session T) : Session T :=
  mkSession (default (se_tables s) (se_transaction s)) None (se_outcomes s).

Definition Rollback (s : Session T) : Session T := mkSession (se_tables s) None (se_outcomes s).

Definition Commit : sql T sql_error unit := λ s,
  match se_transaction s with
  | None => (inl (DriverError ErrTxDone), s)
  | Some _ => call (λ s, (inr tt, apply_transaction s))
                (λ applied s, if applied then apply_transaction s else Rollback s) s
  end.

(** A statement of the open transaction. *)
Definition statement {A} (f : T → sql_error + (A * T)) : sql T sql_error A :=
  call (λ s,
    match se_transaction s with
    | None => (inl (DriverError ErrTxDone), s)
    | Some t =>
        match f t with
        | inl e => (inl e, s)
        | inr (a, t') => (inr a, mkSession (se_tables s) (Some t') (se_outcomes s))
        end
    end) (λ _ s, s).

(** A statement outside a transaction: it commits by itself. *)
Definition exec {A} (f : T → sql_error + (A * T)) : sql T sql_error A :=
  let apply s := match f (se_tables s) with
    | inl e => (inl e, s)
    | inr (a, t') => (inr a, mkSession t' (se_transaction s) (se_outcomes s))
    end in
  call apply (λ applied s, if applied then (apply s).2 else s).

(** [defer transaction.Rollback()]: nothing after a commit. *)
Definition defer_rollback {E A} (m : sql T E A) : sql T E A := λ s,
  let '(r, s') := m s in (r, Rollback s').

End session.

(** ** Values of columns *)

Section columns.
Context `{Postgres}.

Definition pg_in {A B} (code : string) (convert : A → option B) (a : A) : sql_error + B :=
  match convert a with Some b => inr b | None => inl (PgError code) end.

(** A nullable parameter. *)
Definition pg_time_null (o : option time) : sql_error + option time :=
  match o with
  | None => inr None
  | Some t => t' ← pg_in "22008" pg_timestamptz t; inr (Some t')
  end.

Definition pg_check (ok : bool) (code : string) : sql_error + unit :=
  if ok then inr tt else inl (PgError code).

End columns.

Section rules.
Context {T : Type}.

(** [errors.Is(err, sql.ErrNoRows)] separates the retry from the other errors. *)
Definition or_no_rows {A} (m : sql T sql_error A) : sql T sql_error (option A) := λ s,
  match m s with
  | (inr a, s') => (inr (Some a), s')
  | (inl ErrNoRows, s') => (inr None, s')
  | (inl e, s') => (inl e, s')
  end.

(** ** Reasoning about a call *)

Definition run {E A} (m : sql T E A) (s : Session T) (Q : E + A → Session T → Prop) : Prop :=
  Q (m s).1 (m s).2.

Lemma run_bind {E A B} (m : sql T E A) (f : A → sql T E B) s (Q : E + B → Session T → Prop) :
  run m s (λ r s', match r with inl e => Q (inl e) s' | inr a => run (f a) s' Q end) →
  run (m ≫= f) s Q.
Proof. unfold run, mbind, sql_bind. by destruct (m s) as [[e|a] s']. Qed.

Lemma run_map_err {E E' A} (f : E → E') (m : sql T E A) s (Q : E' + A → Session T → Prop) :
  run m s (λ r s', Q (match r with inl e => inl (f e) | inr a => inr a end) s') →
  run (map_err f m) s Q.
Proof. unfold run, map_err. by destruct (m s) as [[e|a] s']. Qed.

Lemma run_or_no_rows {A} (m : sql T sql_error A) s Q :
  run m s (λ r s', Q (match r with inr a => inr (Some a) | inl ErrNoRows => inr None
                      | inl e => inl e end) s') →
  run (or_no_rows m) s Q.
Proof. unfold run, or_no_rows. by destruct (m s) as [[[| |]|a] s']. Qed.

Lemma run_of_result {A} (m : result A) s (Q : error + A → Session T → Prop) :
  (∀ a, m = Ok a → Q (inr a) s) → (∀ e, m = Err e → Q (inl e) s) → run (of_result m) s Q.
Proof. unfold run, of_result. destruct m; naive_solver. Qed.

Lemma run_defer {E A} (m : sql T E A) s (Q : E + A → Session T → Prop) :
  run m s (λ r s', Q r (Rollback s')) → run (defer_rollback m) s Q.
Proof. unfold run, defer_rollback. by destruct (m s) as [r s']. Qed.

Lemma run_begin t o (Q : sql_error + unit → Session T → Prop) :
  (∀ o', Q (inr tt) (mkSession t (Some t) o')) → (∀ e o', Q (inl e) (mkSession t None o')) →
  run BeginTx (mkSession t None o) Q.
Proof. intros H1 H2. unfold run. destruct o as [|[|e b] o]; cbn; auto. Qed.

Lemma run_statement {A} (f : T → sql_error + (A * T)) t t1 o
    (Q : sql_error + A → Session T → Prop) :
  (∀ a t2 o', f t1 = inr (a, t2) → Q (inr a) (mkSession t (Some t2) o')) →
  (∀ e o', Q (inl e) (mkSession t (Some t1) o')) →
  run (statement f) (mkSession t (Some t1) o) Q.
Proof.
  intros H1 H2. unfold run, statement.
  destruct o as [|[|e b] o]; cbn; [| |apply H2];
    destruct (f t1) as [e|[a t2]] eqn:E; cbn; eauto.
Qed.

Lemma run_commit t t1 o (Q : sql_error + unit → Session T → Prop) :
  (∀ r o', Q r (mkSession t1 None o')) → (∀ e o', Q (inl e) (mkSession t None o')) →
  run Commit (mkSession t (Some t1) o) Q.
Proof. intros H1 H2. unfold run. destruct o as [|[|e []] o]; [apply H1..|apply H2]. Qed.

Lemma run_exec {A} (f : T → sql_error + (A * T)) t o (Q : sql_error + A → Session T → Prop) :
  (∀ a t' o', f t = inr (a, t') → Q (inr a) (mkSession t' None o')) →
  (∀ e a t' o', f t = inr (a, t') → Q (inl e) (mkSession t' None o')) →
  (∀ e o', Q (inl e) (mkSession t None o')) →
  run (exec f) (mkSession t None o) Q.
Proof.
  intros H1 H2 H3. unfold run, exec. destruct o as [|[|e []] o]; cbn; [| | |apply H3];
    destruct (f t) as [e'|[a t']] eqn:E; cbn; eauto.
Qed.

(** The same when the connection works. *)
Lemma run_begin_works t (Q : sql_error + unit → Session T → Prop) :
  Q (inr tt) (mkSession t (Some t) []) → run BeginTx (mkSession t None []) Q.
Proof. done. Qed.

Lemma run_statement_works {A} (f : T → sql_error + (A * T)) t t1 r
    (Q : sql_error + A → Session T → Prop) :
  f t1 = r →
  match r with
  | inr (a, t2) => Q (inr a) (mkSession t (Some t2) [])
  | inl e => Q (inl e) (mkSession t (Some t1) [])
  end → run (statement f) (mkSession t (Some t1) []) Q.
Proof. intros <-. unfold run, statement. cbn. by destruct (f t1) as [e|[a t2]]. Qed.

Lemma run_commit_works t t1 (Q : sql_error + unit → Session T → Prop) :
  Q (inr tt) (mkSession t1 None []) → run Commit (mkSession t (Some t1) []) Q.
Proof. done. Qed.

Lemma run_eq {E A} (m : sql T E A) s r s' :
  run m s (λ r0 s0, r0 = r ∧ s0 = s') → m s = (r, s').
Proof. unfold run. destruct (m s). cbn. by intros [-> ->]. Qed.

Lemma run_pair {E A} (m : sql T E A) s (Q : E + A → Session T → Prop) :
  run m s Q → let '(r, s') := m s in Q r s'.
Proof. unfold run. by destruct (m s). Qed.

Lemma run_mono {E A} (m : sql T E A) s (Q Q' : E + A → Session T → Prop) :
  run m s Q → (∀ r s', Q r s' → Q' r s') → run m s Q'.
Proof. unfold run. auto. Qed.

(** What a call may leave behind: the tables as they were, with an error, or the
    effect of the whole transaction, acknowledged or not. *)
Definition all_or_nothing {A} (t : T) (effect : A → T → Prop) (r : error + A)
    (s : Session T) : Prop :=
  se_transaction s = None ∧
  ((se_tables s = t ∧ ∃ e, r = inl e) ∨
   ∃ a, effect a (se_tables s) ∧ (r = inr a ∨ ∃ e, r = inl e)).

End rules.

Lemma sum_bind_inr {E A B} (m : E + A) (f : A → E + B) b :
  m ≫= f = inr b ↔ ∃ a, m = inr a ∧ f a = inr b.
Proof. destruct m; cbn; naive_solver. Qed.

(** Inverts a chain of conversions and constraints that went through. *)
Ltac inv_sql :=
  repeat match goal with
  | H : @mbind (sum _) _ _ _ _ _ = inr _ |- _ =>
      let a := fresh "a" in let E := fresh "E" in
      apply sum_bind_inr in H as (a & E & H)
  | H : pg_check ?c _ = inr _ |- _ => destruct c eqn:?; [clear H|discriminate H]
  | H : pg_in _ ?f ?x = inr _ |- _ =>
      unfold pg_in in H; destruct (f x) eqn:?; [|discriminate H]
  end; inv_ok.

(** ** Stored times *)

(** A time that a [timestamptz] column keeps. *)
Definition storable (t : time) : Prop := 0 <= t < last_timestamp ∧ t mod Second = 0.

Lemma storable_Truncate t : 0 <= t < last_timestamp → storable (Truncate t Second).
Proof.
  intros Ht. unfold storable, Truncate, Second, last_timestamp, Hour, Minute in *. divlia.
Qed.

Section times.
Context `{PostgresLaws}.

Lemma pg_time_null_storable o :
  (∀ t, o = Some t → storable t) → pg_time_null o = inr o.
Proof.
  intros Ho. destruct o as [t|]; [|done]. destruct (Ho t eq_refl) as [Hr Hm]. cbn.
  unfold pg_in. by rewrite pg_timestamptz_seconds.
Qed.

End times.

(** ** An instance *)

(** A server whose sessions lose [shift] in 90 days: none in UTC, an hour in a zone that turns
    its clocks forward in between. *)
Definition toy_postgres (shift : duration) : Postgres := {|
  pg_uuid s := if MatchString uuidPattern s then Some s else None;
  pg_timestamptz t := if (0 <=? t) && (t <? last_timestamp) && (t mod Second =? 0) then Some t else None;
  pg_char_length s := if all_bytes printable s then Some (len s) else None;
  pg_add_days t n := t + n * 24 * Hour - (if n =? 90 then shift else 0);
  pg_cntrl s := negb (all_bytes printable s);
  pg_text_le s u := negb (str_ltb u s)
|}.

Definition ToyPostgres : Postgres := toy_postgres 0.

Lemma toy_postgres_laws shift : @PostgresLaws (toy_postgres shift).
Proof.
  split; cbn; [by intros s ->|..|by intros s ->].
  intros t Ht ->. destruct (Z.leb_spec 0 t), (Z.ltb_spec t last_timestamp); try lia. done.
Qed.

Definition ToyPostgres_laws : @PostgresLaws ToyPostgres := toy_postgres_laws 0.
