(* ===== verification/PilotAccess.v ===== *)
(** * Pilot access registry

    [internal/pilotaccess/access.go]: the service that registers and revokes
    the operational references to accesses issued by hand, and
    [internal/pilotaccess/postgres/store.go], its store.  The SQL statements of
    the store are functions on the tables of [migrations/000001_initial.sql] and
    [migrations/000002_pilot_vpn_access.sql], run inside a transaction whose
    every call may fail and whose commit may be applied without being
    acknowledged.  Conversions of values to column types that depend on the
    server are the parameter [Postgres]. *)

From S2P Require Import Prelude GoRegexp GoBase64 GoSha256 GoStrings Identifiers GoSql VpnNode.

(** ** Data *)

Definition maximumPilotAccessLifetime : duration := 90 * 24 * Hour.

Definition reference_char (c : ascii) : bool := alnum c || one_of "._:@/+-=" c.
Definition externalReferencePattern : re := head_tail alnum reference_char 255.

Definition ErrInvalid : error := Sentinel "pilot access: invalid input".
Definition ErrNotFound : error := Sentinel "pilot access: not found".
Definition ErrConflict : error := Sentinel "pilot access: conflict".

Definition StatusActive : string := "active".
Definition StatusRevoked : string := "revoked".

Record Access := mkAccess {
  ac_ID : string;
  ac_DeviceID : string;
  ac_NodeID : string;
  ac_Transport : string;
  ac_ExternalReference : string;
  ac_CreatedAt : time;
  ac_ExpiresAt : option time;
  ac_RevokedAt : option time;
  ac_Status : string
}.

Record RegisterInput := mkRegisterInput {
  ri_DeviceID : string;
  ri_NodeID : string;
  ri_Transport : string;
  ri_ExternalReference : string;
  ri_ExpiresAt : option time
}.

#[global] Instance Access_eq_dec : EqDecision Access.
Proof. solve_decision. Defined.

(** ** Validation *)

Definition decodes_long (value : string) (e : Encoding) : bool :=
  match DecodeString e value with
  | Some raw => len raw >=? 32
  | None => false
  end.

Definition resemblesSecret (value : string) : bool :=
  let lower := ToLower value in
  Contains lower "private" || HasPrefix lower "vpn://" || HasPrefix value "-----BEGIN" ||
  existsb (decodes_long value) [StdEncoding; RawStdEncoding; URLEncoding; RawURLEncoding].

Definition invalid (what : string) : error := Wrap what ErrInvalid.

(** [fmt.Errorf("%w: %v", ErrInvalid, err)]. *)
Definition as_invalid {A} (m : result A) : result A :=
  match m with Ok a => Ok a | Err _ => Err (invalid "") end.

Definition expiry_ok (access : Access) : bool :=
  match ac_ExpiresAt access with
  | None => false
  | Some t => After t (ac_CreatedAt access) &&
              negb (After t (time_Add (ac_CreatedAt access) maximumPilotAccessLifetime))
  end.

Definition validateStatus (access : Access) : result unit :=
  if bool_decide (ac_Status access = StatusActive) then
    fail_if (is_Some_b (ac_RevokedAt access))
      (invalid "active access cannot have a revocation time")
  else if bool_decide (ac_Status access = StatusRevoked) then
    fail_if (match ac_RevokedAt access with
             | None => true
             | Some t => Before t (ac_CreatedAt access)
             end) (invalid "revoked access requires a valid revocation time")
  else Err (invalid "unsupported status").

Definition Validate (access : Access) : result unit :=
  fail_if (negb (MatchString uuidPattern (ac_ID access)) ||
           negb (MatchString uuidPattern (ac_DeviceID access)))
    (invalid "access and device IDs must be canonical UUIDs");;
  as_invalid (ValidateID (ac_NodeID access));;
  as_invalid (ValidateTransport (ac_Transport access));;
  fail_if (negb (MatchString externalReferencePattern (ac_ExternalReference access)))
    (invalid "external reference is invalid");;
  fail_if (resemblesSecret (ac_ExternalReference access))
    (invalid "external reference resembles key material");;
  fail_if (IsZero (ac_CreatedAt access)) (invalid "creation time is required");;
  fail_if (negb (expiry_ok access)) (invalid "expiry must be after creation and within 90 days");;
  validateStatus access.

Definition cloneTime (value : option time) : option time := (λ t, Truncate t Second) <$> value.

(** ** The database *)

(** A row of [app_private.vpn_accesses]; [None] is NULL. *)
Record Row := mkRow {
  r_id : string;
  r_device_id : string;
  r_node_id : string;
  r_transport : string;
  r_external_reference : string;
  r_created_at : time;
  r_expires_at : option time;
  r_revoked_at : option time;
  r_status : string
}.

(** A row of [app_private.admin_audit_events], without its timestamp. *)
Record AuditEvent := mkAuditEvent {
  ae_id : string;
  ae_actor : string;
  ae_action : string;
  ae_object_type : string;
  ae_object_id : string;
  ae_metadata : option (string * string * option time)
}.

Record Tables := mkTables {
  t_devices : gset string;
  t_nodes : gset string;
  t_accesses : gmap string Row;
  t_audit : list AuditEvent
}.

#[global] Instance Row_eq_dec : EqDecision Row.
Proof. solve_decision. Defined.
#[global] Instance AuditEvent_eq_dec : EqDecision AuditEvent.
Proof. solve_decision. Defined.
#[global] Instance Tables_eq_dec : EqDecision Tables.
Proof. solve_decision. Defined.

(** ** The statements of the store *)

Section store.
Context `{Postgres}.

(** The CHECK constraints of [app_private.vpn_accesses]. *)
Definition row_checks (r : Row) : bool :=
  (bool_decide (r_transport r = "amneziawg") || bool_decide (r_transport r = "xray_reality")) &&
  match pg_char_length (r_external_reference r) with
  | Some n => (1 <=? n) && (n <=? 256)
  | None => false
  end &&
  (bool_decide (r_status r = "active") || bool_decide (r_status r = "revoked")) &&
  match r_expires_at r with
  | Some e => (r_created_at r <? e) && (e <=? pg_add_days (r_created_at r) 90)
  | None => true
  end &&
  match r_revoked_at r with Some t => r_created_at r <=? t | None => true end &&
  bool_decide (bool_decide (r_status r = "revoked") = is_Some_b (r_revoked_at r)).

(** The columns of [UNIQUE (node_id, transport, external_reference)]. *)
Definition operational_reference (r : Row) : string * string * string :=
  (r_node_id r, r_transport r, r_external_reference r).

Definition reference_taken (rows : gmap string Row) (r : Row) : bool :=
  existsb (λ p, bool_decide (operational_reference p.2 = operational_reference r)) (map_to_list rows).

Definition put_access (r : Row) (t : Tables) : Tables :=
  mkTables (t_devices t) (t_nodes t) (<[r_id r := r]> (t_accesses t)) (t_audit t).

(** [INSERT INTO app_private.vpn_accesses ... RETURNING]. *)
Definition insert_access (access : Access) (t : Tables) : sql_error + (Row * Tables) :=
  id ← pg_in "22P02" pg_uuid (ac_ID access);
  device ← pg_in "22P02" pg_uuid (ac_DeviceID access);
  created ← pg_in "22008" pg_timestamptz (ac_CreatedAt access);
  expires ← pg_time_null (ac_ExpiresAt access);
  revoked ← pg_time_null (ac_RevokedAt access);
  let r := mkRow id device (ac_NodeID access) (ac_Transport access) (ac_ExternalReference access)
             created expires revoked (ac_Status access) in
  pg_check (is_Some_b expires) "23502";;
  pg_check (row_checks r) "23514";;
  pg_check (negb (is_Some_b (t_accesses t !! id)) && negb (reference_taken (t_accesses t) r)) "23505";;
  pg_check (bool_decide (device ∈ t_devices t) && bool_decide (r_node_id r ∈ t_nodes t)) "23503";;
  inr (r, put_access r t).

(** [SET status = 'revoked', revoked_at = COALESCE(revoked_at, $2)]. *)
Definition revoke_row (r : Row) (at_ : time) : Row :=
  mkRow (r_id r) (r_device_id r) (r_node_id r) (r_transport r) (r_external_reference r)
    (r_created_at r) (r_expires_at r)
    (match r_revoked_at r with Some u => Some u | None => Some at_ end) "revoked".

(** [UPDATE app_private.vpn_accesses SET status = 'revoked', revoked_at =
    COALESCE(revoked_at, $2) WHERE id = $1 AND status = 'active' RETURNING]. *)
Definition update_revoked (id : string) (at_ : time) (t : Tables) : sql_error + (Row * Tables) :=
  id ← pg_in "22P02" pg_uuid id;
  at_ ← pg_in "22008" pg_timestamptz at_;
  match t_accesses t !! id with
  | None => inl ErrNoRows
  | Some r =>
      if bool_decide (r_status r = "active") then
        pg_check (row_checks (revoke_row r at_)) "23514";;
        inr (revoke_row r at_, put_access (revoke_row r at_) t)
      else inl ErrNoRows
  end.

(** [SELECT ... FROM app_private.vpn_accesses WHERE id = $1 AND status = 'revoked']. *)
Definition select_revoked (id : string) (t : Tables) : sql_error + (Row * Tables) :=
  id ← pg_in "22P02" pg_uuid id;
  match t_accesses t !! id with
  | Some r => if bool_decide (r_status r = "revoked") then inr (r, t) else inl ErrNoRows
  | None => inl ErrNoRows
  end.

(** [INSERT INTO app_private.admin_audit_events]. *)
Definition insert_audit (event : AuditEvent) (t : Tables) : sql_error + (unit * Tables) :=
  id ← pg_in "22P02" pg_uuid (ae_id event);
  pg_check (match pg_char_length (ae_object_id event) with
            | Some n => (1 <=? n) && (n <=? 256)
            | None => false
            end) "23514";;
  pg_check (negb (existsb (λ e, bool_decide (ae_id e = id)) (t_audit t))) "23505";;
  inr (tt, mkTables (t_devices t) (t_nodes t) (t_accesses t)
             (t_audit t ++ [mkAuditEvent id (ae_actor event) (ae_action event)
                              (ae_object_type event) (ae_object_id event) (ae_metadata event)])).

(** ** The store *)

(** [scan]: the columns of a row as an [Access]. *)
Definition scan (row : Row) : Access :=
  mkAccess (r_id row) (r_device_id row) (r_node_id row) (r_transport row)
    (r_external_reference row) (r_created_at row) (r_expires_at row) (r_revoked_at row)
    (r_status row).

Definition classify (operation : string) (err : sql_error) : error :=
  match err with
  | ErrNoRows => Wrap operation ErrNotFound
  | PgError code =>
      if bool_decide (code = "23505") then Wrap "duplicate operational reference" ErrConflict
      else if bool_decide (code = "23503") || bool_decide (code = "23514")
      then Wrap "referenced device/node or value is invalid" ErrInvalid
      else Wrap ("pilot access postgres: " +:+ operation) (sql_error_value err)
  | DriverError _ => Wrap ("pilot access postgres: " +:+ operation) (sql_error_value err)
  end.

Definition wrapping (context : string) (err : sql_error) : error :=
  Wrap ("pilot access postgres: " +:+ context) (sql_error_value err).

Definition registered (auditID : string) (result : Access) : AuditEvent :=
  mkAuditEvent auditID "pilot-admin-api" "pilot_access_registered" "vpn_access" (ac_ID result)
    (Some (ac_NodeID result, ac_Transport result, ac_ExpiresAt result)).

Definition revoked (auditID : string) (result : Access) : AuditEvent :=
  mkAuditEvent auditID "pilot-admin-api" "pilot_access_revoked" "vpn_access" (ac_ID result) None.

Definition Store_Create (newAuditID : result string) (access : Access) : sql Tables error Access :=
  auditID ← of_result (wrap "pilot access postgres: generate audit ID" newAuditID);
  map_err (wrapping "begin create") BeginTx;;
  defer_rollback (
    row ← map_err (classify "create") (statement (insert_access access));
    let result := scan row in
    map_err (wrapping "audit create") (statement (insert_audit (registered auditID result)));;
    map_err (wrapping "commit create") Commit;;
    mret result).

Definition Store_Revoke (newAuditID : result string) (id : string) (at_ : time)
    : sql Tables error Access :=
  auditID ← of_result (wrap "pilot access postgres: generate audit ID" newAuditID);
  map_err (wrapping "begin revoke") BeginTx;;
  defer_rollback (
    updated ← map_err (classify "revoke") (or_no_rows (statement (update_revoked id at_)));
    match updated with
    | None =>
        row ← map_err (classify "revoke") (statement (select_revoked id));
        map_err (wrapping "commit revoke retry") Commit;;
        mret (scan row)
    | Some row =>
        let result := scan row in
        map_err (wrapping "audit revoke") (statement (insert_audit (revoked auditID result)));;
        map_err (wrapping "commit revoke") Commit;;
        mret result
    end).

(** ** The service

    The clock, the identifier generators and the connection are arguments: what
    they deliver during the call. *)

Definition checked (m : sql Tables error Access) : sql Tables error Access :=
  result ← m;
  of_result (wrap "pilot access: store returned invalid access" (Validate result));;
  mret result.

Definition Register (now : time) (newID newAuditID : result string) (input : RegisterInput)
    : sql Tables error Access :=
  let now := Truncate now Second in
  identifier ← of_result (wrap "pilot access: generate ID" newID);
  let access := mkAccess identifier (ri_DeviceID input) (ri_NodeID input) (ri_Transport input)
    (ri_ExternalReference input) now (cloneTime (ri_ExpiresAt input)) None StatusActive in
  of_result (Validate access);;
  checked (Store_Create newAuditID access).

Definition Revoke (now : time) (newAuditID : result string) (id : string) : sql Tables error Access :=
  of_result (fail_if (negb (MatchString uuidPattern id)) (invalid "access ID is invalid"));;
  checked (Store_Revoke newAuditID id (Truncate now Second)).

End store.

Section transactions.
Context `{Postgres}.

Definition created (access : Access) (t : Tables) (result : Access) (t2 : Tables) : Prop :=
  ∃ row t1 auditID, insert_access access t = inr (row, t1) ∧ result = scan row ∧
    insert_audit (registered auditID result) t1 = inr (tt, t2).

Lemma Store_Create_spec aid access t o :
  run (Store_Create aid access) (mkSession t None o) (all_or_nothing t (created access t)).
Proof.
  unfold Store_Create. apply run_bind, run_of_result; [|by split; eauto]. intros auditID _.
  apply run_bind, run_map_err, run_begin; [|by split; eauto].
  intros o1. apply run_defer, run_bind, run_map_err, run_statement; [|by split; eauto].
  intros row t1 o2 Hrow. apply run_bind, run_map_err, run_statement; [|by split; eauto].
  intros [] t2 o3 Haudit. apply run_bind, run_map_err, run_commit; [|by split; eauto].
  intros r o4. assert (created access t (scan row) t2) by (do 3 eexists; eauto).
  destruct r as [e|[]]; (split; [done|]); right; exists (scan row); eauto.
Qed.

Definition was_revoked (id : string) (at_ : time) (t : Tables) (result : Access) (t2 : Tables)
    : Prop :=
  (∃ row t1 auditID, update_revoked id at_ t = inr (row, t1) ∧ result = scan row ∧
    insert_audit (revoked auditID result) t1 = inr (tt, t2)) ∨
  (∃ row, select_revoked id t = inr (row, t) ∧ result = scan row ∧ t2 = t).

Lemma select_revoked_tables id t row t' : select_revoked id t = inr (row, t') → t' = t.
Proof.
  unfold select_revoked. destruct (pg_in _ _ _) as [e|i]; cbn; [done|].
  destruct (t_accesses t !! i) as [r|]; [|done]. by case_bool_decide; intros [= <- <-].
Qed.

Lemma Store_Revoke_spec aid id at_ t o :
  run (Store_Revoke aid id at_) (mkSession t None o) (all_or_nothing t (was_revoked id at_ t)).
Proof.
  unfold Store_Revoke. apply run_bind, run_of_result; [|by split; eauto]. intros auditID _.
  apply run_bind, run_map_err, run_begin; [|by split; eauto].
  intros o1. apply run_defer, run_bind, run_map_err, run_or_no_rows, run_statement.
  - intros row t1 o2 Hrow. apply run_bind, run_map_err, run_statement; [|by split; eauto].
    intros [] t2 o3 Haudit. apply run_bind, run_map_err, run_commit; [|by split; eauto].
    intros r o4. assert (was_revoked id at_ t (scan row) t2) by (left; do 3 eexists; eauto).
    destruct r as [e|[]]; (split; [done|]); right; exists (scan row); eauto.
  - intros e o2. destruct e; [|by split; eauto..].
    apply run_bind, run_map_err, run_statement; [|by split; eauto].
    intros row t2 o3 Hrow. assert (t2 = t) as -> by (by eapply select_revoked_tables).
    apply run_bind, run_map_err, run_commit; [|by split; eauto].
    intros r o4. assert (was_revoked id at_ t (scan row) t) by (right; eauto).
    destruct r as [er|[]]; (split; [done|]); right; exists (scan row); eauto.
Qed.

Lemma checked_spec m s t (effect : Access → Tables → Prop) :
  run m s (all_or_nothing t effect) →
  run (checked m) s (λ r s', all_or_nothing t effect r s' ∧
    ∀ a, r = inr a → Validate a = Ok tt ∧ effect a (se_tables s')).
Proof.
  intros Hm. unfold checked. apply run_bind. eapply run_mono; [exact Hm|].
  intros r s' [Htx Heff]. destruct r as [e|a]; [by split|].
  destruct Heff as [[_ [e ?]]|(a' & He & [[= <-]|[e ?]])]; [done| |done].
  apply run_bind, run_of_result; [intros [] Hv|intros e _].
  - apply wrap_Ok in Hv. split; [split; eauto 10|by intros ? [= <-]].
  - split; [split; eauto 10|done].
Qed.

End transactions.

(** ** The audit trail *)

Definition events (action id : string) (t : Tables) : nat :=
  length (filter (λ e, ae_action e = action ∧ ae_object_id e = id) (t_audit t)).

Definition registrations (id : string) (t : Tables) : nat := events "pilot_access_registered" id t.
Definition revocations (id : string) (t : Tables) : nat := events "pilot_access_revoked" id t.

Definition is_revoked (o : option Row) : bool :=
  match o with Some r => bool_decide (r_status r = "revoked") | None => false end.

Section audit.
Context `{Postgres}.

(** The two events that a row may have in the trail. *)
Definition registration_of (r : Row) (id : string) : AuditEvent :=
  mkAuditEvent id "pilot-admin-api" "pilot_access_registered" "vpn_access" (r_id r)
    (Some (r_node_id r, r_transport r, r_expires_at r)).
Definition revocation_of (r : Row) (id : string) : AuditEvent :=
  mkAuditEvent id "pilot-admin-api" "pilot_access_revoked" "vpn_access" (r_id r) None.

(** Every row is well formed and stands under its identifier, no operational
    reference is used twice, and the trail names the registration of every row
    and the revocation of every revoked row exactly once; every event of the trail is one of
    these, with the actor, object and details of its row. *)
Record audited (t : Tables) : Prop := {
  au_id id r : t_accesses t !! id = Some r → r_id r = id ∧ row_checks r = true;
  au_unique i j r s : t_accesses t !! i = Some r → t_accesses t !! j = Some s →
    operational_reference r = operational_reference s → i = j;
  au_registered id : registrations id t = if is_Some_b (t_accesses t !! id) then 1%nat else 0%nat;
  au_revoked id : revocations id t = if is_revoked (t_accesses t !! id) then 1%nat else 0%nat;
  au_events : NoDup (ae_id <$> t_audit t);
  au_trail e : e ∈ t_audit t → ∃ r, t_accesses t !! ae_object_id e = Some r ∧
    (e = registration_of r (ae_id e) ∨ r_status r = "revoked" ∧ e = revocation_of r (ae_id e))
}.

(** What may happen to a row: nothing, or its one revocation. *)
Definition row_evolves (r r' : Row) : Prop :=
  r' = r ∨ ∃ at_, r_status r = "active" ∧ r' = revoke_row r at_.

Record evolves (t t' : Tables) : Prop := {
  ev_rows id r : t_accesses t !! id = Some r → ∃ r', t_accesses t' !! id = Some r' ∧ row_evolves r r';
  ev_audit : t_audit t `prefix_of` t_audit t'
}.

#[global] Instance evolves_preorder : PreOrder evolves.
Proof.
  split.
  - intros t. split; [unfold row_evolves; eauto|done].
  - intros t1 t2 t3 [R1 A1] [R2 A2]. split; [|by etrans].
    intros id r (r1 & H1 & E1)%R1. destruct (R2 _ _ H1) as (r2 & H2 & E2). exists r2. split; [done|].
    destruct E1 as [->|(u & Hs & ->)], E2 as [->|(v & Hs' & ->)]; unfold row_evolves; eauto. done.
Qed.

Lemma insert_access_inv access t r t1 : insert_access access t = inr (r, t1) →
  pg_uuid (ac_ID access) = Some (r_id r) ∧ t_accesses t !! r_id r = None ∧
  reference_taken (t_accesses t) r = false ∧ row_checks r = true ∧
  r_status r = ac_Status access ∧ t1 = put_access r t.
Proof.
  unfold insert_access. intros Hi. inv_sql. cbn in *. split_and!; try done.
  by destruct (t_accesses t !! _).
Qed.

Lemma update_revoked_inv id at_ t r t1 : update_revoked id at_ t = inr (r, t1) →
  ∃ i r0 u, pg_uuid id = Some i ∧ t_accesses t !! i = Some r0 ∧ r_status r0 = "active" ∧
    r = revoke_row r0 u ∧ row_checks r = true ∧ t1 = put_access r t.
Proof.
  unfold update_revoked. intros Hi. inv_sql.
  destruct (t_accesses t !! _) as [r0|] eqn:?; [|done]. case_bool_decide; [|done]. inv_sql. eauto 12.
Qed.

Lemma insert_audit_inv event t t2 : insert_audit event t = inr (tt, t2) →
  t_accesses t2 = t_accesses t ∧
  ∃ id, (id ∉ (ae_id <$> t_audit t)) ∧
    t_audit t2 = t_audit t ++ [mkAuditEvent id (ae_actor event) (ae_action event)
      (ae_object_type event) (ae_object_id event) (ae_metadata event)].
Proof.
  unfold insert_audit. intros Hi. inv_sql. cbn. split; [done|]. eexists. split; [|done].
  intros (e & -> & He)%list_elem_of_fmap.
  match goal with H : existsb _ _ = false |- _ => pose proof (existsb_none _ _ _ H He) as Hne end.
  cbn in Hne. by inv_ok.
Qed.

Lemma reference_free t r id s :
  reference_taken (t_accesses t) r = false → t_accesses t !! id = Some s →
  operational_reference s ≠ operational_reference r.
Proof.
  unfold reference_taken. intros Ht Hs.
  assert ((id, s) ∈ map_to_list (t_accesses t)) as Hin by by apply elem_of_map_to_list.
  pose proof (existsb_none _ _ _ Ht Hin) as Hne. cbn in Hne. by inv_ok.
Qed.

(** An event for one object changes one count of that object. *)
Lemma events_snoc action id t t2 e :
  t_audit t2 = t_audit t ++ [e] →
  events action id t2 =
    (events action id t + if decide (ae_action e = action ∧ ae_object_id e = id) then 1 else 0)%nat.
Proof.
  intros Ea. unfold events. rewrite Ea, filter_app, length_app, filter_cons, filter_nil.
  by destruct (decide _).
Qed.

Lemma created_audited access t a t2 :
  ac_Status access = StatusActive → audited t → created access t a t2 → audited t2.
Proof.
  intros Hst [I U R V N T] (r & t1 & aid & Hi & -> & Ha).
  apply insert_access_inv in Hi as (_ & Hnone & Hfree & Hck & Hs & ->).
  apply insert_audit_inv in Ha as (Hacc & eid & Hnew & Haud). cbn in Hacc, Haud.
  rewrite Hst in Hs. split; rewrite ?Hacc.
  - intros id s. rewrite lookup_insert_Some. intros [[<- <-]|[_ ?]]; eauto.
  - intros i j s s'. rewrite !lookup_insert_Some.
    intros [[<- <-]|[_ Hi]] [[<- <-]|[_ Hj]] E; [done| | |by eapply U].
    + by apply (reference_free _ _ _ _ Hfree) in Hj.
    + by apply (reference_free _ _ _ _ Hfree) in Hi.
  - intros id. unfold registrations. rewrite (events_snoc _ _ _ _ _ Haud). cbn.
    fold (registrations id t). rewrite R. destruct (decide (r_id r = id)) as [<-|Hne].
    + by rewrite lookup_insert_eq, Hnone, decide_True.
    + rewrite lookup_insert_ne, decide_False by naive_solver. apply Nat.add_0_r.
  - intros id. unfold revocations. rewrite (events_snoc _ _ _ _ _ Haud). cbn.
    fold (revocations id t). rewrite V, Nat.add_0_r. destruct (decide (r_id r = id)) as [<-|Hne].
    + rewrite lookup_insert_eq, Hnone. cbn. by rewrite Hs.
    + by rewrite lookup_insert_ne.
  - rewrite Haud, fmap_app. apply NoDup_app. split_and!; [done|set_solver|apply NoDup_singleton].
  - intros e. rewrite Haud. intros [He|He%list_elem_of_singleton]%elem_of_app; [|subst e].
    + destruct (T e He) as (r0 & Hr0 & Hev). exists r0. rewrite lookup_insert_ne by congruence. done.
    + exists r. cbn. rewrite lookup_insert_eq. split; [done|by left].
Qed.

Lemma was_revoked_audited id at_ t a t2 :
  audited t → was_revoked id at_ t a t2 → audited t2.
Proof.
  intros A [(r & t1 & aid & Hi & -> & Ha)|(r & _ & _ & ->)]; [|done]. destruct A as [I U R V N T].
  apply update_revoked_inv in Hi as (i & r0 & u & _ & Hr0 & Hact & -> & Hck & ->).
  apply insert_audit_inv in Ha as (Hacc & eid & Hnew & Haud). cbn in Hacc, Haud.
  destruct (I _ _ Hr0) as [<- _].
  assert (∀ k s, <[r_id r0 := revoke_row r0 u]> (t_accesses t) !! k = Some s →
    ∃ s0, t_accesses t !! k = Some s0 ∧ operational_reference s = operational_reference s0) as Hold.
  { intros k s. rewrite lookup_insert_Some. intros [[<- <-]|[_ ?]]; eauto. }
  split; rewrite ?Hacc.
  - intros k s. rewrite lookup_insert_Some. intros [[<- <-]|[_ ?]]; eauto.
  - intros k l s s' (s0 & ? & ->)%Hold (s0' & ? & ->)%Hold. eauto.
  - intros k. unfold registrations. rewrite (events_snoc _ _ _ _ _ Haud). cbn.
    fold (registrations k t). rewrite R, Nat.add_0_r. destruct (decide (r_id r0 = k)) as [<-|Hne].
    + by rewrite lookup_insert_eq, Hr0.
    + by rewrite lookup_insert_ne.
  - intros k. unfold revocations. rewrite (events_snoc _ _ _ _ _ Haud). cbn.
    fold (revocations k t). rewrite V. destruct (decide (r_id r0 = k)) as [<-|Hne].
    + rewrite lookup_insert_eq, Hr0, decide_True by done. cbn. by rewrite Hact.
    + rewrite lookup_insert_ne, decide_False by naive_solver. apply Nat.add_0_r.
  - rewrite Haud, fmap_app. apply NoDup_app. split_and!; [done|set_solver|apply NoDup_singleton].
  - intros e. rewrite Haud. intros [He|He%list_elem_of_singleton]%elem_of_app; [|subst e].
    + destruct (T e He) as (r & Hr & Hev). destruct (decide (r_id r0 = ae_object_id e)) as [Hid|Hne].
      * rewrite <-Hid in Hr. assert (r = r0) as -> by congruence. exists (revoke_row r0 u).
        rewrite <-Hid, lookup_insert_eq. split; [done|]. destruct Hev as [Hev|[Hrev _]]; [by left|congruence].
      * exists r. by rewrite lookup_insert_ne.
    + exists (revoke_row r0 u). cbn. rewrite lookup_insert_eq. split; [done|by right].
Qed.

Lemma created_evolves access t a t2 : created access t a t2 → evolves t t2.
Proof.
  intros (r & t1 & aid & Hi & -> & Ha).
  apply insert_access_inv in Hi as (_ & Hnone & _ & _ & _ & ->).
  apply insert_audit_inv in Ha as (Hacc & eid & _ & Haud). cbn in Hacc, Haud.
  split; [|rewrite Haud; by apply prefix_app_r].
  intros id s Hs. exists s. rewrite Hacc, lookup_insert_ne by congruence. split; [done|by left].
Qed.

Lemma was_revoked_evolves id at_ t a t2 :
  audited t → was_revoked id at_ t a t2 → evolves t t2.
Proof.
  intros A [(r & t1 & aid & Hi & -> & Ha)|(r & _ & _ & ->)]; [|done].
  apply update_revoked_inv in Hi as (i & r0 & u & _ & Hr0 & Hact & -> & _ & ->).
  apply insert_audit_inv in Ha as (Hacc & eid & _ & Haud). cbn in Hacc, Haud.
  destruct (au_id _ A _ _ Hr0) as [<- _].
  split; [|rewrite Haud; by apply prefix_app_r].
  intros k s Hs. rewrite Hacc. destruct (decide (r_id r0 = k)) as [<-|Hne].
  - rewrite lookup_insert_eq. assert (s = r0) as -> by congruence.
    eexists. split; [done|]. right. eauto.
  - rewrite lookup_insert_ne by done. exists s. split; [done|by left].
Qed.

(** ** Histories

    Calls of the service from any clock, with any identifiers and any failures
    of the connection, and the enrolment of devices and nodes by other
    operations.  A call is one step: its transaction is one atomic change for
    the other sessions. *)
Inductive pilot_step (t : Tables) : Tables → Prop :=
  | step_register now newID newAuditID input o r s :
      Register now newID newAuditID input (mkSession t None o) = (r, s) →
      pilot_step t (se_tables s)
  | step_revoke now newAuditID id o r s :
      Revoke now newAuditID id (mkSession t None o) = (r, s) →
      pilot_step t (se_tables s)
  | step_enrol devices nodes :
      pilot_step t (mkTables (devices ∪ t_devices t) (nodes ∪ t_nodes t) (t_accesses t) (t_audit t)).

Definition new_access (now : time) (id : string) (input : RegisterInput) : Access :=
  mkAccess id (ri_DeviceID input) (ri_NodeID input) (ri_Transport input)
    (ri_ExternalReference input) (Truncate now Second) (cloneTime (ri_ExpiresAt input)) None
    StatusActive.

(** What [Register] and [Revoke] may leave behind. *)
Lemma Register_spec now newID aid input t o :
  run (Register now newID aid input) (mkSession t None o) (λ r s,
    (se_tables s = t ∧ ∃ e, r = inl e) ∨
    ∃ id, newID = Ok id ∧ Validate (new_access now id input) = Ok tt ∧
      ∃ a, created (new_access now id input) t a (se_tables s) ∧
        ((r = inr a ∧ Validate a = Ok tt) ∨ ∃ e, r = inl e)).
Proof.
  unfold Register. apply run_bind, run_of_result; [|intros; left; by eauto].
  intros id Hid%wrap_Ok. apply run_bind, run_of_result; [|intros; left; by eauto].
  intros [] Hv. eapply run_mono; [apply checked_spec, Store_Create_spec|].
  intros r s [[_ [Heq|(a & Ha & Hr)]] Hok]; [by left|right].
  exists id. split_and!; [done..|]. exists a. split; [done|].
  destruct Hr as [->|He]; [|by right]. left. split; [done|]. by apply Hok.
Qed.

Lemma Revoke_spec now aid id t o :
  run (Revoke now aid id) (mkSession t None o) (λ r s,
    (se_tables s = t ∧ ∃ e, r = inl e) ∨
    MatchString uuidPattern id = true ∧
    ∃ a, was_revoked id (Truncate now Second) t a (se_tables s) ∧
      ((r = inr a ∧ Validate a = Ok tt) ∨ ∃ e, r = inl e)).
Proof.
  unfold Revoke. apply run_bind, run_of_result; [|intros; left; by eauto].
  intros [] Hid. inv_ok. eapply run_mono; [apply checked_spec, Store_Revoke_spec|].
  intros r s [[_ [Heq|(a & Ha & Hr)]] Hok]; [by left|right].
  split; [done|]. exists a. split; [done|].
  destruct Hr as [->|He]; [|by right]. left. split; [done|]. by apply Hok.
Qed.

Lemma pilot_step_ok t t' : pilot_step t t' → audited t → audited t' ∧ evolves t t'.
Proof.
  intros Hstep A. destruct Hstep as [now newID aid input o r s Hc|now aid id o r s Hc|ds ns].
  - pose proof (Register_spec now newID aid input t o) as Hs. unfold run in Hs.
    rewrite Hc in Hs. cbn in Hs.
    destruct Hs as [[-> _]|(id & _ & _ & a & Ha & _)]; [done|].
    split; [by apply (created_audited (new_access now id input) t a)|by eapply created_evolves].
  - pose proof (Revoke_spec now aid id t o) as Hs. unfold run in Hs.
    rewrite Hc in Hs. cbn in Hs.
    destruct Hs as [[-> _]|(_ & a & Ha & _)]; [done|].
    split; [by eapply was_revoked_audited|by eapply was_revoked_evolves].
  - split; [by destruct A|split; [|done]]. intros id r Hr. exists r. split; [done|by left].
Qed.

End audit.

(** ** Facts about valid accesses *)

(** A check whose every refusal is [ErrInvalid]. *)
Definition refuses {A} (m : result A) : Prop :=
  ∀ e, m = Err e → errors_Is e "pilot access: invalid input" = true.

Lemma refuses_bind {A B} (m : result A) (f : A → result B) :
  refuses m → (∀ a, refuses (f a)) → refuses (m ≫= f).
Proof. intros Hm Hf. destruct m as [a|e0]; [apply Hf|]. intros e [= <-]. by apply Hm. Qed.

Lemma refuses_fail_if c what : refuses (fail_if c (invalid what)).
Proof. by destruct c; intros e [= <-]. Qed.

Lemma refuses_as_invalid {A} (m : result A) : refuses (as_invalid m).
Proof. by destruct m; intros e' [= <-]. Qed.

Lemma Validate_errors access : refuses (Validate access).
Proof.
  unfold Validate. repeat (apply refuses_bind;
    [first [apply refuses_fail_if | apply refuses_as_invalid]|intros _]).
  unfold validateStatus. repeat case_match; try apply refuses_fail_if. by intros e [= <-].
Qed.

Lemma Access_Validate_inv access : Validate access = Ok tt →
  MatchString uuidPattern (ac_ID access) = true ∧
  MatchString uuidPattern (ac_DeviceID access) = true ∧
  ValidateID (ac_NodeID access) = Ok tt ∧ supported (ac_Transport access) ∧
  MatchString externalReferencePattern (ac_ExternalReference access) = true ∧
  resemblesSecret (ac_ExternalReference access) = false ∧
  ac_CreatedAt access ≠ zero_time ∧ expiry_ok access = true ∧ validateStatus access = Ok tt.
Proof.
  unfold Validate, as_invalid. intros Hv.
  destruct (ValidateID (ac_NodeID access)) as [[]|] eqn:Hn; [|by inv_ok].
  destruct (ValidateTransport (ac_Transport access)) as [[]|] eqn:Ht; [|by inv_ok].
  apply ValidateTransport_spec in Ht. unfold IsZero in Hv. inv_ok. split_and!; try done. lia.
Qed.

Lemma Access_Validate_intro access :
  MatchString uuidPattern (ac_ID access) = true →
  MatchString uuidPattern (ac_DeviceID access) = true →
  ValidateID (ac_NodeID access) = Ok tt → supported (ac_Transport access) →
  MatchString externalReferencePattern (ac_ExternalReference access) = true →
  resemblesSecret (ac_ExternalReference access) = false →
  ac_CreatedAt access ≠ zero_time → expiry_ok access = true → validateStatus access = Ok tt →
  Validate access = Ok tt.
Proof.
  intros H1 H2 H3 H4%ValidateTransport_spec H5 H6 H7 H8 H9. unfold Validate.
  rewrite H1, H2, H3, H4, H5, H6, H8, H9. unfold IsZero. apply Z.eqb_neq in H7. by rewrite H7.
Qed.

(** Base64 of 32 bytes or more is recognised in every encoding. *)
Lemma encoded_key_resembles_secret e `{!Standard e} raw :
  32 <= len raw → resemblesSecret (EncodeToString e raw) = true.
Proof.
  intros Hlen. unfold resemblesSecret.
  enough (existsb (decodes_long (EncodeToString e raw))
    [StdEncoding; RawStdEncoding; URLEncoding; RawURLEncoding] = true) as ->
    by by rewrite !orb_true_r.
  assert (decodes_long (EncodeToString e raw) e = true) as Hd.
  { unfold decodes_long. rewrite (DecodeString_EncodeToString e). lia. }
  cbn [existsb]. pose proof (standard (e := e)) as He.
  destruct He as [->|[->|[->| ->]]]; rewrite Hd; by rewrite ?orb_true_r.
Qed.

Lemma reference_char_printable c : reference_char c = true → printable c = true.
Proof. by apply class_incl. Qed.

Lemma alnum_printable c : alnum c = true → printable c = true.
Proof. by apply class_incl. Qed.

Lemma reference_printable s :
  MatchString externalReferencePattern s = true → all_bytes printable s = true ∧ 1 <= len s <= 256.
Proof.
  intros Hs. split; [|by apply head_tail_len in Hs].
  apply head_tail_spec in Hs as (c & s' & -> & Hc & Hs' & _). simpl.
  rewrite (alnum_printable _ Hc). simpl. eapply all_bytes_impl, Hs'. apply reference_char_printable.
Qed.

(** ** Valid accesses and the schema *)

Definition row_of (a : Access) : Row :=
  mkRow (ac_ID a) (ac_DeviceID a) (ac_NodeID a) (ac_Transport a) (ac_ExternalReference a)
    (ac_CreatedAt a) (ac_ExpiresAt a) (ac_RevokedAt a) (ac_Status a).

Lemma scan_row_of a : scan (row_of a) = a.
Proof. by destruct a. Qed.

Definition clock_ok (now : time) : Prop := 0 <= now < last_timestamp - 91 * 24 * Hour.

Section schema.
Context `{PostgresLaws}.

(** The expiry is within 90 days of the session of the server.  [Validate] counts 90 times 24
    hours instead. *)
Definition within_days (a : Access) : bool :=
  match ac_ExpiresAt a with Some e => e <=? pg_add_days (ac_CreatedAt a) 90 | None => true end.

Lemma within_days_utc a : days_of_24_hours → Validate a = Ok tt → within_days a = true.
Proof.
  intros Hd (_ & _ & _ & _ & _ & _ & _ & Hex & _)%Access_Validate_inv. unfold within_days, expiry_ok in *.
  destruct (ac_ExpiresAt a) as [e|]; [|done]. rewrite Hd. unfold After, time_Add, maximumPilotAccessLifetime in *. lia.
Qed.

(** Valid accesses satisfy every other CHECK constraint of the table. *)
Lemma Validate_row_checks a : Validate a = Ok tt → row_checks (row_of a) = within_days a.
Proof.
  intros (_ & _ & _ & Htr & Href & _ & _ & Hex & Hst)%Access_Validate_inv.
  destruct (reference_printable _ Href) as [Hp Hl].
  destruct a as [id dev node tr ref cr ex rev st]; unfold row_checks, within_days; cbn in *.
  rewrite pg_char_length_ascii by exact Hp.
  unfold expiry_ok, validateStatus, After, Before, time_Add in *. cbn in *.
  destruct ex as [e|]; [|done]. apply andb_true_iff in Hex as [He1 He2].
  assert ((bool_decide (tr = "amneziawg") || bool_decide (tr = "xray_reality")) = true) as ->
    by (destruct Htr as [-> | ->]; done).
  assert ((1 <=? len ref) && (len ref <=? 256) = true) as -> by lia. assert ((cr <? e) = true) as -> by lia.
  destruct (e <=? pg_add_days cr 90); [|by rewrite !andb_false_r].
  repeat (apply andb_true_iff; split); try done.
  - repeat case_bool_decide; done.
  - destruct rev as [r|]; [|done]. repeat case_bool_decide; try done; simplify_eq/=.
    apply fail_if_Ok in Hst. lia.
  - apply bool_decide_eq_true. destruct rev as [r|]; repeat case_bool_decide; try done; simplify_eq/=.
Qed.

(** A revocation keeps the constraints of a row that satisfies them. *)
Lemma revoke_row_checks r at_ :
  row_checks r = true → r_status r = "active" → r_created_at r <= at_ → row_checks (revoke_row r at_) = true.
Proof.
  unfold row_checks. rewrite !andb_true_iff. intros (((((Ht & Hc) & _) & He) & Hr) & Hs) Hst Hat. cbn.
  rewrite Hst in Hs. apply bool_decide_eq_true in Hs. destruct (r_revoked_at r); [done|]. cbn. split_and!; try done. lia.
Qed.

(** The conversions keep a valid access with storable times. *)
Lemma insert_access_valid a t :
  Validate a = Ok tt → storable (ac_CreatedAt a) → (∀ e, ac_ExpiresAt a = Some e → storable e) →
  (∀ e, ac_RevokedAt a = Some e → storable e) →
  insert_access a t =
    (pg_check (within_days a) "23514";;
     pg_check (negb (is_Some_b (t_accesses t !! ac_ID a)) &&
               negb (reference_taken (t_accesses t) (row_of a))) "23505";;
     pg_check (bool_decide (ac_DeviceID a ∈ t_devices t) && bool_decide (ac_NodeID a ∈ t_nodes t)) "23503";;
     inr (row_of a, put_access (row_of a) t)).
Proof.
  intros Hv [Hc1 Hc2] He Hr. pose proof (Validate_row_checks _ Hv) as Hck.
  apply Access_Validate_inv in Hv as (Hid & Hdev & _ & _ & _ & _ & _ & Hex & _).
  unfold insert_access. unfold pg_in at 1 2 3.
  rewrite (pg_uuid_canonical _ Hid), (pg_uuid_canonical _ Hdev), pg_timestamptz_seconds by done.
  rewrite !pg_time_null_storable by done. cbn [mbind sum_bind].
  unfold expiry_ok in Hex. destruct (ac_ExpiresAt a) eqn:E; [|done].
  cbn [is_Some_b pg_check mbind sum_bind]. unfold row_of in *. rewrite E in *. by rewrite Hck.
Qed.

Lemma new_access_storable now id input :
  clock_ok now → Validate (new_access now id input) = Ok tt →
  let a := new_access now id input in
  storable (ac_CreatedAt a) ∧ (∀ e, ac_ExpiresAt a = Some e → storable e) ∧
  (∀ e, ac_RevokedAt a = Some e → storable e).
Proof.
  intros Hnow (_ & _ & _ & _ & _ & _ & _ & Hex & _)%Access_Validate_inv.
  assert (storable (Truncate now Second)) as Hc.
  { apply storable_Truncate. unfold clock_ok, Hour, Minute, Second in *. lia. }
  cbn. split_and!; [done| |done].
  intros e He. unfold expiry_ok, new_access in Hex. cbn in Hex. rewrite He in Hex.
  destruct (ri_ExpiresAt input) as [x|]; [|done]. injection He as <-.
  apply andb_true_iff in Hex as [Hex1 Hex2%negb_true_iff].
  pose proof (Truncate_bounds now Second ltac:(done)). destruct Hc as [Hc _].
  unfold After, time_Add, maximumPilotAccessLifetime, clock_ok in *. split.
  - unfold Hour, Minute, Second in *. lia.
  - unfold Truncate, Second. divlia.
Qed.

Lemma insert_audit_uuid event t :
  MatchString uuidPattern (ae_id event) = true → MatchString uuidPattern (ae_object_id event) = true →
  ae_id event ∉ (ae_id <$> t_audit t) →
  insert_audit event t = inr (tt, mkTables (t_devices t) (t_nodes t) (t_accesses t) (t_audit t ++ [event])).
Proof.
  intros Hid Hobj Hnew. unfold insert_audit, pg_in. rewrite (pg_uuid_canonical _ Hid).
  apply MatchString_spec, uuid_shape in Hobj as [Hp Hl].
  rewrite (pg_char_length_ascii _ Hp). unfold len. rewrite Hl. cbn [mbind sum_bind].
  destruct (existsb _ _) eqn:E; [|by destruct event].
  apply existsb_exists in E as (e & He & Heq%bool_decide_eq_true).
  destruct Hnew. rewrite <- Heq. by apply list_elem_of_fmap_2, list_elem_of_In.
Qed.

End schema.

(** ** Claims *)

(** C9: the audit trail of pilot accesses is exact.  Through any sequence of
    calls of [Register] and [Revoke], with any clocks and identifiers, any call
    to the database failing and commits applied without acknowledgement, every
    access has exactly one registration event, every revoked access exactly one
    revocation event, and every event of the trail is one of these two, with the actor, the
    object and the details of its access; no operational reference is
    used twice; rows are never removed, a revoked row never changes again, and
    the trail only grows. *)
Theorem audit_trail_is_exact `{Postgres} t t' :
  audited t → rtc pilot_step t t' → audited t' ∧ evolves t t'.
Proof.
  intros A Hrun. induction Hrun as [t|t t1 t2 Hstep _ IH]; [done|].
  destruct (pilot_step_ok _ _ Hstep A) as [A1 E1]. destruct (IH A1) as [A2 E2].
  split; [done|by etrans].
Qed.

(** An acknowledged registration is faithful.  When [Register] returns an
    access, it is the requested one, active, dated with the clock truncated to
    seconds and valid; it is stored under an identifier that was free, no other
    row changed, and its registration is the one event added to the trail. *)
Theorem registration_is_faithful `{PostgresLaws} now newID aid input t o a s :
  clock_ok now → Register now newID aid input (mkSession t None o) = (inr a, s) →
  ∃ id event, newID = Ok id ∧ a = new_access now id input ∧ Validate a = Ok tt ∧
    t_accesses t !! id = None ∧ t_accesses (se_tables s) = <[id := row_of a]> (t_accesses t) ∧
    t_audit (se_tables s) = t_audit t ++ [event] ∧
    ae_action event = "pilot_access_registered" ∧ ae_object_id event = id.
Proof.
  intros Hnow Hc. pose proof (Register_spec now newID aid input t o) as Hs. unfold run in Hs.
  rewrite Hc in Hs. cbn in Hs.
  destruct Hs as [[_ [e ?]]|(id & -> & Hv & a' & Hcr & [[[= <-] Hva]|[e ?]])]; [done| |done].
  destruct Hcr as (row & t1 & auditID & Hi & -> & Ha).
  destruct (new_access_storable _ _ _ Hnow Hv) as (Hs1 & Hs2 & Hs3).
  rewrite insert_access_valid in Hi by done. inv_sql.
  apply insert_audit_inv in Ha as (Hacc & eid & _ & Haud). rewrite scan_row_of in *.
  eexists id, _. split_and!; try done.
  cbn in H2. by destruct (t_accesses t !! id).
Qed.

(** C30: [Register] succeeds whenever it should, and says why when the database refuses.  Take
    a valid request for an enrolled device and node, with a free identifier and a free
    operational reference and a working database.  If its expiry is within 90 days of the
    session of the server, the new access is returned, stored and recorded in the trail; if it is
    not, the call fails with [ErrInvalid] and changes nothing.  The first case is the only one
    when every day of the session has 24 hours, as in UTC; the program does not set the time
    zone of its sessions. *)
Theorem registration_succeeds `{PostgresLaws} now id aid input t :
  clock_ok now → Validate (new_access now id input) = Ok tt →
  t_accesses t !! id = None → reference_taken (t_accesses t) (row_of (new_access now id input)) = false →
  ri_DeviceID input ∈ t_devices t → ri_NodeID input ∈ t_nodes t →
  MatchString uuidPattern aid = true → aid ∉ (ae_id <$> t_audit t) →
  let access := new_access now id input in
  let outcome := Register now (Ok id) (Ok aid) input (mkSession t None []) in
  (if within_days access
   then outcome = (inr access, mkSession (mkTables (t_devices t) (t_nodes t)
          (<[id := row_of access]> (t_accesses t)) (t_audit t ++ [registered aid access])) None [])
   else ∃ err, outcome = (inl err, mkSession t None []) ∧ errors_Is err "pilot access: invalid input" = true) ∧
  (days_of_24_hours → within_days access = true).
Proof.
  intros Hnow Hv Hfree Href Hdev Hnode Haid Hnew access outcome. split; [|intros Hd; by apply within_days_utc].
  destruct (new_access_storable _ _ _ Hnow Hv) as (Hs1 & Hs2 & Hs3).
  pose proof Hv as (Hid & _)%Access_Validate_inv.
  assert (insert_access access t =
    (pg_check (within_days access) "23514";; inr (row_of access, put_access (row_of access) t))) as Hins.
  { unfold access. rewrite insert_access_valid by done. cbn [new_access ac_ID ac_DeviceID ac_NodeID].
    fold (new_access now id input). by rewrite Hfree, Href, !bool_decide_eq_true_2 by done. }
  assert (∀ Q, run (Register now (Ok id) (Ok aid) input) (mkSession t None []) Q ↔
    run (checked (Store_Create (Ok aid) access)) (mkSession t None []) Q) as Hreg.
  { intros Q. unfold run, Register, of_result, mbind, sql_bind. cbn [wrap]. fold (new_access now id input).
    fold access. unfold access in *. by rewrite Hv. }
  destruct (within_days access).
  - apply run_eq, Hreg. unfold checked, Store_Create. apply run_bind, run_bind, run_of_result; [|done]. intros ? [= <-].
    apply run_bind, run_map_err, run_begin_works, run_defer, run_bind, run_map_err.
    eapply run_statement_works; [exact Hins|]. cbn [is_Some_b negb andb pg_check mbind sum_bind].
    rewrite scan_row_of. apply run_bind, run_map_err.
    eapply run_statement_works; [by apply insert_audit_uuid|].
    apply run_bind, run_map_err, run_commit_works.
    apply run_bind, run_of_result; [done|]. intros e He. unfold access in He. by rewrite Hv in He.
  - eexists. split; [|shelve]. apply run_eq, Hreg. unfold checked, Store_Create.
    apply run_bind, run_bind, run_of_result; [|done]. intros ? [= <-].
    apply run_bind, run_map_err, run_begin_works, run_defer, run_bind, run_map_err.
    eapply run_statement_works; [exact Hins|]. cbn [pg_check mbind sum_bind]. by split.
    Unshelve. done.
Qed.

Lemma Validate_revoked r at_ :
  Validate (scan r) = Ok tt → r_status r = "active" → r_created_at r <= at_ →
  Validate (scan (revoke_row r at_)) = Ok tt ∧ r_revoked_at r = None.
Proof.
  intros (H1 & H2 & H3 & H4 & H5 & H6 & H7 & H8 & H9)%Access_Validate_inv Hst Hat.
  destruct r as [id dev node tr ref cr ex rev st]. cbn in *. subst st. cbn in H9.
  destruct rev; [done|]. split; [|done]. apply Access_Validate_intro; cbn; try done.
  unfold validateStatus, Before. cbn. apply fail_if_Ok. lia.
Qed.

Section revocation.
Context `{PostgresLaws}.

Lemma update_revoked_active id now t r :
  MatchString uuidPattern id = true → storable now → t_accesses t !! id = Some r →
  r_status r = "active" → row_checks (revoke_row r now) = true →
  update_revoked id now t = inr (revoke_row r now, put_access (revoke_row r now) t).
Proof.
  intros Hid [Hn1 Hn2] Hr Hst Hv. unfold update_revoked, pg_in.
  rewrite (pg_uuid_canonical _ Hid), pg_timestamptz_seconds by done. cbn [mbind sum_bind].
  rewrite Hr, bool_decide_eq_true_2 by done. by rewrite Hv.
Qed.

Lemma update_revoked_retry id now t r :
  MatchString uuidPattern id = true → storable now → t_accesses t !! id = Some r →
  r_status r = "revoked" →
  update_revoked id now t = inl ErrNoRows ∧ select_revoked id t = inr (r, t).
Proof.
  intros Hid [Hn1 Hn2] Hr Hst. unfold update_revoked, select_revoked, pg_in.
  rewrite (pg_uuid_canonical _ Hid), pg_timestamptz_seconds by done. cbn [mbind sum_bind].
  by rewrite Hr, Hst.
Qed.

Lemma clock_storable now : clock_ok now → storable (Truncate now Second).
Proof.
  intros Hnow. apply storable_Truncate. unfold clock_ok, Hour, Minute, Second in *. lia.
Qed.

(** A revoke of a revoked access. *)
Lemma Revoke_retry now aid id t r :
  MatchString uuidPattern id = true → clock_ok now → t_accesses t !! id = Some r →
  r_status r = "revoked" → Validate (scan r) = Ok tt →
  Revoke now (Ok aid) id (mkSession t None []) = (inr (scan r), mkSession t None []).
Proof.
  intros Hid Hnow Hr Hst Hv. apply run_eq. unfold Revoke. rewrite Hid.
  destruct (update_revoked_retry id _ t r Hid (clock_storable _ Hnow) Hr Hst) as [Hu Hs].
  apply run_bind, run_of_result; [|done]. intros _ _. unfold checked, Store_Revoke.
  apply run_bind, run_bind, run_of_result; [|done]. intros ? [= <-].
  apply run_bind, run_map_err, run_begin_works, run_defer, run_bind, run_map_err, run_or_no_rows.
  eapply run_statement_works; [done|]. apply run_bind, run_map_err.
  eapply run_statement_works; [done|]. apply run_bind, run_map_err, run_commit_works.
  apply run_bind, run_of_result; [done|]. by rewrite Hv.
Qed.

(** The first revoke of an active access. *)
Lemma Revoke_active now aid id t r :
  MatchString uuidPattern id = true → clock_ok now → t_accesses t !! id = Some r → r_id r = id →
  r_status r = "active" → row_checks (revoke_row r (Truncate now Second)) = true →
  Validate (scan (revoke_row r (Truncate now Second))) = Ok tt →
  MatchString uuidPattern aid = true → aid ∉ (ae_id <$> t_audit t) →
  let r' := revoke_row r (Truncate now Second) in
  Revoke now (Ok aid) id (mkSession t None []) = (inr (scan r'),
    mkSession (mkTables (t_devices t) (t_nodes t) (<[id := r']> (t_accesses t))
      (t_audit t ++ [revoked aid (scan r')])) None []).
Proof.
  intros Hid Hnow Hr Hrid Hst Hck Hv Haid Hnew r'. apply run_eq. unfold Revoke. rewrite Hid.
  pose proof (update_revoked_active id _ t r Hid (clock_storable _ Hnow) Hr Hst Hck) as Hu.
  apply run_bind, run_of_result; [|done]. intros _ _. unfold checked, Store_Revoke.
  apply run_bind, run_bind, run_of_result; [|done]. intros ? [= <-].
  apply run_bind, run_map_err, run_begin_works, run_defer, run_bind, run_map_err, run_or_no_rows.
  eapply run_statement_works; [done|]. apply run_bind, run_map_err.
  eapply run_statement_works; [apply insert_audit_uuid; cbn; by rewrite ?Hrid|].
  apply run_bind, run_map_err, run_commit_works.
  apply run_bind, run_of_result; [|by rewrite Hv]. intros _ _. split; [done|]. cbn.
  unfold put_access. cbn. by rewrite Hrid.
Qed.

End revocation.

(** C31: revoking is effective and idempotent.  With a working database the
    first [Revoke] of an active access marks it revoked at the clock truncated
    to seconds, changes nothing else about it or about the other rows, and
    leaves one revocation event; every retry returns the same record and
    changes nothing, whatever its clock. *)
Theorem revocation_is_idempotent `{PostgresLaws} now id aid t r :
  audited t → t_accesses t !! id = Some r → r_status r = "active" → Validate (scan r) = Ok tt →
  clock_ok now → r_created_at r <= Truncate now Second →
  MatchString uuidPattern aid = true → aid ∉ (ae_id <$> t_audit t) →
  let r' := revoke_row r (Truncate now Second) in
  ∃ t', Revoke now (Ok aid) id (mkSession t None []) = (inr (scan r'), mkSession t' None []) ∧
    r_revoked_at r' = Some (Truncate now Second) ∧
    t_accesses t' = <[id := r']> (t_accesses t) ∧ revocations id t' = 1%nat ∧
    ∀ now2 aid2, clock_ok now2 →
      Revoke now2 (Ok aid2) id (mkSession t' None []) = (inr (scan r'), mkSession t' None []).
Proof.
  intros A Hr Hst Hv Hnow Hle Haid Hnew r'. destruct (au_id _ A _ _ Hr) as [Hrid Hck].
  pose proof Hv as (Hid & _)%Access_Validate_inv. cbn in Hid. rewrite Hrid in Hid.
  destruct (Validate_revoked _ _ Hv Hst Hle) as [Hv' Hnone].
  eexists. split; [by apply Revoke_active; try done; apply revoke_row_checks|]. split_and!; [by unfold r'; cbn; rewrite Hnone|done| |].
  - unfold revocations. erewrite events_snoc by done. fold (revocations id t).
    rewrite (au_revoked _ A), Hr. cbn. by rewrite Hst, Hrid, decide_True.
  - intros now2 aid2 Hnow2. apply Revoke_retry; try done. cbn. by rewrite lookup_insert_eq.
Qed.

(** C32: key material is refused.  No access is valid whose external reference is
    the Base64 text of 32 bytes or more, in any of the four encodings, and the
    refusal is [ErrInvalid]. *)
Theorem key_material_is_refused e raw access :
  Standard e → 32 <= len raw → ac_ExternalReference access = EncodeToString e raw →
  ∃ err, Validate access = Err err ∧ errors_Is err "pilot access: invalid input" = true.
Proof.
  intros He Hlen Href. destruct (Validate access) as [[]|err] eqn:Hv.
  - apply Access_Validate_inv in Hv as (_ & _ & _ & _ & _ & Hs & _).
    by rewrite Href, (encoded_key_resembles_secret e) in Hs.
  - exists err. split; [done|]. by eapply Validate_errors.
Qed.

(** ** Witnesses *)

Lemma audited_empty `{Postgres} devices nodes : audited (mkTables devices nodes ∅ []).
Proof.
  split; cbn; [by intros ? ? ?|by intros ? ? ? ? ?|by intros id; rewrite lookup_empty..|constructor|].
  by intros e ?%elem_of_nil.
Qed.

Definition toy_device : string := "00000000-0000-4000-8000-000000000001".
Definition toy_access_id : string := "00000000-0000-4000-8000-000000000002".
Definition toy_audit_id : string := "00000000-0000-4000-8000-000000000003".
Definition toy_revoke_id : string := "00000000-0000-4000-8000-000000000004".
Definition toy_now : time := unix_epoch + 1500000000.
Definition toy_input : RegisterInput :=
  mkRegisterInput toy_device "ams-1" "amneziawg" "peer:7" (Some (unix_epoch + 24 * Hour)).
Definition toy_tables : Tables := mkTables {[toy_device]} {["ams-1"]} ∅ [].
Definition toy_register : (error + Access) * Session Tables :=
  @Register ToyPostgres toy_now (Ok toy_access_id) (Ok toy_audit_id) toy_input
    (mkSession toy_tables None []).
Definition toy_registered : Tables := se_tables toy_register.2.

Lemma toy_registered_audited : @audited ToyPostgres toy_registered.
Proof.
  apply (@pilot_step_ok ToyPostgres toy_tables); [|apply audited_empty].
  eapply step_register. unfold toy_register. apply surjective_pairing.
Qed.

Lemma audit_trail_is_exact_witness :
  t_audit toy_registered = [@registered toy_audit_id (new_access toy_now toy_access_id toy_input)] ∧
  @audited ToyPostgres toy_registered.
Proof.
  split; [vm_compute; reflexivity|].
  refine (proj1 (@audit_trail_is_exact ToyPostgres toy_tables toy_registered _ _)).
  - apply audited_empty.
  - apply rtc_once. eapply step_register. unfold toy_register. apply surjective_pairing.
Defined.

Lemma registration_is_faithful_witness : ∃ id event,
  Ok toy_access_id = Ok id ∧ ae_object_id event = id.
Proof.
  destruct (@registration_is_faithful ToyPostgres ToyPostgres_laws toy_now (Ok toy_access_id)
    (Ok toy_audit_id) toy_input toy_tables [] (new_access toy_now toy_access_id toy_input)
    toy_register.2) as (id & event & E & _ & _ & _ & _ & _ & _ & Eo).
  - vm_compute. split; [discriminate|reflexivity].
  - vm_compute. reflexivity.
  - exists id, event. exact (conj E Eo).
Defined.

Lemma registration_succeeds_witness :
  toy_register = (inr (new_access toy_now toy_access_id toy_input),
    mkSession (mkTables {[toy_device]} {["ams-1"]}
      (<[toy_access_id := row_of (new_access toy_now toy_access_id toy_input)]> ∅)
      [registered toy_audit_id (new_access toy_now toy_access_id toy_input)]) None []).
Proof.
  destruct (@registration_succeeds ToyPostgres ToyPostgres_laws toy_now toy_access_id toy_audit_id
    toy_input toy_tables) as [Hreg _].
  - vm_compute. split; [discriminate|reflexivity].
  - vm_compute. reflexivity.
  - vm_compute. reflexivity.
  - vm_compute. reflexivity.
  - by_compute.
  - by_compute.
  - vm_compute. reflexivity.
  - by_compute.
  - assert (@within_days ToyPostgres (new_access toy_now toy_access_id toy_input) = true) as Hd
      by (vm_compute; reflexivity).
    cbv zeta in Hreg. rewrite Hd in Hreg. exact Hreg.
Defined.

(** The full lifetime of 90 days, which [Validate] accepts, is refused in a session whose time
    zone turns its clocks forward in between. *)
Definition toy_full_lifetime : RegisterInput :=
  mkRegisterInput toy_device "ams-1" "amneziawg" "peer:7" (Some (Truncate toy_now Second + 90 * 24 * Hour)).

Lemma daylight_saving_refuses_the_full_lifetime : ∃ err,
  Validate (new_access toy_now toy_access_id toy_full_lifetime) = Ok tt ∧
  @Register (toy_postgres Hour) toy_now (Ok toy_access_id) (Ok toy_audit_id) toy_full_lifetime
    (mkSession toy_tables None []) = (inl err, mkSession toy_tables None []) ∧
  errors_Is err "pilot access: invalid input" = true ∧
  (@Register ToyPostgres toy_now (Ok toy_access_id) (Ok toy_audit_id) toy_full_lifetime
    (mkSession toy_tables None [])).1 = inr (new_access toy_now toy_access_id toy_full_lifetime).
Proof. eexists. split_and!; vm_compute; reflexivity. Qed.

Definition toy_row : Row := row_of (new_access toy_now toy_access_id toy_input).

Lemma revocation_is_idempotent_witness : ∃ t',
  t_accesses t' !! toy_access_id = Some (revoke_row toy_row (unix_epoch + 2 * Second)).
Proof.
  destruct (@revocation_is_idempotent ToyPostgres ToyPostgres_laws (unix_epoch + 2 * Second) toy_access_id
    toy_revoke_id toy_registered toy_row toy_registered_audited) as (t' & _ & _ & E & _).
  - vm_compute. reflexivity.
  - vm_compute. reflexivity.
  - vm_compute. reflexivity.
  - vm_compute. split; [discriminate|reflexivity].
  - vm_compute. discriminate.
  - vm_compute. reflexivity.
  - by_compute.
  - exists t'. rewrite E. apply lookup_insert_eq.
Defined.

Definition toy_key_bytes : string := "0123456789abcdef0123456789abcdef".

Lemma key_material_is_refused_witness : ∃ err,
  Validate (mkAccess toy_access_id toy_device "ams-1" "amneziawg"
    (EncodeToString StdEncoding toy_key_bytes) toy_now (Some (toy_now + Hour)) None StatusActive) = Err err ∧
  errors_Is err "pilot access: invalid input" = true.
Proof.
  apply (key_material_is_refused StdEncoding toy_key_bytes); [apply _|vm_compute; discriminate|reflexivity].
Defined.
