(* ===== verification/Telemetry.v ===== *)
(** * Pilot telemetry

    [internal/pilottelemetry/telemetry.go]: the service that records the outcome
    of connection tests and reports on them, and
    [internal/pilottelemetry/postgres/store.go], its store, whose statements are
    functions on the tables of [migrations/000003_pilot_test_results.sql] and on
    the accesses of [PilotAccess]. *)

From Stdlib Require Import SpecFloat.
From S2P Require Import Prelude GoRegexp GoStrings GoNet GoJson GoUnicode Identifiers GoSql VpnNode.
From S2P Require Import PilotAccess.

(** ** Data *)

Definition maximumResultAge : duration := 30 * 24 * Hour.
Definition maximumClockSkew : duration := 5 * Minute.
Definition maximumISPCodepoints : Z := 100.

(** The package has its own copy of the pattern. *)
Definition resultIDPattern : re := uuidPattern.

Definition ErrInvalid : error := Sentinel "pilot telemetry: invalid input".
Definition ErrConflict : error := Sentinel "pilot telemetry: conflict".

Definition platforms : list string := ["android"; "ios"; "linux"; "macos"; "windows"].

Definition failure_stages : list string :=
  ["server_health"; "public_ip"; "transport"; "port"; "server_outbound"; "tunnel"; "dns"; "https";
   "ipv4_leak"; "ipv6_leak"; "upload"; "download"; "reconnect"].

Definition connection_buckets : list string := ["lt_3s"; "3_10s"; "10_30s"; "gt_30s"; "unknown"].

Definition throughput_buckets : list string :=
  ["lt_1_mbps"; "1_10_mbps"; "10_50_mbps"; "gte_50_mbps"].

Record TestResult := mkTestResult {
  tr_ID : string;
  tr_DeviceID : string;
  tr_ClientPlatform : string;
  tr_ISP : option string;
  tr_Transport : string;
  tr_OccurredAt : time;
  tr_Success : bool;
  tr_FailureStage : option string;
  tr_ConnectionTimeBucket : string;
  tr_ThroughputBucket : option string;
  tr_RecordedAt : time
}.

Record RecordInput := mkRecordInput {
  in_DeviceID : string;
  in_ClientPlatform : string;
  in_ISP : option string;
  in_Transport : string;
  in_OccurredAt : time;
  in_Success : bool;
  in_FailureStage : option string;
  in_ConnectionTimeBucket : string;
  in_ThroughputBucket : option string
}.

Record TransportSummary := mkTransportSummary {
  ts_Transport : string;
  ts_Tests : Z;       (* uint64 *)
  ts_Successes : Z;
  ts_SuccessRate : float64
}.

Record ISPFailure := mkISPFailure { if_ISP : string; if_Failures : Z }.
Record FailureSummary := mkFailureSummary { fs_Stage : string; fs_Failures : Z }.

Record Aggregate := mkAggregate {
  ag_ActiveUsers : Z;
  ag_ActiveDevices : Z;
  ag_FirstTestAt : option time;
  ag_LastTestAt : option time;
  ag_Transports : list TransportSummary;
  ag_FailuresByStage : list FailureSummary;
  ag_FailuresByISP : list ISPFailure
}.

Definition MetricsNotConfigured : string := "not_configured".
Definition MetricsAvailable : string := "available".
Definition MetricsUnavailable : string := "unavailable".

Record Report := mkReport {
  rp_GeneratedAt : time;
  rp_TotalTests : Z;
  rp_FirstTestAt : option time;
  rp_LastTestAt : option time;
  rp_ActiveUsers : Z;
  rp_ActiveDevices : Z;
  rp_Transports : list TransportSummary;
  rp_FailuresByStage : list FailureSummary;
  rp_FailuresByISP : list ISPFailure;
  rp_ServerMetricsStatus : string;
  rp_ServerMetrics : option Metrics
}.

#[global] Instance TestResult_eq_dec : EqDecision TestResult.
Proof. solve_decision. Defined.

(** ** Validation *)

Definition one_of_texts (values : list string) (value : string) : bool := bool_decide (value ∈ values).

Definition validFailureStage (value : string) : bool := one_of_texts failure_stages value.
Definition validConnectionBucket (value : string) : bool := one_of_texts connection_buckets value.
Definition validThroughputBucket (value : string) : bool := one_of_texts throughput_buckets value.

Definition invalid (what : string) : error := Wrap what ErrInvalid.

Definition validatePlatform (value : string) : result unit :=
  fail_if (negb (one_of_texts platforms value)) (invalid "client platform is invalid").

Definition validISP (value : string) : bool :=
  ValidString value && bool_decide (value = TrimSpace value) &&
  negb (is_Some_b (ParseIP value)) &&
  (1 <=? RuneCountInString value) && (RuneCountInString value <=? maximumISPCodepoints) &&
  negb (ContainsFunc value IsControl).

(** [p == nil || f( *p )]. *)
Definition absent_or (f : string → bool) (p : option string) : bool :=
  match p with None => true | Some v => f v end.

Definition Validate (result : TestResult) : Prelude.result unit :=
  fail_if (negb (MatchString resultIDPattern (tr_ID result)) ||
           negb (MatchString resultIDPattern (tr_DeviceID result)))
    (invalid "result and device IDs must be canonical UUIDs");;
  validatePlatform (tr_ClientPlatform result);;
  match ValidateTransport (tr_Transport result) with
  | Ok _ => Ok tt
  | Err _ => Err (invalid "")
  end;;
  fail_if (IsZero (tr_OccurredAt result) || IsZero (tr_RecordedAt result))
    (invalid "occurrence and recording times are required");;
  fail_if (negb (absent_or validISP (tr_ISP result))) (invalid "ISP label is invalid");;
  fail_if (negb (bool_decide (tr_Success result = negb (is_Some_b (tr_FailureStage result)))))
    (invalid "success and failure stage are inconsistent");;
  fail_if (negb (absent_or validFailureStage (tr_FailureStage result)))
    (invalid "failure stage is invalid");;
  fail_if (negb (validConnectionBucket (tr_ConnectionTimeBucket result)))
    (invalid "connection time bucket is invalid");;
  fail_if (negb (absent_or validThroughputBucket (tr_ThroughputBucket result)))
    (invalid "throughput bucket is invalid").

Definition cloneTime (value : option time) : option time := (λ t, Truncate t Second) <$> value.

(** ** The database *)

(** A row of [app_private.pilot_test_results]. *)
Record ResultRow := mkResultRow {
  rr_id : string;
  rr_device_id : string;
  rr_client_platform : string;
  rr_isp : option string;
  rr_transport : string;
  rr_occurred_at : time;
  rr_success : bool;
  rr_failure_stage : option string;
  rr_connection_time_bucket : string;
  rr_throughput_bucket : option string;
  rr_recorded_at : time
}.

#[global] Instance ResultRow_eq_dec : EqDecision ResultRow.
Proof. solve_decision. Defined.

(** The tables of the access registry, the account of every device, and the results. *)
Record Database := mkDatabase {
  db_access : PilotAccess.Tables;
  db_accounts : gmap string string;
  db_results : gmap string ResultRow
}.

Definition with_results (db : Database) (results : gmap string ResultRow) : Database :=
  mkDatabase (db_access db) (db_accounts db) results.

Definition telemetryRetention : duration := 30 * 24 * Hour.

(** The rows a retention pass removes: those that occurred before the cutoff, the
    oldest first, at most 1000. *)
Definition expired (cutoff : time) (results : gmap string ResultRow) : list ResultRow :=
  let old := List.filter (λ r, Before (rr_occurred_at r) cutoff) (snd <$> map_to_list results) in
  take 1000 (sort_slice (λ x y, key_less (rr_occurred_at x, rr_id x) (rr_occurred_at y, rr_id y)) old).

Definition remove_rows (rows : list ResultRow) (results : gmap string ResultRow)
    : gmap string ResultRow :=
  foldr (λ r m, delete (rr_id r) m) results rows.

Section store.
Context `{Postgres}.

(** [DELETE FROM app_private.pilot_test_results WHERE id IN (SELECT ...)]. *)
Definition delete_expired (cutoff : time) (db : Database) : sql_error + (unit * Database) :=
  cutoff ← pg_in "22008" pg_timestamptz cutoff;
  inr (tt, with_results db (remove_rows (expired cutoff (db_results db)) (db_results db))).

(** [isp = btrim(isp)]: no space at either end. *)
Definition btrimmed (s : string) : bool :=
  negb (HasPrefix s " ") && negb (HasSuffix s " ").

(** The CHECK constraint of the [isp] column. *)
Definition isp_check (isp : string) : bool :=
  match pg_char_length isp with
  | Some n => (1 <=? n) && (n <=? 100)
  | None => false
  end && (len isp <=? 400) && btrimmed isp && negb (pg_cntrl isp).

(** The CHECK constraints of [app_private.pilot_test_results]. *)
Definition result_checks (r : ResultRow) : bool :=
  one_of_texts platforms (rr_client_platform r) && absent_or isp_check (rr_isp r) &&
  one_of_texts ["amneziawg"; "xray_reality"] (rr_transport r) &&
  absent_or (one_of_texts failure_stages) (rr_failure_stage r) &&
  one_of_texts connection_buckets (rr_connection_time_bucket r) &&
  absent_or (one_of_texts throughput_buckets) (rr_throughput_bucket r) &&
  bool_decide (rr_success r = negb (is_Some_b (rr_failure_stage r))) &&
  (pg_add_days (rr_recorded_at r) (-30) <=? rr_occurred_at r) &&
  (rr_occurred_at r <=? rr_recorded_at r + 5 * Minute).

(** [INSERT INTO app_private.pilot_test_results ... RETURNING]. *)
Definition insert_result (result : TestResult) (db : Database) : sql_error + (ResultRow * Database) :=
  id ← pg_in "22P02" pg_uuid (tr_ID result);
  device ← pg_in "22P02" pg_uuid (tr_DeviceID result);
  occurred ← pg_in "22008" pg_timestamptz (tr_OccurredAt result);
  recorded ← pg_in "22008" pg_timestamptz (tr_RecordedAt result);
  let r := mkResultRow id device (tr_ClientPlatform result) (tr_ISP result) (tr_Transport result)
    occurred (tr_Success result) (tr_FailureStage result) (tr_ConnectionTimeBucket result)
    (tr_ThroughputBucket result) recorded in
  pg_check (result_checks r) "23514";;
  pg_check (negb (is_Some_b (db_results db !! id))) "23505";;
  pg_check (bool_decide (device ∈ PilotAccess.t_devices (db_access db))) "23503";;
  inr (r, with_results db (<[id := r]> (db_results db))).

Definition scan (row : ResultRow) : TestResult :=
  mkTestResult (rr_id row) (rr_device_id row) (rr_client_platform row) (rr_isp row)
    (rr_transport row) (rr_occurred_at row) (rr_success row) (rr_failure_stage row)
    (rr_connection_time_bucket row) (rr_throughput_bucket row) (rr_recorded_at row).

Definition wrapping (context : string) (err : sql_error) : error :=
  Wrap ("pilot telemetry postgres: " +:+ context) (sql_error_value err).

Definition classifyCreate (err : sql_error) : error :=
  match err with
  | PgError code =>
      if bool_decide (code = "23505") then Wrap "duplicate result" ErrConflict
      else if bool_decide (code = "23503") || bool_decide (code = "23514")
      then Wrap "referenced device or value is invalid" ErrInvalid
      else wrapping "create" err
  | _ => wrapping "create" err
  end.

(** Two statements, each of which commits by itself. *)
Definition Store_Create (result : TestResult) : sql Database error TestResult :=
  map_err (wrapping "enforce retention")
    (exec (delete_expired (time_Add (tr_RecordedAt result) (- telemetryRetention))));;
  row ← map_err classifyCreate (exec (insert_result result));
  mret (scan row).

(** ** The aggregates

    [stamp] is [current_timestamp], the start of the transaction. *)

Definition in_window (stamp : time) (db : Database) : list ResultRow :=
  List.filter (λ r, pg_add_days stamp (-30) <=? rr_occurred_at r) (snd <$> map_to_list (db_results db)).

Definition count_if {A} (f : A → bool) (l : list A) : Z := llen (List.filter f l).

(** [GROUP BY key ORDER BY key]: the keys that occur, in the order of the collation. *)
Definition groups (keys : list string) : list string :=
  @merge_sort string (λ x y, Is_true (pg_text_le x y)) (λ x y, _) (remove_dups keys).

Definition same_text (key : string) (o : option string) : bool := bool_decide (o = Some key).

Definition transport_rows (rows : list ResultRow) : list TransportSummary :=
  (λ t, let of_t := List.filter (λ r, bool_decide (rr_transport r = t)) rows in
        mkTransportSummary t (llen of_t) (count_if rr_success of_t) (S754_zero false))
  <$> groups (rr_transport <$> rows).

Definition failed (rows : list ResultRow) : list ResultRow := List.filter (λ r, negb (rr_success r)) rows.

(** The failure stage of a failed row is not NULL, by a CHECK constraint. *)
Definition stage_rows (rows : list ResultRow) : list FailureSummary :=
  (λ st, mkFailureSummary st (count_if (λ r, same_text st (rr_failure_stage r)) (failed rows)))
  <$> groups (omap rr_failure_stage (failed rows)).

(** [HAVING count >= 2 ORDER BY count DESC, isp LIMIT 100]. *)
Definition isp_order (x y : ISPFailure) : bool :=
  if if_Failures x =? if_Failures y then pg_text_le (if_ISP x) (if_ISP y)
  else if_Failures y <? if_Failures x.

Definition isp_rows (rows : list ResultRow) : list ISPFailure :=
  let all := (λ isp, mkISPFailure isp (count_if (λ r, same_text isp (rr_isp r)) (failed rows)))
    <$> groups (omap rr_isp (failed rows)) in
  take 100 (@merge_sort ISPFailure (λ x y, Is_true (isp_order x y)) (λ x y, _)
    (List.filter (λ f, 2 <=? if_Failures f) all)).

(** The devices of active accesses that have not expired, joined to their accounts. *)
Definition active_devices (at_ : time) (db : Database) : list (string * string) :=
  omap (λ r, if bool_decide (PilotAccess.r_status r = "active") &&
                match PilotAccess.r_expires_at r with Some e => After e at_ | None => false end
             then (λ account, (PilotAccess.r_device_id r, account)) <$> db_accounts db !! PilotAccess.r_device_id r
             else None)
    (snd <$> map_to_list (PilotAccess.t_accesses (db_access db))).

Definition first_time (l : list time) : option time :=
  match l with [] => None | t :: l => Some (foldr Z.min t l) end.
Definition last_time (l : list time) : option time :=
  match l with [] => None | t :: l => Some (foldr Z.max t l) end.

(** A query of the read-only transaction, with the reading of its rows. *)
Definition query {A} (f : Database → sql_error + A) : sql Database sql_error A :=
  statement (λ db, a ← f db; inr (a, db)).

Definition Store_Aggregate (stamp at_ : time) : sql Database error Aggregate :=
  map_err (wrapping "begin report") BeginTx;;
  defer_rollback (
    transports ← map_err (wrapping "aggregate transports") (query (λ db, inr (transport_rows (in_window stamp db))));
    stages ← map_err (wrapping "aggregate failure stages") (query (λ db, inr (stage_rows (in_window stamp db))));
    isps ← map_err (wrapping "aggregate ISP failures") (query (λ db, inr (isp_rows (in_window stamp db))));
    active ← map_err (wrapping "count active devices") (query (λ db,
      at_ ← pg_in "22008" pg_timestamptz at_; inr (active_devices at_ db)));
    period ← map_err (wrapping "read test period") (query (λ db, inr (rr_occurred_at <$> in_window stamp db)));
    map_err (wrapping "commit report") Commit;;
    mret (mkAggregate (llen (remove_dups (snd <$> active))) (llen (remove_dups (fst <$> active)))
      (first_time period) (last_time period) transports stages isps)).

(** ** The service *)

Definition trimmed (isp : option string) : option string := TrimSpace <$> isp.

Definition new_result (now : time) (id : string) (input : RecordInput) : TestResult :=
  mkTestResult id (in_DeviceID input) (in_ClientPlatform input) (trimmed (in_ISP input))
    (in_Transport input) (Truncate (in_OccurredAt input) Second) (in_Success input)
    (in_FailureStage input) (in_ConnectionTimeBucket input) (in_ThroughputBucket input) now.

Definition Service_Record (now : time) (newID : Prelude.result string) (input : RecordInput)
    : sql Database error TestResult :=
  let now := Truncate now Second in
  identifier ← of_result (wrap "pilot telemetry: generate ID" newID);
  let result := new_result now identifier input in
  of_result (fail_if (Before (tr_OccurredAt result) (time_Add now (- maximumResultAge)) ||
                      After (tr_OccurredAt result) (time_Add now maximumClockSkew))
    (invalid "occurrence time is outside the 30-day pilot window"));;
  of_result (Validate result);;
  stored ← Store_Create result;
  of_result (wrap "pilot telemetry: store returned invalid result" (Validate stored));;
  mret stored.

(** The loop over the transports: the summaries with their rates, and the total. *)
Fixpoint summarize (total : Z) (l : list TransportSummary)
    : Prelude.result (list TransportSummary * Z) :=
  match l with
  | [] => Ok ([], total)
  | s :: l' =>
      fail_if (negb (is_Ok (ValidateTransport (ts_Transport s))) || (ts_Successes s >? ts_Tests s))
        (NewError "pilot telemetry: store returned invalid aggregate");;
      let rate := if ts_Tests s >? 0
        then SFdiv 53 1024 (float64_of (ts_Successes s)) (float64_of (ts_Tests s))
        else ts_SuccessRate s in
      '(rest, total') ← summarize (u64_add total (ts_Tests s)) l';
      Ok (mkTransportSummary (ts_Transport s) (ts_Tests s) (ts_Successes s) rate :: rest, total')
  end.

Definition summary_key (s : TransportSummary) : Z * string := (0, ts_Transport s).

Definition sortSummaries (l : list TransportSummary) : list TransportSummary :=
  sort_slice (λ x y, key_less (summary_key x) (summary_key y)) l.

(** [(first == nil) != (last == nil) || first != nil && last.Before( *first )]. *)
Definition period_invalid (first last : option time) : bool :=
  match first, last with
  | None, None => false
  | Some f, Some l => Before l f
  | _, _ => true
  end.

Definition stage_invalid (f : FailureSummary) : bool :=
  negb (validFailureStage (fs_Stage f)) || (fs_Failures f =? 0).

(** The status and the metrics of a report; [None] is the nil metrics source. *)
Definition server_metrics (source : option (Prelude.result Metrics)) : string * option Metrics :=
  match source with
  | None => (MetricsNotConfigured, None)
  | Some (Ok m) => if is_Ok (ValidateMetrics m) then (MetricsAvailable, Some m)
                   else (MetricsUnavailable, None)
  | Some (Err _) => (MetricsUnavailable, None)
  end.

Definition buildReport (now : time) (aggregate : Aggregate) (source : option (Prelude.result Metrics))
    : Prelude.result Report :=
  let first := cloneTime (ag_FirstTestAt aggregate) in
  let last := cloneTime (ag_LastTestAt aggregate) in
  fail_if (period_invalid first last)
    (NewError "pilot telemetry: store returned invalid test period");;
  '(transports, total) ← summarize 0 (ag_Transports aggregate);
  fail_if (existsb stage_invalid (ag_FailuresByStage aggregate))
    (NewError "pilot telemetry: store returned invalid failure aggregate");;
  let '(status, metrics) := server_metrics source in
  Ok (mkReport now total first last (ag_ActiveUsers aggregate) (ag_ActiveDevices aggregate)
    (sortSummaries transports) (ag_FailuresByStage aggregate) (ag_FailuresByISP aggregate)
    status metrics).

Definition Service_Report (now stamp : time) (source : option (Prelude.result Metrics))
    : sql Database error Report :=
  let now := Truncate now Second in
  aggregate ← Store_Aggregate stamp now;
  of_result (buildReport now aggregate source).

End store.

(** ** Counting *)

Fixpoint sum_Z (l : list Z) : Z := match l with [] => 0 | x :: l => x + sum_Z l end.

Lemma count_if_cons {A} (f : A → bool) x l :
  count_if f (x :: l) = (if f x then 1 else 0) + count_if f l.
Proof. unfold count_if, llen. cbn. destruct (f x); simpl length; lia. Qed.

Lemma count_if_range {A} (f : A → bool) l : 0 <= count_if f l <= llen l.
Proof.
  induction l as [|x l IH]; [done|]. rewrite count_if_cons. unfold llen in *. simpl length.
  destruct (f x); lia.
Qed.

Lemma count_if_pos {A} (f : A → bool) l : existsb f l = true → 1 <= count_if f l.
Proof.
  induction l as [|x l IH]; [done|]. rewrite count_if_cons. simpl.
  pose proof (count_if_range f l). destruct (f x); [lia|]. intros ?%IH. lia.
Qed.

Lemma sum_Z_cons {A} (f : A → Z) x l : sum_Z (f <$> x :: l) = f x + sum_Z (f <$> l).
Proof. done. Qed.

Lemma sum_Z_map_add {A} (f g : A → Z) l :
  sum_Z ((λ x, f x + g x) <$> l) = sum_Z (f <$> l) + sum_Z (g <$> l).
Proof. induction l as [|x l IH]; [done|]. rewrite !sum_Z_cons, IH. lia. Qed.

#[global] Instance sum_Z_perm : Proper ((≡ₚ) ==> (=)) sum_Z.
Proof. induction 1; simpl; lia. Qed.

(** One key of a list without duplicates is one key. *)
Lemma sum_indicator (k0 : string) ks :
  NoDup ks → sum_Z ((λ k, if bool_decide (k = k0) then 1 else 0) <$> ks) =
    if bool_decide (k0 ∈ ks) then 1 else 0.
Proof.
  induction 1 as [|k ks Hk Hnd IH]; [done|]. cbn [fmap list_fmap sum_Z].
  rewrite IH. destruct (decide (k = k0)) as [->|Hne].
  - rewrite bool_decide_eq_true_2, bool_decide_eq_false_2, bool_decide_eq_true_2 by set_solver. done.
  - rewrite bool_decide_eq_false_2 by done.
    destruct (decide (k0 ∈ ks)); [rewrite !bool_decide_eq_true_2 by set_solver|
      rewrite !bool_decide_eq_false_2 by set_solver]; done.
Qed.

(** A grouping partitions the rows: the counts of the groups add up to all rows. *)
Lemma partition_count {A} (matches : string → A → bool) (key : A → string) rows ks :
  NoDup ks → (∀ r, r ∈ rows → key r ∈ ks) →
  (∀ r k, r ∈ rows → matches k r = bool_decide (k = key r)) →
  sum_Z ((λ k, count_if (matches k) rows) <$> ks) = llen rows.
Proof.
  intros Hnd. induction rows as [|r rows IH]; intros Hin Hm.
  - clear. induction ks as [|k ks IH]; [done|]. cbn in *. done.
  - rewrite (list_fmap_ext _ (λ k, (if bool_decide (k = key r) then 1 else 0) + count_if (matches k) rows)).
    + rewrite sum_Z_map_add, sum_indicator, IH by set_solver.
      rewrite bool_decide_eq_true_2 by set_solver. unfold llen. simpl length. lia.
    + intros i k _. rewrite count_if_cons, Hm by set_solver. done.
Qed.

Section aggregates.
Context `{Postgres}.

Lemma groups_perm ks : groups ks ≡ₚ remove_dups ks.
Proof. apply merge_sort_Permutation. Qed.

Lemma groups_NoDup ks : NoDup (groups ks).
Proof. rewrite groups_perm. apply NoDup_remove_dups. Qed.

Lemma elem_of_groups k ks : k ∈ groups ks ↔ k ∈ ks.
Proof. rewrite groups_perm. apply elem_of_remove_dups. Qed.

Record results_ok (db : Database) : Prop := {
  ro_row id r : db_results db !! id = Some r → rr_id r = id ∧ result_checks r = true
}.

Lemma elem_of_rows db r :
  r ∈ (snd <$> map_to_list (db_results db)) ↔ ∃ id, db_results db !! id = Some r.
Proof.
  rewrite list_elem_of_fmap. split.
  - intros ([id r'] & -> & Hr). exists id. by apply elem_of_map_to_list.
  - intros [id Hr]. exists (id, r). split; [done|]. by apply elem_of_map_to_list.
Qed.

Lemma elem_of_filter_b {A} (f : A → bool) l x : x ∈ List.filter f l ↔ x ∈ l ∧ f x = true.
Proof. by rewrite !list_elem_of_In, List.filter_In. Qed.

Lemma in_window_ok stamp db r :
  results_ok db → r ∈ in_window stamp db →
  result_checks r = true ∧ pg_add_days stamp (-30) <= rr_occurred_at r.
Proof.
  intros Hdb [[id Hr]%elem_of_rows Hw]%elem_of_filter_b.
  split; [by apply (ro_row _ Hdb) in Hr as [_ ?]|lia].
Qed.

(** What the constraints of a row give. *)
Lemma result_checks_inv r : result_checks r = true →
  one_of_texts ["amneziawg"; "xray_reality"] (rr_transport r) = true ∧
  absent_or (one_of_texts failure_stages) (rr_failure_stage r) = true ∧
  rr_success r = negb (is_Some_b (rr_failure_stage r)).
Proof. unfold result_checks. intros Hc. by inv_ok. Qed.

(** ** The aggregates are exact *)

Lemma transport_rows_total rows :
  sum_Z (ts_Tests <$> transport_rows rows) = llen rows.
Proof.
  unfold transport_rows. rewrite <- list_fmap_compose.
  apply (partition_count (λ t r, bool_decide (rr_transport r = t)) rr_transport).
  - apply groups_NoDup.
  - intros r Hr. apply elem_of_groups. by apply list_elem_of_fmap_2.
  - intros r k _. apply bool_decide_ext. naive_solver.
Qed.

Lemma stage_of_failed r : result_checks r = true → rr_success r = false →
  ∃ st, rr_failure_stage r = Some st ∧ validFailureStage st = true.
Proof.
  intros (_ & Hst & Hs)%result_checks_inv Hf. rewrite Hs in Hf.
  destruct (rr_failure_stage r) as [st|]; [|done]. by exists st.
Qed.

Lemma elem_of_failed r rows : r ∈ failed rows ↔ r ∈ rows ∧ rr_success r = false.
Proof. unfold failed. rewrite elem_of_filter_b. by rewrite negb_true_iff. Qed.

Lemma stage_rows_total rows :
  (∀ r, r ∈ rows → result_checks r = true) →
  sum_Z (fs_Failures <$> stage_rows rows) = llen (failed rows).
Proof.
  intros Hck. unfold stage_rows. rewrite <- list_fmap_compose.
  apply (partition_count (λ st r, same_text st (rr_failure_stage r))
    (λ r, default "" (rr_failure_stage r))); [apply groups_NoDup|..].
  - intros r Hr. apply elem_of_groups, list_elem_of_omap. exists r. split; [done|].
    apply elem_of_failed in Hr as [Hr Hf].
    destruct (stage_of_failed r (Hck _ Hr) Hf) as (st & -> & _). done.
  - intros r k [Hr Hf]%elem_of_failed.
    destruct (stage_of_failed r (Hck _ Hr) Hf) as (st & -> & _). unfold same_text. simpl.
    apply bool_decide_ext. naive_solver.
Qed.

(** Every group that is listed has a member. *)
Lemma group_count {A} (key : A → option string) rows k :
  k ∈ groups (omap key rows) → 1 <= count_if (λ r, same_text k (key r)) rows.
Proof.
  intros (r & Hr & Hk)%elem_of_groups%list_elem_of_omap. apply count_if_pos, existsb_exists.
  exists r. split; [by apply list_elem_of_In|]. by apply bool_decide_eq_true.
Qed.

Lemma stage_rows_valid rows :
  (∀ r, r ∈ rows → result_checks r = true) → existsb stage_invalid (stage_rows rows) = false.
Proof.
  intros Hck. apply not_true_iff_false.
  intros (f & (st & -> & Hst)%list_elem_of_In%list_elem_of_fmap & Hf)%existsb_exists.
  pose proof (group_count _ _ _ Hst). unfold stage_invalid in Hf. cbn in Hf.
  apply elem_of_groups, list_elem_of_omap in Hst as (r & [Hr Hs]%elem_of_failed & Hk).
  destruct (stage_of_failed r (Hck _ Hr) Hs) as (st' & Hk' & Hv). simplify_eq.
  rewrite Hv in Hf. simpl in Hf. lia.
Qed.

(** The reported rate of success of one transport. *)
Definition rated (s : TransportSummary) : TransportSummary :=
  mkTransportSummary (ts_Transport s) (ts_Tests s) (ts_Successes s)
    (if ts_Tests s >? 0 then SFdiv 53 1024 (float64_of (ts_Successes s)) (float64_of (ts_Tests s))
     else ts_SuccessRate s).

Lemma summarize_ok total l :
  Forall (λ s, supported (ts_Transport s) ∧ 0 <= ts_Successes s <= ts_Tests s) l →
  0 <= total → total + sum_Z (ts_Tests <$> l) < 2 ^ 64 →
  summarize total l = Ok (rated <$> l, total + sum_Z (ts_Tests <$> l)).
Proof.
  intros Hl. revert total. induction Hl as [|s l [Hs Hn] Hl IH]; intros total Ht Hb.
  { simpl. by rewrite Z.add_0_r. }
  rewrite sum_Z_cons in *. cbn [summarize].
  assert (0 <= sum_Z (ts_Tests <$> l)).
  { clear -Hl. induction Hl as [|x k [_ ?] _ IHk]; [done|]. rewrite sum_Z_cons. lia. }
  apply ValidateTransport_spec in Hs. rewrite Hs. unfold u64_add.
  rewrite Z.mod_small by lia.
  assert ((ts_Successes s >? ts_Tests s) = false) as -> by (rewrite Z.gtb_ltb; apply Z.ltb_ge; lia).
  cbn [is_Ok negb orb fail_if mbind result_bind].
  rewrite IH by lia. cbn. f_equal. f_equal. lia.
Qed.

Lemma transport_rows_valid rows :
  (∀ r, r ∈ rows → result_checks r = true) →
  Forall (λ s, supported (ts_Transport s) ∧ 0 <= ts_Successes s <= ts_Tests s) (transport_rows rows).
Proof.
  intros Hck. apply Forall_fmap, Forall_forall. intros t Ht. cbn. split; [|apply count_if_range].
  apply elem_of_groups, list_elem_of_fmap in Ht as (r & -> & Hr).
  destruct (result_checks_inv _ (Hck _ Hr)) as (Htr & _ & _).
  apply bool_decide_eq_true in Htr. unfold supported. set_solver.
Qed.

Lemma period_valid l : period_invalid (cloneTime (first_time l)) (cloneTime (last_time l)) = false.
Proof.
  destruct l as [|t l]; [done|]. cbn. unfold Before. apply Z.ltb_ge, Truncate_mono; [done|].
  induction l as [|u l IH]; cbn; lia.
Qed.

End aggregates.

(** ** Claims on reports *)

Lemma run_query_works {A} (f : Database → sql_error + A) db a (Q : sql_error + A → Session Database → Prop) :
  f db = inr a → Q (inr a) (mkSession db (Some db) []) →
  run (query f) (mkSession db (Some db) []) Q.
Proof.
  intros Hf HQ. unfold query. eapply run_statement_works; [rewrite Hf; reflexivity|]. done.
Qed.

(** Whatever fails, a read-only transaction leaves the tables as they are. *)
Lemma run_query {A} (f : Database → sql_error + A) db o (Q : sql_error + A → Session Database → Prop) :
  (∀ r o', Q r (mkSession db (Some db) o')) → run (query f) (mkSession db (Some db) o) Q.
Proof.
  intros HQ. unfold query. apply run_statement; [|auto]. intros a t2 o' E.
  apply sum_bind_inr in E as (? & _ & [= <- <-]). auto.
Qed.

Section report.
Context `{Postgres}.

Definition counts_exactly (rows : list ResultRow) (s : TransportSummary) : Prop :=
  let of_s := List.filter (λ r, bool_decide (rr_transport r = ts_Transport s)) rows in
  ts_Tests s = llen of_s ∧ ts_Successes s = count_if rr_success of_s.

Definition isp_counted (rows : list ResultRow) (f : ISPFailure) : Prop :=
  2 <= if_Failures f ∧ if_Failures f = count_if (λ r, same_text (if_ISP f) (rr_isp r)) (failed rows).

Lemma transport_rows_exact rows :
  Forall (counts_exactly rows) (sortSummaries (rated <$> transport_rows rows)).
Proof.
  assert (sortSummaries (rated <$> transport_rows rows) ≡ₚ rated <$> transport_rows rows) as ->
    by apply (sort_by_perm summary_key).
  unfold transport_rows. rewrite <- list_fmap_compose. apply Forall_fmap, Forall_true. by intros t.
Qed.

Lemma isp_rows_private rows : Forall (isp_counted rows) (isp_rows rows) ∧ llen (isp_rows rows) <= 100.
Proof.
  unfold isp_rows. split; [|unfold llen; rewrite length_take; lia].
  apply Forall_take. rewrite merge_sort_Permutation. apply Forall_forall.
  intros f [Hf H2]%elem_of_filter_b. apply list_elem_of_fmap in Hf as (isp & -> & _).
  split; [|done]. cbn in *. lia.
Qed.

Lemma Aggregate_works `{!PostgresLaws} stamp at_ db : storable at_ →
  let rows := in_window stamp db in
  Store_Aggregate stamp at_ (mkSession db None []) =
    (inr (mkAggregate (llen (remove_dups (snd <$> active_devices at_ db)))
      (llen (remove_dups (fst <$> active_devices at_ db)))
      (first_time (rr_occurred_at <$> rows)) (last_time (rr_occurred_at <$> rows))
      (transport_rows rows) (stage_rows rows) (isp_rows rows)), mkSession db None []).
Proof.
  intros [Ha1 Ha2] rows. apply run_eq. unfold Store_Aggregate.
  apply run_bind, run_map_err, run_begin_works, run_defer.
  apply run_bind, run_map_err. eapply run_query_works; [done|].
  apply run_bind, run_map_err. eapply run_query_works; [done|].
  apply run_bind, run_map_err. eapply run_query_works; [done|].
  apply run_bind, run_map_err. eapply run_query_works.
  { unfold pg_in. rewrite pg_timestamptz_seconds by done. done. }
  apply run_bind, run_map_err. eapply run_query_works; [done|].
  apply run_bind, run_map_err, run_commit_works. done.
Qed.

Lemma Aggregate_reads stamp at_ db o :
  run (Store_Aggregate stamp at_) (mkSession db None o) (λ _ s, se_tables s = db).
Proof.
  unfold Store_Aggregate. apply run_bind, run_map_err, run_begin; [|done]. intros o1. apply run_defer.
  do 5 (apply run_bind, run_map_err, run_query; intros [?|?] ?; [done|]).
  apply run_bind, run_map_err, run_commit; [|done]. by intros [?|?] ?.
Qed.

End report.

(** C33: the report is exact.  On tables that satisfy their constraints and with a
    working database [Report] always succeeds; its total is the number of results
    of the last 30 days, every transport is listed with its number of tests and
    of successes, the failures by stage add up to all failures, and a provider is
    named only with two failures or more, at most 100 of them.  Whatever fails,
    nothing is written. *)
Theorem report_is_exact `{PostgresLaws} now stamp source db :
  results_ok db → 0 <= now < last_timestamp →
  let rows := in_window stamp db in
  llen rows < 2 ^ 64 →
  (∃ rep, Service_Report now stamp source (mkSession db None []) = (inr rep, mkSession db None []) ∧
    rp_TotalTests rep = llen rows ∧ sum_Z (ts_Tests <$> rp_Transports rep) = llen rows ∧
    Forall (counts_exactly rows) (rp_Transports rep) ∧
    sum_Z (fs_Failures <$> rp_FailuresByStage rep) = llen (failed rows) ∧
    Forall (isp_counted rows) (rp_FailuresByISP rep) ∧ llen (rp_FailuresByISP rep) <= 100) ∧
  ∀ o, se_tables (Service_Report now stamp source (mkSession db None o)).2 = db.
Proof.
  intros Hdb Hnow rows Hsize.
  assert (∀ r, r ∈ rows → result_checks r = true) as Hck by (intros r Hr; by eapply in_window_ok).
  split.
  - destruct (server_metrics source) as [status metrics] eqn:Em. eexists.
    split; [unfold Service_Report, mbind, sql_bind; rewrite Aggregate_works by by apply storable_Truncate|].
    + unfold buildReport. cbn. rewrite period_valid. cbn.
      fold rows. rewrite (summarize_ok 0 (transport_rows rows)); [|by apply transport_rows_valid|done|].
      * cbn. rewrite stage_rows_valid by done. cbn. rewrite Em. reflexivity.
      * by rewrite transport_rows_total.
    + cbn. rewrite transport_rows_total, stage_rows_total by done.
      split_and!; [done| |apply transport_rows_exact|done|apply isp_rows_private..].
      unfold sortSummaries. rewrite (sort_by_perm summary_key), <- list_fmap_compose.
      apply transport_rows_total.
  - intros o. unfold Service_Report, mbind, sql_bind.
    pose proof (Aggregate_reads stamp (Truncate now Second) db o) as Hr. unfold run in Hr.
    destruct (Store_Aggregate _ _ _) as [[e|a] s]; cbn in *; [done|].
    unfold of_result. by destruct (buildReport _ _ _).
Qed.

(** ** Retention *)

Lemma remove_rows_lookup rows m id :
  remove_rows rows m !! id = if bool_decide (id ∈ rr_id <$> rows) then None else m !! id.
Proof.
  induction rows as [|r rows IH]; [done|]. cbn [remove_rows foldr fmap list_fmap].
  fold (remove_rows rows m). destruct (decide (id = rr_id r)) as [->|Hne].
  - rewrite lookup_delete_eq, bool_decide_eq_true_2 by set_solver. done.
  - rewrite lookup_delete_ne, IH by done.
    destruct (decide (id ∈ rr_id <$> rows)); [rewrite !bool_decide_eq_true_2 by set_solver|
      rewrite !bool_decide_eq_false_2 by set_solver]; done.
Qed.

Definition occurred_before (cutoff : time) (m : gmap string ResultRow) : list ResultRow :=
  List.filter (λ r, Before (rr_occurred_at r) cutoff) (snd <$> map_to_list m).

Definition age_key (r : ResultRow) : Z * string := (rr_occurred_at r, rr_id r).

Lemma expired_take cutoff m :
  expired cutoff m = take 1000 (sort_slice (λ x y, key_less (age_key x) (age_key y)) (occurred_before cutoff m)).
Proof. done. Qed.

Lemma elem_of_expired cutoff m r :
  r ∈ expired cutoff m → (∃ id, m !! id = Some r) ∧ rr_occurred_at r < cutoff.
Proof.
  rewrite expired_take. intros (i & Hr & _)%elem_of_take.
  apply list_elem_of_lookup_2 in Hr. rewrite (sort_by_perm age_key) in Hr.
  apply elem_of_filter_b in Hr as [Hr Hb]. split; [|unfold Before in Hb; lia].
  by apply (elem_of_rows (mkDatabase (PilotAccess.mkTables ∅ ∅ ∅ []) ∅ m)).
Qed.

(** Few enough expired rows are all removed. *)
Lemma expired_all cutoff m :
  llen (occurred_before cutoff m) <= 1000 → expired cutoff m ≡ₚ occurred_before cutoff m.
Proof.
  intros Hn. rewrite expired_take, take_ge; [apply (sort_by_perm age_key)|].
  rewrite (Permutation_length (sort_by_perm age_key _)). unfold llen in Hn. lia.
Qed.

(** The rows that are removed are the oldest. *)
Lemma expired_oldest cutoff m r r' :
  r ∈ expired cutoff m → r' ∈ occurred_before cutoff m → r' ∉ expired cutoff m →
  rr_occurred_at r <= rr_occurred_at r'.
Proof.
  rewrite expired_take. set (l := sort_slice _ _). intros Hr Hr' Hn.
  pose proof (sort_by_sorted age_key (occurred_before cutoff m)) as Hs. fold l in Hs.
  assert (r' ∈ drop 1000 l) as Hd.
  { rewrite <- (sort_by_perm age_key) in Hr'. fold l in Hr'.
    rewrite <- (take_drop 1000 l) in Hr'. set_solver. }
  rewrite <- (take_drop 1000 l) in Hs.
  apply StronglySorted_app in Hs as (Hs & _ & _).
  specialize (Hs r r' Hr Hd). unfold key_le, key_less, age_key in Hs. simpl in Hs.
  case_match; lia.
Qed.

Definition result_row (r : TestResult) : ResultRow :=
  mkResultRow (tr_ID r) (tr_DeviceID r) (tr_ClientPlatform r) (tr_ISP r) (tr_Transport r)
    (tr_OccurredAt r) (tr_Success r) (tr_FailureStage r) (tr_ConnectionTimeBucket r)
    (tr_ThroughputBucket r) (tr_RecordedAt r).

Lemma scan_result_row r : scan (result_row r) = r.
Proof. by destruct r. Qed.

Section recording.
Context `{Postgres}.

Lemma insert_result_inv result db r db' : insert_result result db = inr (r, db') →
  ∃ id, pg_uuid (tr_ID result) = Some id ∧ rr_id r = id ∧ result_checks r = true ∧
    db_results db !! id = None ∧ db' = with_results db (<[id := r]> (db_results db)).
Proof.
  unfold insert_result. intros Hi. inv_sql. eexists. split_and!; try done.
  by destruct (db_results db !! _).
Qed.

(** What the store may leave behind: nothing changed, the retention pass alone,
    or the pass and the new row. *)
Definition purged (cutoff : time) (db : Database) : Database :=
  with_results db (remove_rows (expired cutoff (db_results db)) (db_results db)).

Lemma Result_Create_spec result db o :
  let cutoff := time_Add (tr_RecordedAt result) (- telemetryRetention) in
  run (Store_Create result) (mkSession db None o) (λ r s,
    se_transaction s = None ∧
    ((se_tables s = db ∧ ∃ e, r = inl e) ∨
     ∃ c, pg_timestamptz cutoff = Some c ∧
      ((se_tables s = purged c db ∧ ∃ e, r = inl e) ∨
       ∃ row, insert_result result (purged c db) = inr (row, se_tables s) ∧
         (r = inr (scan row) ∨ ∃ e, r = inl e)))).
Proof.
  intros cutoff. unfold Store_Create.
  assert (∀ a db', delete_expired cutoff db = inr (a, db') →
    ∃ c, pg_timestamptz cutoff = Some c ∧ db' = purged c db) as Hdel.
  { intros a db' Hd. unfold delete_expired in Hd. inv_sql. eauto. }
  apply run_bind, run_map_err, run_exec.
  - intros a db' o1 (c & Hc & ->)%Hdel. apply run_bind, run_map_err, run_exec.
    + intros row db2 o2 Hi. split; [done|]. right. exists c. split; [done|]. right. eauto.
    + intros e row db2 o2 Hi. split; [done|]. right. exists c. split; [done|]. right. eauto.
    + intros e o2. split; [done|]. right. eauto 10.
  - intros e a db' o1 (c & Hc & ->)%Hdel. split; [done|]. right. eauto 10.
  - intros e o1. split; [done|]. left. eauto.
Qed.

Definition in_pilot_window (now : time) (result : TestResult) : Prop :=
  Truncate now Second - maximumResultAge <= tr_OccurredAt result <=
  Truncate now Second + maximumClockSkew.

Lemma Service_Record_spec now newID input db o :
  let cutoff := Truncate now Second - telemetryRetention in
  run (Service_Record now newID input) (mkSession db None o) (λ r s,
    (se_tables s = db ∧ ∃ e, r = inl e) ∨
    ∃ id, newID = Ok id ∧
      let result := new_result (Truncate now Second) id input in
      in_pilot_window now result ∧ Validate result = Ok tt ∧
      ∃ c, pg_timestamptz cutoff = Some c ∧
        ((se_tables s = purged c db ∧ ∃ e, r = inl e) ∨
         ∃ row, insert_result result (purged c db) = inr (row, se_tables s) ∧
           ((r = inr (scan row) ∧ Validate (scan row) = Ok tt) ∨ ∃ e, r = inl e))).
Proof.
  intros cutoff. unfold Service_Record. apply run_bind, run_of_result; [|intros; left; by eauto].
  intros id Hid%wrap_Ok. apply run_bind, run_of_result; [|intros; left; by eauto].
  intros [] Hw. apply run_bind, run_of_result; [|intros; left; by eauto].
  intros [] Hv. apply run_bind. eapply run_mono; [apply Result_Create_spec|].
  intros r s [Htx Hs].
  assert (in_pilot_window now (new_result (Truncate now Second) id input)) as Hwin.
  { apply fail_if_Ok, orb_false_iff in Hw as [Hw1 Hw2].
    unfold in_pilot_window, Before, After, time_Add in *. lia. }
  destruct Hs as [[-> [e ->]]|(c & Hc & [[-> [e ->]]|(row & Hrow & [->|[e ->]])])].
  - left. eauto.
  - right. exists id. split_and!; [done..|]. exists c. split; [done|]. left. eauto.
  - apply run_bind, run_of_result.
    + intros [] Hvs%wrap_Ok. right. exists id. split_and!; [done..|]. exists c. split; [done|].
      right. exists row. split; [done|]. left. done.
    + intros e _. right. exists id. split_and!; [done..|]. exists c. split; [done|].
      right. exists row. split; [done|]. right. eauto.
  - right. exists id. split_and!; [done..|]. exists c. split; [done|].
    right. exists row. split; [done|]. right. eauto.
Qed.

Lemma purged_ok c db : results_ok db → results_ok (purged c db).
Proof.
  intros [Hr]. split. intros id r. cbn. rewrite remove_rows_lookup. case_bool_decide; [done|]. apply Hr.
Qed.

(** A row that disappears had expired; a row that appears was there. *)
Lemma purged_lookup c db id row : results_ok db →
  db_results db !! id = Some row →
  db_results (purged c db) !! id = Some row ∨
  db_results (purged c db) !! id = None ∧ rr_occurred_at row < c.
Proof.
  intros Hdb Hrow. cbn. rewrite remove_rows_lookup. case_bool_decide as Hin; [|by left].
  right. split; [done|]. apply list_elem_of_fmap in Hin as (r & -> & Hr).
  apply elem_of_expired in Hr as [[id' Hr] Hc].
  destruct (ro_row _ Hdb _ _ Hr) as [<- _]. congruence.
Qed.

Lemma purged_complete c db id row : results_ok db →
  llen (occurred_before c (db_results db)) <= 1000 →
  db_results (purged c db) !! id = Some row → c <= rr_occurred_at row.
Proof.
  intros Hdb Hn. cbn. rewrite remove_rows_lookup. case_bool_decide as Hin; [done|]. intros Hrow.
  destruct (Z.lt_ge_cases (rr_occurred_at row) c) as [Hlt|]; [|done]. destruct Hin.
  apply list_elem_of_fmap. exists row. split; [by destruct (ro_row _ Hdb _ _ Hrow)|].
  rewrite (expired_all _ _ Hn). apply elem_of_filter_b. split; [apply elem_of_rows; eauto|].
  unfold Before. lia.
Qed.

Lemma insert_result_ok result db r db' : results_ok db → insert_result result db = inr (r, db') →
  results_ok db' ∧ db_access db' = db_access db ∧ db_accounts db' = db_accounts db.
Proof.
  intros [Hr] (id & _ & Hid & Hck & _ & ->)%insert_result_inv. split; [|done]. split.
  intros i old. cbn. rewrite lookup_insert_Some. intros [[<- <-]|[_ Hold]]; [done|by apply Hr].
Qed.

(** Whatever fails, the tables keep their constraints and the registry is untouched. *)
Lemma Service_Record_ok now newID input db o : results_ok db →
  run (Service_Record now newID input) (mkSession db None o) (λ r s,
    results_ok (se_tables s) ∧ db_access (se_tables s) = db_access db ∧
    db_accounts (se_tables s) = db_accounts db).
Proof.
  intros Hdb. eapply run_mono; [apply Service_Record_spec|].
  intros r s [[-> _]|(id & _ & _ & _ & c & _ & [[-> _]|(row & Hi & _)])]; [done| |].
  - split; [by apply purged_ok|done].
  - by apply (insert_result_ok _ _ _ _ (purged_ok c db Hdb)) in Hi.
Qed.

Lemma Service_Report_reads now stamp source db o :
  run (Service_Report now stamp source) (mkSession db None o) (λ _ s, se_tables s = db).
Proof.
  unfold Service_Report. apply run_bind. eapply run_mono; [apply Aggregate_reads|].
  intros [e|a] s Hs; [done|]. by apply run_of_result.
Qed.

End recording.

Section claims.
Context `{PostgresLaws}.

Definition recording_clock (now : time) : Prop := 31 * 24 * Hour <= now < last_timestamp - 24 * Hour.

Lemma cutoff_storable now : recording_clock now →
  pg_timestamptz (Truncate now Second - telemetryRetention) = Some (Truncate now Second - telemetryRetention).
Proof.
  intros Hnow. apply pg_timestamptz_seconds;
    unfold recording_clock, telemetryRetention, Truncate, last_timestamp, Hour, Minute, Second in *;
    divlia.
Qed.

Lemma new_result_storable now id input : recording_clock now →
  in_pilot_window now (new_result (Truncate now Second) id input) →
  storable (Truncate (in_OccurredAt input) Second) ∧ storable (Truncate now Second).
Proof.
  intros Hnow [Hw1 Hw2]. cbn in *. split; [|apply storable_Truncate;
    unfold recording_clock, Hour, Minute, Second in *; lia].
  split; [|unfold Truncate, Second; divlia].
  pose proof (Truncate_bounds now Second ltac:(done)).
  unfold recording_clock, maximumResultAge, maximumClockSkew, Hour, Minute, Second in *. lia.
Qed.

Lemma insert_result_valid now id input db row db' : recording_clock now →
  in_pilot_window now (new_result (Truncate now Second) id input) →
  Validate (new_result (Truncate now Second) id input) = Ok tt →
  insert_result (new_result (Truncate now Second) id input) db = inr (row, db') →
  row = result_row (new_result (Truncate now Second) id input) ∧ db_results db !! id = None ∧
  db' = with_results db (<[id := row]> (db_results db)).
Proof.
  intros Hnow Hw Hv Hi.
  destruct (new_result_storable _ _ _ Hnow Hw) as [[Ho1 Ho2] [Hn1 Hn2]].
  unfold Validate in Hv. apply mbind_Ok in Hv as ([] & Hids & _).
  apply fail_if_Ok, orb_false_iff in Hids as [Hid%negb_false_iff Hdev%negb_false_iff]. cbn in Hid, Hdev.
  pose proof (insert_result_inv _ _ _ _ Hi) as (i & Hu & _ & _ & Hnone & ->).
  cbn in Hu. rewrite (pg_uuid_canonical _ Hid) in Hu. injection Hu as <-.
  split_and!; [|done|done].
  unfold insert_result, pg_in in Hi. cbn in Hi.
  rewrite (pg_uuid_canonical _ Hid), (pg_uuid_canonical _ Hdev), !pg_timestamptz_seconds in Hi by done.
  cbn in Hi. inv_sql. done.
Qed.

(** A recorded test result is faithful.  When [Record] returns a result, it is
    the one that was submitted (times truncated to seconds, provider label
    trimmed), it is valid and at most 30 days old, it is stored under an
    identifier that was free, and besides it only the retention pass changed the
    tables. *)
Theorem recorded_result_is_faithful now newID input db o r s :
  recording_clock now → Service_Record now newID input (mkSession db None o) = (inr r, s) →
  let cutoff := Truncate now Second - telemetryRetention in
  ∃ id, newID = Ok id ∧ r = new_result (Truncate now Second) id input ∧ Validate r = Ok tt ∧
    in_pilot_window now r ∧ db_results (purged cutoff db) !! id = None ∧
    se_tables s = with_results db (<[id := result_row r]> (db_results (purged cutoff db))).
Proof.
  intros Hnow Hc cutoff. pose proof (Service_Record_spec now newID input db o) as Hs. unfold run in Hs.
  rewrite Hc in Hs. cbn in Hs.
  destruct Hs as [[_ [e ?]]|(id & -> & Hw & Hv & c & Hcut & Hs)]; [done|].
  destruct Hs as [[_ [e ?]]|(row & Hi & [[[= ->] Hvs]|[e ?]])]; [done| |done].
  rewrite (cutoff_storable _ Hnow) in Hcut. injection Hcut as <-. fold cutoff in Hi.
  destruct (insert_result_valid _ _ _ _ _ _ Hnow Hw Hv Hi) as (-> & Hnone & Hdb).
  rewrite scan_result_row in *. exists id. split_and!; try done.
Qed.

(** C34: retention removes expired results only.  Whatever [Record] does (every
    failure included), a result that disappears had occurred more than 30 days
    before the clock, the tables keep their constraints, and the access registry
    is untouched; and when at most 1000 results had expired, an acknowledged
    [Record] leaves no expired result behind. *)
Theorem retention_is_exact now newID input db o :
  recording_clock now → results_ok db →
  let cutoff := Truncate now Second - telemetryRetention in
  let '(r, s) := Service_Record now newID input (mkSession db None o) in
  results_ok (se_tables s) ∧ db_access (se_tables s) = db_access db ∧
  (∀ id row, db_results db !! id = Some row →
     db_results (se_tables s) !! id = Some row ∨ rr_occurred_at row < cutoff) ∧
  ((∃ a, r = inr a) → llen (occurred_before cutoff (db_results db)) <= 1000 →
     ∀ id row, db_results (se_tables s) !! id = Some row → cutoff <= rr_occurred_at row).
Proof.
  intros Hnow Hdb cutoff. pose proof (Service_Record_spec now newID input db o) as Hs. unfold run in Hs.
  destruct (Service_Record now newID input (mkSession db None o)) as [r s]. cbn in Hs.
  destruct Hs as [[-> [e ->]]|(id & -> & Hw & Hv & c & Hcut & Hs)].
  { split_and!; [done|done|by left|by intros [a ?]]. }
  rewrite (cutoff_storable _ Hnow) in Hcut. injection Hcut as <-. fold cutoff in Hs.
  destruct Hs as [[-> [e ->]]|(row & Hi & Hr)].
  { split_and!; [by apply purged_ok|done| |by intros [a ?]].
    intros i old Hold. destruct (purged_lookup cutoff db i old Hdb Hold) as [?|[_ ?]]; auto. }
  pose proof (insert_result_ok _ _ _ _ (purged_ok cutoff db Hdb) Hi) as [Hok _].
  destruct (insert_result_valid _ _ _ _ _ _ Hnow Hw Hv Hi) as (-> & Hnone & Hdb').
  rewrite Hdb' in *. split_and!; [done|done|..].
  - intros i old Hold. destruct (purged_lookup cutoff db i old Hdb Hold) as [Hp|[_ ?]]; [left|auto].
    cbn. rewrite lookup_insert_ne; [done|]. intros <-. congruence.
  - intros _ Hn i old. cbn. rewrite lookup_insert_Some.
    intros [[<- <-]|[_ Hold]]; [cbn; destruct Hw as [Hw _]; exact Hw|].
    by eapply (purged_complete cutoff db).
Qed.

End claims.

(** Only a label that is an address as a whole is refused. *)
Example isp_may_contain_address :
  validISP "203.0.113.7" = false ∧ validISP "Example ISP 203.0.113.7" = true.
Proof. vm_compute. split; reflexivity. Qed.

(** ** Witnesses *)

Definition toy_clock : time := unix_epoch + 100 * 24 * Hour.
Definition toy_submission : RecordInput :=
  mkRecordInput PilotAccess.toy_device "linux" (Some " Example ISP ") "amneziawg" (toy_clock - Hour) false
    (Some "dns") "lt_3s" None.
Definition toy_id : string := "00000000-0000-4000-8000-0000000000a1".
Definition toy_old_id : string := "00000000-0000-4000-8000-0000000000a0".
Definition toy_old : ResultRow :=
  mkResultRow toy_old_id PilotAccess.toy_device "ios" None "xray_reality" (toy_clock - 40 * 24 * Hour) true None
    "3_10s" None (toy_clock - 40 * 24 * Hour).
Definition toy_db : Database := mkDatabase PilotAccess.toy_tables ∅ {[toy_old_id := toy_old]}.
Definition toy_recorded : TestResult := new_result toy_clock toy_id toy_submission.
Definition toy_run : (error + TestResult) * Session Database :=
  @Service_Record ToyPostgres toy_clock (Ok toy_id) toy_submission (mkSession toy_db None []).

Lemma toy_db_ok : @results_ok ToyPostgres toy_db.
Proof.
  split. intros id r. cbn. intros [<- <-]%lookup_singleton_Some.
  split; vm_compute; reflexivity.
Qed.

Lemma recorded_result_is_faithful_witness : ∃ id, Ok toy_id = Ok id ∧
  db_results (purged (toy_clock - telemetryRetention) toy_db) !! id = None.
Proof.
  destruct (@recorded_result_is_faithful ToyPostgres ToyPostgres_laws toy_clock (Ok toy_id) toy_submission
    toy_db [] toy_recorded toy_run.2) as (id & E & _ & _ & _ & Hn & _).
  - vm_compute. split; [discriminate|reflexivity].
  - vm_compute. reflexivity.
  - exists id. split; [exact E|exact Hn].
Defined.

Lemma retention_is_exact_witness : @results_ok ToyPostgres (se_tables toy_run.2) ∧
  map_Forall (λ _ row, Truncate toy_clock Second - telemetryRetention <= rr_occurred_at row)
    (db_results (se_tables toy_run.2)).
Proof.
  pose proof (@retention_is_exact ToyPostgres ToyPostgres_laws toy_clock (Ok toy_id) toy_submission
    toy_db []) as Hr.
  specialize (Hr ltac:(vm_compute; split; [discriminate|reflexivity]) toy_db_ok).
  fold toy_run in Hr. destruct toy_run as [r s] eqn:Er. destruct Hr as (Hok & _ & _ & Hr).
  split; [exact Hok|]. intros id row. apply Hr.
  - exists toy_recorded. transitivity toy_run.1; [by rewrite Er|]. vm_compute. reflexivity.
  - vm_compute. discriminate.
Defined.

Lemma report_is_exact_witness : ∃ rep : Report,
  rp_TotalTests rep = llen (@in_window ToyPostgres (toy_clock - 11 * 24 * Hour) toy_db).
Proof.
  destruct (@report_is_exact ToyPostgres ToyPostgres_laws toy_clock (toy_clock - 11 * 24 * Hour) None toy_db
    toy_db_ok) as [(rep & _ & E & _) _].
  - vm_compute. split; [discriminate|reflexivity].
  - vm_compute. reflexivity.
  - exists rep. exact E.
Defined.
