(* ===== verification/PilotApi.v ===== *)
(** * The pilot administration API

    [internal/pilotapi/handler.go]: the HTTP handler in front of the access
    registry and of the telemetry service.  The two services are the interface
    [Services] over a state; the instance at the end runs the real ones on one
    database.  Times are printed in UTC. *)

From Stdlib Require Import SpecFloat.
From S2P Require Import Prelude GoRegexp GoSha256 GoStrings GoJson GoUnicode GoMime GoHttp Identifiers.
From S2P Require Import GoSql VpnNode PilotAccess Telemetry.

Definition maxRequestBytes : Z := Z.shiftl 8 10.
Definition operationTimeout : duration := 5 * Second.

(** The wire form of a [float64], the shortest decimal that reads back. *)
Class FloatFormat := format_float : float64 → string.

(** ** Requests and responses *)

Record registerRequest := mkRegisterRequest {
  gq_DeviceID : string;
  gq_NodeID : string;
  gq_Transport : string;
  gq_ExternalReference : string;
  gq_ExpiresAt : option time
}.

Record testResultRequest := mkTestResultRequest {
  tq_DeviceID : string;
  tq_ClientPlatform : string;
  tq_ISP : option string;
  tq_Transport : string;
  tq_OccurredAt : time;
  tq_Success : bool;
  tq_FailureStage : option string;
  tq_ConnectionTimeBucket : string;
  tq_ThroughputBucket : option string
}.

(** A pointer to a time with [omitempty]: an absent field, a time, or an error. *)
Definition time_opt (name : string) (o : option time) : option (list (string * json)) :=
  match o with
  | None => Some []
  | Some t => j ← JTime t; Some [(name, j)]
  end.

(** [accessResponse] of [responseFromAccess]. *)
Definition responseFromAccess (access : Access) : option json :=
  created ← JTime (ac_CreatedAt access);
  expires ← time_opt "expires_at" (ac_ExpiresAt access);
  revoked ← time_opt "revoked_at" (ac_RevokedAt access);
  Some (JObj ([("id", JStr (ac_ID access)); ("device_id", JStr (ac_DeviceID access));
    ("node_id", JStr (ac_NodeID access)); ("transport", JStr (ac_Transport access));
    ("external_reference", JStr (ac_ExternalReference access)); ("created_at", created)]
    ++ expires ++ revoked ++ [("status", JStr (ac_Status access))])).

Definition responseFromTestResult (result : TestResult) : option json :=
  occurred ← JTime (tr_OccurredAt result);
  recorded ← JTime (tr_RecordedAt result);
  Some (JObj ([("id", JStr (tr_ID result)); ("device_id", JStr (tr_DeviceID result));
    ("client_platform", JStr (tr_ClientPlatform result))]
    ++ field_opt "isp" (JStr <$> tr_ISP result)
    ++ [("transport", JStr (tr_Transport result)); ("occurred_at", occurred);
        ("success", JBool (tr_Success result))]
    ++ field_opt "failure_stage" (JStr <$> tr_FailureStage result)
    ++ [("connection_time_bucket", JStr (tr_ConnectionTimeBucket result))]
    ++ field_opt "throughput_bucket" (JStr <$> tr_ThroughputBucket result)
    ++ [("recorded_at", recorded)])).

Section report_json.
Context `{FloatFormat}.

Definition json_summary (s : TransportSummary) : json := JObj
  [("transport", JStr (ts_Transport s)); ("tests", JInt (ts_Tests s));
   ("successes", JInt (ts_Successes s)); ("success_rate", JNum (format_float (ts_SuccessRate s)))].

Definition json_metrics (m : Metrics) : option json :=
  observed ← JTime (me_ObservedAt m);
  Some (JObj ([("cpu_percent", JNum (format_float (me_CPUPercent m)));
    ("memory_total_bytes", JInt (me_MemoryTotalBytes m));
    ("memory_used_bytes", JInt (me_MemoryUsedBytes m));
    ("network_rx_bytes", JInt (me_NetworkRXBytes m)); ("network_tx_bytes", JInt (me_NetworkTXBytes m))]
    ++ field_opt "active_connection_count" (JInt <$> me_ActiveConnectionCount m)
    ++ (if bool_decide (me_ConfigRevision m = "") then []
        else [("config_revision", JStr (me_ConfigRevision m))])
    ++ [("observed_at", observed)])).

Definition json_Report (r : Report) : option json :=
  generated ← JTime (rp_GeneratedAt r);
  first ← time_opt "first_test_at" (rp_FirstTestAt r);
  last ← time_opt "last_test_at" (rp_LastTestAt r);
  metrics ← match rp_ServerMetrics r with
            | None => Some []
            | Some m => j ← json_metrics m; Some [("server_metrics", j)]
            end;
  Some (JObj ([("generated_at", generated); ("total_tests", JInt (rp_TotalTests r))]
    ++ first ++ last
    ++ [("active_users", JInt (rp_ActiveUsers r)); ("active_devices", JInt (rp_ActiveDevices r));
        ("transports", JArr (map json_summary (rp_Transports r)));
        ("failures_by_stage", JArr (map (λ f, JObj [("stage", JStr (fs_Stage f));
           ("failures", JInt (fs_Failures f))]) (rp_FailuresByStage r)));
        ("failures_by_isp", JArr (map (λ f, JObj [("isp", JStr (if_ISP f));
           ("failures", JInt (if_Failures f))]) (rp_FailuresByISP r)));
        ("server_metrics_status", JStr (rp_ServerMetricsStatus r))]
    ++ metrics)).

End report_json.

Definition security_headers : list (string * string) :=
  [("Cache-Control", "no-store");
   ("Content-Security-Policy", "default-src 'none'; frame-ancestors 'none'");
   ("Referrer-Policy", "no-referrer"); ("X-Content-Type-Options", "nosniff")].

(** [writeJSON] after [setHeaders], with the header fields set in between. *)
Definition writeJSON (extra : list (string * string)) (status : Z) (value : option json) : HttpResponse :=
  mkHttpResponse status (security_headers ++ extra ++ [("Content-Type", "application/json")])
    (encode_line value).

Definition writeError (extra : list (string * string)) (status : Z) (message : string) : HttpResponse :=
  writeJSON extra status (Some (JObj [("error", JStr message)])).

(** ** The services *)

(** [AccessService] and [TelemetryService] as operations on a state [S]. *)
Record Services (S : Type) := mkServices {
  sv_Register : RegisterInput → S → (error + Access) * S;
  sv_Revoke : string → S → (error + Access) * S;
  sv_telemetry : option ((RecordInput → S → (error + TestResult) * S) * (S → (error + Report) * S))
}.
Arguments sv_Register {S} _ _ _.
Arguments sv_Revoke {S} _ _ _.
Arguments sv_telemetry {S} _.

Record Handler (S : Type) := mkHandler {
  ha_service : Services S;
  ha_token : string  (* the SHA-256 digest of the token *)
}.
Arguments mkHandler {S} _ _.
Arguments ha_service {S} _.
Arguments ha_token {S} _.

(** [character <= ' ' || character == 127]. *)
Definition blank_rune (r : Z) : bool := (r <=? 32) || (r =? 127).

(** [NewWithTelemetry]; [None] is the nil access service. *)
Definition NewWithTelemetry {S} (service : option (Services S)) (token : string) : result (Handler S) :=
  match service with
  | None => Err (NewError "pilot API: access service is required")
  | Some service =>
      fail_if ((len token <? 32) || (len token >? 512))
        (NewError "pilot API: admin token must contain between 32 and 512 bytes");;
      fail_if (Contains (RuneToLower token) "replace-with")
        (NewError "pilot API: admin token must not contain the example placeholder");;
      fail_if (ContainsFunc token blank_rune)
        (NewError "pilot API: admin token must not contain whitespace or control characters");;
      Ok (mkHandler service (Sum256 token))
  end.

(** [subtle.ConstantTimeCompare] of two digests is equality. *)
Definition authorized {S} (handler : Handler S) (request : Request) : bool :=
  let '(scheme, presented, ok) := Cut (rq_Authorization request) " "%char in
  if negb ok || negb (EqualFoldASCII scheme "Bearer") || bool_decide (presented = "") ||
     ContainsFunc presented blank_rune then false
  else bool_decide (Sum256 presented = ha_token handler).

Definition DeadlineExceeded : string := "context deadline exceeded".

Definition serviceError (err : error) : HttpResponse :=
  if errors_Is err "pilot access: invalid input" || errors_Is err "pilot telemetry: invalid input"
  then writeError [] StatusBadRequest "invalid pilot metadata"
  else if errors_Is err "pilot access: not found"
  then writeError [] StatusNotFound "access not found"
  else if errors_Is err "pilot access: conflict" || errors_Is err "pilot telemetry: conflict"
  then writeError [] StatusConflict "record already exists"
  else if errors_Is err DeadlineExceeded
  then writeError [] StatusServiceUnavailable "service temporarily unavailable"
  else writeError [] StatusInternalServerError "internal error".

Definition bodyError (err : body_error) : HttpResponse :=
  match err with
  | MaxBytesError => writeError [] StatusRequestEntityTooLarge "request too large"
  | OtherBodyError => writeError [] StatusBadRequest "invalid request"
  end.

(** [mime.ParseMediaType(Content-Type)] is [application/json]. *)
Definition json_content (request : Request) : bool :=
  match ParseMediaType (rq_ContentType request) with
  | Some mediaType => bool_decide (mediaType = "application/json")
  | None => false
  end.

Definition methodNotAllowed (allow : string) : HttpResponse :=
  writeError [("Allow", allow)] StatusMethodNotAllowed "method not allowed".

(** [strings.TrimPrefix] and [strings.TrimSuffix]. *)
Definition TrimPrefix (s prefix : string) : string :=
  if HasPrefix s prefix then str_drop (String.length prefix) s else s.
Definition TrimSuffix (s suffix : string) : string :=
  if HasSuffix s suffix then str_take (String.length s - String.length suffix) s else s.

Definition revoke_identifier (path : string) : string :=
  TrimSuffix (TrimPrefix path "/admin/pilot/access/") "/revoke".

Section handler.
Context `{JsonSyntax} `{JsonDecode registerRequest} `{JsonDecode testResultRequest}
  `{JsonStream registerRequest} `{JsonStream testResultRequest}.
Context `{FloatFormat} {S : Type} (handler : Handler S).

Definition register (request : Request) (s : S) : HttpResponse * S :=
  if negb (bool_decide (rq_Method request = MethodPost)) then (methodNotAllowed MethodPost, s)
  else if negb (json_content request)
  then (writeError [] StatusUnsupportedMediaType "Content-Type must be application/json", s)
  else
    match decode_limited maxRequestBytes (rq_Body request) with
    | inl e => (bodyError e, s)
    | inr input =>
        let '(r, s') := sv_Register (ha_service handler)
          (mkRegisterInput (gq_DeviceID input) (gq_NodeID input) (gq_Transport input)
             (gq_ExternalReference input) (gq_ExpiresAt input)) s in
        match r with
        | inl e => (serviceError e, s')
        | inr access => (writeJSON [] StatusCreated (responseFromAccess access), s')
        end
    end.

Definition revoke (request : Request) (s : S) : HttpResponse * S :=
  if negb (bool_decide (rq_Method request = MethodPost)) then (methodNotAllowed MethodPost, s)
  else
    let identifier := revoke_identifier (rq_Path request) in
    if bool_decide (identifier = "") || Contains identifier "/"
    then (writeError [] StatusNotFound "not found", s)
    else
      let '(r, s') := sv_Revoke (ha_service handler) identifier s in
      match r with
      | inl e => (serviceError e, s')
      | inr access => (writeJSON [] StatusOK (responseFromAccess access), s')
      end.

Definition recordTestResult (record : RecordInput → S → (error + TestResult) * S) (request : Request)
    (s : S) : HttpResponse * S :=
  if negb (bool_decide (rq_Method request = MethodPost)) then (methodNotAllowed MethodPost, s)
  else if negb (json_content request)
  then (writeError [] StatusUnsupportedMediaType "Content-Type must be application/json", s)
  else
    match decode_limited maxRequestBytes (rq_Body request) with
    | inl e => (bodyError e, s)
    | inr input =>
        let '(r, s') := record
          (mkRecordInput (tq_DeviceID input) (tq_ClientPlatform input) (tq_ISP input)
             (tq_Transport input) (tq_OccurredAt input) (tq_Success input) (tq_FailureStage input)
             (tq_ConnectionTimeBucket input) (tq_ThroughputBucket input)) s in
        match r with
        | inl e => (serviceError e, s')
        | inr result => (writeJSON [] StatusCreated (responseFromTestResult result), s')
        end
    end.

Definition report (get : S → (error + Report) * S) (request : Request) (s : S) : HttpResponse * S :=
  if negb (bool_decide (rq_Method request = MethodGet)) then (methodNotAllowed MethodGet, s)
  else
    let '(r, s') := get s in
    match r with
    | inl e => (serviceError e, s')
    | inr report => (writeJSON [] StatusOK (json_Report report), s')
    end.

Definition ServeHTTP (request : Request) (s : S) : HttpResponse * S :=
  if negb (authorized handler request) then
    (writeError [("WWW-Authenticate", "Bearer realm=" +:+ String quote ("pilot-admin" +:+ String quote ""))]
       StatusUnauthorized "unauthorized", s)
  else if bool_decide (rq_Path request = "/admin/pilot/access") then register request s
  else if HasPrefix (rq_Path request) "/admin/pilot/access/" && HasSuffix (rq_Path request) "/revoke"
  then revoke request s
  else
    match sv_telemetry (ha_service handler) with
    | Some (record, get) =>
        if bool_decide (rq_Path request = "/admin/pilot/test-results") then recordTestResult record request s
        else if bool_decide (rq_Path request = "/admin/pilot/report") then report get request s
        else (writeError [] StatusNotFound "not found", s)
    | None => (writeError [] StatusNotFound "not found", s)
    end.

End handler.

(** ** The services on one database

    What a request sees of the clock and of the identifier generators; [mo_stamp]
    is the [current_timestamp] of the server. *)
Record Moment := mkMoment {
  mo_now : time;
  mo_newID : result string;
  mo_newAuditID : result string;
  mo_stamp : time
}.

Definition with_access (db : Database) (t : Tables) : Database :=
  mkDatabase t (db_accounts db) (db_results db).

(** A call of the access store: it sees the tables of the registry only. *)
Definition on_access {A} (m : sql Tables error A) : sql Database error A := λ s,
  let '(r, s') := m (mkSession (db_access (se_tables s)) (db_access <$> se_transaction s) (se_outcomes s)) in
  (r, mkSession (with_access (se_tables s) (se_tables s'))
        (with_access (se_tables s) <$> se_transaction s') (se_outcomes s')).

(** The services as [cmd/control-plane] puts them together: no metrics source. *)
Definition pilot_services `{Postgres} (m : Moment) : Services (Session Database) :=
  mkServices _
    (λ input, on_access (Register (mo_now m) (mo_newID m) (mo_newAuditID m) input))
    (λ id, on_access (Revoke (mo_now m) (mo_newAuditID m) id))
    (Some (Service_Record (mo_now m) (mo_newID m), Service_Report (mo_now m) (mo_stamp m) None)).

Lemma run_on_access {A} (m : sql Tables error A) db o (Q : error + A → Session Database → Prop) :
  run m (mkSession (db_access db) None o) (λ r s, ∀ tx o',
    Q r (mkSession (with_access db (se_tables s)) tx o')) →
  run (on_access m) (mkSession db None o) Q.
Proof. unfold run, on_access. cbn. destruct (m _) as [r s]. cbn. intros HQ. apply HQ. Qed.

(** ** Authorization *)

(** The header value carries the token, up to a collision of SHA-256. *)
Definition carries_token (token : string) (request : Request) : Prop :=
  ∃ scheme presented, rq_Authorization request = scheme +:+ String " " presented ∧
    EqualFoldASCII scheme "Bearer" = true ∧ Sum256 presented = Sum256 token.

Lemma authorized_inv {S} (handler : Handler S) request :
  authorized handler request = true →
  ∃ scheme presented, rq_Authorization request = scheme +:+ String " " presented ∧
    EqualFoldASCII scheme "Bearer" = true ∧ Sum256 presented = ha_token handler.
Proof.
  unfold authorized. destruct (Cut _ _) as [[scheme presented] ok] eqn:Hcut.
  destruct ok; [|done]. destruct (EqualFoldASCII scheme "Bearer") eqn:Hs; [|done].
  apply Cut_spec in Hcut. destruct (_ || _); [done|]. case_bool_decide; [|done]. eauto.
Qed.

Lemma NewWithTelemetry_inv {S} service token (handler : Handler S) :
  NewWithTelemetry service token = Ok handler →
  ∃ sv, service = Some sv ∧ handler = mkHandler sv (Sum256 token) ∧ 32 <= len token <= 512 ∧
    ContainsFunc token blank_rune = false.
Proof.
  unfold NewWithTelemetry. destruct service as [sv|]; [|done]. intros Hn. inv_ok.
  exists sv. split_and!; try done; lia.
Qed.

Lemma authorized_token {S} service token (handler : Handler S) request :
  NewWithTelemetry service token = Ok handler →
  rq_Authorization request = "Bearer " +:+ token → authorized handler request = true.
Proof.
  intros (sv & _ & -> & Hlen & Hb)%NewWithTelemetry_inv Ha. unfold authorized.
  assert (Cut (rq_Authorization request) " "%char = ("Bearer", token, true)) as -> by (by rewrite Ha).
  rewrite Hb, (bool_decide_false (token = "")); [|by intros ->; unfold len in Hlen; simpl in Hlen; lia].
  by apply bool_decide_eq_true.
Qed.

(** ** Requests on the database *)

Section requests.
Context `{Postgres}.

(** The constraints of all the tables, and the audit trail of the registry. *)
Definition consistent (db : Database) : Prop := audited (db_access db) ∧ results_ok db.

(** What a request may do: nothing to the accounts, and to the registry what the
    audit trail allows. *)
Definition progress (db db' : Database) : Prop :=
  consistent db' ∧ evolves (db_access db) (db_access db') ∧ db_accounts db' = db_accounts db.

Lemma progress_refl db : consistent db → progress db db.
Proof. by split. Qed.

Lemma access_progress db t : consistent db → pilot_step (db_access db) t → progress db (with_access db t).
Proof.
  intros [A R] Hs. destruct (pilot_step_ok _ _ Hs A) as [A' E].
  split; [|done]. split; [done|]. split. apply (ro_row _ R).
Qed.

Lemma Register_progress now newID aid input db o : consistent db →
  run (on_access (Register now newID aid input)) (mkSession db None o) (λ _ s, progress db (se_tables s)).
Proof.
  intros Hdb. apply run_on_access. unfold run. intros tx o'. apply access_progress; [done|].
  eapply step_register, surjective_pairing.
Qed.

Lemma Revoke_progress now aid id db o : consistent db →
  run (on_access (Revoke now aid id)) (mkSession db None o) (λ _ s, progress db (se_tables s)).
Proof.
  intros Hdb. apply run_on_access. unfold run. intros tx o'. apply access_progress; [done|].
  eapply step_revoke, surjective_pairing.
Qed.

Lemma Record_progress now newID input db o : consistent db →
  run (Service_Record now newID input) (mkSession db None o) (λ _ s, progress db (se_tables s)).
Proof.
  intros [A R]. eapply run_mono; [by apply Service_Record_ok|].
  intros r s (R' & Ha & Hacc). split; [split; [by rewrite Ha|done]|]. by rewrite Ha.
Qed.

(** An acknowledged operation is in the tables. *)
Lemma Register_acknowledged now newID aid input t o :
  run (Register now newID aid input) (mkSession t None o) (λ r s, ∀ a, r = inr a →
    ∃ row, t_accesses (se_tables s) !! ac_ID a = Some row ∧ PilotAccess.scan row = a).
Proof.
  eapply run_mono; [apply Register_spec|].
  intros r s [[_ [e ->]]|(id & _ & _ & a & Hc & [[-> _]|[e ->]])] a' Ha; [done| |done].
  injection Ha as <-. destruct Hc as (row & t1 & auditID & Hi & -> & Hau).
  apply insert_access_inv in Hi as (_ & _ & _ & _ & _ & ->).
  apply insert_audit_inv in Hau as [Hacc _]. exists row. rewrite Hacc. cbn. by rewrite lookup_insert_eq.
Qed.

Lemma Revoke_acknowledged `{!PostgresLaws} now aid id t o : audited t →
  run (Revoke now aid id) (mkSession t None o) (λ r s, ∀ a, r = inr a →
    ∃ row, t_accesses (se_tables s) !! id = Some row ∧ r_status row = "revoked" ∧
      PilotAccess.scan row = a).
Proof.
  intros A. eapply run_mono; [apply Revoke_spec|].
  intros r s [[_ [e ->]]|(Hid%pg_uuid_canonical & a & Hc & [[-> _]|[e ->]])] a' Ha; [done| |done].
  injection Ha as <-. destruct Hc as [(row & t1 & auditID & Hi & -> & Hau)|(row & Hi & -> & ->)].
  - apply update_revoked_inv in Hi as (i & r0 & u & Hi & Hr0 & _ & -> & _ & ->).
    assert (i = id) as -> by congruence. destruct (au_id _ A _ _ Hr0) as [<- _].
    apply insert_audit_inv in Hau as [Hacc _]. eexists. rewrite Hacc. cbn. by rewrite lookup_insert_eq.
  - unfold select_revoked, pg_in in Hi. rewrite Hid in Hi. cbn in Hi.
    destruct (t_accesses t !! id) as [r|] eqn:Hr; [|done]. case_bool_decide; [|done].
    injection Hi as ->. eauto.
Qed.

Lemma Record_acknowledged now newID input db o :
  run (Service_Record now newID input) (mkSession db None o) (λ r s, ∀ a, r = inr a →
    ∃ row, db_results (se_tables s) !! tr_ID a = Some row ∧ Telemetry.scan row = a).
Proof.
  eapply run_mono; [apply Service_Record_spec|].
  intros r s [[_ [e ->]]|(id & _ & _ & _ & c & _ & [[_ [e ->]]|(row & Hi & [[-> _]|[e ->]])])] a Ha;
    [done|done| |done].
  injection Ha as <-. apply insert_result_inv in Hi as (i & _ & Hid & _ & _ & ->).
  exists row. cbn. by rewrite Hid, lookup_insert_eq.
Qed.

End requests.

Section claims.
Context `{JsonSyntax} `{JsonDecode registerRequest} `{JsonDecode testResultRequest}
  `{JsonStream registerRequest} `{JsonStream testResultRequest}.
Context `{FloatFormat}.

(** What a request is: refused with an error, or one call of a service. *)
Definition refusal (response : HttpResponse) : Prop := 400 <= hr_Status response.

Lemma serviceError_refuses err : refusal (serviceError err).
Proof.
  unfold serviceError, refusal.
  by repeat match goal with |- context [if ?c then _ else _] => destruct c end.
Qed.

Definition answer {A} (status : Z) (encode : A → option json) (r : error + A) : HttpResponse :=
  match r with inl e => serviceError e | inr a => writeJSON [] status (encode a) end.

Lemma ServeHTTP_cases {S} (handler : Handler S) request s (P : HttpResponse → S → Prop) :
  (∀ response, refusal response →
     (hr_Status response = StatusUnauthorized ↔ authorized handler request = false) → P response s) →
  (authorized handler request = true →
   (rq_Method request = MethodPost → rq_Path request = "/admin/pilot/access" → ∀ input,
     let '(r, s') := sv_Register (ha_service handler) input s in
     P (answer StatusCreated responseFromAccess r) s') ∧
   (rq_Method request = MethodPost → rq_Path request ≠ "/admin/pilot/access" →
     let '(r, s') := sv_Revoke (ha_service handler) (revoke_identifier (rq_Path request)) s in
     P (answer StatusOK responseFromAccess r) s') ∧
   (∀ record get, sv_telemetry (ha_service handler) = Some (record, get) →
     (rq_Method request = MethodPost → rq_Path request = "/admin/pilot/test-results" → ∀ input,
       let '(r, s') := record input s in
       P (answer StatusCreated responseFromTestResult r) s') ∧
     (rq_Method request = MethodGet → rq_Path request = "/admin/pilot/report" →
       let '(r, s') := get s in P (answer StatusOK json_Report r) s'))) →
  P (ServeHTTP handler request s).1 (ServeHTTP handler request s).2.
Proof.
  intros Hno Hcall. unfold ServeHTTP.
  destruct (authorized handler request) eqn:Ha; cbn [negb]; [|by apply Hno].
  destruct (Hcall eq_refl) as (Hreg & Hrev & Htel). clear Hcall.
  assert (∀ response, refusal response → hr_Status response ≠ StatusUnauthorized →
    P response s) as Hrefuse by (intros response ? Hne; apply Hno; [done|by split]).
  assert (∀ e, refusal (bodyError e) ∧ hr_Status (bodyError e) ≠ StatusUnauthorized) as Hbody by (by intros []).
  case_bool_decide as Hpath; [|destruct (_ && _)].
  - unfold register. case_bool_decide; [|by apply Hrefuse]. destruct (json_content request); [|by apply Hrefuse].
    destruct (decode_limited _ _) as [e|input]; [by apply Hrefuse; apply Hbody|]. cbn.
    specialize (Hreg ltac:(done) Hpath (mkRegisterInput (gq_DeviceID input) (gq_NodeID input)
      (gq_Transport input) (gq_ExternalReference input) (gq_ExpiresAt input))).
    by destruct (sv_Register _ _ _) as [[e|a] s'].
  - unfold revoke. case_bool_decide; [|by apply Hrefuse]. cbn [negb].
    destruct (_ || _); [by apply Hrefuse|]. specialize (Hrev ltac:(done) Hpath).
    by destruct (sv_Revoke _ _ _) as [[e|a] s'].
  - destruct (sv_telemetry _) as [[record get]|]; [|by apply Hrefuse].
    destruct (Htel _ _ eq_refl) as [Hrec Hrep].
    case_bool_decide as Hp2; [|case_bool_decide as Hp3; [|by apply Hrefuse]].
    + unfold recordTestResult. case_bool_decide; [|by apply Hrefuse].
      destruct (json_content request); [|by apply Hrefuse].
      destruct (decode_limited _ _) as [e|input]; [by apply Hrefuse; apply Hbody|]. cbn.
      specialize (Hrec ltac:(done) Hp2 (mkRecordInput (tq_DeviceID input) (tq_ClientPlatform input)
        (tq_ISP input) (tq_Transport input) (tq_OccurredAt input) (tq_Success input)
        (tq_FailureStage input) (tq_ConnectionTimeBucket input) (tq_ThroughputBucket input))).
      by destruct (record _ _) as [[e|a] s'].
    + unfold report. case_bool_decide; [|by apply Hrefuse]. cbn [negb]. specialize (Hrep ltac:(done) Hp3).
      by destruct (get _) as [[e|a] s'].
Qed.

Lemma answer_authorized {A} status (encode : A → option json) r :
  status < 400 → hr_Status (answer status encode r) ≠ StatusUnauthorized.
Proof.
  intros Hs. destruct r as [e|a]; cbn; [|unfold StatusUnauthorized; lia]. unfold serviceError.
  by repeat match goal with |- context [if ?c then _ else _] => destruct c end.
Qed.

Lemma dispatched {S} (handler : Handler S) request s :
  (hr_Status (ServeHTTP handler request s).1 = StatusUnauthorized ∧
   (ServeHTTP handler request s).2 = s ∧ authorized handler request = false) ∨
  (hr_Status (ServeHTTP handler request s).1 ≠ StatusUnauthorized ∧
   authorized handler request = true).
Proof.
  apply (ServeHTTP_cases handler request s (λ r s', (hr_Status r = _ ∧ s' = s ∧ _) ∨ (hr_Status r ≠ _ ∧ _))).
  - intros response _ Hiff. destruct (authorized handler request); [right|left]; naive_solver.
  - intros Ha. split_and!.
    + intros _ _ input. destruct (sv_Register _ _ _). right. split; [by apply answer_authorized|done].
    + intros _ _. destruct (sv_Revoke _ _ _). right. split; [by apply answer_authorized|done].
    + intros record get _. split; [intros _ _ input; destruct (record _ _)|intros _ _; destruct (get _)];
        (right; split; [by apply answer_authorized|done]).
Qed.

(** C28: the administration API requires its token.  A handler is only built for a
    token of 32 to 512 bytes; a request that is answered with anything but 401, or
    that changes the state, carries in its [Authorization] header, after the
    scheme [Bearer] (in any case), a value with the SHA-256 digest of the token; and
    a request that presents the token is never answered with 401. *)
Theorem admin_api_requires_token {S} service token (handler : Handler S) request s :
  NewWithTelemetry service token = Ok handler →
  let '(response, s') := ServeHTTP handler request s in
  32 <= len token <= 512 ∧
  (hr_Status response ≠ StatusUnauthorized ∨ s' ≠ s → carries_token token request) ∧
  (rq_Authorization request = "Bearer " +:+ token → hr_Status response ≠ StatusUnauthorized).
Proof.
  intros Hn. pose proof (NewWithTelemetry_inv _ _ _ Hn) as (sv & _ & Hh & Hlen & _).
  pose proof (dispatched handler request s) as Hd.
  destruct (ServeHTTP handler request s) as [response s']. cbn in Hd. split; [done|]. split.
  - intros Hor. destruct Hd as [(? & ? & _)|[_ Ha]]; [by destruct Hor|].
    apply authorized_inv in Ha as (scheme & presented & ? & ? & Hp). subst handler. by exists scheme, presented.
  - intros Htok Hst. pose proof (authorized_token _ _ _ _ Hn Htok). destruct Hd as [(_ & _ & ?)|[? _]]; congruence.
Qed.

(** One request on the database: the response and the tables it leaves. *)
Definition serve `{Postgres} (token : string) (m : Moment) (o : list outcome)
    (request : Request) (db : Database) : HttpResponse * Database :=
  let '(response, s) := ServeHTTP (mkHandler (pilot_services m) (Sum256 token)) request
    (mkSession db None o) in
  (response, se_tables s).

Inductive api_step `{Postgres} (token : string) (db : Database) : Database → Prop :=
  | api_served m o request : api_step token db (serve token m o request db).2.

Lemma serve_progress `{Postgres} token m o request db :
  consistent db → progress db (serve token m o request db).2.
Proof.
  intros Hdb. unfold serve. destruct (ServeHTTP _ request _) as [response s] eqn:Hs. cbn.
  pose proof (ServeHTTP_cases (mkHandler (pilot_services m) (Sum256 token)) request
    (mkSession db None o) (λ _ s, progress db (se_tables s))) as HP.
  rewrite Hs in HP. apply HP; clear HP Hs; [intros; by apply progress_refl|]. intros _. split_and!.
  - intros _ _ input. by apply run_pair, Register_progress.
  - intros _ _. by apply run_pair, Revoke_progress.
  - intros record get Htel. injection Htel as <- <-. split.
    + intros _ _ input. by apply run_pair, Record_progress.
    + intros _ _. apply run_pair. eapply run_mono; [apply Service_Report_reads|].
      intros r s' ->. by apply progress_refl.
Qed.

(** The administration API keeps the database consistent.  After any number of
    requests, authorized or not, on any connection, the rows satisfy their
    constraints, the audit trail names every registration and revocation exactly
    once, no row of the registry was lost or changed except by its one revocation,
    no event was removed, and the accounts are untouched. *)
Theorem api_keeps_the_database `{Postgres} token db db' :
  consistent db → rtc (api_step token) db db' → progress db db'.
Proof.
  intros Hdb Hrun. induction Hrun as [db|db db1 db2 Hstep _ IH]; [by apply progress_refl|].
  destruct Hstep as [m o request].
  destruct (serve_progress token m o request db Hdb) as (P1 & E1 & Ac1).
  destruct (IH P1) as (P2 & E2 & Ac2). split; [done|]. split; [by etrans|congruence].
Qed.

(** A response that shows a row of the tables. *)
Definition shows_row (request : Request) (db : Database) (body : string) : Prop :=
  (∃ id row, t_accesses (db_access db) !! id = Some row ∧
     body = encode_line (responseFromAccess (PilotAccess.scan row)) ∧
     (rq_Path request = "/admin/pilot/access" ∨
      id = revoke_identifier (rq_Path request) ∧ r_status row = "revoked")) ∨
  (∃ id row, db_results db !! id = Some row ∧
     body = encode_line (responseFromTestResult (Telemetry.scan row)) ∧
     rq_Path request = "/admin/pilot/test-results").

(** C27: what the administration API reports is in the database.  A response 201 or
    200 to a POST is the JSON form of a row that the tables hold after the request:
    the registered access, the access named in the path, now revoked, or the
    recorded result; and a request other than a POST changes nothing. *)
Theorem responses_are_backed `{PostgresLaws} token m o request db :
  consistent db →
  let '(response, db') := serve token m o request db in
  (hr_Status response < 400 → rq_Method request = MethodPost → shows_row request db' (hr_Body response)) ∧
  (rq_Method request ≠ MethodPost → db' = db).
Proof.
  intros [Haud Hres]. unfold serve. destruct (ServeHTTP _ request _) as [response s] eqn:Hs.
  pose proof (ServeHTTP_cases (mkHandler (pilot_services m) (Sum256 token)) request
    (mkSession db None o) (λ response s,
     (hr_Status response < 400 → rq_Method request = MethodPost → shows_row request (se_tables s) (hr_Body response)) ∧
     (rq_Method request ≠ MethodPost → se_tables s = db))) as HP.
  rewrite Hs in HP. apply HP; clear HP Hs.
  { intros r Hr _. split; [unfold refusal in Hr; lia|done]. }
  assert (∀ A status (encode : A → option json) r body, hr_Status (answer status encode r) < 400 →
    (∀ a, r = inr a → body (encode_line (encode a))) → body (hr_Body (answer status encode r))) as Hans.
  { intros A status encode [e|a] body; cbn; [pose proof (serviceError_refuses e); unfold refusal in *; lia|auto]. }
  intros _. split_and!.
  - intros Hpost Hpath input. apply run_pair, run_on_access.
    eapply run_mono; [apply Register_acknowledged|]. intros r s' Hack tx o'. split; [|done]. cbn.
    intros Hlt _. left. apply Hans; [done|]. intros a (row & Hrow & <-)%Hack. eauto 10.
  - intros Hpost Hpath. apply run_pair, run_on_access.
    eapply run_mono; [by apply Revoke_acknowledged|]. intros r s' Hack tx o'. split; [|done]. cbn.
    intros Hlt _. left. apply Hans; [done|]. intros a (row & Hrow & Hst & <-)%Hack. eauto 10.
  - intros record get Htel. injection Htel as <- <-. split.
    + intros Hpost Hpath input. apply run_pair.
      eapply run_mono; [apply Record_acknowledged|]. intros r s' Hack. split; [|done].
      intros Hlt _. right. apply Hans; [done|]. intros a (row & Hrow & <-)%Hack. eauto 10.
    + intros Hget _. apply run_pair. eapply run_mono; [apply Service_Report_reads|].
      intros r s' ->. split; [|done]. intros _ Hpost. by rewrite Hget in Hpost.
Qed.

End claims.

(** ** Witnesses *)

Definition toy_token : string := "0123456789abcdef0123456789abcdef".
Definition toy_request : Request :=
  mkRequest "POST" "/admin/pilot/access" "/admin/pilot/access" ("Bearer " +:+ toy_token) "application/json" (mkReader "{}" None).
Definition toy_register_decoder : JsonDecode registerRequest := λ _,
  Ok (mkRegisterRequest PilotAccess.toy_device "ams-1" "amneziawg" "peer:7" (Some (unix_epoch + 24 * Hour)), "").
Definition toy_result_decoder : JsonDecode testResultRequest := λ _, Err (NewError "unused").
Definition toy_end : JsonSyntax := λ _, None.
Definition toy_stream T : JsonStream T := λ _, true.
Definition toy_float : FloatFormat := λ _, "1".
Definition toy_moment : Moment :=
  mkMoment PilotAccess.toy_now (Ok PilotAccess.toy_access_id) (Ok PilotAccess.toy_audit_id) toy_clock.

Definition toy_handler : Handler (Session Database) :=
  mkHandler (@pilot_services ToyPostgres toy_moment) (Sum256 toy_token).

Lemma toy_handler_new :
  NewWithTelemetry (Some (@pilot_services ToyPostgres toy_moment)) toy_token = Ok toy_handler.
Proof. reflexivity. Qed.

Lemma toy_db_consistent : @consistent ToyPostgres toy_db.
Proof. split; [apply audited_empty|apply toy_db_ok]. Qed.

Lemma admin_api_requires_token_witness : 32 <= len toy_token <= 512 ∧
  hr_Status (@ServeHTTP toy_end toy_register_decoder toy_result_decoder
    (toy_stream _) (toy_stream _) toy_float _ toy_handler
    toy_request (mkSession toy_db None [])).1 ≠ StatusUnauthorized.
Proof.
  pose proof (@admin_api_requires_token toy_end toy_register_decoder toy_result_decoder
    (toy_stream _) (toy_stream _) toy_float
    _ _ _ toy_handler toy_request (mkSession toy_db None []) toy_handler_new) as Hw.
  destruct (ServeHTTP _ _ _) as [response s]. destruct Hw as (Hl & _ & Hw).
  split; [exact Hl|]. apply Hw. reflexivity.
Defined.

Definition toy_served : HttpResponse * Database :=
  @serve toy_end toy_register_decoder toy_result_decoder
    (toy_stream _) (toy_stream _) toy_float ToyPostgres toy_token
    toy_moment [] toy_request toy_db.

Lemma toy_served_created : hr_Status toy_served.1 = StatusCreated.
Proof.
  unfold toy_served, serve, ServeHTTP. fold toy_handler.
  rewrite (authorized_token _ _ _ toy_request toy_handler_new) by reflexivity.
  vm_compute. reflexivity.
Qed.

Lemma api_keeps_the_database_witness : @progress ToyPostgres toy_db toy_served.2.
Proof.
  apply (@api_keeps_the_database toy_end toy_register_decoder toy_result_decoder
    (toy_stream _) (toy_stream _) toy_float
    ToyPostgres toy_token toy_db); [exact toy_db_consistent|].
  apply rtc_once. exact (@api_served _ _ _ _ _ _ ToyPostgres toy_token toy_db toy_moment [] toy_request).
Defined.

Lemma responses_are_backed_witness : shows_row toy_request toy_served.2 (hr_Body toy_served.1).
Proof.
  pose proof (@responses_are_backed toy_end toy_register_decoder toy_result_decoder
    (toy_stream _) (toy_stream _) toy_float
    ToyPostgres ToyPostgres_laws toy_token toy_moment [] toy_request toy_db toy_db_consistent) as Hw.
  fold toy_served in Hw. pose proof toy_served_created as Hst. destruct toy_served as [response db'].
  destruct Hw as [Hw _]. apply Hw; [cbn in Hst; rewrite Hst; reflexivity|reflexivity].
Defined.
