(* ===== verification/Api.v ===== *)
(** * The public HTTP API

    [internal/api/handler.go]: health, readiness and the manifest, behind a limit on
    the requests in flight, and the routing of [http.ServeMux] to them and to the
    administration handler.

    Requests run concurrently.  [Server] holds what they share (the state behind
    [issue], the occupancy of the channel [limit]) and the requests in flight; a
    request arrives, runs its handler body, and releases its slot in separate
    steps that interleave with those of the others.  The issuer's own mutex makes a
    call of [issue] one step. *)

From S2P Require Import Prelude GoRegexp GoStrings GoJson GoNet GoOs GoHttp Envelope.

Definition json_Envelope (e : Envelope) : json := JObj
  [("algorithm", JStr (env_Algorithm e)); ("key_id", JStr (env_KeyID e));
   ("payload", JStr (env_Payload e)); ("signature", JStr (env_Signature e))].

(** [IssueFunc] and [ReadinessFunc] on a state [S]. *)
Definition IssueFunc (S : Type) : Type := S → result Envelope * S.
Definition ReadinessFunc (S : Type) : Type := S → option error * S.

(** [ha_limit] is the capacity of the channel [limit]; [ha_admin] the handler of
    [/admin/pilot/], if any. *)
Record Handler (S : Type) := mkHandler {
  ha_issue : IssueFunc S;
  ha_limit : nat;
  ha_checks : list (ReadinessFunc S);
  ha_admin : option (Request → S → HttpResponse * S)
}.
Arguments mkHandler {S} _ _ _ _.
Arguments ha_issue {S} _.
Arguments ha_limit {S} _.
Arguments ha_checks {S} _.
Arguments ha_admin {S} _.

(** [None] in [checks] is a nil function. *)
Definition newHandler {S} (issue : IssueFunc S) (maxInFlight : Z)
    (pilotAdmin : option (Request → S → HttpResponse * S)) (checks : list (option (ReadinessFunc S)))
    : Handler S :=
  let maxInFlight := if maxInFlight <? 1 then 1 else maxInFlight in
  mkHandler issue (Z.to_nat maxInFlight) (omap id checks) pilotAdmin.

(** The constructors that the commands use. *)
Definition New {S} (issue : IssueFunc S) (maxInFlight : Z) : Handler S := newHandler issue maxInFlight None [].
Definition NewWithPilotAdmin {S} (issue : IssueFunc S) (maxInFlight : Z)
    (pilotAdmin : option (Request → S → HttpResponse * S)) : Handler S := newHandler issue maxInFlight pilotAdmin [].
Definition NewWithPilotAdminAndReadiness {S} (issue : IssueFunc S) (maxInFlight : Z)
    (pilotAdmin : option (Request → S → HttpResponse * S)) (checks : list (option (ReadinessFunc S))) : Handler S :=
  newHandler issue maxInFlight pilotAdmin checks.

(** ** Writing responses *)

Definition writeText (extra : list (string * string)) (request : Request) (status : Z) (body : string)
    : HttpResponse :=
  mkHttpResponse status
    (extra ++ [("Content-Type", "text/plain; charset=utf-8"); ("Cache-Control", "no-store")])
    (if bool_decide (rq_Method request = MethodHead) then "" else body).

(** [allowReadMethod]: [None] when the method is allowed, otherwise the response of
    [http.Error]. *)
Definition allowReadMethod (request : Request) : option HttpResponse :=
  if bool_decide (rq_Method request = MethodGet) || bool_decide (rq_Method request = MethodHead) then None
  else Some (mkHttpResponse StatusMethodNotAllowed
    [("Allow", "GET, HEAD"); ("Content-Type", "text/plain; charset=utf-8");
     ("X-Content-Type-Options", "nosniff")] ("method not allowed" +:+ newline)).

Definition security : list (string * string) :=
  [("Content-Security-Policy", "default-src 'none'; frame-ancestors 'none'");
   ("Referrer-Policy", "no-referrer"); ("X-Content-Type-Options", "nosniff")].

(** [securityHeaders]: the fields are set first, and a handler that sets one of them
    again replaces it. *)
Definition securityHeaders (response : HttpResponse) : HttpResponse :=
  mkHttpResponse (hr_Status response)
    (List.filter (λ f, negb (existsb (λ g, bool_decide (f.1 = g.1)) (hr_Header response))) security
       ++ hr_Header response) (hr_Body response).

(** ** The handlers *)

Definition health (request : Request) : HttpResponse :=
  match allowReadMethod request with
  | Some response => response
  | None => writeText [] request StatusOK ("ok" +:+ newline)
  end.

(** [acquire] on a channel that holds [occupied] values. *)
Definition acquire (limit occupied : nat) : option nat :=
  if (occupied <? limit)%nat then Some (S occupied) else None.

Definition busy (request : Request) : HttpResponse :=
  writeText [("Retry-After", "1")] request StatusServiceUnavailable ("busy" +:+ newline).

(** [release]: a receive from the channel. *)
Definition release (occupied : nat) : nat := pred occupied.

(** The readiness checks, up to the first that fails. *)
Fixpoint run_checks {S} (checks : list (ReadinessFunc S)) (s : S) : option error * S :=
  match checks with
  | [] => (None, s)
  | check :: rest =>
      let '(err, s') := check s in
      match err with Some e => (Some e, s') | None => run_checks rest s' end
  end.

(** The bodies of [ready] and [manifest] once a slot is acquired: the response, the
    state, and what [issue] returned. *)
Definition ready {S} (handler : Handler S) (request : Request) (s : S)
    : HttpResponse * S * result Envelope :=
  let '(issued, s1) := ha_issue handler s in
  match issued with
  | Err _ => (writeText [] request StatusServiceUnavailable ("not ready" +:+ newline), s1, issued)
  | Ok _ =>
      let '(err, s2) := run_checks (ha_checks handler) s1 in
      match err with
      | Some _ => (writeText [] request StatusServiceUnavailable ("not ready" +:+ newline), s2, issued)
      | None => (writeText [] request StatusOK ("ready" +:+ newline), s2, issued)
      end
  end.

Definition manifest {S} (handler : Handler S) (request : Request) (s : S)
    : HttpResponse * S * result Envelope :=
  let '(issued, s1) := ha_issue handler s in
  match issued with
  | Err _ => (writeText [] request StatusServiceUnavailable ("manifest unavailable" +:+ newline), s1, issued)
  | Ok envelope =>
      (mkHttpResponse StatusOK [("Content-Type", "application/json"); ("Cache-Control", "no-store")]
         (if bool_decide (rq_Method request = MethodHead) then ""
          else encode_line (Some (json_Envelope envelope))), s1, issued)
  end.

(** ** Routing *)

(** The requests that need a slot. *)
Inductive limited := Ready | Manifest.

#[global] Instance limited_eq_dec : EqDecision limited.
Proof. solve_decision. Defined.

Inductive route := RouteHealth | RouteLimited (l : limited) | RouteAdmin | RouteOther.

(** [cleanPath] leaves a path alone whose segments are not [.] or [..] and of which only
    the last may be empty. *)
Definition clean_segments (l : list string) : bool :=
  forallb (λ s, negb (bool_decide (s = ".")) && negb (bool_decide (s = ".."))) l &&
  forallb (λ s, negb (bool_decide (s = ""))) (removelast l).

(** [pathUnescape]: a segment with an ill-formed escape stands for itself. *)
Definition pathUnescape (segment : string) : string := default segment (unescape encodePath segment).

(** The handler that [ServeMux] finds for a request: the escaped path is matched segment
    by segment, after a check that it is clean, which is left out for CONNECT.
    [RouteOther] is an answer of the multiplexer itself: not found, or a redirect. *)
Definition route_of (admin : bool) (request : Request) : route :=
  match segments (rq_EscapedPath request) with
  | "" :: raw =>
      if clean_segments raw || bool_decide (rq_Method request = "CONNECT") then
        match map pathUnescape raw with
        | ["healthz"] => RouteHealth
        | ["readyz"] => RouteLimited Ready
        | ["v1"; "manifest"] => RouteLimited Manifest
        | "admin" :: "pilot" :: _ :: _ => if admin then RouteAdmin else RouteOther
        | _ => RouteOther
        end
      else RouteOther
  | _ => RouteOther
  end.

(** ** Requests in flight *)

(** A request that holds a slot: before and after its handler body ran. *)
Inductive phase := Acquired | Answered (response : HttpResponse).

Record Flight := mkFlight { fl_route : limited; fl_request : Request; fl_phase : phase }.

(** [sr_issued] lists the envelopes that [issue] returned, [sr_log] the requests with
    their responses. *)
Record Server (S : Type) := mkServer {
  sr_state : S;
  sr_occupied : nat;
  sr_flights : list Flight;
  sr_issued : list Envelope;
  sr_log : list (Request * HttpResponse)
}.
Arguments mkServer {S} _ _ _ _ _.
Arguments sr_state {S} _.
Arguments sr_occupied {S} _.
Arguments sr_flights {S} _.
Arguments sr_issued {S} _.
Arguments sr_log {S} _.

Section server.
Context {S : Type} (handler : Handler S) (mux : Request → HttpResponse).

Definition answered (srv : Server S) (request : Request) (response : HttpResponse) : Server S :=
  mkServer (sr_state srv) (sr_occupied srv) (sr_flights srv) (sr_issued srv)
    (sr_log srv ++ [(request, securityHeaders response)]).

Definition with_shared (srv : Server S) (s : S) : Server S :=
  mkServer s (sr_occupied srv) (sr_flights srv) (sr_issued srv) (sr_log srv).

(** The start of [ready] and [manifest]: the method, then a slot. *)
Definition enter (l : limited) (request : Request) (srv : Server S) : Server S :=
  match allowReadMethod request with
  | Some response => answered srv request response
  | None =>
      match acquire (ha_limit handler) (sr_occupied srv) with
      | None => answered srv request (busy request)
      | Some occupied =>
          mkServer (sr_state srv) occupied (mkFlight l request Acquired :: sr_flights srv)
            (sr_issued srv) (sr_log srv)
      end
  end.

Definition arrive (request : Request) (srv : Server S) : Server S :=
  match route_of (is_Some_b (ha_admin handler)) request with
  | RouteHealth => answered srv request (health request)
  | RouteLimited l => enter l request srv
  | RouteAdmin =>
      match ha_admin handler with
      | Some admin => let '(response, s') := admin request (sr_state srv) in
          answered (with_shared srv s') request response
      | None => answered srv request (mux request)
      end
  | RouteOther => answered srv request (mux request)
  end.

Definition body_of (l : limited) : Request → S → HttpResponse * S * result Envelope :=
  match l with Ready => ready handler | Manifest => manifest handler end.

(** The next step of the [i]-th request in flight: its body, or the deferred release. *)
Definition advance (i : nat) (srv : Server S) : Server S :=
  match sr_flights srv !! i with
  | None => srv
  | Some (mkFlight l request Acquired) =>
      let '(response, s', issued) := body_of l request (sr_state srv) in
      mkServer s' (sr_occupied srv) (<[i := mkFlight l request (Answered response)]> (sr_flights srv))
        (sr_issued srv ++ match issued with Ok e => [e] | Err _ => [] end) (sr_log srv)
  | Some (mkFlight l request (Answered response)) =>
      answered (mkServer (sr_state srv) (release (sr_occupied srv)) (delete i (sr_flights srv))
        (sr_issued srv) (sr_log srv)) request response
  end.

Inductive serves (srv : Server S) : Server S → Prop :=
  | serves_arrive request : serves srv (arrive request srv)
  | serves_advance i : serves srv (advance i srv).

Definition initial (s : S) : Server S := mkServer s 0 [] [] [].

(** ** The invariant *)

(** A response to a manifest request: an envelope that was issued, or no envelope. *)
Definition faithful (issued : list Envelope) (request : Request) (response : HttpResponse) : Prop :=
  hr_Status response = StatusOK →
    (rq_Method request = MethodHead ∧ hr_Body response = "") ∨
    (rq_Method request = MethodGet ∧
     ∃ e, e ∈ issued ∧ hr_Body response = encode_line (Some (json_Envelope e))).

Definition flight_ok (issued : list Envelope) (f : Flight) : Prop :=
  route_of (is_Some_b (ha_admin handler)) (fl_request f) = RouteLimited (fl_route f) ∧
  allowReadMethod (fl_request f) = None ∧
  match fl_phase f with
  | Answered response => fl_route f = Manifest → faithful issued (fl_request f) response
  | Acquired => True
  end.

Record server_ok (srv : Server S) : Prop := {
  so_slots : sr_occupied srv = length (sr_flights srv);
  so_limit : (sr_occupied srv <= ha_limit handler)%nat;
  so_flights f : f ∈ sr_flights srv → flight_ok (sr_issued srv) f;
  so_log request response : (request, response) ∈ sr_log srv →
    route_of (is_Some_b (ha_admin handler)) request = RouteLimited Manifest →
    faithful (sr_issued srv) request response
}.

Lemma faithful_mono issued more request response :
  faithful issued request response → faithful (issued ++ more) request response.
Proof.
  intros Hf Hs. destruct (Hf Hs) as [?|(? & e & He & ?)]; [by left|right]. split; [done|].
  exists e. split; [|done]. apply elem_of_app. by left.
Qed.

Lemma flight_ok_mono issued more f : flight_ok issued f → flight_ok (issued ++ more) f.
Proof.
  intros (Hp & Hm & Hphase). split_and!; [done..|]. destruct (fl_phase f); [done|].
  intros Hr. by apply faithful_mono, Hphase.
Qed.

Lemma answered_ok srv request response :
  server_ok srv →
  (route_of (is_Some_b (ha_admin handler)) request = RouteLimited Manifest →
   faithful (sr_issued srv) request (securityHeaders response)) →
  server_ok (answered srv request response).
Proof.
  intros [Hs Hl Hf Hlog] Hnew. split; [done..|]. cbn. intros r' resp.
  rewrite elem_of_app, list_elem_of_singleton. intros [Hin|[= -> ->]]; eauto.
Qed.

(** A refusal shows no envelope. *)
Lemma faithful_refusal issued request response :
  hr_Status response ≠ StatusOK → faithful issued request response.
Proof. by intros Hne Hs. Qed.

Lemma manifest_faithful request s :
  allowReadMethod request = None →
  let '(response, _, issued) := manifest handler request s in
  faithful (match issued with Ok e => [e] | Err _ => [] end) request response.
Proof.
  intros Hm. unfold manifest. destruct (ha_issue handler s) as [[e|err] s1]; [|by apply faithful_refusal].
  intros _. cbn. unfold allowReadMethod in Hm.
  destruct (bool_decide_reflect (rq_Method request = MethodHead)); [by left|right].
  rewrite orb_false_r in Hm. case_bool_decide; [|done]. split; [done|]. exists e.
  split; [by apply list_elem_of_singleton|done].
Qed.

Lemma enter_ok l request srv : server_ok srv →
  route_of (is_Some_b (ha_admin handler)) request = RouteLimited l →
  server_ok (enter l request srv).
Proof.
  intros Hok Hpath. unfold enter.
  destruct (allowReadMethod request) as [response|] eqn:Hm.
  { apply answered_ok; [done|]. intros _. apply faithful_refusal. unfold allowReadMethod in Hm.
    destruct (_ || _); [done|]. by injection Hm as <-. }
  unfold acquire. destruct (Nat.ltb_spec (sr_occupied srv) (ha_limit handler)) as [Hlt|Hge].
  - destruct Hok as [Hs Hl Hf Hlog]. split; cbn; [by rewrite Hs|lia| |done].
    intros f [->|Hin]%elem_of_cons; [done|by apply Hf].
  - apply answered_ok; [done|]. intros _. by apply faithful_refusal.
Qed.

Lemma arrive_ok request srv : server_ok srv → server_ok (arrive request srv).
Proof.
  intros Hok. unfold arrive. destruct (route_of _ request) as [|l| |] eqn:Hr.
  - apply answered_ok; [done|by rewrite Hr].
  - by apply enter_ok.
  - destruct (ha_admin handler) as [admin|] eqn:Ha; [|by apply answered_ok; rewrite ?Ha, ?Hr].
    destruct (admin request (sr_state srv)) as [response s'].
    apply answered_ok; [by destruct Hok|by rewrite Ha, Hr].
  - apply answered_ok; [done|by rewrite Hr].
Qed.

Lemma advance_ok i srv : server_ok srv → server_ok (advance i srv).
Proof.
  intros Hok. unfold advance. destruct (sr_flights srv !! i) as [[l request ph]|] eqn:Hi; [|done].
  pose proof Hok as [Hs Hl Hf Hlog]. pose proof (Hf _ (list_elem_of_lookup_2 _ _ _ Hi)) as (Hp & Hm & Hph).
  cbn in Hp, Hm, Hph. destruct ph as [|response].
  - destruct (body_of l request (sr_state srv)) as [[response s'] issued] eqn:Hb. split; cbn.
    + by rewrite length_insert.
    + done.
    + intros f [j Hj]%list_elem_of_lookup. apply list_lookup_insert_Some in Hj as [(<- & <- & _)|[_ Hj]].
      * split_and!; [done..|]. cbn. intros ->. cbn in Hb.
        pose proof (manifest_faithful request (sr_state srv) Hm) as Hfa. rewrite Hb in Hfa.
        intros Hst. destruct (Hfa Hst) as [?|(? & e & He & ?)]; [by left|right]. split; [done|].
        exists e. split; [apply elem_of_app; by right|done].
      * apply flight_ok_mono, Hf. by eapply list_elem_of_lookup_2.
    + intros r' resp Hin Hpath. by apply faithful_mono, Hlog.
  - apply answered_ok.
    + pose proof (lookup_lt_Some _ _ _ Hi). split; cbn; unfold release; [| |intros f Hin|done].
      * rewrite length_delete by done. lia.
      * lia.
      * by apply Hf, (list_elem_of_delete_inv _ i).
    + intros Hpath. cbn. destruct l; [by rewrite Hpath in Hp|]. exact (Hph eq_refl).
Qed.

Lemma serves_ok srv srv' : rtc serves srv srv' → server_ok srv → server_ok srv'.
Proof.
  induction 1 as [|x y z Hstep _ IH]; [done|]. intros Hx. apply IH.
  destruct Hstep; [by apply arrive_ok|by apply advance_ok].
Qed.

Lemma initial_ok s : server_ok (initial s).
Proof. split; cbn; [done|lia|set_solver|set_solver]. Qed.

(** ** Draining *)

(** The steps a request in flight still needs. *)
Definition remaining (f : Flight) : nat := match fl_phase f with Acquired => 2 | Answered _ => 1 end.
Definition pending (srv : Server S) : nat := sum_list (remaining <$> sr_flights srv).

Lemma advance_head srv : server_ok srv → sr_flights srv ≠ [] →
  pending (advance 0 srv) = pred (pending srv) ∧ pending srv ≠ O ∧
  (length (sr_log (advance 0 srv)) + length (sr_flights (advance 0 srv)) =
   length (sr_log srv) + length (sr_flights srv))%nat.
Proof.
  intros Hok Hne. unfold advance, pending. destruct (sr_flights srv) as [|[l request ph] fs] eqn:Hf; [done|].
  cbn. destruct ph as [|response].
  - destruct (body_of l request (sr_state srv)) as [[response s'] issued]. cbn. split_and!; [done|done|lia].
  - cbn. rewrite length_app. cbn. split_and!; [done|done|lia].
Qed.

(** Letting the first request in flight run, again and again. *)
Lemma drain n srv : server_ok srv → pending srv = n →
  rtc serves srv (Nat.iter n (advance 0) srv) ∧
  sr_flights (Nat.iter n (advance 0) srv) = [] ∧
  length (sr_log (Nat.iter n (advance 0) srv)) = (length (sr_log srv) + length (sr_flights srv))%nat.
Proof.
  revert srv. induction n as [|n IH]; intros srv Hok Hp.
  - assert (sr_flights srv = []) as Hf.
    { destruct (sr_flights srv) as [|f fs] eqn:E; [done|]. unfold pending in Hp. rewrite E in Hp.
      cbn in Hp. unfold remaining in Hp at 1. by destruct (fl_phase f). }
    cbn. rewrite Hf. split_and!; [done|done|cbn; lia].
  - rewrite Nat.iter_succ_r. assert (sr_flights srv ≠ []) as Hne.
    { intros E. unfold pending in Hp. by rewrite E in Hp. }
    destruct (advance_head srv Hok Hne) as (Hp1 & _ & Hlen).
    destruct (IH (advance 0 srv)) as (Hrtc & Hnil & Hlog); [by apply advance_ok|lia|].
    split_and!; [|done|lia]. eapply rtc_l; [apply serves_advance|done].
Qed.

End server.

(** ** Claims *)

(** C23: requests in flight are bounded and never leak a slot.  In every interleaving
    of arriving and running requests at most [maxInFlight] (at least one) of them
    hold a slot, and the channel holds exactly one value for each of them; a
    readiness or manifest request is turned away as busy, without calling [issue],
    exactly when all slots are taken; and once the requests in flight have run, each
    of them was answered and every slot is free again. *)
Theorem in_flight_is_bounded {S} (issue : IssueFunc S) maxInFlight admin checks mux s srv :
  let handler := newHandler issue maxInFlight admin checks in
  rtc (serves handler mux) (initial s) srv →
  Z.of_nat (length (sr_flights srv)) <= Z.max 1 maxInFlight ∧
  sr_occupied srv = length (sr_flights srv) ∧
  (∀ l request, allowReadMethod request = None →
     route_of (is_Some_b admin) request = RouteLimited l →
     if Z.of_nat (length (sr_flights srv)) <? Z.max 1 maxInFlight
     then sr_flights (arrive handler mux request srv) = mkFlight l request Acquired :: sr_flights srv
     else arrive handler mux request srv = answered srv request (busy request)) ∧
  ∃ srv', rtc (serves handler mux) srv srv' ∧ sr_flights srv' = [] ∧ sr_occupied srv' = O ∧
    length (sr_log srv') = (length (sr_log srv) + length (sr_flights srv))%nat.
Proof.
  intros handler Hrun. pose proof (serves_ok _ _ _ _ Hrun (initial_ok handler s)) as Hok.
  assert (Z.of_nat (ha_limit handler) = Z.max 1 maxInFlight) as Hlim.
  { cbn. destruct (Z.ltb_spec maxInFlight 1); lia. }
  destruct (drain handler mux _ srv Hok eq_refl) as (Hd & Hnil & Hlog).
  pose proof (serves_ok _ _ _ _ Hd Hok) as [Hsd _ _ _]. destruct Hok as [Hs Hl _ _].
  split_and!; [lia|done| |].
  - intros l request Hm Hr. unfold arrive. cbn [ha_admin handler newHandler].
    change (ha_admin handler) with admin. rewrite Hr. unfold enter. rewrite Hm. unfold acquire.
    destruct (Nat.ltb_spec (sr_occupied srv) (ha_limit handler)), (Z.ltb_spec (Z.of_nat (length (sr_flights srv))) (Z.max 1 maxInFlight));
      try lia; done.
  - eexists. split_and!; [exact Hd|done| |done]. by rewrite Hsd, Hnil.
Qed.

(** A manifest response carries an issued envelope.  In every interleaving, a
    response 200 to a GET routed to [/v1/manifest] is the JSON form of an envelope that
    [issue] returned, and one to a HEAD has no body. *)
Theorem manifest_responses_are_issued {S} (issue : IssueFunc S) maxInFlight admin checks mux s srv
    request response :
  rtc (serves (newHandler issue maxInFlight admin checks) mux) (initial s) srv →
  (request, response) ∈ sr_log srv → route_of (is_Some_b admin) request = RouteLimited Manifest →
  faithful (sr_issued srv) request response.
Proof.
  intros Hrun. pose proof (serves_ok _ _ _ _ Hrun (initial_ok _ s)) as [_ _ _ Hlog]. apply Hlog.
Qed.

(** ** Witnesses *)

Definition toy_issue : IssueFunc nat := λ n, (Ok (mkEnvelope "Ed25519" "key" "payload" "signature"), S n).
Definition toy_handler : Handler nat := newHandler toy_issue 1 None [None].
Definition toy_mux (_ : Request) : HttpResponse := mkHttpResponse StatusNotFound [] "".
Definition toy_get : Request := mkRequest "GET" "/v1/manifest" "/v1/manifest" "" "" (mkReader "" None).
Definition toy_busy : Server nat := arrive toy_handler toy_mux toy_get (initial O).
Definition toy_done : Server nat := advance toy_handler O (advance toy_handler O toy_busy).

Lemma toy_busy_run : rtc (serves toy_handler toy_mux) (initial O) toy_busy.
Proof. apply rtc_once, serves_arrive. Qed.

Lemma toy_done_run : rtc (serves toy_handler toy_mux) (initial O) toy_done.
Proof.
  etrans; [exact toy_busy_run|].
  eapply rtc_l; [apply (serves_advance _ _ _ O)|]. apply rtc_once, (serves_advance _ _ _ O).
Qed.

Lemma in_flight_is_bounded_witness :
  arrive toy_handler toy_mux toy_get toy_busy = answered toy_busy toy_get (busy toy_get).
Proof.
  destruct (in_flight_is_bounded toy_issue 1 None [None] toy_mux O toy_busy toy_busy_run)
    as (_ & _ & Hfull & _).
  exact (Hfull Manifest toy_get ltac:(reflexivity) ltac:(reflexivity)).
Defined.

Lemma manifest_responses_are_issued_witness : ∃ response,
  (toy_get, response) ∈ sr_log toy_done ∧ hr_Status response = StatusOK ∧
  faithful (sr_issued toy_done) toy_get response.
Proof.
  eexists. split; [cbn; left|]. split; [reflexivity|].
  apply (manifest_responses_are_issued toy_issue 1 None [None] toy_mux O toy_done toy_get);
    [exact toy_done_run|cbn; left|reflexivity].
Defined.
