(* ===== verification/SigningKey.v ===== *)
(** * Key files

    [internal/signingkey/key.go] and [cmd/manifest-keygen/main.go]: loading private and public Ed25519 keys from files
    and generating a pair of key files, on the file system of [GoOs].  The build is
    the one for Linux.  [GenerateFiles] takes the 32 bytes that the random source
    delivers to [ed25519.GenerateKey]. *)

From S2P Require Import Prelude GoRegexp GoBase64 GoStrings GoJson GoUnicode GoOs Ed25519 KeyPolicy.

Section keys.
Context `{Ed25519}.

(** The switch on the length of the decoded key. *)
Definition private_of (raw : string) : result string :=
  if len raw =? SeedSize then Ok (NewKeyFromSeed raw)
  else if len raw =? PrivateKeySize then
    fail_if (negb (bool_decide (NewKeyFromSeed (Seed raw) = raw)))
      (NewError "signing key public half does not match its seed");;
    Ok raw
  else Err (NewError "signing key has an unexpected number of bytes").

Definition LoadPrivate (path : string) : io string :=
  file ← io_wrap "open signing key" (os_Open path);
  info ← io_wrap "stat signing key" (file_Stat file);
  io_of (fail_if (negb (fi_regular info)) (NewError "signing key must be a regular file"));;
  io_of (fail_if (negb (Z.land (fi_perm info) 63 =? 0))
    (NewError "signing key permissions must not allow group or other access"));;
  encoded ← io_wrap "read signing key" (file_ReadAll file 257);
  io_of (fail_if ((len encoded =? 0) || (len encoded >? 256)) (NewError "signing key size is invalid"));;
  raw ← io_of (match DecodeString RawURLEncoding (TrimSpace encoded) with
               | Some raw => Ok raw | None => Err (NewError "decode signing key") end);
  io_of (private_of raw).

Definition LoadPublic (path : string) : io string :=
  file ← io_wrap "open public key" (os_Open path);
  info ← io_wrap "stat public key" (file_Stat file);
  io_of (fail_if (negb (fi_regular info)) (NewError "public key must be a regular file"));;
  encoded ← io_wrap "read public key" (file_ReadAll file 129);
  io_of (fail_if ((len encoded =? 0) || (len encoded >? 128)) (NewError "public key size is invalid"));;
  io_of (match DecodeString RawURLEncoding (TrimSpace encoded) with
         | Some raw => if len raw =? PublicKeySize then Ok raw
                       else Err (NewError "public key encoding is invalid")
         | None => Err (NewError "public key encoding is invalid") end).

Definition ensureParent (path : string) (mode : Z) : io unit :=
  let parent := filepath_Dir path in
  io_wrap "create key directory" (os_MkdirAll parent mode);;
  info ← io_wrap "stat key directory" (os_Stat parent);
  match info with
  | None => throw (NewError "key parent must be a directory")
  | Some d =>
      io_of (fail_if (negb (Z.land (d_perm d) 18 =? 0))
        (NewError "key directory must not be writable by group or others"))
  end.

(** The deferred removal runs on every error once the file was created. *)
Definition writeExclusive (path contents : string) (mode : Z) : io unit :=
  os_CreateExclusive path mode;;
  on_error (file_Write path contents) (ignore file_Close;; ignore (os_Remove path)) id;;
  on_error (file_Sync path) (ignore file_Close;; ignore (os_Remove path)) id;;
  on_error file_Close (ignore (os_Remove path)) id.

Definition key_text (key : string) : string := EncodeToString RawURLEncoding key +:+ String (byte 10) "".

Definition GenerateFiles (random : result string) (privatePath publicPath : string) : io string :=
  io_of (fail_if (bool_decide (privatePath = "") || bool_decide (publicPath = ""))
    (NewError "private and public output paths are required"));;
  io_of (fail_if (bool_decide (filepath_Clean privatePath = filepath_Clean publicPath))
    (NewError "private and public output paths must differ"));;
  seed ← io_of (wrap "generate Ed25519 key" random);
  let privateKey := NewKeyFromSeed seed in
  let publicKey := Public privateKey in
  ensureParent privatePath 448;;
  ensureParent publicPath 493;;
  io_wrap "write private key" (writeExclusive privatePath (key_text privateKey) 384);;
  on_error (writeExclusive publicPath (key_text publicKey) 420) (ignore (os_Remove privatePath))
    (Wrap "write public key");;
  mret publicKey.

(** [cmd/manifest-keygen]: [main] with the number of positional arguments and the two flags;
    the exit status and the line on the standard output. *)
Definition manifest_keygen (random : result string) (nargs : nat) (privatePath publicPath : string) : io (Z * string) := λ w,
  if negb (Nat.eqb nargs 0) then (Ret (1, ""), w)
  else
    match GenerateFiles random privatePath publicPath w with
    | (Ret publicKey, w') => (Ret (0, "generated manifest key " +:+ KeyID publicKey +:+ String (byte 10) ""), w')
    | (Throw _, w') => (Ret (1, ""), w')
    | (Halt, w') => (Halt, w')
    end.

End keys.

(** ** The text of a key *)

(** A printable character other than the space. *)
Definition graphic (c : ascii) : bool := (32 <? ord c) && (ord c <? 127).

Lemma graphic_rune c s : graphic c = true →
  DecodeRune (String c s) = (ord c, 1%nat) ∧ IsSpace (ord c) = false.
Proof.
  unfold graphic. intros Hc. assert (32 < ord c < 127) as Hr by lia. split.
  - unfold DecodeRune, nth_byte. cbn [String.get]. by destruct (Z.ltb_spec (ord c) 128); [|lia].
  - unfold IsSpace. repeat match goal with |- context [?a <=? ?b] => destruct (Z.leb_spec a b); try lia
      | |- context [?a =? ?b] => destruct (Z.eqb_spec a b); try lia end; done.
Qed.

Lemma TrimLeft_graphic c s : graphic c = true → TrimLeft (String c s) = String c s.
Proof.
  intros Hc. destruct (graphic_rune c s Hc) as [Hd Hs]. unfold TrimLeft. cbn [String.length trim_left].
  by rewrite Hd, Hs.
Qed.

Lemma trim_right_newline fuel s : all_bytes graphic s = true → (String.length s < fuel)%nat →
  trim_right fuel (s +:+ String (byte 10) "") = s.
Proof.
  revert fuel. induction s as [|c s IH]; intros [|fuel] Hall Hf; try (simpl in Hf; lia).
  { by vm_compute. }
  rewrite str_app_cons. simpl in Hall. apply andb_true_iff in Hall as [Hc Hall]. cbn [trim_right].
  rewrite TrimLeft_graphic by done. rewrite bool_decide_false by done.
  destruct (graphic_rune c (s +:+ String (byte 10) "") Hc) as [-> _].
  cbn [str_take str_drop]. rewrite str_app_cons, str_app_nil_l, IH; [done|done|simpl in Hf; lia].
Qed.

Lemma TrimSpace_line s : s ≠ "" → all_bytes graphic s = true → TrimSpace (s +:+ String (byte 10) "") = s.
Proof.
  intros Hne Hall. unfold TrimSpace. destruct s as [|c s]; [done|].
  assert (TrimLeft (String c s +:+ String (byte 10) "") = String c s +:+ String (byte 10) "") as ->.
  { rewrite str_app_cons. apply TrimLeft_graphic. simpl in Hall. by apply andb_true_iff in Hall as [-> _]. }
  apply trim_right_newline; [done|]. rewrite str_length_app. simpl. lia.
Qed.

Lemma EncodeToString_graphic s : all_bytes graphic (EncodeToString RawURLEncoding s) = true.
Proof. apply EncodeToString_chars. by vm_compute. Qed.

Lemma key_text_decodes key : key ≠ "" →
  DecodeString RawURLEncoding (TrimSpace (key_text key)) = Some key.
Proof.
  intros Hne. unfold key_text. rewrite TrimSpace_line.
  - apply DecodeString_EncodeToString; apply _.
  - destruct key as [|a [|b [|c s]]]; done.
  - apply EncodeToString_graphic.
Qed.

(** ** Loading *)

Section loading.
Context `{Ed25519Laws}.

Lemma private_of_valid raw k : private_of raw = Ok k → validEd25519PrivateKey k = true.
Proof.
  unfold private_of, validEd25519PrivateKey. destruct (Z.eqb_spec (len raw) SeedSize) as [Hl|_].
  - intros [= <-]. rewrite (NewKeyFromSeed_len raw) by done. apply andb_true_iff. split; [done|].
    apply bool_decide_eq_true. by rewrite NewKeyFromSeed_seed.
  - destruct (Z.eqb_spec (len raw) PrivateKeySize) as [Hl|]; [|done].
    case_bool_decide as Hk; [|done]. intros [= <-]. rewrite Hl. by apply bool_decide_eq_true.
Qed.

(** What a private key file must be. *)
Definition private_file (f : File) : Prop :=
  f_regular f = true ∧ Z.land (f_perm f) 63 = 0 ∧ 0 < len (f_data f) <= 256.

Lemma LoadPrivate_spec path w :
  wp (LoadPrivate path) (λ k _, validEd25519PrivateKey k = true ∧
    ∃ f, w_files w !! path = Some f ∧ private_file f) (λ _, True) w.
Proof.
  unfold LoadPrivate. apply wp_bind, wp_io_wrap, (wp_syscall _ _ _ _ (λ w', w_files w' = w_files w)); [by intros ? ? ? ? ?|done| |done..].
  intros w1 Hw1. cbn in Hw1. destruct (match w_files w1 !! path with Some _ => _ | None => _ end) as [h|] eqn:Hh; [|done].
  apply wp_bind, wp_io_wrap, (wp_syscall _ _ _ _ (λ _, True)); [done..| |done|done]. intros w2 _. cbn.
  apply wp_bind, wp_io_of; [intros [] Hreg|done].
  destruct (w_files w1 !! path) as [f|] eqn:Hf; [|by destruct (w_dirs w1 !! path); simplify_eq].
  injection Hh as <-. rewrite Hw1 in Hf. apply wp_bind, wp_io_of; [intros [] Hperm|done].
  apply wp_bind, wp_io_wrap, (wp_syscall _ _ _ _ (λ _, True)); [done..| |done|done]. intros w3 _. cbn [fst snd].
  apply wp_bind, wp_io_of; [intros [] Hlen|done]. apply wp_bind, wp_io_of; [intros raw Hraw|done].
  apply wp_io_of; [|done]. intros k Hk%private_of_valid. split; [done|]. exists f. split; [done|].
  apply fail_if_Ok in Hreg, Hperm, Hlen. apply negb_false_iff in Hreg, Hperm.
  apply orb_false_iff in Hlen as [Hl1%Z.eqb_neq Hl2]. rewrite Z.gtb_ltb in Hl2. apply Z.ltb_ge in Hl2.
  unfold private_file, len in *. rewrite str_take_length in Hl1, Hl2. apply Z.eqb_eq in Hperm.
  split_and!; [done|done|lia|lia].
Qed.

(** A key file that is read without failures. *)
Lemma LoadPrivate_reads path w key perm :
  w_outcomes w = [] → len key = PrivateKeySize → NewKeyFromSeed (Seed key) = key → Z.land perm 63 = 0 →
  w_files w !! path = Some (mkFile (key_text key) true true perm) → LoadPrivate path w = (Ret key, w).
Proof.
  intros Ho Hl Hseed Hperm Hf.
  assert (len (key_text key) = 87) as Hlen.
  { unfold key_text. by rewrite len_app, len_EncodeToString, Hl. }
  assert (∀ A (effect : World → result A * World) p, syscall effect p w =
    match effect w with (Ok a, w') => (Ret a, w') | (Err e, w') => (Throw e, w') end) as Hs.
  { intros A effect p. unfold syscall. by rewrite Ho. }
  unfold LoadPrivate, io_wrap, on_error, os_Open, file_Stat, file_ReadAll, mbind, io_bind.
  rewrite Hs, Hf. rewrite Hs. cbn [handle_info fi_regular fi_perm f_regular f_perm f_data negb fail_if io_of].
  rewrite Hperm. cbn [Z.eqb negb fail_if io_of]. rewrite Hs.
  rewrite str_take_all by (unfold len in Hlen; lia). rewrite Hlen. cbn [Z.eqb Z.gtb orb fail_if io_of Z.compare Pos.compare Pos.compare_cont].
  rewrite key_text_decodes by (by intros ->). unfold io_of, private_of. rewrite Hl. cbn.
  by rewrite bool_decide_true.
Qed.

Lemma LoadPublic_reads path w key perm :
  w_outcomes w = [] → len key = PublicKeySize →
  w_files w !! path = Some (mkFile (key_text key) true true perm) → LoadPublic path w = (Ret key, w).
Proof.
  intros Ho Hl Hf.
  assert (len (key_text key) = 44) as Hlen.
  { unfold key_text. by rewrite len_app, len_EncodeToString, Hl. }
  assert (∀ A (effect : World → result A * World) p, syscall effect p w =
    match effect w with (Ok a, w') => (Ret a, w') | (Err e, w') => (Throw e, w') end) as Hs.
  { intros A effect p. unfold syscall. by rewrite Ho. }
  unfold LoadPublic, io_wrap, on_error, os_Open, file_Stat, file_ReadAll, mbind, io_bind.
  rewrite Hs, Hf. rewrite Hs. cbn [handle_info fi_regular fi_perm f_regular f_perm f_data negb fail_if io_of]. rewrite Hs.
  rewrite str_take_all by (unfold len in Hlen; lia). rewrite Hlen. cbn [Z.eqb Z.gtb orb fail_if io_of Z.compare Pos.compare Pos.compare_cont].
  rewrite key_text_decodes by (by intros ->). by rewrite Hl.
Qed.

End loading.

(** ** Writing *)

Section writing.
Context (w0 : World) (path : string).

(** Every file there was is still there, unchanged. *)
Definition kept (w : World) : Prop := w_files w0 ⊆ w_files w.

(** Only the new file differs; [f] is its present content, if any. *)
Definition adds (f : option File) (w : World) : Prop :=
  w_files w0 !! path = None ∧ w_files w = partial_alter (λ _, f) path (w_files w0).

Lemma adds_kept f w : adds f w → kept w.
Proof.
  intros [Hnone Heq]. unfold kept. rewrite Heq. apply map_subseteq_spec. intros p g Hp.
  rewrite lookup_partial_alter_ne; [done|]. congruence.
Qed.

Lemma adds_free f : outcome_free (adds f).
Proof. by intros w x o _ [Hn Heq]. Qed.

Lemma adds_update g f w : adds (Some f) w → adds (Some (g f)) (update_file path g w).
Proof.
  intros [Hn Heq]. split; [done|]. cbn. rewrite Heq. apply map_eq. intros p.
  destruct (decide (p = path)) as [->|Hne].
  - by rewrite lookup_alter_eq, !lookup_partial_alter_eq.
  - by rewrite lookup_alter_ne, !lookup_partial_alter_ne by done.
Qed.

Lemma remove_kept f w : adds f w → wp (os_Remove path) (λ _, kept) kept w.
Proof.
  intros Ha. apply (wp_syscall _ _ _ _ (adds f)); [apply adds_free|done| |by eauto using adds_kept..].
  intros w' Ha'. destruct (w_files w' !! path) eqn:E; [|by eapply adds_kept].
  destruct Ha' as [Hn Heq]. eapply (adds_kept None). split; [done|]. cbn. rewrite Heq.
  apply map_eq. intros p. destruct (decide (p = path)) as [->|Hne].
  - by rewrite !lookup_partial_alter_eq.
  - by rewrite !lookup_partial_alter_ne by done.
Qed.

(** A step of [writeExclusive] after the file was created, with its clean-up. *)
Definition created (w : World) : Prop := ∃ f, adds f w.

Lemma created_free : outcome_free created.
Proof. intros w x o Eo [f Hf]. exists f. by eapply adds_free. Qed.

Lemma created_kept w : created w → kept w.
Proof. intros [f Hf]. by eapply adds_kept. Qed.

Lemma remove_created w : created w → wp (ignore (os_Remove path)) (λ _, kept) kept w.
Proof. intros [f Hf]. by eapply wp_ignore, remove_kept. Qed.

Lemma cleanup_kept (m : io unit) R w :
  wp m R created w → wp (on_error m (ignore file_Close;; ignore (os_Remove path)) id) R kept w.
Proof.
  intros Hm. apply (wp_recover _ _ _ _ created); [done|apply created_kept|].
  intros w' Hw'. apply wp_bind. eapply wp_mono; [apply (wp_ignore _ created)| |apply created_kept].
  - apply file_Close_keeps; [apply created_free|done].
  - intros [] w2 Hw2. by apply remove_created.
Qed.

Lemma file_step (g : File → File) (partial : nat → World → World) f w :
  (∀ w n, adds (Some f) w → created (partial n w)) → adds (Some f) w →
  wp (syscall (λ w, (Ok tt, update_file path g w)) partial) (λ _, adds (Some (g f))) created w.
Proof.
  intros Hp Ha. apply (wp_syscall _ _ _ _ (adds (Some f))); [apply adds_free|done|..].
  - intros w' Hw'. by apply adds_update.
  - intros w' n. apply Hp.
  - intros w' Hw'. by exists (Some f).
Qed.

(** [writeExclusive]: on success the new file is complete and synced and nothing else
    changed; on any failure the files there were are kept. *)
Lemma writeExclusive_spec contents mode :
  wp (writeExclusive path contents mode)
    (λ _, adds (Some (mkFile contents true true mode))) kept w0.
Proof.
  unfold writeExclusive. apply wp_bind.
  eapply wp_mono; [apply (wp_syscall _ _ (λ _, adds (Some (mkFile "" false true mode))) kept
    (λ w, w_files w = w_files w0))| |done].
  - by intros w x o _.
  - done.
  - intros w Hw. cbn in Hw. unfold kept. destruct (decide (is_Some (w_files w !! path))) as [Hs|Hs].
    { rewrite bool_decide_true by done. cbn. by rewrite Hw. }
    rewrite (bool_decide_false (is_Some (w_files w !! path))) by done. cbn.
    repeat case_bool_decide; [by rewrite Hw|split|by rewrite Hw].
    + rewrite <- Hw. by apply eq_None_not_Some.
    + cbn. by rewrite Hw.
  - intros w n Hw. cbn in Hw. unfold kept, no_effect. by rewrite Hw.
  - intros w Hw. cbn in Hw. unfold kept. by rewrite Hw.
  - intros [] w1 Ha. apply wp_bind, cleanup_kept.
    eapply wp_mono; [apply (file_step (append_data contents) _ (mkFile "" false true mode)); [|done]| |done].
    { intros w2 n Hw2. eexists. by apply adds_update. }
    intros [] w2 Ha2. apply wp_bind, cleanup_kept.
    eapply wp_mono; [eapply file_step; [|exact Ha2]| |done].
    { intros w3 n Hw3. by eexists. }
    intros [] w3 Ha3. cbn in Ha3. apply (wp_recover _ _ _ _ created);
      [|apply created_kept|intros w4 ?; by apply remove_created].
    apply (wp_syscall _ _ _ _ (adds (Some (mkFile contents true true mode)))); [apply adds_free|done| | |];
      [done|intros w4 n ?; by eexists|intros w4 ?; by eexists].
Qed.

End writing.

(** Removing a file that was not there at the start. *)
Lemma remove_new w0 path : w_files w0 !! path = None → keeps (kept w0) (os_Remove path).
Proof.
  intros Hn. apply keeps_syscall; [by intros w x o _|intros w Hw|done].
  destruct (w_files w !! path); [|done]. unfold kept in *. cbn. apply map_subseteq_spec. intros p g Hp.
  rewrite lookup_partial_alter_ne by congruence. by eapply lookup_weaken.
Qed.

Section generation.
Context `{Ed25519} (random : result string) (privatePath publicPath : string).

Definition same_w_files (w0 w : World) : Prop := w_files w = w_files w0.

Lemma ensureParent_files w0 path mode : keeps (same_w_files w0) (ensureParent path mode).
Proof.
  assert (outcome_free (same_w_files w0)) as Hfree by (by intros w x o _).
  unfold ensureParent. eapply keeps_bind; [by apply keeps_io_wrap, mkdir_keeps|intros _].
  apply keeps_bind; [by apply keeps_io_wrap, os_Stat_keeps|]. intros [d|]; [apply keeps_io_of|apply keeps_throw].
Qed.

(** The files of a pair. *)
Definition pair_files (seed : string) (files : gmap string File) : gmap string File :=
  let key := NewKeyFromSeed seed in
  <[publicPath := mkFile (key_text (Public key)) true true 420]>
    (<[privatePath := mkFile (key_text key) true true 384]> files).

Lemma GenerateFiles_spec w0 :
  wp (GenerateFiles random privatePath publicPath)
    (λ public w, ∃ seed, random = Ok seed ∧ public = Public (NewKeyFromSeed seed) ∧
       privatePath ≠ publicPath ∧ w_files w0 !! privatePath = None ∧ w_files w0 !! publicPath = None ∧
       w_files w = pair_files seed (w_files w0))
    (kept w0) w0.
Proof.
  assert (kept w0 w0) as H0 by (unfold kept; reflexivity).
  unfold GenerateFiles. apply wp_bind, wp_io_of; [intros [] _|done].
  apply wp_bind, wp_io_of; [intros [] Hclean|done]. apply wp_bind, wp_io_of; [intros seed Hseed|done].
  apply wrap_Ok in Hseed. apply fail_if_Ok, bool_decide_eq_false in Hclean.
  assert (privatePath ≠ publicPath) as Hne by (by intros E; apply Hclean; rewrite E). clear Hclean.
  assert (∀ w, same_w_files w0 w → kept w0 w) as Hsame
    by (unfold kept, same_w_files; intros w ->; reflexivity).
  apply wp_bind. eapply wp_mono; [by apply (ensureParent_files w0)|intros [] w1 Hw1|apply Hsame].
  apply wp_bind. eapply wp_mono; [by apply (ensureParent_files w0)|intros [] w2 Hw2|apply Hsame].
  apply wp_bind, wp_io_wrap. eapply wp_mono; [apply writeExclusive_spec| |unfold kept; by rewrite Hw2].
  intros [] w3 [Hn3 Hw3]. rewrite Hw2 in Hn3, Hw3.
  apply wp_bind, (wp_recover _ _ _ _ (kept w0)); [|done|].
  - eapply wp_mono; [apply writeExclusive_spec| |].
    + intros [] w4 [Hn4 Hw4]. apply wp_ret. exists seed. rewrite Hw3 in Hn4, Hw4.
      rewrite lookup_partial_alter_ne in Hn4 by done. by split_and!.
    + intros w4 Hw4. unfold kept. etrans; [|exact Hw4]. by apply (adds_kept w0 privatePath _ w3 (conj Hn3 Hw3)).
  - intros w4 Hw4. by apply wp_ignore, remove_new.
Qed.

End generation.

(** ** Failures *)

(** At most [n] of the calls to come fail, and the machine does not stop. *)
Definition is_Fault (o : outcome) : bool := match o with Fault _ _ => true | _ => false end.
Definition budget (n : nat) (w : World) : Prop :=
  (Stop ∉ w_outcomes w) ∧ (length (List.filter is_Fault (w_outcomes w)) <= n)%nat.

Definition same_tree (w w' : World) : Prop := w_files w' = w_files w ∧ w_dirs w' = w_dirs w.

Definition after {A} (m : io A) (w : World) (Q : io_result A → World → Prop) : Prop := Q (m w).1 (m w).2.

Lemma after_bind {A B} (m : io A) (f : A → io B) w (Q : io_result B → World → Prop) :
  after m w (λ r w', match r with Ret a => after (f a) w' Q | Throw e => Q (Throw e) w' | Halt => Q Halt w' end) →
  after (m ≫= f) w Q.
Proof. unfold after, mbind, io_bind. by destruct (m w) as [[a|e|] w']. Qed.

Lemma after_on_error {A} (m : io A) cleanup h w (Q : io_result A → World → Prop) :
  after m w (λ r w', match r with
    | Throw e => after cleanup w' (λ r w'', match r with Halt => Q Halt w'' | _ => Q (Throw (h e)) w'' end)
    | r => Q r w' end) →
  after (on_error m cleanup h) w Q.
Proof. unfold after, on_error. destruct (m w) as [[a|e|] w']; [done| |done].
  cbn. by destruct (cleanup w') as [[a|e'|] w''].
Qed.

Lemma after_ignore (m : io unit) w (Q : io_result unit → World → Prop) :
  after m w (λ r w', match r with Halt => Q Halt w' | _ => Q (Ret tt) w' end) → after (ignore m) w Q.
Proof. unfold after, ignore. by destruct (m w) as [[[]|e|] w']. Qed.

Lemma after_mono {A} (m : io A) w (Q Q' : io_result A → World → Prop) :
  after m w Q → (∀ r w', Q r w' → Q' r w') → after m w Q'.
Proof. unfold after. auto. Qed.

Lemma after_syscall {A} (effect : World → result A * World) partial n w (Q : io_result A → World → Prop) :
  budget n w →
  (∀ w1, budget n w1 → same_tree w w1 →
     match effect w1 with (Ok a, w') => Q (Ret a) w' | (Err e, w') => Q (Throw e) w' end) →
  (∀ m w1 k e, n = S m → budget m w1 → same_tree w w1 → Q (Throw e) (partial k w1)) →
  after (syscall effect partial) w Q.
Proof.
  intros [Hs Hn] Hrun Hfail. unfold after, syscall. destruct (w_outcomes w) as [|[|k e|] o] eqn:Ho; cbn in Hn.
  - specialize (Hrun w). destruct (effect w) as [[a|e] w']; (apply Hrun; [|done]); unfold budget; by rewrite Ho.
  - apply not_elem_of_cons in Hs as [_ Hs]. specialize (Hrun (set_outcomes o w)).
    destruct (effect _) as [[a|e] w']; by apply Hrun.
  - apply not_elem_of_cons in Hs as [_ Hs]. destruct n as [|m]; [lia|]. cbn.
    apply (Hfail m); [done| |done]. split; [done|]. cbn. lia.
  - by apply not_elem_of_cons in Hs as [? _].
Qed.

Section budgets.
Context (path : string).

Lemma adds_tree w0 f w w1 : same_tree w w1 → adds w0 path f w → adds w0 path f w1.
Proof. intros [Hf _] [Hn Heq]. split; [done|]. by rewrite Hf. Qed.

(** When no further call fails, the clean-up restores the files. *)
Definition restored (w0 : World) (r : io_result unit) (w : World) : Prop :=
  r = Ret tt ∧ budget 0 w ∧ w_files w = w_files w0.

Lemma remove_restores w0 f w : budget 0 w → adds w0 path f w →
  after (ignore (os_Remove path)) w (restored w0).
Proof.
  intros Hb Ha. apply after_ignore, (after_syscall _ _ 0); [done| |done].
  intros w1 Hb1 Hw1. destruct (adds_tree _ _ _ _ Hw1 Ha) as [Hn Heq]. rewrite Heq, lookup_partial_alter_eq.
  destruct f as [f|]; cbn; (split_and!; [done..|]); cbn; rewrite Heq; apply map_eq; intros p;
    (destruct (decide (p = path)) as [->|]; [by rewrite lookup_partial_alter_eq|]);
    by rewrite !lookup_partial_alter_ne.
Qed.

Lemma close_remove_restores w0 f w : budget 0 w → adds w0 path f w →
  after (ignore file_Close;; ignore (os_Remove path)) w (restored w0).
Proof.
  intros Hb Ha. apply after_bind, after_ignore, (after_syscall _ _ 0); [done| |done].
  intros w1 Hb1 Hw1. cbn. eapply remove_restores; [done|]. by eapply adds_tree.
Qed.

(** The outcome of [writeExclusive] when at most [n <= 1] calls fail. *)
Definition refused (w : World) : Prop :=
  is_Some (w_files w !! path) ∨ is_Some (w_dirs w !! path) ∨ w_dirs w !! filepath_Dir path = None.

Definition written (n : nat) (w : World) (f : File) (r : io_result unit) (w' : World) : Prop :=
  match r with
  | Ret _ => budget n w' ∧ w_dirs w' = w_dirs w ∧ adds w path (Some f) w'
  | Throw _ => w_files w' = w_files w ∧ (budget n w' ∧ refused w ∨ n = 1%nat ∧ budget 0 w')
  | Halt => False
  end.

Lemma step_budget (effect : World → World) partial n w0 f f' w cleanup :
  (n <= 1)%nat →
  (∀ w, adds w0 path (Some f) w → adds w0 path (Some f') (effect w) ∧
     w_outcomes (effect w) = w_outcomes w ∧ w_dirs (effect w) = w_dirs w) →
  (∀ w k, adds w0 path (Some f) w → (∃ h, adds w0 path h (partial k w)) ∧ w_outcomes (partial k w) = w_outcomes w) →
  (∀ w h, budget 0 w → adds w0 path h w → after cleanup w (restored w0)) →
  written n w0 f (Ret tt) w →
  after (on_error (syscall (λ w, (Ok tt, effect w)) partial) cleanup id) w (written n w0 f').
Proof.
  intros Hn He Hp Hc (Hb & Hd & Ha). apply after_on_error, (after_syscall _ _ n); [done|..].
  - intros w1 Hb1 Hw1. destruct (He w1 (adds_tree _ _ _ _ Hw1 Ha)) as (Ha1 & Ho1 & Hd1).
    pose proof Hw1 as [_ Hd2]. split_and!; [unfold budget; by rewrite Ho1|congruence|done].
  - intros m w1 k e -> Hb1 Hw1. assert (m = O) as -> by lia.
    destruct (Hp w1 k (adds_tree _ _ _ _ Hw1 Ha)) as [[h Hh] Ho].
    eapply after_mono; [apply (Hc _ h); [unfold budget; by rewrite Ho|done]|].
    intros r w' (-> & Hb' & Hf). split; [done|]. by right.
Qed.

Lemma after_step {A} (m : io A) (f : A → io unit) n w0 file file' w :
  after m w (λ r w', match r with Ret _ => written n w0 file (Ret tt) w' | Throw e => written n w0 file' (Throw e) w'
    | Halt => False end) →
  (∀ a w', written n w0 file (Ret tt) w' → after (f a) w' (written n w0 file')) →
  after (m ≫= f) w (written n w0 file').
Proof. intros Hm Hf. apply after_bind. eapply after_mono; [exact Hm|]. intros [a|e|] w' Hw'; auto. Qed.

Lemma writeExclusive_budget n w contents mode : (n <= 1)%nat → budget n w →
  after (writeExclusive path contents mode) w (written n w (mkFile contents true true mode)).
Proof.
  intros Hn Hb. unfold writeExclusive.
  apply (after_step _ _ n w (mkFile "" false true mode)).
  { apply (after_syscall _ _ n); [done|..].
    - intros w1 Hb1 [Hf Hd]. destruct (decide (is_Some (w_files w1 !! path))) as [Hs|Hs].
      { rewrite bool_decide_true by done. cbn. rewrite Hf in Hs. split; [done|]. left. split; [done|by left]. }
      rewrite (bool_decide_false (is_Some (w_files w1 !! path))) by done. cbn.
      case_bool_decide as Hdir; [|case_bool_decide as Hpar].
      + split; [done|]. left. split; [done|]. right; left. by rewrite <- Hd.
      + split_and!; [done|done|]. split; [rewrite <- Hf; by apply eq_None_not_Some|cbn; by rewrite Hf].
      + split; [done|]. left. split; [done|]. right; right. rewrite <- Hd. by apply eq_None_not_Some.
    - intros m w1 k e -> Hb1 [Hf Hd]. split; [done|]. right. assert (m = O) as -> by lia. done. }
  intros [] w1 H1. apply (after_step _ _ n w (mkFile contents false true mode)).
  { eapply after_mono; [apply (step_budget (update_file path (append_data contents)) _ n w
      (mkFile "" false true mode) (mkFile contents false true mode))|by intros [[]|e|]]; [done|..].
    - intros w2 Hw2. split; [by apply (adds_update _ _ (append_data contents)) in Hw2|done].
    - intros w2 k Hw2. split; [|done]. eexists. by apply adds_update.
    - intros w2 h. apply close_remove_restores.
    - done. }
  intros [] w2 H2. apply (after_step _ _ n w (mkFile contents true true mode)).
  { eapply after_mono; [apply (step_budget (update_file path settle) no_effect n w
      (mkFile contents false true mode) (mkFile contents true true mode))|by intros [[]|e|]]; [done|..].
    - intros w3 Hw3. split; [by apply (adds_update _ _ settle) in Hw3|done].
    - intros w3 k Hw3. split; [|done]. by eexists.
    - intros w3 h. apply close_remove_restores.
    - done. }
  intros [] w3 H3. apply (step_budget id no_effect n w (mkFile contents true true mode)); [done|..|done].
  - intros w4 Hw4. done.
  - intros w4 k Hw4. split; [|done]. by eexists.
  - intros w4 h. apply remove_restores.
Qed.

End budgets.

Lemma ensureParent_budget n w path mode : budget n w →
  after (ensureParent path mode) w (λ r w', w_files w' = w_files w ∧ match r with
    | Ret _ => budget n w' ∧ is_Some (w_dirs w' !! filepath_Dir path) ∧
        ∀ d, is_Some (w_dirs w' !! d) → is_Some (w_dirs w !! d) ∨ d ∈ parents (filepath_Dir path)
    | Throw _ => True
    | Halt => False
    end).
Proof.
  intros Hb. unfold ensureParent. apply after_bind, after_on_error, (after_syscall _ _ n); [done| |].
  2: { intros m w1 k e -> Hb1 [Hf _]. by destruct (existsb _ _). }
  intros w1 Hb1 [Hf Hd]. assert (∀ w2, budget n w2 → w_files w2 = w_files w →
    (∀ d, is_Some (w_dirs w2 !! d) → is_Some (w_dirs w !! d) ∨ d ∈ parents (filepath_Dir path)) →
    after (info ← io_wrap "stat key directory" (os_Stat (filepath_Dir path));
      match info with
      | None => throw (NewError "key parent must be a directory")
      | Some d => io_of (fail_if (negb (Z.land (d_perm d) 18 =? 0))
          (NewError "key directory must not be writable by group or others"))
      end) w2 (λ r w', w_files w' = w_files w ∧ match r with
        | Ret _ => budget n w' ∧ is_Some (w_dirs w' !! filepath_Dir path) ∧
            ∀ d, is_Some (w_dirs w' !! d) → is_Some (w_dirs w !! d) ∨ d ∈ parents (filepath_Dir path)
        | Throw _ => True
        | Halt => False
        end)) as Hstat.
  { intros w2 Hb2 Hf2 Hd2. apply after_bind, after_on_error, (after_syscall _ _ n); [done| |].
    2: { intros m w3 k e -> Hb3 [Hf3 _]. change (w_files w3 = w_files w ∧ True). by rewrite Hf3. }
    intros w3 Hb3 [Hf3 Hd3]. destruct (w_dirs w3 !! filepath_Dir path) as [d|] eqn:Hdir.
    - unfold after, io_of. cbn. destruct (fail_if _ _) as [[]|e]; cbn; rewrite Hf3; (split; [done|]); [|done].
      split_and!; [done|by eexists|]. by rewrite Hd3.
    - case_bool_decide; change (w_files w3 = w_files w ∧ True); by rewrite Hf3. }
  destruct (existsb _ _); [done|]. apply Hstat; [done|done|]. intros d. rewrite lookup_add_dirs, Hd.
  destruct (decide _) as [Hin%missing_parents|]; [by right|by left].
Qed.

(** The public path is free, and not one of the directories that are created. *)
Definition free_path (w : World) (privatePath publicPath : string) : Prop :=
  w_files w !! publicPath = None ∧ w_dirs w !! publicPath = None ∧
  (publicPath ∉ parents (filepath_Dir privatePath)) ∧ publicPath ∉ parents (filepath_Dir publicPath).

Lemma GenerateFiles_budget `{Ed25519} n w random privatePath publicPath :
  budget n w → n = 0%nat ∨ n = 1%nat ∧ free_path w privatePath publicPath →
  after (GenerateFiles random privatePath publicPath) w
    (λ r w', match r with Ret _ => True | Throw _ => w_files w' = w_files w | Halt => False end).
Proof.
  intros Hb Hn. assert (n <= 1)%nat as Hn1 by lia. unfold GenerateFiles.
  assert (∀ {A B} (r : result A) (f : A → io B) (Q : io_result B → World → Prop),
    (∀ a, r = Ok a → after (f a) w Q) → (∀ e, Q (Throw e) w) → after (io_of r ≫= f) w Q) as Hof.
  { intros A B r f Q Hok Herr. apply after_bind. unfold after at 1, io_of. by destruct r; cbn; [apply Hok|]. }
  apply Hof; [intros [] _|done]. apply Hof; [intros [] Hclean|done]. apply Hof; [intros seed _|done].
  apply fail_if_Ok, bool_decide_eq_false in Hclean.
  assert (publicPath ≠ privatePath) as Hne by (by intros E; apply Hclean; rewrite E). clear Hclean Hof.
  apply after_bind. eapply after_mono; [by apply (ensureParent_budget n)|].
  intros [[]|e|] w1 [Hf1 H1]; [|done|done]. destruct H1 as (Hb1 & _ & Hd1).
  apply after_bind. eapply after_mono; [by apply (ensureParent_budget n)|].
  intros [[]|e|] w2 [Hf2 H2]; [|by rewrite Hf2|done]. destruct H2 as (Hb2 & Hp2 & Hd2). rewrite Hf1 in Hf2.
  apply after_bind, after_on_error. eapply after_mono; [by apply (writeExclusive_budget _ n)|].
  intros [[]|e|] w3 H3; [|destruct H3 as [Hf3 _]; cbn; by rewrite Hf3|done].
  destruct H3 as (Hb3 & Hd3 & Ha3).
  apply after_bind, after_on_error. eapply after_mono; [by apply (writeExclusive_budget _ n)|].
  intros [[]|e|] w4 H4; [done| |done]. destruct H4 as [Hf4 Hb4].
  assert (budget 0 w4) as Hb0.
  { destruct Hb4 as [[Hbn Href]|[_ ?]]; [|done]. destruct Hn as [->|[_ (Hfree & Hdir & Hq1 & Hq2)]]; [done|].
    exfalso. destruct Href as [Hs|[Hs|Hs]].
    - destruct Ha3 as [_ Heq]. rewrite Heq, lookup_partial_alter_ne, Hf2, Hfree in Hs by done. by destruct Hs.
    - rewrite Hd3 in Hs. apply Hd2 in Hs as [Hs|Hs]; [|done]. apply Hd1 in Hs as [Hs|Hs]; [|done].
      rewrite Hdir in Hs. by destruct Hs.
    - rewrite Hd3 in Hs. rewrite Hs in Hp2. by destruct Hp2. }
  eapply after_mono; [apply (remove_restores privatePath w2 (Some (mkFile (key_text (NewKeyFromSeed seed)) true true 384))); [done|]|].
  { destruct Ha3 as [Hn3 Heq]. split; [done|]. by rewrite Hf4. }
  intros r w5 (-> & _ & Hf5). cbn. congruence.
Qed.

(** ** Claims *)

Section claims.
Context `{Ed25519Laws}.

Lemma GenerateFiles_loads_back random privatePath publicPath w public w' :
  (∀ seed, random = Ok seed → len seed = SeedSize) →
  GenerateFiles random privatePath publicPath w = (Ret public, w') →
  ∃ key, validEd25519PrivateKey key = true ∧ Public key = public ∧
    (∀ w2, w_files w2 = w_files w' → w_outcomes w2 = [] →
       LoadPrivate privatePath w2 = (Ret key, w2) ∧ LoadPublic publicPath w2 = (Ret public, w2)) ∧
    (∀ message, ed25519_Verify public message (ed25519_Sign key message) = true) ∧
    w_files w' !! privatePath = Some (mkFile (key_text key) true true 384).
Proof.
  intros Hrandom Hg. pose proof (GenerateFiles_spec random privatePath publicPath w) as Hs. unfold wp in Hs.
  rewrite Hg in Hs. destruct Hs as (seed & Hr & -> & Hne & _ & _ & Hfiles). specialize (Hrandom _ Hr).
  set (key := NewKeyFromSeed seed) in *. assert (len key = PrivateKeySize) as Hlen by (by apply NewKeyFromSeed_len).
  assert (NewKeyFromSeed (Seed key) = key) as Hseed by (unfold key; by rewrite NewKeyFromSeed_seed).
  assert (validEd25519PrivateKey key = true) as Hvalid.
  { unfold validEd25519PrivateKey. rewrite Hlen. by apply bool_decide_eq_true. }
  assert (w_files w' !! privatePath = Some (mkFile (key_text key) true true 384)) as Hpriv.
  { rewrite Hfiles. unfold pair_files. by rewrite lookup_insert_ne, lookup_insert_eq. }
  assert (w_files w' !! publicPath = Some (mkFile (key_text (Public key)) true true 420)) as Hpub.
  { rewrite Hfiles. unfold pair_files. by rewrite lookup_insert_eq. }
  exists key. split_and!; [done..| |by intros m; apply validEd25519PrivateKey_signs|done].
  intros w2 Hf Ho. rewrite <- Hf in Hpriv, Hpub. split.
  - by apply (LoadPrivate_reads _ _ _ 384).
  - eapply LoadPublic_reads; [done| |done]. by apply len_Public.
Qed.

(** C29: generated keys load back.  When [manifest-keygen] succeeds, [LoadPrivate] and
    [LoadPublic] read from the two files a private key and its public half, whose key
    identifier is the one that was printed; the pair signs and verifies; and the private
    file is a synced regular file that only its owner can access. *)
Theorem generated_keys_load_back random nargs privatePath publicPath w line w' :
  (∀ seed, random = Ok seed → len seed = SeedSize) →
  manifest_keygen random nargs privatePath publicPath w = (Ret (0, line), w') →
  ∃ key, validEd25519PrivateKey key = true ∧
    line = "generated manifest key " +:+ KeyID (Public key) +:+ String (byte 10) "" ∧
    (∀ w2, w_files w2 = w_files w' → w_outcomes w2 = [] →
       LoadPrivate privatePath w2 = (Ret key, w2) ∧ LoadPublic publicPath w2 = (Ret (Public key), w2)) ∧
    (∀ message, ed25519_Verify (Public key) message (ed25519_Sign key message) = true) ∧
    w_files w' !! privatePath = Some (mkFile (key_text key) true true 384).
Proof.
  intros Hrandom. unfold manifest_keygen. destruct (Nat.eqb nargs 0); [|done]. cbn [negb].
  destruct (GenerateFiles _ _ _ w) as [[public|e|] w1] eqn:Hg; [|done..].
  intros [= <- <-]. destruct (GenerateFiles_loads_back _ _ _ _ _ _ Hrandom Hg) as (key & Hv & <- & Hrest). eauto.
Qed.

(** Generating keys never overwrites and cleans up after itself.  Whatever call
    fails and wherever the machine stops, every file that existed keeps its contents;
    and when [GenerateFiles] returns an error because a path was taken, or because
    one system call failed (with a free public path), it leaves no file behind. *)
Theorem key_generation_is_exclusive random privatePath publicPath w :
  let '(r, w') := GenerateFiles random privatePath publicPath w in
  (∀ path f, w_files w !! path = Some f → w_files w' !! path = Some f) ∧
  (∀ n e, budget n w → n = 0%nat ∨ n = 1%nat ∧ free_path w privatePath publicPath →
     r = Throw e → w_files w' = w_files w).
Proof.
  pose proof (GenerateFiles_spec random privatePath publicPath w) as Hs.
  pose proof (λ n, GenerateFiles_budget n w random privatePath publicPath) as Hb. unfold wp, after in *.
  destruct (GenerateFiles _ _ _ w) as [r w']. split.
  - assert (w_files w ⊆ w_files w') as Hsub.
    { destruct r; [|done..]. destruct Hs as (seed & _ & _ & Hne & Hn1 & Hn2 & ->). unfold pair_files.
      do 2 (apply insert_subseteq_r; [done|]). done. }
    intros path f Hf. by eapply lookup_weaken.
  - intros n e Hn Hfree ->. exact (Hb n Hn Hfree).
Qed.

(** A loaded private key is usable and was private.  A key that [LoadPrivate]
    returns is 64 bytes long and derived from its own seed, as the issuer requires of
    a signing key, and it came from a regular file of at most 256 bytes without any
    access for group and others. *)
Theorem loaded_private_key_is_valid path w key w' :
  LoadPrivate path w = (Ret key, w') →
  validEd25519PrivateKey key = true ∧ ∃ f, w_files w !! path = Some f ∧ private_file f.
Proof.
  intros Hl. pose proof (LoadPrivate_spec path w) as Hs. unfold wp in Hs. by rewrite Hl in Hs.
Qed.

End claims.

(** ** Witnesses *)

Definition toy_seed : string := "0123456789abcdef0123456789abcdef".
Definition toy_tree : World := mkWorld {["/keys" := mkDir 448 true]} ∅ ∅ ∅ [].
Definition toy_generated : io_result (Z * string) * World :=
  @manifest_keygen ToyEd25519 (Ok toy_seed) 0 "/keys/private" "/keys/public" toy_tree.

Lemma generated_keys_load_back_witness : ∃ key,
  @LoadPrivate ToyEd25519 "/keys/private" toy_generated.2 = (Ret key, toy_generated.2) ∧
  LoadPublic "/keys/public" toy_generated.2 = (Ret (Public key), toy_generated.2).
Proof.
  destruct (@generated_keys_load_back ToyEd25519 ToyEd25519_laws (Ok toy_seed) 0 "/keys/private" "/keys/public"
    toy_tree ("generated manifest key " +:+ KeyID toy_seed +:+ String (byte 10) "") toy_generated.2)
    as (key & _ & _ & Hload & _).
  - intros seed [= <-]. reflexivity.
  - vm_compute. reflexivity.
  - exists key. apply Hload; reflexivity.
Defined.

Lemma loaded_private_key_is_valid_witness : ∃ f,
  w_files toy_generated.2 !! "/keys/private" = Some f ∧ private_file f.
Proof.
  destruct (@loaded_private_key_is_valid ToyEd25519 ToyEd25519_laws "/keys/private" toy_generated.2
    (@NewKeyFromSeed ToyEd25519 toy_seed) toy_generated.2) as [_ Hf]; [vm_compute; reflexivity|exact Hf].
Defined.

(** The private path is free, the public one is taken: nothing is left behind. *)
Definition toy_taken : World :=
  mkWorld {["/keys" := mkDir 448 true]} {["/keys/public" := mkFile "old" true true 420]} ∅ ∅ [].

Lemma key_generation_is_exclusive_witness :
  w_files (@GenerateFiles ToyEd25519 (Ok toy_seed) "/keys/private" "/keys/public" toy_taken).2 =
  w_files toy_taken.
Proof.
  pose proof (@key_generation_is_exclusive ToyEd25519 (Ok toy_seed) "/keys/private"
    "/keys/public" toy_taken) as Hw.
  assert (∃ e, (@GenerateFiles ToyEd25519 (Ok toy_seed) "/keys/private" "/keys/public" toy_taken).1 = Throw e)
    as [e He] by (eexists; vm_compute; reflexivity).
  destruct (GenerateFiles _ _ _ toy_taken) as [r w']. destruct Hw as [_ Hw]. apply (Hw 0%nat e).
  - split; [apply not_elem_of_nil|apply Nat.le_refl].
  - left. reflexivity.
  - exact He.
Defined.
