(* ===== verification/ArtifactLock.v ===== *)
(** * The artifact lock

    [internal/artifactlock]: the lock file that names the artifacts a deployment may
    use, and [Fetch], which downloads one of them, verifies it and publishes it
    without overwriting anything.

    The HTTP exchange is an interface ([Downloader]); the JSON decoder is the
    interface of [GoJson], with its instance in [Wire].  The names of the file system are absolute: a relative path stands for
    its absolute form under the working directory [cwd]. *)

From S2P Require Import Prelude GoRegexp GoBase64 GoSha256 GoStrings GoNet GoJson GoRfc3339 GoOs Identifiers SigningKey.

Definition SchemaVersion : Z := 1.
Definition maxLockBytes : Z := Z.shiftl 1 20.
Definition maxArtifact : Z := Z.shiftl 512 20.
#[global] Opaque maxLockBytes.

Definition namePattern : re := head_tail lower_digit lower_digit_dash 62.
Definition filePattern : re := head_tail alnum (λ c, alnum c || one_of "._-" c) 127.
Definition versionPattern : re := head_tail alnum (λ c, alnum c || one_of "._+-" c) 63.
Definition hexSHA256 : re := times (Class hexadecimal) 64.
Definition hexCommit : re := times (Class hexadecimal) 40.

Record Artifact := mkArtifact {
  ar_Name : string;
  ar_FileName : string;
  ar_Version : string;
  ar_Commit : string;
  ar_Kind : string;
  ar_URL : string;
  ar_SHA256 : string;
  ar_MaxBytes : Z;
  ar_Purpose : string
}.

Record Lock := mkLock {
  lk_SchemaVersion : Z;
  lk_EvidenceCutoff : string;
  lk_Artifacts : list Artifact
}.

#[global] Instance Artifact_eq_dec : EqDecision Artifact.
Proof. solve_decision. Defined.

(** ** Validation *)

(** [time.Parse("2006-01-02", s)] succeeds and formats back to [s]. *)
Definition valid_date (s : string) : bool :=
  let part i n := str_take n (str_drop i s) in
  (len s =? 10) && all_bytes digit (part 0%nat 4%nat +:+ part 5%nat 2%nat +:+ part 8%nat 2%nat) &&
  bool_decide (part 4%nat 1%nat = "-") && bool_decide (part 7%nat 1%nat = "-") &&
  let y := decimal 0 (part 0%nat 4%nat) in
  let m := decimal 0 (part 5%nat 2%nat) in
  let d := decimal 0 (part 8%nat 2%nat) in
  (1 <=? m) && (m <=? 12) && (1 <=? d) && (d <=? days_in m y).

Definition AllowedHost (host : string) : bool :=
  bool_decide (host = "github.com") || bool_decide (host = "codeload.github.com") ||
  bool_decide (host = "release-assets.githubusercontent.com").

Definition approved_url (raw : string) : bool :=
  match ParseRequestURI raw with
  | None => false
  | Some u => bool_decide (url_Scheme u = "https") && negb (url_User u) &&
      bool_decide (url_RawQuery u = "") && bool_decide (url_Fragment u = "") &&
      AllowedHost (url_Hostname u)
  end.

Definition validateArtifact (artifact : Artifact) : result unit :=
  fail_if (negb (MatchString namePattern (ar_Name artifact))) (NewError "name is invalid");;
  fail_if (negb (MatchString filePattern (ar_FileName artifact))) (NewError "file_name is invalid");;
  fail_if (negb (MatchString versionPattern (ar_Version artifact))) (NewError "version is invalid");;
  fail_if (negb (MatchString hexCommit (ar_Commit artifact)))
    (NewError "commit must be a lowercase 40-character SHA");;
  fail_if (negb (bool_decide (ar_Kind artifact = "source")) && negb (bool_decide (ar_Kind artifact = "binary")))
    (NewError "kind must be source or binary");;
  fail_if (negb (approved_url (ar_URL artifact)))
    (NewError "url must be an approved HTTPS GitHub artifact URL without credentials, query, or fragment");;
  fail_if (negb (MatchString hexSHA256 (ar_SHA256 artifact)))
    (NewError "sha256 must be a lowercase 64-character digest");;
  fail_if ((ar_MaxBytes artifact <? 1) || (ar_MaxBytes artifact >? maxArtifact))
    (NewError "max_bytes is out of range");;
  fail_if ((len (ar_Purpose artifact) <? 1) || (len (ar_Purpose artifact) >? 256))
    (NewError "purpose must contain between 1 and 256 characters").

(** The loop of [Validate]. *)
Fixpoint validateArtifacts (names files : gset string) (l : list Artifact) : result unit :=
  match l with
  | [] => Ok tt
  | artifact :: rest =>
      wrap "artifact lock: artifact" (validateArtifact artifact);;
      fail_if (bool_decide (ar_Name artifact ∈ names)) (NewError "artifact lock: duplicate name");;
      fail_if (bool_decide (ar_FileName artifact ∈ files)) (NewError "artifact lock: duplicate file_name");;
      validateArtifacts ({[ar_Name artifact]} ∪ names) ({[ar_FileName artifact]} ∪ files) rest
  end.

Definition Validate (lock : Lock) : result unit :=
  fail_if (negb (lk_SchemaVersion lock =? SchemaVersion))
    (NewError "artifact lock: unsupported schema version");;
  fail_if (negb (valid_date (lk_EvidenceCutoff lock)))
    (NewError "artifact lock: evidence_cutoff must be YYYY-MM-DD");;
  fail_if ((llen (lk_Artifacts lock) =? 0) || (llen (lk_Artifacts lock) >? 32))
    (NewError "artifact lock: artifacts must contain between 1 and 32 entries");;
  validateArtifacts ∅ ∅ (lk_Artifacts lock).

Fixpoint find_artifact (l : list Artifact) (name : string) : option Artifact :=
  match l with
  | [] => None
  | artifact :: rest => if bool_decide (ar_Name artifact = name) then Some artifact else find_artifact rest name
  end.

Definition Find (lock : Lock) (name : string) : result Artifact :=
  match find_artifact (lk_Artifacts lock) name with
  | Some artifact => Ok artifact
  | None => Err (NewError "artifact lock: artifact not found")
  end.

(** ** Loading *)

Section load.
Context `{JsonSyntax} `{JsonDecode Lock}.

(** Decoding one value and [ensureEOF]. *)
Definition decodeLock (data : string) : result Lock :=
  '(lock, rest) ← wrap "artifact lock: decode" (json_Decode data);
  match json_Next rest with
  | None => Ok lock
  | Some (Err e) => Err (Wrap "artifact lock: decode trailing data" e)
  | Some (Ok _) => Err (NewError "artifact lock: contains multiple JSON values")
  end.

Definition Load (path : string) : io Lock :=
  file ← io_wrap "artifact lock: open" (os_Open path);
  data ← io_wrap "artifact lock: read" (file_ReadAll file (maxLockBytes + 1));
  io_of (fail_if ((len data =? 0) || (len data >? maxLockBytes)) (NewError "artifact lock: invalid size"));;
  lock ← io_of (decodeLock data);
  io_of (Validate lock);;
  mret lock.

End load.

(** ** Fetching *)

(** What [Fetch] reads of a response; [dl_URL] is the scheme and the host of the URL of
    the last request, [dl_ContentLength] is -1 when it is unknown. *)
Record Download := mkDownload {
  dl_StatusCode : Z;
  dl_ContentLength : Z;
  dl_URL : string * string;
  dl_Body : Reader
}.

(** [http.NewRequestWithContext] and [client.Do] on a URL. *)
Class Downloader := {
  download_request : string → result unit;
  download_Do : string → result Download
}.

(** [os.Lstat] must report a missing file. *)
Definition must_not_exist (path : string) : io unit := λ w,
  match os_Lstat path w with
  | (Ret _, w') => (Throw (NewError "artifact fetch: destination already exists"), w')
  | (Throw e, w') => if errors_Is e ErrNotExist then (Ret tt, w')
                     else (Throw (Wrap "artifact fetch: inspect destination" e), w')
  | (Halt, w') => (Halt, w')
  end.

Definition publishExclusive (source destination : string) : io unit :=
  on_error (os_Link source destination) (mret tt) (λ e,
    if errors_Is e ErrExist then NewError "artifact fetch: destination already exists"
    else Wrap "artifact fetch: publish verified file" e);;
  on_error (os_Remove source) (ignore (os_Remove destination))
    (Wrap "artifact fetch: remove temporary link").

(** [io.Copy] of at most [MaxBytes+1] bytes of the body to the file; a failing read ends
    it after the bytes that were read. *)
Definition copy_body (temporary : string) (artifact : Artifact) (body : Reader) : io string :=
  let limit := ar_MaxBytes artifact + 1 in
  let data := str_take (Z.to_nat limit) (reader_content body) in
  file_Write temporary data;;
  if len (reader_content body) <? limit then
    match reader_failure body with Some e => throw e | None => mret data end
  else mret data.

Definition checkDownload (artifact : Artifact) (response : Download) : result unit :=
  fail_if (negb (dl_StatusCode response =? 200)) (NewError "artifact fetch: unexpected HTTP status");;
  fail_if (dl_ContentLength response >? ar_MaxBytes artifact)
    (NewError "artifact fetch: declared content length exceeds maximum");;
  fail_if (negb (bool_decide ((dl_URL response).1 = "https")) ||
           negb (AllowedHost (url_splitHostPort (dl_URL response).2).1))
    (NewError "artifact fetch: final response URL is not approved").

Definition verified (artifact : Artifact) (data : string) : bool :=
  (0 <? len data) && (len data <=? ar_MaxBytes artifact) &&
  bool_decide (hex_EncodeToString (Sum256 data) = ar_SHA256 artifact).

Section fetch.
Context `{Downloader} (cwd : string).

(** [filepath.Abs]. *)
Definition filepath_Abs (path : string) : io string :=
  if HasPrefix path "/" then mret (filepath_Clean path)
  else wd ← os_Getwd cwd; mret (filepath_Join wd path).

(** From the response to the published file; every failure closes and removes the
    temporary file. *)
Definition receive (artifact : Artifact) (directory destination : string) (response : Download) : io unit :=
  temporary ← io_wrap "artifact fetch: create temporary file" (os_CreateTemp directory ".artifact-");
  let cleanup := ignore file_Close;; ignore (os_Remove temporary) in
  on_error (file_Chmod temporary 384) cleanup (Wrap "artifact fetch: secure temporary file");;
  data ← on_error (copy_body temporary artifact (dl_Body response)) cleanup (Wrap "artifact fetch: download");
  on_error (io_of (fail_if ((len data =? 0) || (len data >? ar_MaxBytes artifact))
    (NewError "artifact fetch: downloaded size is invalid"))) cleanup id;;
  on_error (io_of (fail_if (negb (bool_decide (hex_EncodeToString (Sum256 data) = ar_SHA256 artifact)))
    (NewError "artifact fetch: SHA-256 mismatch"))) cleanup id;;
  on_error (file_Sync temporary) cleanup (Wrap "artifact fetch: sync temporary file");;
  on_error file_Close cleanup (Wrap "artifact fetch: close temporary file");;
  on_error (publishExclusive temporary destination) cleanup id.

Definition Fetch (client : bool) (artifact : Artifact) (outputDirectory : string) : io string :=
  io_of (validateArtifact artifact);;
  io_of (fail_if (negb client) (NewError "artifact fetch: HTTP client is required"));;
  io_wrap "artifact fetch: create output directory" (os_MkdirAll (absolute cwd outputDirectory) 448);;
  directory ← io_wrap "artifact fetch: resolve output directory" (filepath_Abs outputDirectory);
  let destination := filepath_Join directory (ar_FileName artifact) in
  must_not_exist destination;;
  io_of (wrap "artifact fetch: create request" (download_request (ar_URL artifact)));;
  response ← io_of (wrap "artifact fetch: request" (download_Do (ar_URL artifact)));
  io_of (checkDownload artifact response);;
  receive artifact directory destination response;;
  mret destination.

End fetch.

(** ** Names

    The temporary file and the destination are different names: their last elements
    are. *)

Fixpoint base (s : string) : string :=
  match s with
  | EmptyString => ""
  | String c s' => if bool_decide (c = "/"%char) || negb (slash_free s') then base s' else s
  end.

Lemma base_cons c s : base (String c s) =
  if bool_decide (c = "/"%char) || negb (slash_free s) then base s else String c s.
Proof. done. Qed.

Lemma base_free s : slash_free s = true → base s = s.
Proof.
  destruct s as [|c s]; [done|]. intros [Hc Hs]%slash_free_cons.
  by rewrite base_cons, bool_decide_false, Hs.
Qed.

Lemma base_app s t : slash_free t = true → base (s +:+ String "/" t) = t.
Proof.
  intros Ht. induction s as [|c s IH].
  { rewrite str_app_nil_l, base_cons, bool_decide_true by done. by apply base_free. }
  rewrite str_app_cons, base_cons, slash_free_app.
  change (slash_free (String "/" t)) with false. by rewrite andb_false_r, orb_true_r.
Qed.

Lemma resolve_last rooted out l name : name ≠ "" → name ≠ "." → name ≠ ".." →
  ∃ l', resolve rooted out (l ++ [name]) = l' ++ [name].
Proof.
  intros H1 H2 H3. revert out. induction l as [|x l IH]; intros out; cbn.
  - rewrite !bool_decide_false by done. cbn. by eexists.
  - repeat case_match; eauto.
Qed.

Lemma concat_last l name : slash_free name = true → base (String.concat "/" (l ++ [name])) = name.
Proof.
  intros Hn. destruct l as [|x l] using rev_ind; [cbn; by apply base_free|]. clear IHl.
  assert (∀ l x, String.concat "/" ((l ++ [x]) ++ [name]) =
    String.concat "/" (l ++ [x]) +:+ String "/" name) as Hc.
  { clear. intros l x. induction l as [|y l IH]; [done|]. cbn [app]. cbn [String.concat].
    destruct ((l ++ [x]) ++ [name]) as [|a m] eqn:E; [by destruct l|].
    destruct (l ++ [x]) as [|b k] eqn:E2; [by destruct l|]. rewrite IH.
    rewrite <- !str_app_assoc. done. }
  rewrite Hc. by apply base_app.
Qed.

Lemma base_join d name : slash_free name = true → name ≠ "" → name ≠ "." → name ≠ ".." →
  base (filepath_Join d name) = name.
Proof.
  intros Hf H1 H2 H3. unfold filepath_Join, filepath_Clean.
  change (d +:+ "/" +:+ name) with (d +:+ String "/" name). rewrite segments_app by done.
  destruct (resolve_last (HasPrefix (d +:+ String "/" name) "/") [] (segments d) name) as [l ->]; [done..|].
  assert (base (String.concat "/" (l ++ [name])) = name) as Hb by (by apply concat_last).
  destruct (HasPrefix _ _); [|case_bool_decide as E; [|done]].
  - change ("/" +:+ ?x) with (String "/" x). done.
  - rewrite E in Hb. by rewrite <- Hb in H1.
Qed.

Lemma pretty_N_slash_free (n : N) : slash_free (pretty.pretty n) = true.
Proof. eapply all_bytes_impl, pretty_N_digits. intros c Hc. apply negb_true_iff, bool_decide_eq_false. by intros ->. Qed.

Lemma fresh_string_slash_free {A} (m : gmap string A) s :
  ∃ t, fresh_string s m = s +:+ t ∧ slash_free t = true.
Proof.
  unfold fresh_string. destruct (m !! s) as [a|]; [|exists ""; by autorewrite with gostr].
  generalize 0%N (wf_guard 32 (fresh_string_R_wf s m) 0%N). revert m.
  fix FIX 3. intros m n [?]. simpl. unfold fresh_string_go at 1. simpl.
  destruct (Some_dec (m !! _)) as [[??]|?]; [apply FIX|].
  exists (pretty.pretty n). split; [done|]. apply pretty_N_slash_free.
Qed.

Lemma filePattern_name s : MatchString filePattern s = true →
  slash_free s = true ∧ ∃ c s', s = String c s' ∧ alnum c = true.
Proof.
  intros (c & s' & -> & Hc & Hs & _)%head_tail_spec. split; [|eauto].
  assert (∀ c, alnum c || one_of "._-" c = true → c ≠ "/"%char) as Hne by (by intros d Hd ->).
  apply slash_free_cons. split; [apply Hne; by rewrite Hc|].
  eapply all_bytes_impl; [|exact Hs]. intros d Hd. apply negb_true_iff, bool_decide_eq_false. by apply Hne.
Qed.

Lemma temporary_name {A} (m : gmap string A) d directory name : MatchString filePattern name = true →
  fresh_string (d +:+ "/" +:+ ".artifact-") m ≠ filepath_Join directory name.
Proof.
  intros (Hf & c & s' & -> & Hc)%filePattern_name Heq.
  assert (base (filepath_Join directory (String c s')) = String c s') as Hb.
  { apply base_join; [done|done|..]; by intros [= -> ->]. }
  destruct (fresh_string_slash_free m (d +:+ "/" +:+ ".artifact-")) as (t & Ht & Htf).
  rewrite <- Heq, Ht, !str_app_assoc in Hb. change ("/" +:+ ".artifact-" +:+ t) with (String "/" (".artifact-" +:+ t)) in Hb.
  rewrite base_app in Hb; [by injection Hb as <- _|]. by rewrite slash_free_app, Htf.
Qed.

(** ** Publication *)

Section publication.
Context (artifact : Artifact) (dest temp : string) (w0 : World).
Context (Hne : temp ≠ dest) (Hfresh : w_files w0 !! temp = None).

(** A complete, durable and verified file. *)
Definition good (f : File) : Prop :=
  verified artifact (f_data f) = true ∧ f_synced f = true ∧ f_regular f = true ∧ f_perm f = 384.

(** Nothing that existed is touched, and a new destination is a verified file. *)
Definition safe (w : World) : Prop :=
  kept w0 w ∧ (w_files w0 !! dest = None →
    w_files w !! dest = None ∨ ∃ f, w_files w !! dest = Some f ∧ good f).

(** The temporary file has content [a], the destination content [b]. *)
Definition linked (a b : option File) (w : World) : Prop :=
  w_files w0 !! dest = None ∧ (∀ f, b = Some f → good f) ∧
  w_files w = partial_alter (λ _, a) temp (partial_alter (λ _, b) dest (w_files w0)).

Definition held (w : World) : Prop := (∃ a, adds w0 temp a w) ∨ (∃ a b, linked a b w).

Lemma held_free : outcome_free held.
Proof. by intros w x o _ Hh. Qed.

Lemma held_safe w : held w → safe w.
Proof.
  intros [[a Ha]|(a & b & Hd & Hg & Heq)].
  - split; [by eapply adds_kept|]. intros Hd. left. destruct Ha as [_ ->].
    by rewrite lookup_partial_alter_ne.
  - split.
    + unfold kept. rewrite Heq. apply map_subseteq_spec. intros p f Hp.
      rewrite !lookup_partial_alter_ne; [done|congruence..].
    + intros _. rewrite Heq, lookup_partial_alter_ne, lookup_partial_alter_eq by done.
      destruct b as [f|]; [right; eauto|by left].
Qed.

Lemma alter_twice (m : gmap string File) a b p :
  partial_alter (λ _, a) p (partial_alter (λ _, b) p m) = partial_alter (λ _, a) p m.
Proof.
  apply map_eq. intros q. destruct (decide (q = p)) as [->|].
  - by rewrite !lookup_partial_alter_eq.
  - by rewrite !lookup_partial_alter_ne.
Qed.

Lemma alter_comm (m : gmap string File) a b p q : p ≠ q →
  partial_alter (λ _, a) p (partial_alter (λ _, b) q m) = partial_alter (λ _, b) q (partial_alter (λ _, a) p m).
Proof.
  intros Hpq. apply map_eq. intros r. destruct (decide (r = p)) as [->|]; [|destruct (decide (r = q)) as [->|]].
  - by rewrite lookup_partial_alter_eq, lookup_partial_alter_ne, lookup_partial_alter_eq.
  - by rewrite lookup_partial_alter_ne, !lookup_partial_alter_eq.
  - by rewrite !lookup_partial_alter_ne.
Qed.

Lemma remove_temp_held : keeps held (os_Remove temp).
Proof.
  apply keeps_syscall; [apply held_free| |done]. intros w Hh. destruct (w_files w !! temp); [|done].
  destruct Hh as [[a [Hn Heq]]|(a & b & Hd & Hg & Heq)]; [left|right].
  - exists None. split; [done|]. cbn. by rewrite Heq, alter_twice.
  - exists None, b. split_and!; [done..|]. cbn. by rewrite Heq, alter_twice.
Qed.

Lemma cleanup_held w : held w →
  wp (ignore file_Close;; ignore (os_Remove temp)) (λ _, safe) safe w.
Proof.
  intros Hh. assert (keeps held (ignore file_Close;; ignore (os_Remove temp))) as Hk.
  { apply keeps_bind; [apply keeps_ignore, file_Close_keeps, held_free|intros _].
    apply keeps_ignore, remove_temp_held. }
  eapply wp_mono; [exact (Hk w Hh)|intros [] w'; apply held_safe|apply held_safe].
Qed.

(** A step before the publication, with its clean-up. *)
Lemma guarded_step {A} (m : io A) h R w :
  wp m R held w → wp (on_error m (ignore file_Close;; ignore (os_Remove temp)) h) R safe w.
Proof.
  intros Hm. apply (wp_recover _ _ _ _ held); [done|apply held_safe|apply cleanup_held].
Qed.

Lemma temp_step (g : File → File) (partial : nat → World → World) f w :
  (∀ w n, adds w0 temp (Some f) w → held (partial n w)) → adds w0 temp (Some f) w →
  wp (syscall (λ w, (Ok tt, update_file temp g w)) partial) (λ _, adds w0 temp (Some (g f))) held w.
Proof.
  intros Hp Ha. eapply (wp_syscall _ _ _ _ (adds w0 temp (Some f))); [apply adds_free|done|..].
  - intros w' Hw'. by apply adds_update.
  - intros w' n. apply Hp.
  - intros w' Hw'. left. eauto.
Qed.

(** [publishExclusive] of a good file: on success only the destination was added. *)
Lemma publishExclusive_spec f w : good f → adds w0 temp (Some f) w →
  wp (publishExclusive temp dest) (λ _ w', linked None (Some f) w') held w.
Proof.
  intros Hg Ha. unfold publishExclusive. apply wp_bind.
  eapply wp_mono; [apply (wp_on_error _ _ _ (λ _, linked (Some f) (Some f)) held)| |done].
  - apply (wp_syscall _ _ _ _ (adds w0 temp (Some f))); [apply adds_free|done|..];
      [|intros w' n ?; left; eauto|intros w' ?; left; eauto].
    intros w' Ha'. pose proof Ha' as [_ Heq]. 
    assert (w_files w' !! temp = Some f) as -> by (rewrite Heq; by rewrite lookup_partial_alter_eq).
    destruct (decide (is_Some (w_files w' !! dest))) as [Hs|Hs].
    { rewrite bool_decide_true by done. left. eauto. }
    rewrite (bool_decide_false (is_Some (w_files w' !! dest))) by done. cbn.
    repeat case_bool_decide; [left; by eauto| |left; by eauto].
    apply eq_None_not_Some in Hs. rewrite Heq, lookup_partial_alter_ne in Hs by done.
    split_and!; [done|by intros ? [= <-]|]. cbn. rewrite Heq. by apply alter_comm.
  - intros w' Hh. by apply wp_ret.
  - intros [] w1 Hl. apply (wp_recover _ _ _ _ (linked (Some f) (Some f))); [| |].
    + apply (wp_syscall _ _ _ _ (linked (Some f) (Some f))); [by intros ? ? ? _|done|..]; [|done|done].
      intros w' (Hd & Hgood & Heq). rewrite Heq, lookup_partial_alter_eq. split_and!; [done|done|].
      cbn. by rewrite Heq, alter_twice.
    + intros w' Hw'. right. eauto.
    + intros w' Hw'. apply wp_ignore. apply (wp_syscall _ _ _ _ (linked (Some f) (Some f)));
        [by intros ? ? ? _|done|..]; [|intros; right; eauto|intros; right; eauto].
      intros w2 (Hd & Hgood & Heq). destruct (w_files w2 !! dest) eqn:E; [|right; exists (Some f), (Some f); by split_and!].
      right. exists (Some f), None. split_and!; [done|done|]. cbn. rewrite Heq.
      rewrite alter_comm by done. by rewrite alter_twice.
Qed.

End publication.

Section received.
Context (artifact : Artifact) (directory dest : string) (w0 : World).
Context (Hdest : ∀ (m : gmap string File), fresh_string (directory +:+ "/" +:+ ".artifact-") m ≠ dest).

Lemma receive_spec response :
  wp (receive artifact directory dest response)
    (λ _ w, ∃ f, good artifact f ∧ w_files w0 !! dest = None ∧ w_files w = <[dest := f]> (w_files w0))
    (safe artifact dest w0) w0.
Proof.
  assert (∀ w, w_files w = w_files w0 → safe artifact dest w0 w) as Hsame.
  { intros w Hw. split; [unfold kept; by rewrite Hw|]. rewrite Hw. by left. }
  unfold receive. apply wp_bind, wp_io_wrap.
  set (empty := mkFile "" false true 384).
  eapply wp_mono; [apply (wp_syscall _ _ (λ temp w, temp ≠ dest ∧ adds w0 temp (Some empty) w)
    (safe artifact dest w0) (λ w, w_files w = w_files w0))| |done]; [by intros w x o _|done| |auto|auto|].
  { intros w Hw. case_bool_decide; [|by apply Hsame]. split; [apply Hdest|]. cbn in Hw. split.
    - rewrite <- Hw. apply fresh_string_fresh.
    - cbn. by rewrite Hw. }
  intros temp w1 [Hne Ha1]. pose proof Ha1 as [Hfresh _]. cbn zeta.
  apply wp_bind, guarded_step; [done..|].
  eapply wp_mono; [apply temp_step; [|exact Ha1]| |done].
  { intros w2 n Ha. left. eauto. }
  intros [] w2 Ha2. apply wp_bind, guarded_step; [done..|].
  set (data := str_take (Z.to_nat (ar_MaxBytes artifact + 1)) (reader_content (dl_Body response))).
  eapply wp_mono; [apply (wp_bind _ _ (λ d w, d = data ∧ adds w0 temp (Some (mkFile data false true 384)) w))| |].
  { eapply wp_mono; [apply temp_step; [|exact Ha2]| |done].
    { intros w3 n Ha. left. eexists. by apply adds_update. }
    intros [] w3 Ha3. cbn in Ha3. fold data in Ha3.
    destruct (_ <? _); [destruct (reader_failure _)|]; [left; by eauto|by split..]. }
  2: done.
  intros d w3 [-> Ha3]. apply wp_bind, guarded_step; [done..|].
  apply wp_io_of; [intros [] Hsize|left; by eauto]. apply wp_bind, guarded_step; [done..|].
  apply wp_io_of; [intros [] Hsum|left; by eauto]. apply wp_bind, guarded_step; [done..|].
  eapply wp_mono; [eapply temp_step; [|exact Ha3]| |done].
  { intros w4 n Ha. left. eauto. }
  intros [] w4 Ha4. cbn in Ha4. apply wp_bind, guarded_step; [done..|].
  eapply wp_mono; [apply (wp_syscall _ _ (λ _, adds w0 temp (Some (mkFile data true true 384))) _
    (adds w0 temp (Some (mkFile data true true 384)))); [apply adds_free|done|done|..]| |done];
    [intros w5 n ?; left; by eauto|intros w5 ?; left; by eauto|].
  intros [] w5 Ha5. apply guarded_step; [done..|].
  assert (good artifact (mkFile data true true 384)) as Hgood.
  { split_and!; [|done..]. cbn. unfold verified. apply fail_if_Ok in Hsize, Hsum.
    apply orb_false_iff in Hsize as [Hs1%Z.eqb_neq Hs2]. rewrite Z.gtb_ltb in Hs2. apply Z.ltb_ge in Hs2.
    apply negb_false_iff in Hsum. rewrite Hsum. pose proof (len_nonneg data).
    destruct (Z.ltb_spec 0 (len data)), (Z.leb_spec (len data) (ar_MaxBytes artifact)); (done || lia). }
  eapply wp_mono; [by eapply publishExclusive_spec| |done].
  intros [] w6 (Hd & _ & Heq). eexists. split_and!; [done|done|]. rewrite Heq.
  rewrite alter_comm by done. apply map_eq. intros q. destruct (decide (q = dest)) as [->|].
  - by rewrite lookup_partial_alter_eq, lookup_insert_eq.
  - rewrite lookup_partial_alter_ne, lookup_insert_ne by done. destruct (decide (q = temp)) as [->|].
    + by rewrite lookup_partial_alter_eq, Hfresh.
    + by rewrite lookup_partial_alter_ne.
Qed.

End received.

Definition destination (cwd : string) (artifact : Artifact) (outputDirectory : string) : string :=
  filepath_Join (absolute cwd outputDirectory) (ar_FileName artifact).

Lemma validateArtifact_inv artifact : validateArtifact artifact = Ok tt →
  MatchString filePattern (ar_FileName artifact) = true ∧ MatchString hexSHA256 (ar_SHA256 artifact) = true ∧
  approved_url (ar_URL artifact) = true ∧ 1 <= ar_MaxBytes artifact <= maxArtifact.
Proof.
  unfold validateArtifact. intros Hv. inv_ok. split_and!; done || lia.
Qed.

Lemma filepath_Abs_spec cwd path w (R : string → World → Prop) (E : World → Prop) :
  (∀ w', w_files w' = w_files w → R (absolute cwd path) w') → (∀ w', w_files w' = w_files w → E w') →
  wp (filepath_Abs cwd path) R E w.
Proof.
  intros HR HE. unfold filepath_Abs, absolute in *. destruct (HasPrefix path "/"); [by apply HR|].
  apply wp_bind, (wp_syscall _ _ _ _ (λ w', w_files w' = w_files w)); [by intros ? ? ? _|done|..];
    [intros w' Hw'; by apply HR|intros w' n Hw'; by apply HE|intros w' Hw'; by apply HE].
Qed.

Lemma must_not_exist_keeps P path : outcome_free P → keeps P (must_not_exist path).
Proof.
  intros HP w Hw. assert (wp (os_Lstat path) (λ _, P) P w) as Hl by (by apply keeps_look).
  unfold wp, must_not_exist in *. destruct (os_Lstat path w) as [[a|e|] w']; [done| |done].
  by destruct (errors_Is e ErrNotExist).
Qed.

Lemma Fetch_spec `{Downloader} cwd client artifact outputDirectory w0 :
  let dest := destination cwd artifact outputDirectory in
  wp (Fetch cwd client artifact outputDirectory)
    (λ d w, d = dest ∧ ∃ f, good artifact f ∧ w_files w0 !! dest = None ∧
       w_files w = <[dest := f]> (w_files w0))
    (safe artifact dest w0) w0.
Proof.
  intros dest. assert (∀ w, w_files w = w_files w0 → safe artifact dest w0 w) as Hsame.
  { intros w Hw. split; [unfold kept; by rewrite Hw|]. rewrite Hw. by left. }
  unfold Fetch. apply wp_bind, wp_io_of; [intros [] Hv|by apply Hsame].
  apply validateArtifact_inv in Hv as (Hname & _).
  apply wp_bind, wp_io_of; [intros [] _|by apply Hsame].
  apply wp_bind, wp_io_wrap. eapply wp_mono; [apply (mkdir_keeps _ _ (λ w, w_files w = w_files w0));
    [by intros ? ? ? _|done|done]| |apply Hsame].
  intros [] w1 Hw1. apply wp_bind, wp_io_wrap, filepath_Abs_spec; [|intros w2 Hw2; apply Hsame; congruence].
  intros w2 Hw2. rewrite Hw1 in Hw2. fold (destination cwd artifact outputDirectory). fold dest. cbn zeta.
  apply wp_bind. eapply wp_mono; [apply (must_not_exist_keeps (λ w, w_files w = w_files w0));
    [by intros ? ? ? _|exact Hw2]| |apply Hsame].
  intros [] w3 Hw3. cbn in Hw3. apply wp_bind, wp_io_of; [intros [] _|by apply Hsame].
  apply wp_bind, wp_io_of; [intros response _|by apply Hsame].
  apply wp_bind, wp_io_of; [intros [] _|by apply Hsame].
  apply wp_bind. eapply wp_mono; [apply (receive_spec artifact (absolute cwd outputDirectory) dest w3)| |].
  - intros m. by apply temporary_name.
  - intros [] w4 (f & Hg & Hd & Hw4). rewrite Hw3 in Hd, Hw4. apply wp_ret. split; [done|]. eauto.
  - intros w4 [Hk Hs]. unfold safe, kept in *. by rewrite Hw3 in *.
Qed.

(** ** The lock *)

Lemma validateArtifacts_spec names files l : validateArtifacts names files l = Ok tt →
  Forall (λ a, validateArtifact a = Ok tt) l ∧
  Forall (λ a, (ar_Name a ∉ names) ∧ (ar_FileName a ∉ files)) l ∧
  NoDup (ar_Name <$> l) ∧ NoDup (ar_FileName <$> l).
Proof.
  revert names files. induction l as [|a l IH]; intros names files; cbn.
  { intros _. split_and!; constructor. }
  intros Hv. inv_ok. apply IH in Hv as (Hall & Hnew & Hn & Hf).
  split_and!.
  - by constructor.
  - constructor; [done|]. eapply Forall_impl; [exact Hnew|]. intros b [Hb1 Hb2]. set_solver.
  - constructor; [|done]. intros (b & Hb & Hin)%list_elem_of_fmap.
    eapply Forall_forall in Hnew as [Hb1 _]; [|exact Hin]. set_solver.
  - constructor; [|done]. intros (b & Hb & Hin)%list_elem_of_fmap.
    eapply Forall_forall in Hnew as [_ Hb2]; [|exact Hin]. set_solver.
Qed.

Lemma find_artifact_spec l name a : NoDup (ar_Name <$> l) →
  find_artifact l name = Some a ↔ a ∈ l ∧ ar_Name a = name.
Proof.
  induction l as [|b l IH]; cbn; intros Hnd; [set_solver|]. apply NoDup_cons in Hnd as [Hb Hnd].
  rewrite elem_of_cons. case_bool_decide as Hn.
  - split; [intros [= <-]; auto|]. intros [[->|Hin] Ha]; [done|]. exfalso. apply Hb.
    rewrite Hn, <- Ha. by apply list_elem_of_fmap_2.
  - rewrite (IH Hnd). naive_solver.
Qed.

(** ** Claims *)

(** Only verified artifacts are published, and nothing is overwritten.  Whatever call
    fails and wherever the machine stops, every file that existed keeps its contents,
    and a destination that was free is still free or holds a complete, synced file of
    an allowed size whose SHA-256 is the one of the lock.  When [Fetch] returns a path,
    it is the destination, it was free before, it holds such a file now, and no other
    file changed. *)
Theorem fetched_artifacts_are_verified `{Downloader} cwd client artifact outputDirectory w :
  let dest := destination cwd artifact outputDirectory in
  let '(r, w') := Fetch cwd client artifact outputDirectory w in
  (∀ path f, w_files w !! path = Some f → w_files w' !! path = Some f) ∧
  (w_files w !! dest = None →
     w_files w' !! dest = None ∨ ∃ f, w_files w' !! dest = Some f ∧ good artifact f) ∧
  (∀ path, r = Ret path → path = dest ∧ w_files w !! dest = None ∧
     ∃ f, good artifact f ∧ w_files w' = <[dest := f]> (w_files w)).
Proof.
  intros dest. pose proof (Fetch_spec cwd client artifact outputDirectory w) as Hs. fold dest in Hs.
  cbn zeta in Hs. unfold wp in Hs. destruct (Fetch _ _ _ _ w) as [[d|e|] w'].
  - destruct Hs as (-> & f & Hg & Hd & Hw). split_and!.
    + intros path g Hp. rewrite Hw, lookup_insert_ne; [done|]. congruence.
    + intros _. right. exists f. split; [|done]. by rewrite Hw, lookup_insert_eq.
    + intros path [= <-]. eauto.
  - destruct Hs as [Hk Hs]. split_and!; [|done|done]. intros path f Hf. by eapply lookup_weaken.
  - destruct Hs as [Hk Hs]. split_and!; [|done|done]. intros path f Hf. by eapply lookup_weaken.
Qed.

(** A valid lock names its artifacts uniquely.  In a lock that [Validate] accepts,
    [Find] returns exactly the artifact of the given name, every artifact has an
    approved HTTPS URL, a SHA-256 in lower case and a size limit, and no two of them
    share a name or a file name. *)
Theorem locked_artifacts_are_unique lock :
  Validate lock = Ok tt →
  (∀ name a, Find lock name = Ok a ↔ a ∈ lk_Artifacts lock ∧ ar_Name a = name) ∧
  (∀ a, a ∈ lk_Artifacts lock → approved_url (ar_URL a) = true ∧
     MatchString hexSHA256 (ar_SHA256 a) = true ∧ 1 <= ar_MaxBytes a <= maxArtifact) ∧
  (∀ a b, a ∈ lk_Artifacts lock → b ∈ lk_Artifacts lock →
     ar_Name a = ar_Name b ∨ ar_FileName a = ar_FileName b → a = b).
Proof.
  unfold Validate. intros Hv. inv_ok. apply validateArtifacts_spec in Hv as (Hall & _ & Hn & Hf). split_and!.
  - intros name a. rewrite <- find_artifact_spec by done. unfold Find.
    destruct (find_artifact _ _); split; congruence.
  - intros a Ha. eapply Forall_forall in Hall; [|exact Ha].
    apply validateArtifact_inv in Hall as (_ & Hs & Hu & Hm). done.
  - intros a b Ha Hb [Heq|Heq].
    + by eapply (NoDup_fmap_eq ar_Name).
    + by eapply (NoDup_fmap_eq ar_FileName).
Qed.

(** ** Witnesses *)

Definition toy_artifact : Artifact :=
  mkArtifact "xray" "xray.zip" "1.0" "0123456789abcdef0123456789abcdef01234567" "binary"
    "https://github.com/x/y.zip"
    "ba7816bf8f01cfea414140de5dae2223b00361a396177a9cb410ff61f20015ad" 16 "transport".
Definition toy_downloader : Downloader :=
  {| download_request _ := Ok tt;
     download_Do _ := Ok (mkDownload 200 3 ("https", "github.com:443") (mkReader "abc" None)) |}.
Definition toy_disk : World := mkWorld {["/out" := mkDir 448 true]} ∅ ∅ ∅ [].
Definition toy_fetch : io_result string * World :=
  @Fetch toy_downloader "/home" true toy_artifact "/out" toy_disk.

Lemma fetched_artifacts_are_verified_witness : ∃ f, good toy_artifact f ∧
  w_files toy_fetch.2 !! "/out/xray.zip" = Some f.
Proof.
  pose proof (@fetched_artifacts_are_verified toy_downloader "/home" true toy_artifact "/out" toy_disk) as Hw.
  assert (toy_fetch.1 = Ret "/out/xray.zip") as Hr by (vm_compute; reflexivity).
  unfold toy_fetch in *. destruct (Fetch _ _ _ _ _) as [r w']. destruct Hw as (_ & _ & Hw).
  destruct (Hw _ Hr) as (_ & _ & f & Hg & Hf). exists f. split; [exact Hg|]. cbn [snd]. rewrite Hf. reflexivity.
Defined.

Definition toy_lock : Lock := mkLock 1 "2024-02-29" [toy_artifact].

Lemma locked_artifacts_are_unique_witness : Find toy_lock "xray" = Ok toy_artifact.
Proof.
  destruct (locked_artifacts_are_unique toy_lock) as (Hf & _ & _); [vm_compute; reflexivity|].
  apply Hf. split; [left|reflexivity].
Defined.
