(* ===== verification/PilotMetrics.v ===== *)
(** * The metrics endpoint of a node

    [internal/pilotmetrics/handler.go]: health and resource observations of a node in
    the Prometheus text format.  The decimal form of a [float64]
    ([strconv.FormatFloat] with format [f]) is a parameter.

    The specification is a reader of the format: what a scraper reads is exactly the
    list of samples, whatever bytes the node puts into its names. *)

From stdpp Require Import pretty.
From Stdlib Require Import SpecFloat.
From S2P Require Import Prelude GoRegexp GoStrings GoJson GoUnicode GoHttp VpnNode.

Definition defaultObservationTimeout : duration := 3 * Second.

(** [strconv.FormatFloat(f, 'f', -1, 64)]. *)
Class DecimalFloat := format_decimal : float64 → string.

Definition decimal_char (c : ascii) : bool := alnum c || one_of "+-." c.

(** Digits, a sign and a point, or the name of a special value. *)
Class DecimalFloatLaws `{DecimalFloat} : Prop :=
  format_decimal_chars f : all_bytes decimal_char (format_decimal f) = true.

Record Handler := mkHandler { ha_node : Node; ha_timeout : duration }.

(** [New]; [None] is a nil node. *)
Definition New (node : option Node) (timeout : duration) : result Handler :=
  match node with
  | None => Err (NewError "pilot metrics: node is required")
  | Some node =>
      ValidateID (node_ID node);;
      let timeout := if timeout =? 0 then defaultObservationTimeout else timeout in
      fail_if ((timeout <? 100 * Millisecond) || (timeout >? 10 * Second))
        (NewError "pilot metrics: timeout must be between 100ms and 10s");;
      Ok (mkHandler node timeout)
  end.

(** ** Labels *)

(** [strings.Map] with the function of [escapeLabel]: control characters other than the
    line feed become spaces, an invalid byte becomes U+FFFD. *)
Definition replacement_bytes : string := String (byte 239) (String (byte 191) (String (byte 189) "")).
Definition map_rune (r : Z * string) : string :=
  if IsControl r.1 && negb (r.1 =? 10) then " "
  else if valid_rune r then r.2 else replacement_bytes.
Definition sanitized (value : string) : string := foldr (λ r s, map_rune r +:+ s) "" (runes value).

(** [strings.ReplaceAll] of a one-byte string. *)
Fixpoint ReplaceByte (s : string) (old : ascii) (new : string) : string :=
  match s with
  | EmptyString => ""
  | String c s' => (if bool_decide (c = old) then new else String c "") +:+ ReplaceByte s' old new
  end.

Definition line_feed : ascii := byte 10.

Definition escapeLabel (value : string) : string :=
  let value := sanitized value in
  let value := ReplaceByte value backslash (String backslash (String backslash "")) in
  let value := ReplaceByte value line_feed (String backslash "n") in
  ReplaceByte value quote (String backslash (String quote "")).

Definition label (name value : string) : string :=
  name +:+ "=" +:+ String quote (escapeLabel value +:+ String quote "").

(** ** The text *)

Definition sample (name labels value : string) : string := name +:+ "{" +:+ labels +:+ "} " +:+ value.

Definition writeHelpType (name help metricType : string) : list string :=
  ["# HELP " +:+ name +:+ " " +:+ help; "# TYPE " +:+ name +:+ " " +:+ metricType].

Definition flag (b : bool) : string := if b then "1" else "0".

Definition node_labels (node : Node) : string :=
  label "node_id" (node_ID node) +:+ "," +:+ label "provider" (node_Provider node).

(** An observation that was made and is valid. *)
Definition valid_health (node : Node) : option Health :=
  match node_Health node with Ok h => if is_Ok (ValidateHealth h) then Some h else None | Err _ => None end.
Definition valid_metrics (node : Node) : option Metrics :=
  match node_Metrics node with Ok m => if is_Ok (ValidateMetrics m) then Some m else None | Err _ => None end.

Section collect.
Context `{DecimalFloat}.

Definition health_lines (node : Node) : list string :=
  let labels := node_labels node in
  writeHelpType "vchs_node_up" "Whether the node process and transports are observable." "gauge" ++
  writeHelpType "vchs_transport_up" "Whether an individual VPN transport is healthy." "gauge" ++
  match valid_health node with
  | None => [sample "vchs_node_up" labels "0"]
  | Some health =>
      sample "vchs_node_up" labels (flag (negb (bool_decide (he_State health = StateDown)))) ::
      map (λ t, sample "vchs_transport_up" (labels +:+ "," +:+ label "transport" (th_Transport t))
                  (flag (th_Up t))) (he_Transports health)
  end.

Definition metric_lines (labels : string) (metrics : Metrics) : list string :=
  writeHelpType "vchs_node_cpu_percent" "Current node CPU utilization percentage." "gauge" ++
  [sample "vchs_node_cpu_percent" labels (format_decimal (me_CPUPercent metrics))] ++
  writeHelpType "vchs_node_memory_total_bytes" "Total node memory in bytes." "gauge" ++
  [sample "vchs_node_memory_total_bytes" labels (pretty (me_MemoryTotalBytes metrics))] ++
  writeHelpType "vchs_node_memory_used_bytes" "Used node memory in bytes." "gauge" ++
  [sample "vchs_node_memory_used_bytes" labels (pretty (me_MemoryUsedBytes metrics))] ++
  writeHelpType "vchs_node_network_rx_bytes_total" "Node received network bytes." "counter" ++
  [sample "vchs_node_network_rx_bytes_total" labels (pretty (me_NetworkRXBytes metrics))] ++
  writeHelpType "vchs_node_network_tx_bytes_total" "Node transmitted network bytes." "counter" ++
  [sample "vchs_node_network_tx_bytes_total" labels (pretty (me_NetworkTXBytes metrics))] ++
  match me_ActiveConnectionCount metrics with
  | None => []
  | Some count =>
      writeHelpType "vchs_node_active_connections" "Safely observable active VPN connection count." "gauge" ++
      [sample "vchs_node_active_connections" labels (pretty count)]
  end ++
  if bool_decide (me_ConfigRevision metrics = "") then []
  else
    writeHelpType "vchs_node_config_revision_info" "Current sanitized node configuration revision." "gauge" ++
    [sample "vchs_node_config_revision_info"
       (labels +:+ "," +:+ label "revision" (me_ConfigRevision metrics)) "1"].

Definition collect_lines (node : Node) : list string :=
  health_lines node ++
  writeHelpType "vchs_node_metrics_scrape_success" "Whether health and resource observations were valid." "gauge" ++
  [sample "vchs_node_metrics_scrape_success" (node_labels node)
     (flag (is_Some_b (valid_health node) && is_Some_b (valid_metrics node)))] ++
  match valid_metrics node with Some metrics => metric_lines (node_labels node) metrics | None => [] end.

(** Every line is printed with its line feed. *)
Definition unlines (lines : list string) : string := foldr (λ line s, line +:+ String line_feed s) "" lines.

Definition collect (node : Node) : string := unlines (collect_lines node).

Definition ServeHTTP (handler : Handler) (request : Request) : HttpResponse :=
  if negb (bool_decide (rq_Method request = MethodGet)) && negb (bool_decide (rq_Method request = MethodHead))
  then mkHttpResponse StatusMethodNotAllowed
    [("Allow", "GET, HEAD"); ("Content-Type", "text/plain; charset=utf-8");
     ("X-Content-Type-Options", "nosniff")] ("method not allowed" +:+ newline)
  else mkHttpResponse StatusOK
    [("Cache-Control", "no-store"); ("Content-Type", "text/plain; version=0.0.4; charset=utf-8")]
    (if bool_decide (rq_Method request = MethodGet) then collect (ha_node handler) else "").

End collect.

(** ** A reader of the format *)

(** A label value up to its closing quote, and the rest. *)
Fixpoint read_value (s : string) : option (string * string) :=
  match s with
  | EmptyString => None
  | String c s' =>
      if bool_decide (c = quote) then Some ("", s')
      else if bool_decide (c = backslash) then
        match s' with
        | EmptyString => None
        | String d s'' =>
            '(v, rest) ← read_value s'';
            Some (String (if bool_decide (d = "n"%char) then line_feed else d) v, rest)
        end
      else '(v, rest) ← read_value s'; Some (String c v, rest)
  end.

(** Labels separated by commas up to the closing brace. *)
Fixpoint read_labels (fuel : nat) (s : string) : option (list (string * string) * string) :=
  match fuel with
  | O => None
  | S fuel =>
      match Cut s "="%char with
      | (name, String q s', true) =>
          if bool_decide (q = quote) then
            '(v, rest) ← read_value s';
            match rest with
            | String c rest' =>
                if bool_decide (c = "}"%char) then Some ([(name, v)], rest')
                else if bool_decide (c = ","%char) then
                  '(l, rest'') ← read_labels fuel rest'; Some ((name, v) :: l, rest'')
                else None
            | EmptyString => None
            end
          else None
      | _ => None
      end
  end.

Record Sample := mkSample { sa_name : string; sa_labels : list (string * string); sa_value : string }.

Definition read_sample (line : string) : option Sample :=
  match Cut line "{"%char with
  | (name, s, true) =>
      '(labels, rest) ← read_labels (String.length s) s;
      match rest with
      | String c value => if bool_decide (c = " "%char) then Some (mkSample name labels value) else None
      | EmptyString => None
      end
  | _ => None
  end.

(** The complete lines of a text. *)
Fixpoint split_lines (s : string) : list string :=
  match s with
  | EmptyString => []
  | String c s' =>
      if bool_decide (c = line_feed) then "" :: split_lines s'
      else match split_lines s' with
           | line :: lines => String c line :: lines
           | [] => []
           end
  end.

Definition read_body (s : string) : list (option Sample) :=
  map read_sample (List.filter (λ line, negb (HasPrefix line "#")) (split_lines s)).

(** ** What a scraper should read *)

Definition node_label_list (node : Node) : list (string * string) :=
  [("node_id", sanitized (node_ID node)); ("provider", sanitized (node_Provider node))].

Section samples.
Context `{DecimalFloat}.

Definition health_samples (node : Node) : list Sample :=
  let labels := node_label_list node in
  match valid_health node with
  | None => [mkSample "vchs_node_up" labels "0"]
  | Some health =>
      mkSample "vchs_node_up" labels (flag (negb (bool_decide (he_State health = StateDown)))) ::
      map (λ t, mkSample "vchs_transport_up" (labels ++ [("transport", sanitized (th_Transport t))])
                  (flag (th_Up t))) (he_Transports health)
  end.

Definition metric_samples (labels : list (string * string)) (metrics : Metrics) : list Sample :=
  [mkSample "vchs_node_cpu_percent" labels (format_decimal (me_CPUPercent metrics));
   mkSample "vchs_node_memory_total_bytes" labels (pretty (me_MemoryTotalBytes metrics));
   mkSample "vchs_node_memory_used_bytes" labels (pretty (me_MemoryUsedBytes metrics));
   mkSample "vchs_node_network_rx_bytes_total" labels (pretty (me_NetworkRXBytes metrics));
   mkSample "vchs_node_network_tx_bytes_total" labels (pretty (me_NetworkTXBytes metrics))] ++
  match me_ActiveConnectionCount metrics with
  | None => []
  | Some count => [mkSample "vchs_node_active_connections" labels (pretty count)]
  end ++
  if bool_decide (me_ConfigRevision metrics = "") then []
  else [mkSample "vchs_node_config_revision_info"
          (labels ++ [("revision", sanitized (me_ConfigRevision metrics))]) "1"].

Definition samples (node : Node) : list Sample :=
  health_samples node ++
  [mkSample "vchs_node_metrics_scrape_success" (node_label_list node)
     (flag (is_Some_b (valid_health node) && is_Some_b (valid_metrics node)))] ++
  match valid_metrics node with Some metrics => metric_samples (node_label_list node) metrics | None => [] end.

End samples.

(** ** Escaping *)

Definition lf_free (s : string) : bool := all_bytes (λ c, negb (bool_decide (c = line_feed))) s.

Lemma ReplaceByte_app s t old new :
  ReplaceByte (s +:+ t) old new = ReplaceByte s old new +:+ ReplaceByte t old new.
Proof.
  induction s as [|c s IH]; [done|]. rewrite str_app_cons. cbn [ReplaceByte]. by rewrite IH, str_app_assoc.
Qed.

(** The three replacements as one pass. *)
Definition escape_byte (c : ascii) : string :=
  if bool_decide (c = backslash) then String backslash (String backslash "")
  else if bool_decide (c = line_feed) then String backslash "n"
  else if bool_decide (c = quote) then String backslash (String quote "")
  else String c "".

Definition escaped (s : string) : string :=
  ReplaceByte (ReplaceByte (ReplaceByte s backslash (String backslash (String backslash "")))
    line_feed (String backslash "n")) quote (String backslash (String quote "")).

Lemma escaped_cons c s : escaped (String c s) = escape_byte c +:+ escaped s.
Proof.
  unfold escaped. cbn [ReplaceByte]. rewrite !ReplaceByte_app. f_equal. unfold escape_byte.
  case_bool_decide as H1; [by subst|]. cbn [ReplaceByte]. case_bool_decide as H2; [by subst|].
  autorewrite with gostr. cbn [ReplaceByte]. case_bool_decide; by autorewrite with gostr.
Qed.

Lemma read_value_escaped s rest : read_value (escaped s +:+ String quote rest) = Some (s, rest).
Proof.
  induction s as [|c s IH]; [by vm_compute|]. rewrite escaped_cons, str_app_assoc. revert IH.
  generalize (escaped s +:+ String quote rest). intros text IH. unfold escape_byte.
  case_bool_decide as H1; [subst; rewrite !str_app_cons, str_app_nil_l; cbn; by rewrite IH|].
  case_bool_decide as H2; [subst; rewrite !str_app_cons, str_app_nil_l; cbn; by rewrite IH|].
  case_bool_decide as H3; [subst; rewrite !str_app_cons, str_app_nil_l; cbn; by rewrite IH|].
  rewrite str_app_cons, str_app_nil_l. cbn [read_value].
  rewrite (bool_decide_false (c = quote)), (bool_decide_false (c = backslash)), IH by done. done.
Qed.

Lemma escaped_lf_free s : lf_free (escaped s) = true.
Proof.
  induction s as [|c s IH]; [done|]. rewrite escaped_cons. unfold lf_free in *. rewrite all_bytes_app, IH, andb_true_r.
  unfold escape_byte. case_bool_decide; [done|]. case_bool_decide as H2; [done|].
  case_bool_decide; [done|]. cbn. by rewrite (bool_decide_false (c = line_feed)).
Qed.

(** ** Reading labels and samples *)

Definition without (sep : ascii) (s : string) : bool := all_bytes (λ c, negb (bool_decide (c = sep))) s.

Lemma Cut_here sep b a : without sep b = true → Cut (b +:+ String sep a) sep = (b, a, true).
Proof.
  induction b as [|c b IH]; [intros _; rewrite str_app_nil_l; cbn; by rewrite bool_decide_true|].
  intros [Hc Hb]%andb_true_iff. rewrite str_app_cons. cbn. apply negb_true_iff in Hc. rewrite Hc.
  fold (without sep b) in Hb. by rewrite (IH Hb).
Qed.

Definition printed_labels (l : list (string * string)) : string := join "," (map (λ p, label p.1 p.2) l).
Definition sanitized_labels (l : list (string * string)) : list (string * string) :=
  map (λ p, (p.1, sanitized p.2)) l.
Definition names_ok (l : list (string * string)) : Prop :=
  Forall (λ p, without "=" p.1 && lf_free p.1 = true) l.

Lemma label_app name value rest :
  label name value +:+ rest = name +:+ String "=" (String quote (escaped (sanitized value) +:+ String quote rest)).
Proof.
  unfold label, escapeLabel. fold (escaped (sanitized value)). rewrite !str_app_assoc. f_equal.
  rewrite !str_app_cons, str_app_nil_l. do 2 f_equal. rewrite !str_app_assoc.
  by rewrite str_app_cons, str_app_nil_l.
Qed.

Lemma read_labels_print l fuel rest : l ≠ [] → names_ok l → (length l <= fuel)%nat →
  read_labels fuel (printed_labels l +:+ String "}" rest) = Some (sanitized_labels l, rest).
Proof.
  intros Hne Hok. revert fuel Hne. induction Hok as [|[name value] l Hn Hok IH]; intros fuel Hne Hf; [done|].
  apply andb_true_iff in Hn as [Hn _]. destruct fuel as [|fuel]; [simpl in Hf; lia|]. cbn in Hn.
  destruct l as [|p l].
  - cbn [printed_labels map join]. unfold printed_labels. cbn [map join]. rewrite label_app. cbn [read_labels fst snd].
    rewrite Cut_here by done. rewrite bool_decide_true by done. rewrite read_value_escaped. done.
  - unfold printed_labels in *. cbn [map join] in *. rewrite str_app_assoc, label_app. cbn [read_labels fst snd].
    rewrite Cut_here by done. rewrite bool_decide_true by done. rewrite read_value_escaped.
    rewrite str_app_assoc. change ("," +:+ ?x) with (String "," x). cbn [mbind option_bind].
    rewrite (bool_decide_false (","%char = "}"%char)), bool_decide_true by done.
    rewrite IH; [done|done|simpl in *; lia].
Qed.

Lemma label_length name value : (1 <= String.length (label name value))%nat.
Proof. unfold label. rewrite !str_length_app. simpl. lia. Qed.

Lemma printed_labels_length l : (length l <= String.length (printed_labels l))%nat.
Proof.
  unfold printed_labels. induction l as [|p l IH]; [done|]. cbn [map].
  pose proof (label_length p.1 p.2). destruct l as [|q l]; [simpl; lia|].
  cbn [map join] in *. rewrite !str_length_app. simpl in *. lia.
Qed.

Lemma printed_labels_lf_free l : names_ok l → lf_free (printed_labels l) = true.
Proof.
  assert (∀ p : string * string, without "=" p.1 && lf_free p.1 = true → lf_free (label p.1 p.2) = true) as Hl.
  { intros p [_ Hp]%andb_true_iff. unfold lf_free in *. rewrite <- (str_app_nil_r (label _ _)), label_app, all_bytes_app, Hp.
    change (all_bytes ?f (String "=" (String quote ?s))) with (all_bytes f s). rewrite all_bytes_app.
    fold (lf_free (escaped (sanitized p.2))). by rewrite escaped_lf_free. }
  unfold printed_labels. induction 1 as [|p l Hp Hok IH]; [done|]. cbn [map].
  destruct l as [|q l]; [by apply Hl|]. cbn [map join] in *. unfold lf_free in *.
  rewrite !all_bytes_app, IH. fold (lf_free (label p.1 p.2)). by rewrite Hl.
Qed.

(** ** Lines *)

(** A name of a sample: constant text without a brace. *)
Definition sample_name (name : string) : bool :=
  without "{" name && lf_free name && negb (HasPrefix name "#") && negb (bool_decide (name = "")).

Lemma read_sample_print name l value : sample_name name = true → l ≠ [] → names_ok l →
  read_sample (sample name (printed_labels l) value) = Some (mkSample name (sanitized_labels l) value).
Proof.
  intros Hn Hne Hok. unfold sample_name in Hn. rewrite !andb_true_iff in Hn. destruct Hn as [[[Hb _] _] _].
  unfold read_sample, sample. change ("{" +:+ ?x) with (String "{" x). rewrite Cut_here by done.
  change ("} " +:+ value) with (String "}" (String " " value)).
  rewrite read_labels_print; [done|done|done|].
  pose proof (printed_labels_length l). rewrite str_length_app. lia.
Qed.

(** The lines are complete and a scraper reads the samples from them. *)
Definition renders (lines : list string) (ss : list Sample) : Prop :=
  Forall (λ line, lf_free line = true) lines ∧
  map read_sample (List.filter (λ line, negb (HasPrefix line "#")) lines) = map Some ss.

Lemma renders_nil : renders [] [].
Proof. split; [constructor|done]. Qed.

Lemma renders_app l1 l2 s1 s2 : renders l1 s1 → renders l2 s2 → renders (l1 ++ l2) (s1 ++ s2).
Proof.
  intros [F1 M1] [F2 M2]. split; [by apply Forall_app|]. by rewrite List.filter_app, !map_app, M1, M2.
Qed.

Lemma renders_help name help kind l ss :
  lf_free name && lf_free help && lf_free kind = true → renders l ss →
  renders (writeHelpType name help kind ++ l) ss.
Proof.
  rewrite !andb_true_iff. intros [[Hn Hh] Hk] Hl. apply (renders_app _ _ []); [|done]. split; [|done].
  unfold lf_free in *. repeat constructor; rewrite !all_bytes_app, Hn, ?Hh, ?Hk; done.
Qed.

Lemma renders_sample name l value rest ss :
  sample_name name = true → l ≠ [] → names_ok l → lf_free value = true → renders rest ss →
  renders (sample name (printed_labels l) value :: rest) (mkSample name (sanitized_labels l) value :: ss).
Proof.
  intros Hn Hne Hok Hv Hr. apply (renders_app [_] _ [_]); [|done]. pose proof Hn as Hn'.
  unfold sample_name in Hn'. rewrite !andb_true_iff, !negb_true_iff in Hn'.
  destruct Hn' as [[[_ Hlf] Hcomment] Hempty%bool_decide_eq_false].
  split.
  - constructor; [|done]. unfold lf_free in *. unfold sample. rewrite !all_bytes_app, Hlf, Hv.
    fold (lf_free (printed_labels l)). by rewrite printed_labels_lf_free.
  - cbn [List.filter]. assert (HasPrefix (sample name (printed_labels l) value) "#" = false) as ->.
    { unfold sample. destruct name as [|c name]; [done|]. rewrite str_app_cons. exact Hcomment. }
    cbn [negb map]. by rewrite read_sample_print.
Qed.

Lemma split_unlines lines : Forall (λ line, lf_free line = true) lines → split_lines (unlines lines) = lines.
Proof.
  induction 1 as [|line lines Hl _ IH]; [done|]. cbn [unlines foldr]. fold (unlines lines).
  induction line as [|c line IHl].
  - rewrite str_app_nil_l. cbn [split_lines]. by rewrite bool_decide_true, IH.
  - unfold lf_free in Hl. cbn [all_bytes] in Hl. apply andb_true_iff in Hl as [Hc Hl]. apply negb_true_iff in Hc.
    rewrite str_app_cons. cbn [split_lines]. by rewrite Hc, (IHl Hl).
Qed.

Lemma renders_read lines ss : renders lines ss → read_body (unlines lines) = map Some ss.
Proof. intros [Hf Hm]. unfold read_body. by rewrite split_unlines. Qed.

(** ** The endpoint *)

Definition raw_labels (node : Node) : list (string * string) :=
  [("node_id", node_ID node); ("provider", node_Provider node)].

Lemma node_labels_printed node : node_labels node = printed_labels (raw_labels node).
Proof. done. Qed.

Lemma more_labels node name value :
  node_labels node +:+ "," +:+ label name value = printed_labels (raw_labels node ++ [(name, value)]).
Proof. unfold node_labels, printed_labels. cbn [raw_labels app map join fst snd]. by rewrite !str_app_assoc. Qed.

Lemma raw_names node : names_ok (raw_labels node).
Proof. by repeat constructor. Qed.

Lemma raw_more_names node name value : without "=" name && lf_free name = true →
  names_ok (raw_labels node ++ [(name, value)]).
Proof. intros Hn. apply Forall_app. split; [apply raw_names|by constructor]. Qed.

Lemma flag_lf b : lf_free (flag b) = true.
Proof. by destruct b. Qed.

Lemma pretty_lf (z : Z) : lf_free (pretty z) = true.
Proof.
  eapply all_bytes_impl, pretty_Z_chars. intros c Hc. apply negb_true_iff, bool_decide_eq_false. by intros ->.
Qed.

Section endpoint.
Context `{DecimalFloatLaws}.

Lemma decimal_lf f : lf_free (format_decimal f) = true.
Proof.
  eapply all_bytes_impl, format_decimal_chars. intros c Hc. apply negb_true_iff, bool_decide_eq_false.
  by intros ->.
Qed.

Lemma health_renders node : renders (health_lines node) (health_samples node).
Proof.
  unfold health_lines, health_samples. do 2 (apply renders_help; [done|]).
  destruct (valid_health node) as [health|];
    (apply (renders_sample _ (raw_labels node)); [done|done|apply raw_names|apply flag_lf || done|]);
    [|apply renders_nil].
  induction (he_Transports health) as [|t ts IH]; [apply renders_nil|]. cbn [map]. rewrite more_labels.
  apply (renders_sample _ (raw_labels node ++ [("transport", th_Transport t)]));
    [done|done|by apply raw_more_names|apply flag_lf|exact IH].
Qed.

Lemma metric_renders node metrics :
  renders (metric_lines (node_labels node) metrics) (metric_samples (node_label_list node) metrics).
Proof.
  unfold metric_lines, metric_samples. rewrite node_labels_printed.
  change (node_label_list node) with (sanitized_labels (raw_labels node)).
  do 5 (cbn [app]; apply renders_help; [done|]; cbn [app];
        apply renders_sample; [done|done|apply raw_names|apply decimal_lf || apply pretty_lf|]).
  apply renders_app.
  - destruct (me_ActiveConnectionCount metrics) as [count|]; [|apply renders_nil].
    apply renders_help; [done|]. apply renders_sample; [done|done|apply raw_names|apply pretty_lf|apply renders_nil].
  - case_bool_decide; [apply renders_nil|]. apply renders_help; [done|].
    rewrite <- node_labels_printed, more_labels.
    apply (renders_sample _ (raw_labels node ++ [("revision", me_ConfigRevision metrics)]));
      [done|done|by apply raw_more_names|done|apply renders_nil].
Qed.

(** C36: a scrape reads back exactly the samples.  Whatever bytes the identifier, the
    provider, the transports and the revision of a node contain (quotes, backslashes,
    line feeds, invalid UTF-8), reading the body of a GET in the text format gives
    exactly the samples that belong to the observations, each label with its
    sanitized value: no label can break out of its quotes or add a line. *)
Theorem metrics_read_back node timeout handler request :
  New node timeout = Ok handler → rq_Method request = MethodGet →
  node = Some (ha_node handler) ∧ hr_Status (ServeHTTP handler request) = StatusOK ∧
  read_body (hr_Body (ServeHTTP handler request)) = map Some (samples (ha_node handler)).
Proof.
  intros Hnew Hget. unfold New in Hnew. destruct node as [node|]; [|done]. inv_ok.
  unfold ServeHTTP. rewrite Hget. split_and!; [done|done|]. cbn [hr_Body negb andb ha_node].
  rewrite bool_decide_true by done. cbn [negb andb hr_Body]. apply renders_read.
  unfold collect_lines, samples. apply renders_app; [apply health_renders|].
  apply renders_help; [done|]. cbn [app]. rewrite node_labels_printed.
  apply (renders_sample _ (raw_labels node)); [done|done|apply raw_names|apply flag_lf|].
  destruct (valid_metrics node) as [metrics|]; [|apply renders_nil].
  rewrite <- node_labels_printed. apply metric_renders.
Qed.

End endpoint.

(** ** Witness *)

Definition toy_decimal : DecimalFloat := λ _, "0.5".
Lemma toy_decimal_laws : @DecimalFloatLaws toy_decimal.
Proof. by intros f. Qed.

(** A provider that tries to inject a sample. *)
Definition toy_metrics_node : Node :=
  mkNode "ams-1" ("x" +:+ String quote ("} 1" +:+ String line_feed "vchs_node_up{a=")) (Err (NewError "down"))
    (Err (NewError "down")) (Err (NewError "down"))
    (Ok (mkMetrics (S754_zero false) 4096 1024 7 9 (Some 2) "r1" unix_epoch)).

Lemma metrics_read_back_witness :
  map (option_map sa_name) (read_body (hr_Body (@ServeHTTP toy_decimal
    (mkHandler toy_metrics_node (3 * Second)) (mkRequest "GET" "/metrics" "/metrics" "" "" (mkReader "" None))))) =
  map (option_map sa_name) (map Some (@samples toy_decimal toy_metrics_node)).
Proof.
  destruct (@metrics_read_back toy_decimal toy_decimal_laws (Some toy_metrics_node) 0
    (mkHandler toy_metrics_node (3 * Second)) (mkRequest "GET" "/metrics" "/metrics" "" "" (mkReader "" None)))
    as (_ & _ & E); [vm_compute; reflexivity|reflexivity|].
  exact (f_equal (map (option_map sa_name)) E).
Defined.
