(* ===== verification/GoTime.v ===== *)
(** * [time.ParseDuration]

    A signed sequence of decimal numbers with units, accumulated in a [uint64] with
    every overflow check of the original; the fraction of a number goes through
    [float64]. *)

From Stdlib Require Import SpecFloat.
From S2P Require Import Prelude GoRegexp GoStrings VpnNode.

Definition two63 : Z := 2 ^ 63.

(** [leadingInt]: [None] is an overflow. *)
Fixpoint leadingInt (x : Z) (s : string) : option (Z * string) :=
  match s with
  | String c s' =>
      if digit c then
        if x >? two63 / 10 then None
        else
          let x := x * 10 + (ord c - 48) in
          if x >? two63 then None else leadingInt x s'
      else Some (x, s)
  | EmptyString => Some (x, s)
  end.

(** [leadingFraction]: the digits that fit, and the power of ten they are scaled by. *)
Fixpoint leadingFraction (x : Z) (scale : float64) (overflow : bool) (s : string)
    : Z * float64 * string :=
  match s with
  | String c s' =>
      if digit c then
        let y := x * 10 + (ord c - 48) in
        if overflow || (x >? (two63 - 1) / 10) || (y >? two63) then leadingFraction x scale true s'
        else leadingFraction y (SFmul 53 1024 scale (float64_of 10)) false s'
      else (x, scale, s)
  | EmptyString => (x, scale, s)
  end.

(** The conversion of a non-negative [float64] to [uint64] drops the fraction. *)
Definition trunc_float (f : float64) : Z :=
  match f with
  | S754_finite false m e => if 0 <=? e then Z.pos m * 2 ^ e else Z.pos m / 2 ^ (- e)
  | _ => 0
  end.

Definition unitMap (u : string) : option Z :=
  if bool_decide (u = "ns") then Some 1
  else if bool_decide (u = "us") then Some 1000
  else if bool_decide (u = String (byte 194) (String (byte 181) "s")) then Some 1000
  else if bool_decide (u = String (byte 206) (String (byte 188) "s")) then Some 1000
  else if bool_decide (u = "ms") then Some Millisecond
  else if bool_decide (u = "s") then Some Second
  else if bool_decide (u = "m") then Some Minute
  else if bool_decide (u = "h") then Some Hour
  else None.

Definition number_char (c : ascii) : bool := bool_decide (c = "."%char) || digit c.

(** The unit: up to the next number. *)
Fixpoint span_unit (s : string) : string * string :=
  match s with
  | String c s' => if number_char c then ("", s) else let '(u, rest) := span_unit s' in (String c u, rest)
  | EmptyString => ("", "")
  end.

(** One number with its unit: its nanoseconds and the rest. *)
Definition duration_term (s : string) : option (Z * string) :=
  match s with
  | EmptyString => None
  | String c _ =>
      if negb (number_char c) then None
      else
        '(v, s1) ← leadingInt 0 s;
        let pre := negb (bool_decide (String.length s1 = String.length s)) in
        let '(f, scale, s2, post) :=
          match s1 with
          | String d s' =>
              if bool_decide (d = "."%char) then
                let '(f, scale, s'') := leadingFraction 0 (float64_of 1) false s' in
                (f, scale, s'', negb (bool_decide (String.length s'' = String.length s')))
              else (0, float64_of 1, s1, false)
          | EmptyString => (0, float64_of 1, s1, false)
          end in
        if negb pre && negb post then None
        else
          let '(u, rest) := span_unit s2 in
          if bool_decide (u = "") then None
          else
            unit ← unitMap u;
            if v >? two63 / unit then None
            else
              let v := v * unit in
              let v := if f >? 0
                then u64_add v (trunc_float (SFmul 53 1024 (float64_of f) (SFdiv 53 1024 (float64_of unit) scale)))
                else v in
              if (f >? 0) && (v >? two63) then None else Some (v, rest)
  end.

(** The loop, while [s] is not empty; [fuel] bounds the terms. *)
Fixpoint duration_terms (fuel : nat) (d : Z) (s : string) : option Z :=
  match fuel, s with
  | _, EmptyString => Some d
  | S fuel', _ =>
      '(v, rest) ← duration_term s;
      let d := u64_add d v in
      if d >? two63 then None else duration_terms fuel' d rest
  | O, _ => None
  end.

Definition ParseDuration (s : string) : result duration :=
  let '(neg, s) := match s with
    | String c s' => if bool_decide (c = "-"%char) then (true, s')
                     else if bool_decide (c = "+"%char) then (false, s') else (false, s)
    | EmptyString => (false, s)
    end in
  if bool_decide (s = "0") then Ok 0
  else if bool_decide (s = "") then Err (NewError "time: invalid duration")
  else
    match duration_terms (String.length s) 0 s with
    | None => Err (NewError "time: invalid duration")
    | Some d =>
        if neg : bool then Ok (- d)
        else if d >? two63 - 1 then Err (NewError "time: invalid duration") else Ok d
    end.

Example durations : ParseDuration "15m" = Ok (15 * Minute) ∧ ParseDuration "1h30m10s" = Ok (5410 * Second) ∧
  ParseDuration "1.5h" = Ok (90 * Minute) ∧ ParseDuration "-250ms" = Ok (-250 * Millisecond) ∧
  ParseDuration ".5s" = Ok (500 * Millisecond) ∧ ParseDuration "0" = Ok 0.
Proof. split_and!; vm_compute; reflexivity. Qed.

Example bad_durations : ParseDuration "" = Err (NewError "time: invalid duration") ∧
  ParseDuration "15" = Err (NewError "time: invalid duration") ∧
  ParseDuration "1x" = Err (NewError "time: invalid duration") ∧
  ParseDuration ".s" = Err (NewError "time: invalid duration") ∧
  ParseDuration "9223372036854775808ns" = Err (NewError "time: invalid duration") ∧
  ParseDuration "-9223372036854775808ns" = Ok (- two63).
Proof. split_and!; vm_compute; reflexivity. Qed.

(** The fuel is enough: every term consumes at least one byte. *)
Lemma leadingInt_length x s v rest : leadingInt x s = Some (v, rest) → (String.length rest <= String.length s)%nat.
Proof.
  revert x. induction s as [|c s IH]; intros x; cbn; [by intros [= _ <-]|].
  destruct (digit c); [|by intros [= _ <-]]. destruct (_ >? _); [done|]. destruct (_ >? _); [done|].
  intros Hr%IH. lia.
Qed.

Lemma leadingFraction_length x scale o s :
  (String.length (leadingFraction x scale o s).2 <= String.length s)%nat.
Proof.
  revert x scale o. induction s as [|c s IH]; intros x scale o; cbn; [done|].
  destruct (digit c); [|done]. destruct (_ || _); etrans; [apply IH|lia|apply IH|lia].
Qed.

Lemma span_unit_length s u rest : span_unit s = (u, rest) →
  (String.length u + String.length rest = String.length s)%nat.
Proof.
  revert u. induction s as [|c s IH]; intros u; cbn; [by intros [= <- <-]|].
  destruct (number_char c); [by intros [= <- <-]|]. destruct (span_unit s) as [u' r].
  intros [= <- <-]. cbn. by rewrite <- (IH u').
Qed.

Lemma duration_term_shorter s v rest : duration_term s = Some (v, rest) →
  (String.length rest < String.length s)%nat.
Proof.
  unfold duration_term. destruct s as [|c s]; [done|]. destruct (number_char c); [|done]. cbn [negb].
  intros ((v0 & s1) & Hint%leadingInt_length & Hd)%bind_Some.
  destruct (match s1 with "" => _ | _ => _ end) as [[[f scale] s2] post] eqn:Hs2.
  assert (String.length s2 <= String.length s1)%nat as Hle.
  { destruct s1 as [|d s']; [simplify_eq; lia|]. clear Hd. destruct (bool_decide (d = "."%char)); [|simplify_eq; lia].
    pose proof (leadingFraction_length 0 (float64_of 1) false s') as Hf.
    destruct (leadingFraction 0 (float64_of 1) false s') as [[f' sc'] s'']. simplify_eq. cbn in *. lia. }
  clear Hs2. destruct (_ && negb post); [done|].
  destruct (span_unit s2) as [u r] eqn:Hu. apply span_unit_length in Hu. case_bool_decide as Hne; [done|].
  apply bind_Some in Hd as (unit & _ & Hd). destruct (v0 >? _); [done|].
  destruct (_ && _); [done|]. injection Hd as _ <-. destruct u; [done|]. cbn in *. lia.
Qed.

Lemma duration_terms_fuel fuel fuel' d s : (String.length s <= fuel)%nat → (String.length s <= fuel')%nat →
  duration_terms fuel d s = duration_terms fuel' d s.
Proof.
  revert fuel' d s. induction fuel as [|fuel IH]; intros fuel' d s Hf Hf'.
  { destruct s; [by destruct fuel'|simpl in Hf; lia]. }
  destruct s as [|c s]; [by destruct fuel'|]. destruct fuel' as [|fuel']; [simpl in Hf'; lia|].
  cbn [duration_terms]. destruct (duration_term (String c s)) as [[v rest]|] eqn:Ht; [|done]. cbn.
  apply duration_term_shorter in Ht. destruct (_ >? _); [done|]. apply IH; lia.
Qed.
