(* ===== verification/Config.v ===== *)
(** * Configuration

    [internal/config/config.go]: the configuration of the control plane from its
    environment.  [Getenv] is the environment: [""] stands for an unset variable. *)

From S2P Require Import Prelude GoRegexp GoStrings GoSha256 GoNet GoJson GoUnicode GoFold GoTime.
From S2P Require Import Issuer PilotApi Api.

Definition defaultListenAddress : string := "127.0.0.1:8080".
Definition defaultCatalogPath : string := "config/nodes.json".
Definition defaultManifestTTL : duration := 15 * Minute.
Definition defaultManifestCache : duration := 30 * Second.
Definition defaultShutdown : duration := 10 * Second.
Definition defaultMaxInFlight : Z := 64.

Record Config := mkConfig {
  cfg_ListenAddress : string;
  cfg_CatalogPath : string;
  cfg_SigningKeyPath : string;
  cfg_RootKeyPath : string;
  cfg_KeyPolicyPath : string;
  cfg_IssuerStatePath : string;
  cfg_ManifestTTL : duration;
  cfg_ManifestCache : duration;
  cfg_Shutdown : duration;
  cfg_MaxInFlight : Z;
  cfg_DatabaseURL : string;
  cfg_PilotAdminToken : string;
  cfg_PilotAccess : bool
}.

Section load.
Context (Getenv : string → string).

Definition integerFromEnvironment (name : string) (fallback : Z) : result Z :=
  let value := TrimSpace (Getenv name) in
  if bool_decide (value = "") then Ok fallback
  else match Atoi value with
       | Some parsed => Ok parsed
       | None => Err (NewError (name +:+ ": invalid integer"))
       end.

Definition stringFromEnvironment (name fallback : string) : string :=
  let value := TrimSpace (Getenv name) in
  if bool_decide (value = "") then fallback else value.

Definition durationFromEnvironment (name : string) (fallback : duration) : result duration :=
  let value := TrimSpace (Getenv name) in
  if bool_decide (value = "") then Ok fallback else wrap name (ParseDuration value).

Definition isPrivateListener (address : string) : bool :=
  match SplitHostPort address with
  | None => false
  | Some (host, _) =>
      EqualFoldASCII host "localhost" ||
      match ParseIP host with
      | None => false
      | Some ip => negb (IP_IsUnspecified ip) && (IP_IsLoopback ip || IP_IsPrivate ip)
      end
  end.

Definition Load : result Config :=
  manifestTTL ← durationFromEnvironment "MANIFEST_TTL" defaultManifestTTL;
  fail_if ((manifestTTL <? Minute) || (manifestTTL >? Hour))
    (NewError "MANIFEST_TTL must be between 1m and 1h");;
  manifestCache ← durationFromEnvironment "MANIFEST_CACHE_TTL" defaultManifestCache;
  fail_if ((manifestCache <? Second) || (manifestCache >? Z.quot manifestTTL 2))
    (NewError "MANIFEST_CACHE_TTL must be between 1s and half MANIFEST_TTL");;
  shutdown ← durationFromEnvironment "SHUTDOWN_TIMEOUT" defaultShutdown;
  fail_if ((shutdown <? Second) || (shutdown >? Minute))
    (NewError "SHUTDOWN_TIMEOUT must be between 1s and 1m");;
  maxInFlight ← integerFromEnvironment "MAX_IN_FLIGHT" defaultMaxInFlight;
  fail_if ((maxInFlight <? 1) || (maxInFlight >? 1024))
    (NewError "MAX_IN_FLIGHT must be between 1 and 1024");;
  let listen := stringFromEnvironment "LISTEN_ADDRESS" defaultListenAddress in
  let catalog := stringFromEnvironment "MANIFEST_CATALOG_PATH" defaultCatalogPath in
  let signing := TrimSpace (Getenv "MANIFEST_SIGNING_KEY_PATH") in
  let root := TrimSpace (Getenv "MANIFEST_ROOT_PUBLIC_KEY_PATH") in
  let policy := TrimSpace (Getenv "MANIFEST_KEY_POLICY_PATH") in
  let state := TrimSpace (Getenv "MANIFEST_STATE_PATH") in
  let database := TrimSpace (Getenv "DATABASE_URL") in
  let token := TrimSpace (Getenv "PILOT_ADMIN_TOKEN") in
  fail_if (bool_decide (signing = "")) (NewError "MANIFEST_SIGNING_KEY_PATH is required");;
  fail_if (bool_decide (root = "")) (NewError "MANIFEST_ROOT_PUBLIC_KEY_PATH is required");;
  fail_if (bool_decide (policy = "")) (NewError "MANIFEST_KEY_POLICY_PATH is required");;
  fail_if (bool_decide (state = "")) (NewError "MANIFEST_STATE_PATH is required and must be on durable storage");;
  fail_if (negb (Bool.eqb (bool_decide (database = "")) (bool_decide (token = ""))))
    (NewError "DATABASE_URL and PILOT_ADMIN_TOKEN must be set together");;
  fail_if (len database >? 2048) (NewError "DATABASE_URL is too long");;
  fail_if (negb (bool_decide (token = "")) && ((len token <? 32) || (len token >? 512)))
    (NewError "PILOT_ADMIN_TOKEN must contain between 32 and 512 bytes");;
  fail_if (Contains (RuneToLower token) "replace-with")
    (NewError "PILOT_ADMIN_TOKEN still contains the example placeholder");;
  let pilot := negb (bool_decide (database = "")) in
  fail_if (pilot && negb (isPrivateListener listen))
    (NewError "pilot admin API requires a literal loopback or private LISTEN_ADDRESS");;
  Ok (mkConfig listen catalog signing root policy state manifestTTL manifestCache shutdown maxInFlight
        database token pilot).

End load.

(** ** Private listeners *)

(** The address is in 127/8, 10/8, 172.16/12 or 192.168/16 (as IPv4, possibly mapped into
    IPv6), or it is ::1 or in fc00::/7. *)
Definition private_address (ip : list Z) : Prop :=
  let b i := default 0 (ip !! i) in
  let zeros n := Forall (λ i, b i = 0) (List.seq 0 n) in
  (zeros 10%nat ∧ b 10%nat = 255 ∧ b 11%nat = 255 ∧
     (b 12%nat = 127 ∨ b 12%nat = 10 ∨ b 12%nat = 172 ∧ Z.land (b 13%nat) 240 = 16 ∨
      b 12%nat = 192 ∧ b 13%nat = 168)) ∨
  (zeros 15%nat ∧ b 15%nat = 1) ∨
  Z.land (b 0%nat) 254 = 252.

Definition listens_on (P : string → Prop) (address : string) : Prop :=
  ∃ host port, SplitHostPort address = Some (host, port) ∧ P host.

(** The local host by its name, in some ASCII case, or a literal private address. *)
Definition private_listener : string → Prop :=
  listens_on (λ host, local_name host ∨ ∃ ip, ParseIP host = Some ip ∧ private_address ip).

Lemma zeros_forallb (f : nat → Z) n : forallb (λ i, f i =? 0) (List.seq 0 n) = true →
  Forall (λ i, f i = 0) (List.seq 0 n).
Proof.
  rewrite forallb_forall. intros Hf. apply Forall_forall. intros i Hi%list_elem_of_In. by apply Z.eqb_eq, Hf.
Qed.

Lemma private_address_spec ip : IP_IsLoopback ip || IP_IsPrivate ip = true → private_address ip.
Proof.
  unfold IP_IsLoopback, IP_IsPrivate, IsLoopback, IsPrivate, unmapped_is4, v4_mapped, addr_byte, ip_addr.
  cbn [addr_is4 addr_bytes orb]. unfold private_address.
  destruct (_ && _ && _) eqn:Hm.
  - rewrite !andb_true_iff in Hm. destruct Hm as [[Hz H10%Z.eqb_eq] H11%Z.eqb_eq]. intros Hor. left.
    split; [by apply zeros_forallb|]. split; [done|]. split; [done|].
    rewrite !orb_true_iff, !andb_true_iff, !Z.eqb_eq in Hor. naive_solver.
  - clear Hm. rewrite orb_true_iff, andb_true_iff, !Z.eqb_eq. intros [[Hz H15]|H0]; [right; left|by right; right].
    split; [by apply zeros_forallb|done].
Qed.

Lemma isPrivateListener_spec address : isPrivateListener address = true →
  private_listener address ∨ listens_on long_s_name address.
Proof.
  unfold isPrivateListener, private_listener, listens_on. destruct (SplitHostPort address) as [[host port]|]; [|done].
  intros [[Hl|Hl]%EqualFold_localhost|Hip]%orb_true_iff; [left|right|left]; exists host, port; (split; [done|]);
    [by left|done|right].
  destruct (ParseIP host) as [ip|]; [|done]. exists ip. split; [done|].
  apply andb_true_iff in Hip as [_ Hip]. by apply private_address_spec.
Qed.

(** The handler of the administration API checks the token once more: blanks are refused. *)
Lemma token_accepted {S} (service : Services S) token :
  32 <= len token <= 512 → Contains (RuneToLower token) "replace-with" = false →
  (ContainsFunc token blank_rune = false →
   NewWithTelemetry (Some service) token = Ok (PilotApi.mkHandler service (Sum256 token))) ∧
  (ContainsFunc token blank_rune = true → ∃ e, NewWithTelemetry (Some service) token = Err e).
Proof.
  intros Hlen Hp. unfold NewWithTelemetry. rewrite Z.gtb_ltb.
  destruct (Z.ltb_spec (len token) 32), (Z.ltb_spec 512 (len token)); try lia. rewrite Hp.
  split; intros ->; [done|]. by eexists.
Qed.

Lemma durations_accepted ttl cacheFor : Minute <= ttl <= Hour → Second <= cacheFor <= ttl / 2 →
  checkDurations ttl cacheFor = Ok tt.
Proof.
  intros Ht Hc. unfold checkDurations. rewrite !Z.gtb_ltb, Z.quot_div_nonneg by (unfold Minute, Second in *; lia).
  destruct (Z.ltb_spec ttl Minute), (Z.ltb_spec Hour ttl), (Z.ltb_spec cacheFor Second), (Z.ltb_spec (ttl / 2) cacheFor);
    try lia. done.
Qed.

Lemma limit_exact {S} (issue : IssueFunc S) n admin checks : 1 <= n →
  Z.of_nat (Api.ha_limit (newHandler issue n admin checks)) = n.
Proof. intros Hn. cbn. destruct (Z.ltb_spec n 1); lia. Qed.

(** The part of [Load] about the administration API. *)
Lemma pilot_checked database token listen :
  Bool.eqb (bool_decide (database = "")) (bool_decide (token = "")) = true →
  (len database >? 2048) = false →
  negb (bool_decide (token = "")) && ((len token <? 32) || (len token >? 512)) = false →
  negb (bool_decide (database = "")) && negb (isPrivateListener listen) = false →
  if negb (bool_decide (database = ""))
  then 0 < len database <= 2048 ∧ (private_listener listen ∨ listens_on long_s_name listen) ∧
    32 <= len token <= 512
  else database = "" ∧ token = "".
Proof.
  rewrite !Z.gtb_ltb. intros Htogether Hlong Htoken Hprivate.
  destruct (bool_decide_reflect (database = "")) as [->|Hdb], (bool_decide_reflect (token = "")) as [->|Ht];
    try done. cbn in *. apply orb_false_iff in Htoken as [Ht1 Ht2]. apply negb_false_iff in Hprivate.
  pose proof (len_nonneg database). assert (len database ≠ 0) by (by intros E%len_zero).
  split_and!; [lia|lia|by apply isPrivateListener_spec|lia|lia].
Qed.

(** What the checks of [Load] leave in the configuration. *)
Lemma Load_inv env cfg :
  Load env = Ok cfg →
  (Minute <= cfg_ManifestTTL cfg <= Hour ∧
   Second <= cfg_ManifestCache cfg <= cfg_ManifestTTL cfg / 2 ∧ Second <= cfg_Shutdown cfg <= Minute) ∧
  1 <= cfg_MaxInFlight cfg <= 1024 ∧
  Forall (λ path, path ≠ "")
    [cfg_SigningKeyPath cfg; cfg_RootKeyPath cfg; cfg_KeyPolicyPath cfg; cfg_IssuerStatePath cfg] ∧
  Contains (RuneToLower (cfg_PilotAdminToken cfg)) "replace-with" = false ∧
  if cfg_PilotAccess cfg
  then 0 < len (cfg_DatabaseURL cfg) <= 2048 ∧
    (private_listener (cfg_ListenAddress cfg) ∨ listens_on long_s_name (cfg_ListenAddress cfg)) ∧
    32 <= len (cfg_PilotAdminToken cfg) <= 512
  else cfg_DatabaseURL cfg = "" ∧ cfg_PilotAdminToken cfg = "".
Proof.
  unfold Load. intros Hl. inv_ok. cbn [cfg_ManifestTTL cfg_ManifestCache cfg_Shutdown cfg_MaxInFlight
    cfg_SigningKeyPath cfg_RootKeyPath cfg_KeyPolicyPath cfg_IssuerStatePath cfg_PilotAccess cfg_DatabaseURL
    cfg_PilotAdminToken cfg_ListenAddress].
  rewrite !Z.gtb_ltb in * |-. rewrite !Z.ltb_ge in * |-.
  rewrite Z.quot_div_nonneg in * |- by (unfold Minute, Second in *; lia).
  split; [lia|]. split; [lia|]. split; [by repeat constructor|]. split; [done|].
  apply pilot_checked; [done|by rewrite Z.gtb_ltb, Z.ltb_ge|by rewrite Z.gtb_ltb|done].
Qed.

(** ** Claims *)

(** C35: a configuration that loads is safe to run with.  [Load] only returns durations
    that the checks of [NewIssuer] accept, a positive bound on the requests in flight that the
    API uses as it is, and non-empty key, policy and state paths; the administration API
    is enabled exactly when a database is configured, and then its token has 32 to 512
    bytes and no placeholder, its handler accepts the token when it holds no blank
    character and refuses it otherwise, and the listener is the name of the local host in
    some ASCII case or a literal loopback or private address, with one exception: the
    spellings of the local host with U+017F for the letter s pass too (a finding). *)
Theorem configuration_is_safe env cfg :
  Load env = Ok cfg →
  (Minute <= cfg_ManifestTTL cfg <= Hour ∧
   Second <= cfg_ManifestCache cfg <= cfg_ManifestTTL cfg / 2 ∧ Second <= cfg_Shutdown cfg <= Minute) ∧
  checkDurations (cfg_ManifestTTL cfg) (cfg_ManifestCache cfg) = Ok tt ∧
  (1 <= cfg_MaxInFlight cfg <= 1024 ∧
   ∀ S (issue : IssueFunc S) admin checks,
     Z.of_nat (Api.ha_limit (newHandler issue (cfg_MaxInFlight cfg) admin checks)) = cfg_MaxInFlight cfg) ∧
  Forall (λ path, path ≠ "")
    [cfg_SigningKeyPath cfg; cfg_RootKeyPath cfg; cfg_KeyPolicyPath cfg; cfg_IssuerStatePath cfg] ∧
  if cfg_PilotAccess cfg
  then 0 < len (cfg_DatabaseURL cfg) <= 2048 ∧
    (private_listener (cfg_ListenAddress cfg) ∨ listens_on long_s_name (cfg_ListenAddress cfg)) ∧
    32 <= len (cfg_PilotAdminToken cfg) <= 512 ∧
    Contains (RuneToLower (cfg_PilotAdminToken cfg)) "replace-with" = false ∧
    ∀ S (service : Services S),
      (ContainsFunc (cfg_PilotAdminToken cfg) blank_rune = false →
       NewWithTelemetry (Some service) (cfg_PilotAdminToken cfg) =
         Ok (PilotApi.mkHandler service (Sum256 (cfg_PilotAdminToken cfg)))) ∧
      (ContainsFunc (cfg_PilotAdminToken cfg) blank_rune = true →
       ∃ e, NewWithTelemetry (Some service) (cfg_PilotAdminToken cfg) = Err e)
  else cfg_DatabaseURL cfg = "" ∧ cfg_PilotAdminToken cfg = "".
Proof.
  intros Hl. destruct (Load_inv env cfg Hl) as (Htimes & Hmax & Hpaths & Hph & Hpilot).
  split; [done|]. split; [by apply durations_accepted; apply Htimes|].
  split; [split; [done|intros S issue admin checks; apply limit_exact; lia]|]. split; [done|].
  destruct (cfg_PilotAccess cfg); [|done]. destruct Hpilot as (Hdb & Hp & Ht).
  split_and!; [lia|lia|done|lia|lia|done|]. intros S service. by apply token_accepted.
Qed.

(** ** Witness *)

Definition toy_environment (name : string) : string :=
  if bool_decide (name = "MANIFEST_SIGNING_KEY_PATH") then "/keys/signing"
  else if bool_decide (name = "MANIFEST_ROOT_PUBLIC_KEY_PATH") then "/keys/root.pub"
  else if bool_decide (name = "MANIFEST_KEY_POLICY_PATH") then "/keys/policy.json"
  else if bool_decide (name = "MANIFEST_STATE_PATH") then " /state/issuer.json "
  else if bool_decide (name = "MANIFEST_TTL") then "20m"
  else if bool_decide (name = "LISTEN_ADDRESS") then "10.1.2.3:8080"
  else if bool_decide (name = "DATABASE_URL") then "postgres://db/pilot"
  else if bool_decide (name = "PILOT_ADMIN_TOKEN") then "0123456789abcdef0123456789abcdef"
  else "".

Definition toy_config : Config :=
  mkConfig "10.1.2.3:8080" "config/nodes.json" "/keys/signing" "/keys/root.pub" "/keys/policy.json"
    "/state/issuer.json" (20 * Minute) (30 * Second) (10 * Second) 64 "postgres://db/pilot"
    "0123456789abcdef0123456789abcdef" true.

Lemma configuration_is_safe_witness :
  Load toy_environment = Ok toy_config ∧
  (private_listener (cfg_ListenAddress toy_config) ∨ listens_on long_s_name (cfg_ListenAddress toy_config)).
Proof.
  assert (Load toy_environment = Ok toy_config) as Hl by (vm_compute; reflexivity). split; [exact Hl|].
  destruct (configuration_is_safe toy_environment toy_config Hl) as (_ & _ & _ & _ & Hp). apply Hp.
Defined.

(** A listener on another name than that of the local host passes: U+017F folds to the letter s. *)
Lemma listener_accepts_long_s :
  let address := "localho" +:+ long_s +:+ "t:8080" in
  ¬ private_listener address ∧ isPrivateListener address = true.
Proof.
  cbv zeta. split; [|by_compute]. intros (host & port & Hs & Hl).
  assert (SplitHostPort ("localho" +:+ long_s +:+ "t:8080") = Some ("localho" +:+ long_s +:+ "t", "8080")) as E by by_compute.
  rewrite E in Hs. injection Hs as <- <-. destruct Hl as [Hl|(ip & Hip & _)]; [|by vm_compute in Hip].
  apply (spelled_length _ [1; 1; 1; 1; 1; 1; 1; 1; 1]%nat) in Hl; [by vm_compute in Hl|by repeat constructor].
Qed.
