(* ===== verification/Wire.v ===== *)
(** * The JSON forms of the packages

    The decoders of the structs that the packages read: [internal/manifest],
    [internal/issuance], [internal/artifactlock] and [internal/pilotapi].  They are the
    instances of the decoder interface of [GoJson] that the running program uses: field
    names and types from the struct declarations, behaviour from [GoJsonDecode].

    The theorems discharge what the other files ask of a decoder: whatever is decoded is
    typed, and typed values are read back as they were written. *)

From stdpp Require Import pretty.
From S2P Require Import Prelude GoRegexp GoBase64 GoSha256 GoStrings GoJson GoUnicode GoHttp GoJsonScan GoRfc3339 GoJsonDecode.
From S2P Require Import GoOs Ed25519 KeyPolicy Manifest Envelope Issuance ArtifactLock PilotApi Api.

(** ** Decoders *)

Definition dec_KeyGrant : Dec KeyGrant :=
  dec_struct true ["key_id"; "public_key"; "epoch"; "not_before_version"; "not_after_version"] (λ f,
    Some mkKeyGrant <*> dec_string (f "key_id") <*> dec_string (f "public_key") <*> dec_uint 64 (f "epoch")
      <*> dec_uint 64 (f "not_before_version") <*> dec_uint 64 (f "not_after_version")).

Definition dec_KeyPolicy : Dec KeyPolicy :=
  dec_struct true ["version"; "root_key_id"; "keys"; "signature"] (λ f,
    Some mkKeyPolicy <*> dec_uint 64 (f "version") <*> dec_string (f "root_key_id")
      <*> dec_slice dec_KeyGrant (f "keys") <*> dec_string (f "signature")).

Definition dec_DiscoveryEndpoint : Dec DiscoveryEndpoint :=
  dec_struct true ["id"; "url"; "priority"] (λ f,
    Some mkDiscoveryEndpoint <*> dec_string (f "id") <*> dec_string (f "url") <*> dec_uint 16 (f "priority")).

Definition dec_Endpoint : Dec Endpoint :=
  dec_struct true ["id"; "transport"; "address"; "server_name"; "credential_ref"; "priority"] (λ f,
    Some mkEndpoint <*> dec_string (f "id") <*> dec_string (f "transport") <*> dec_string (f "address")
      <*> dec_string (f "server_name") <*> dec_string (f "credential_ref") <*> dec_uint 16 (f "priority")).

Definition dec_Node : Dec Node :=
  dec_struct true ["id"; "region"; "country_code"; "provider"; "asn"; "endpoints"] (λ f,
    Some mkNode <*> dec_string (f "id") <*> dec_string (f "region") <*> dec_string (f "country_code")
      <*> dec_string (f "provider") <*> dec_uint 32 (f "asn") <*> dec_slice dec_Endpoint (f "endpoints")).

Definition dec_Catalog : Dec Catalog :=
  dec_struct true ["revision"; "discovery"; "nodes"] (λ f,
    Some mkCatalog <*> dec_uint 64 (f "revision") <*> dec_slice dec_DiscoveryEndpoint (f "discovery")
      <*> dec_slice dec_Node (f "nodes")).

Definition dec_Document : Dec Document :=
  dec_struct true ["schema_version"; "version"; "catalog_revision"; "issued_at"; "expires_at"; "key_policy";
                   "discovery"; "nodes"] (λ f,
    Some mkDocument <*> dec_int 64 (f "schema_version") <*> dec_uint 64 (f "version")
      <*> dec_uint 64 (f "catalog_revision") <*> dec_time (f "issued_at") <*> dec_time (f "expires_at")
      <*> dec_KeyPolicy (f "key_policy") <*> dec_slice dec_DiscoveryEndpoint (f "discovery")
      <*> dec_slice dec_Node (f "nodes")).

Definition dec_Envelope : Dec Envelope :=
  dec_struct true ["algorithm"; "key_id"; "payload"; "signature"] (λ f,
    Some mkEnvelope <*> dec_string (f "algorithm") <*> dec_string (f "key_id") <*> dec_string (f "payload")
      <*> dec_string (f "signature")).

Definition dec_State : Dec State :=
  dec_struct true ["key_id"; "key_epoch"; "policy_version"; "policy_sha256"; "last_version"; "catalog_revision";
                   "catalog_sha256"; "last_issued_at"] (λ f,
    Some mkState <*> dec_string (f "key_id") <*> dec_uint 64 (f "key_epoch") <*> dec_uint 64 (f "policy_version")
      <*> dec_string (f "policy_sha256") <*> dec_uint 64 (f "last_version") <*> dec_uint 64 (f "catalog_revision")
      <*> dec_string (f "catalog_sha256") <*> dec_time (f "last_issued_at")).

Definition dec_Artifact : Dec Artifact :=
  dec_struct true ["name"; "file_name"; "version"; "commit"; "kind"; "url"; "sha256"; "max_bytes"; "purpose"] (λ f,
    Some mkArtifact <*> dec_string (f "name") <*> dec_string (f "file_name") <*> dec_string (f "version")
      <*> dec_string (f "commit") <*> dec_string (f "kind") <*> dec_string (f "url") <*> dec_string (f "sha256")
      <*> dec_int 64 (f "max_bytes") <*> dec_string (f "purpose")).

Definition dec_Lock : Dec Lock :=
  dec_struct true ["schema_version"; "evidence_cutoff"; "artifacts"] (λ f,
    Some mkLock <*> dec_int 64 (f "schema_version") <*> dec_string (f "evidence_cutoff")
      <*> dec_slice dec_Artifact (f "artifacts")).

Definition dec_registerRequest : Dec registerRequest :=
  dec_struct true ["device_id"; "node_id"; "transport"; "external_reference"; "expires_at"] (λ f,
    Some mkRegisterRequest <*> dec_string (f "device_id") <*> dec_string (f "node_id")
      <*> dec_string (f "transport") <*> dec_string (f "external_reference") <*> dec_ptr dec_time (f "expires_at")).

Definition dec_testResultRequest : Dec testResultRequest :=
  dec_struct true ["device_id"; "client_platform"; "isp"; "transport"; "occurred_at"; "success"; "failure_stage";
                   "connection_time_bucket"; "throughput_bucket"] (λ f,
    Some mkTestResultRequest <*> dec_string (f "device_id") <*> dec_string (f "client_platform")
      <*> dec_ptr dec_string (f "isp") <*> dec_string (f "transport") <*> dec_time (f "occurred_at")
      <*> dec_bool (f "success") <*> dec_ptr dec_string (f "failure_stage")
      <*> dec_string (f "connection_time_bucket") <*> dec_ptr dec_string (f "throughput_bucket")).

#[global] Instance KeyPolicy_decode : JsonDecode KeyPolicy := decode_value dec_KeyPolicy.
#[global] Instance Catalog_decode : JsonDecode Catalog := decode_value dec_Catalog.
#[global] Instance Document_decode : JsonDecode Document := decode_value dec_Document.
#[global] Instance Envelope_decode : JsonDecode Envelope := decode_value dec_Envelope.
#[global] Instance State_decode : JsonDecode State := decode_value dec_State.
#[global] Instance Lock_decode : JsonDecode Lock := decode_value dec_Lock.
#[global] Instance registerRequest_decode : JsonDecode registerRequest := decode_value dec_registerRequest.
#[global] Instance testResultRequest_decode : JsonDecode testResultRequest := decode_value dec_testResultRequest.
#[global] Instance registerRequest_stream : JsonStream registerRequest := reads_on dec_registerRequest.
#[global] Instance testResultRequest_stream : JsonStream testResultRequest := reads_on dec_testResultRequest.

(** ** Typed values *)

Definition utf8 (s : string) : Prop := ValidString s = true.

Definition typed_KeyGrant (g : KeyGrant) : Prop := utf8 (kg_KeyID g) ∧ utf8 (kg_PublicKey g) ∧ grant_u64 g.
Definition typed_KeyPolicy (p : KeyPolicy) : Prop :=
  is_u64 (kp_Version p) ∧ utf8 (kp_RootKeyID p) ∧ Forall typed_KeyGrant (kp_Keys p) ∧ utf8 (kp_Signature p).
Definition typed_DiscoveryEndpoint (d : DiscoveryEndpoint) : Prop :=
  utf8 (de_ID d) ∧ utf8 (de_URL d) ∧ is_u16 (de_Priority d).
Definition typed_Endpoint (e : Endpoint) : Prop :=
  utf8 (ep_ID e) ∧ utf8 (ep_Transport e) ∧ utf8 (ep_Address e) ∧ utf8 (ep_ServerName e) ∧
  utf8 (ep_CredentialRef e) ∧ is_u16 (ep_Priority e).
Definition typed_Node (n : Node) : Prop :=
  utf8 (nd_ID n) ∧ utf8 (nd_Region n) ∧ utf8 (nd_CountryCode n) ∧ utf8 (nd_Provider n) ∧ is_u32 (nd_ASN n) ∧
  Forall typed_Endpoint (nd_Endpoints n).
Definition typed_Catalog (c : Catalog) : Prop :=
  is_u64 (cat_Revision c) ∧ Forall typed_DiscoveryEndpoint (cat_Discovery c) ∧ Forall typed_Node (cat_Nodes c).
Definition typed_Document (d : Document) : Prop :=
  - 2 ^ 63 <= doc_SchemaVersion d < 2 ^ 63 ∧ is_u64 (doc_Version d) ∧ is_u64 (doc_CatalogRevision d) ∧
  typed_KeyPolicy (doc_KeyPolicy d) ∧ Forall typed_DiscoveryEndpoint (doc_Discovery d) ∧
  Forall typed_Node (doc_Nodes d).
Definition typed_Envelope (e : Envelope) : Prop :=
  utf8 (env_Algorithm e) ∧ utf8 (env_KeyID e) ∧ utf8 (env_Payload e) ∧ utf8 (env_Signature e).
Definition typed_State (s : State) : Prop :=
  utf8 (st_KeyID s) ∧ is_u64 (st_KeyEpoch s) ∧ is_u64 (st_PolicyVersion s) ∧ utf8 (st_PolicySHA256 s) ∧
  is_u64 (st_LastVersion s) ∧ is_u64 (st_CatalogRevision s) ∧ utf8 (st_CatalogSHA256 s).
Definition typed_Artifact (a : Artifact) : Prop :=
  utf8 (ar_Name a) ∧ utf8 (ar_FileName a) ∧ utf8 (ar_Version a) ∧ utf8 (ar_Commit a) ∧ utf8 (ar_Kind a) ∧
  utf8 (ar_URL a) ∧ utf8 (ar_SHA256 a) ∧ - 2 ^ 63 <= ar_MaxBytes a < 2 ^ 63 ∧ utf8 (ar_Purpose a).
Definition typed_Lock (l : Lock) : Prop :=
  - 2 ^ 63 <= lk_SchemaVersion l < 2 ^ 63 ∧ utf8 (lk_EvidenceCutoff l) ∧ Forall typed_Artifact (lk_Artifacts l).

(** Inverts a struct decoder into its fields. *)
Ltac invert_struct H :=
  apply dec_struct_inv in H as [? H];
  repeat match type of H with
  | _ <*> _ = Some _ => apply ap_Some in H as (? & ? & H & ? & ?)
  | Some _ = Some _ => injection H as H
  end; subst; cbn.

(** The inversion lemma of a list of structs needs that of its elements. *)
Create HintDb typed.

Ltac typed_fields :=
  repeat match goal with
  | H : dec_string _ = Some _ |- _ => apply dec_string_inv in H
  | H : dec_uint _ _ = Some _ |- _ => apply dec_uint_inv in H; [|lia]
  | H : dec_int _ _ = Some _ |- _ => apply dec_int_inv in H; [|lia]
  end; hnf; split_and!; cbn; try done; try lia; try (by eauto with typed); try (by split);
  match goal with H : dec_slice _ _ = Some _ |- Forall _ _ => by eapply dec_slice_inv, H; eauto with typed end.

Lemma dec_KeyGrant_typed l g : dec_KeyGrant l = Some g → typed_KeyGrant g.
Proof. intros Hd. invert_struct Hd. typed_fields. Qed.
#[export] Hint Resolve dec_KeyGrant_typed : typed.

Lemma dec_KeyPolicy_typed l p : dec_KeyPolicy l = Some p → typed_KeyPolicy p.
Proof. intros Hd. invert_struct Hd. typed_fields. Qed.
#[export] Hint Resolve dec_KeyPolicy_typed : typed.

Lemma dec_DiscoveryEndpoint_typed l d : dec_DiscoveryEndpoint l = Some d → typed_DiscoveryEndpoint d.
Proof. intros Hd. invert_struct Hd. typed_fields. Qed.
#[export] Hint Resolve dec_DiscoveryEndpoint_typed : typed.

Lemma dec_Endpoint_typed l e : dec_Endpoint l = Some e → typed_Endpoint e.
Proof. intros Hd. invert_struct Hd. typed_fields. Qed.
#[export] Hint Resolve dec_Endpoint_typed : typed.

Lemma dec_Node_typed l n : dec_Node l = Some n → typed_Node n.
Proof. intros Hd. invert_struct Hd. typed_fields. Qed.
#[export] Hint Resolve dec_Node_typed : typed.

Lemma dec_Catalog_typed l c : dec_Catalog l = Some c → typed_Catalog c.
Proof. intros Hd. invert_struct Hd. typed_fields. Qed.

Lemma dec_Document_typed l d : dec_Document l = Some d → typed_Document d.
Proof. intros Hd. invert_struct Hd. typed_fields. Qed.

Lemma dec_Envelope_typed l e : dec_Envelope l = Some e → typed_Envelope e.
Proof. intros Hd. invert_struct Hd. typed_fields. Qed.

Lemma dec_State_typed l s : dec_State l = Some s → typed_State s.
Proof. intros Hd. invert_struct Hd. typed_fields. Qed.

Lemma dec_Artifact_typed l a : dec_Artifact l = Some a → typed_Artifact a.
Proof. intros Hd. invert_struct Hd. typed_fields. Qed.
#[export] Hint Resolve dec_Artifact_typed : typed.

Lemma dec_Lock_typed l k : dec_Lock l = Some k → typed_Lock k.
Proof. intros Hd. invert_struct Hd. typed_fields. Qed.

(** ** Values are printable *)

Lemma printable_JInt d z : printable_json d (JInt z).
Proof. constructor. apply pretty_number_literal. Qed.

Lemma printable_map {A} d (f : A → json) l :
  0 < d → (∀ x, printable_json (d - 1) (f x)) → printable_json d (JArr (f <$> l)).
Proof. intros Hd Hf. constructor; [done|]. apply Forall_fmap, Forall_true. intros x. apply Hf. Qed.

Create HintDb printable.
#[export] Hint Resolve printable_JInt printable_str printable_bool : printable.

Ltac printable_fields :=
  constructor; [lia|]; rewrite ?Forall_cons; cbn [snd]; split_and?; eauto with printable; try apply Forall_nil_2.

Lemma printable_KeyGrant d g : 1 <= d → printable_json d (json_KeyGrant g).
Proof. intros Hd. printable_fields. Qed.

Lemma printable_KeyPolicy d p : 3 <= d → printable_json d (json_KeyPolicy p).
Proof.
  intros Hd. printable_fields. apply printable_map; [lia|]. intros g. apply printable_KeyGrant. lia.
Qed.

Lemma printable_DiscoveryEndpoint d e : 1 <= d → printable_json d (json_DiscoveryEndpoint e).
Proof. intros Hd. printable_fields. Qed.

Lemma printable_Endpoint d e : 1 <= d → printable_json d (json_Endpoint e).
Proof. intros Hd. unfold json_Endpoint. case_bool_decide; cbn; printable_fields. Qed.

Lemma printable_Node d n : 3 <= d → printable_json d (json_Node n).
Proof. intros Hd. printable_fields. apply printable_map; [lia|]. intros e. apply printable_Endpoint. lia. Qed.

Lemma printable_Catalog d c : 5 <= d → printable_json d (json_Catalog c).
Proof.
  intros Hd. printable_fields; apply printable_map; try lia; intros x;
    [apply printable_DiscoveryEndpoint|apply printable_Node]; lia.
Qed.

Lemma JTime_str t j : JTime t = Some j → ∃ s, format_time t = Some s ∧ j = JStr s.
Proof. unfold JTime. rewrite fmap_Some. naive_solver. Qed.

Lemma printable_Document d doc j : 5 <= d → json_Document doc = Some j → printable_json d j.
Proof.
  intros Hd (issued & (s1 & _ & ->)%JTime_str & (expires & (s2 & _ & ->)%JTime_str & [= <-])%bind_Some)%bind_Some.
  printable_fields.
  - apply printable_KeyPolicy. lia.
  - apply printable_map; [lia|]. intros x. apply printable_DiscoveryEndpoint. lia.
  - apply printable_map; [lia|]. intros x. apply printable_Node. lia.
Qed.

Lemma printable_State d s j : 1 <= d → json_State s = Some j → printable_json d j.
Proof. intros Hd (issued & (t & _ & ->)%JTime_str & [= <-])%bind_Some. printable_fields. Qed.

(** ** Values are read back *)

(** The bytes of a printed time are the time's, without an escape. *)
Definition plain (c : ascii) : bool := alnum c || one_of "-_:." c.

Lemma escape_plain html s : all_bytes plain s = true → escape_string html O true s = s.
Proof.
  induction s as [|c s IH]; [done|]. cbn [all_bytes]. intros [Hc Hs]%andb_true_iff. cbn [escape_string].
  pose proof (byte_cases (λ c, implb (plain c) ((ord c <? 128) && String.eqb (escape_ascii html c) (String c ""))) c)
    as Hall. cbn beta in Hall. rewrite Hc in Hall. cbn [implb] in Hall.
  apply andb_true_iff in Hall as [Ha Heq%String.eqb_eq]; [|by destruct html].
  by rewrite Ha, Heq, IH, str_app_cons, str_app_nil_l.
Qed.

Lemma zero_pad_plain w n : all_bytes plain (zero_pad w n) = true.
Proof.
  revert n. induction w as [|w IH]; intros n; [done|]. cbn [zero_pad]. rewrite all_bytes_app, IH. cbn [all_bytes andb].
  destruct (digit_byte (n mod 10)) as [Hd _]; [apply Z.mod_pos_bound; lia|]. unfold plain, alnum. by rewrite Hd, orb_true_r.
Qed.

Lemma trim_fraction_plain w n : all_bytes plain (trim_fraction w n) = true.
Proof.
  revert n. induction w as [|w IH]; intros n; [done|]. cbn [trim_fraction]. repeat case_match; [done|apply IH|].
  by rewrite all_bytes_app, zero_pad_plain.
Qed.

Lemma format_time_plain t s : format_time t = Some s → all_bytes plain s = true.
Proof.
  unfold format_time. destruct (civil _) as [[y m] d]. destruct (_ || _); [done|]. intros Hx.
  match type of Hx with Some ?x = Some s => assert (s = x) as -> by congruence end.
  by rewrite !all_bytes_app, !zero_pad_plain, trim_fraction_plain.
Qed.

Lemma dec_time_print html t j : JTime t = Some j → dec_time [tree_of html j] = Some t.
Proof.
  intros (s & Hf & ->)%JTime_str. unfold dec_time. rewrite dec_scalar_one by done. cbn [tree_of].
  rewrite escape_plain by (by eapply format_time_plain). by apply parse_format.
Qed.

(** Evaluates a struct decoder on the printed struct. *)
Ltac read_fields :=
  rewrite dec_struct_print by (reflexivity || (intros ?? Hext; rewrite !Hext; reflexivity));
  cbn [printed_values omap list_omap String.eqb Ascii.eqb Bool.eqb fst snd];
  rewrite ?dec_string_print, ?dec_uint_print, ?dec_int_print by (done || lia).

Lemma read_KeyGrant html g : typed_KeyGrant g → dec_KeyGrant [tree_of html (json_KeyGrant g)] = Some g.
Proof.
  intros (Hk & Hp & [He Hb Ha]). unfold dec_KeyGrant, json_KeyGrant, is_u64 in *. read_fields. by destruct g.
Qed.

Lemma read_slice {T} (P : T → Prop) (d : Dec T) html (f : T → json) l :
  (∀ x, P x → d [tree_of html (f x)] = Some x) → Forall P l → dec_slice d [tree_of html (JArr (f <$> l))] = Some l.
Proof. intros Hd Hl. apply dec_slice_print. by eapply Forall_impl. Qed.

Lemma read_KeyPolicy html p : typed_KeyPolicy p → dec_KeyPolicy [tree_of html (json_KeyPolicy p)] = Some p.
Proof.
  intros (Hv & Hr & Hk & Hs). unfold dec_KeyPolicy, json_KeyPolicy, is_u64 in *. read_fields.
  rewrite (read_slice typed_KeyGrant) by (done || apply read_KeyGrant). by destruct p.
Qed.

Lemma read_DiscoveryEndpoint html d : typed_DiscoveryEndpoint d →
  dec_DiscoveryEndpoint [tree_of html (json_DiscoveryEndpoint d)] = Some d.
Proof.
  intros (Hi & Hu & Hp). unfold dec_DiscoveryEndpoint, json_DiscoveryEndpoint, is_u16 in *. read_fields.
  by destruct d.
Qed.

Lemma read_Endpoint html e : typed_Endpoint e → dec_Endpoint [tree_of html (json_Endpoint e)] = Some e.
Proof.
  intros (Hi & Ht & Ha & Hs & Hc & Hp). unfold dec_Endpoint, json_Endpoint, is_u16 in *.
  case_bool_decide as Hn; cbn [app]; read_fields; destruct e; cbn in *; [by subst|done].
Qed.

Lemma read_Node html n : typed_Node n → dec_Node [tree_of html (json_Node n)] = Some n.
Proof.
  intros (Hi & Hr & Hc & Hp & Ha & He). unfold dec_Node, json_Node, is_u32 in *. read_fields.
  rewrite (read_slice typed_Endpoint) by (done || apply read_Endpoint). by destruct n.
Qed.

Lemma read_Catalog html c : typed_Catalog c → dec_Catalog [tree_of html (json_Catalog c)] = Some c.
Proof.
  intros (Hr & Hd & Hn). unfold dec_Catalog, json_Catalog, is_u64 in *. read_fields.
  rewrite (read_slice typed_DiscoveryEndpoint) by (done || apply read_DiscoveryEndpoint).
  rewrite (read_slice typed_Node) by (done || apply read_Node). by destruct c.
Qed.

Lemma read_Document html doc j : typed_Document doc → json_Document doc = Some j →
  dec_Document [tree_of html j] = Some doc.
Proof.
  intros (Hs & Hv & Hr & Hk & Hd & Hn) (issued & Hi & (expires & He & [= <-])%bind_Some)%bind_Some.
  unfold dec_Document, is_u64 in *. read_fields.
  rewrite (dec_time_print html _ _ Hi), (dec_time_print html _ _ He), read_KeyPolicy by done.
  rewrite (read_slice typed_DiscoveryEndpoint) by (done || apply read_DiscoveryEndpoint).
  rewrite (read_slice typed_Node) by (done || apply read_Node). by destruct doc.
Qed.

Lemma read_Envelope html e : typed_Envelope e → dec_Envelope [tree_of html (json_Envelope e)] = Some e.
Proof. intros (Ha & Hk & Hp & Hs). unfold dec_Envelope, json_Envelope. read_fields. by destruct e. Qed.

Lemma read_State html s j : typed_State s → json_State s = Some j → dec_State [tree_of html j] = Some s.
Proof.
  intros (Hk & He & Hp & Hd & Hv & Hc & Hs) (issued & Hi & [= <-])%bind_Some.
  unfold dec_State, is_u64 in *. read_fields. rewrite (dec_time_print html _ _ Hi). by destruct s.
Qed.

(** ** Texts without an escape *)

Lemma plain_utf8 s : all_bytes plain s = true → utf8 s.
Proof.
  unfold utf8. induction s as [|c s IH]; [done|]. cbn [all_bytes]. intros [Hc Hs]%andb_true_iff.
  apply ValidString_ascii; [|by apply IH].
  pose proof (byte_cases (λ c, implb (plain c) (ord c <? 128)) c eq_refl) as Hall. cbn beta in Hall.
  rewrite Hc in Hall. by apply Z.ltb_lt.
Qed.

Lemma EncodeToString_plain s : all_bytes plain (EncodeToString RawURLEncoding s) = true.
Proof. apply EncodeToString_chars. by vm_compute. Qed.

Lemma digest_utf8 s : utf8 (digest s).
Proof. apply plain_utf8, EncodeToString_plain. Qed.

Lemma len_quoted html s : all_bytes plain s = true → len (quoted html s) = len s + 2.
Proof.
  intros Hs. unfold quoted. rewrite escape_plain by done.
  unfold len. rewrite str_length_cons, str_length_app. cbn. lia.
Qed.

Lemma len_print_Envelope e :
  all_bytes plain (env_Algorithm e +:+ env_KeyID e +:+ env_Payload e +:+ env_Signature e) = true →
  len (print (json_Envelope e)) =
    len (env_Algorithm e) + len (env_KeyID e) + len (env_Payload e) + len (env_Signature e) + 56.
Proof.
  intros Hp. rewrite !all_bytes_app, !andb_true_iff in Hp. destruct Hp as (Ha & Hk & Hpl & Hs).
  unfold print, json_Envelope. cbn [print_with map join fst snd].
  rewrite !len_app, !(len_quoted true (env_Algorithm e)), !(len_quoted true (env_KeyID e)),
    !(len_quoted true (env_Payload e)), !(len_quoted true (env_Signature e)) by done.
  change (len (quoted true "algorithm")) with 11. change (len (quoted true "key_id")) with 8.
  change (len (quoted true "payload")) with 9. change (len (quoted true "signature")) with 11.
  change (len "{") with 1. change (len "}") with 1. change (len ":") with 1. change (len ",") with 1. lia.
Qed.

(** ** Canonical documents *)

Lemma typed_canonicalKeyPolicy p : typed_KeyPolicy p → typed_KeyPolicy (canonicalKeyPolicy p).
Proof.
  intros (Hv & Hr & Hk & Hs). split_and!; try done. cbn. by rewrite canonicalKeyGrants_perm.
Qed.

Lemma typed_canonicalNodes l : Forall typed_Node l → Forall typed_Node (canonicalNodes l).
Proof.
  intros Hl. unfold canonicalNodes. rewrite (sort_by_perm node_key). apply Forall_fmap.
  eapply Forall_impl; [done|]. intros n (Hi & Hr & Hc & Hp & Ha & He). split_and!; try done.
  cbn. by rewrite (sort_by_perm endpoint_key).
Qed.

Lemma typed_issuedDocument catalog version policy now ttl :
  typed_Catalog catalog → typed_KeyPolicy policy → is_u64 version →
  typed_Document (issuedDocument catalog version policy now ttl).
Proof.
  intros (Hr & Hd & Hn) Hp Hv. split_and!; cbn; try done; [by apply typed_canonicalKeyPolicy| |].
  - by rewrite canonicalDiscovery_perm.
  - by apply typed_canonicalNodes.
Qed.

(** ** Documents, states and envelopes on the wire *)

Lemma document_reads_back doc j rest : typed_Document doc → json_Document doc = Some j → skip_space rest = "" →
  Envelope.decodeStrict (print j +:+ rest) = Ok doc.
Proof.
  intros Ht Hj Hr. apply (decode_one_print dec_Document); [done| |done|by apply read_Document].
  by eapply printable_Document.
Qed.

Lemma policy_reads_back p rest : typed_KeyPolicy p → skip_space rest = "" →
  Envelope.decodeStrict (print (json_KeyPolicy p) +:+ rest) = Ok p.
Proof.
  intros Ht Hr. apply (decode_one_print dec_KeyPolicy); [done| |done|by apply read_KeyPolicy].
  by apply printable_KeyPolicy.
Qed.

Lemma state_reads_back s data : typed_State s → encodeState s = Some data →
  Issuance.decodeStrict data = Ok s.
Proof.
  intros Ht (j & Hj & [= <-])%bind_Some. apply (decode_one_print dec_State); [done| |done|by apply read_State].
  by eapply printable_State.
Qed.

Lemma envelope_reads_back e rest : typed_Envelope e → skip_space rest = "" →
  Envelope.decodeStrict (print (json_Envelope e) +:+ rest) = Ok e.
Proof.
  intros Ht Hr. apply (decode_one_print dec_Envelope); [done| |done|by apply read_Envelope].
  unfold maxNestingDepth, json_Envelope. printable_fields.
Qed.

(** An issued envelope is a valid body of a response. *)
Lemma issued_envelope_decodes `{Ed25519Laws} catalog version policy root now ttl key e payload pd g :
  issued catalog version policy root now ttl key e payload pd g →
  DecodeEnvelope (mkReader (encode_line (Some (json_Envelope e))) None) = Ok e.
Proof.
  intros [Hk _ _ _ _ Hsz ->].
  assert (len (ed25519_Sign key payload) = SignatureSize) as Hsl.
  { apply validEd25519PrivateKey_inv in Hk as (Hlen & _). by apply ed25519_Sign_len. }
  set (e := mkEnvelope _ _ _ _).
  assert (all_bytes plain (env_Algorithm e +:+ env_KeyID e +:+ env_Payload e +:+ env_Signature e) = true) as Hplain.
  { unfold e. cbn [env_Algorithm env_KeyID env_Payload env_Signature]. rewrite !all_bytes_app.
    unfold KeyID, digest. rewrite !EncodeToString_plain. done. }
  assert (typed_Envelope e) as Ht.
  { rewrite !all_bytes_app, !andb_true_iff in Hplain. destruct Hplain as (? & ? & ? & ?).
    split_and!; by apply plain_utf8. }
  assert (len (print (json_Envelope e)) = EncodedLen RawURLEncoding (len payload) + 192) as Hlen.
  { rewrite len_print_Envelope by done. unfold e. cbn [env_Algorithm env_KeyID env_Payload env_Signature].
    unfold KeyID, digest. rewrite !(len_EncodeToString RawURLEncoding), len_Sum256, Hsl.
    change (EncodedLen RawURLEncoding 32) with 43. change (EncodedLen RawURLEncoding SignatureSize) with 86.
    change (len Algorithm) with 7. lia. }
  pose proof (EncodedLen_mono (len payload) maxManifestBytes ltac:(lia)) as Hmono.
  assert (0 <= EncodedLen RawURLEncoding (len payload)) as Hpos by (unfold EncodedLen; simpl; divlia).
  unfold DecodeEnvelope, encode_line. cbv zeta.
  set (body := print (json_Envelope e) +:+ newline).
  assert (len body = EncodedLen RawURLEncoding (len payload) + 193) as Hbody.
  { unfold body. rewrite len_app, Hlen. change (len newline) with 1. lia. }
  unfold ReadAllLimited. cbn [reader_content reader_failure].
  set (limit := EncodedLen RawURLEncoding maxManifestBytes) in *. clearbody limit.
  destruct (Z.leb_spec (limit + 1024 + 1) (len body)); [lia|]. cbn [wrap mbind result_bind].
  rewrite Hbody. destruct (Z.eqb_spec (EncodedLen RawURLEncoding (len payload) + 193) 0); [lia|].
  rewrite Z.gtb_ltb. destruct (Z.ltb_spec (limit + 1024) (EncodedLen RawURLEncoding (len payload) + 193)); [lia|].
  cbn [orb fail_if mbind result_bind]. unfold body. by rewrite envelope_reads_back.
Qed.

Lemma decode_value_Ok {T} (d : Dec T) data v rest : decode_value d data = Ok (v, rest) → ∃ t, d [t] = Some v.
Proof.
  unfold decode_value. destruct (next_value data) as [t r| |]; [|done..].
  destruct (d [t]) as [u|] eqn:E; [|done]. intros [= <- <-]. eauto.
Qed.

(** ** The size of a state file *)

Lemma pretty_N_go_length k x s : (x < 10 ^ N.of_nat k)%N →
  (String.length (pretty_N_go x s) <= k + String.length s)%nat.
Proof.
  revert x s. induction k as [|k IH]; intros x s Hx.
  - assert (x = 0)%N as -> by (cbn in Hx; lia). by rewrite pretty_N_go_0.
  - destruct (decide (0 < x)%N) as [Hp|Hp].
    + rewrite pretty_N_go_step by done.
      specialize (IH (x / 10)%N (String (pretty_N_char (x `mod` 10)) s)). cbn [String.length] in IH.
      assert (x / 10 < 10 ^ N.of_nat k)%N as Hd.
      { apply N.Div0.div_lt_upper_bound. rewrite Nat2N.inj_succ, N.pow_succ_r' in Hx. lia. }
      specialize (IH Hd). lia.
    + assert (x = 0)%N as -> by lia. rewrite pretty_N_go_0. lia.
Qed.

Lemma pretty_u64_length z : is_u64 z → len (pretty z) <= 20.
Proof.
  intros [Hz0 Hz1]. assert (∃ n : N, z = Z.of_N n) as [n ->] by (exists (Z.to_N z); lia).
  unfold len. enough (String.length (pretty (Z.of_N n)) <= 20)%nat by lia.
  destruct n as [|p]; [vm_compute; lia|]. change (pretty (Z.of_N (N.pos p))) with (pretty (N.pos p)).
  unfold pretty, pretty_N. case_decide; [done|].
  pose proof (pretty_N_go_length 20 (N.pos p) "") as Hl. cbn [String.length] in Hl. rewrite Nat.add_0_r in Hl.
  apply Hl. change (10 ^ N.of_nat 20)%N with 100000000000000000000%N. lia.
Qed.

Lemma len_zero_pad width n : len (zero_pad width n) = Z.of_nat width.
Proof.
  revert n. induction width as [|width IH]; intros n; [done|]. cbn [zero_pad]. rewrite len_app, IH.
  change (len (String _ "")) with 1. lia.
Qed.

Lemma len_trim_fraction width n : len (trim_fraction width n) <= Z.of_nat width + 1.
Proof.
  revert n. induction width as [|width IH]; intros n; [done|]. cbn [trim_fraction].
  destruct (n =? 0); [change (len "") with 0; lia|]. destruct (_ =? 0); [specialize (IH (n / 10)); lia|].
  rewrite len_app, len_zero_pad. change (len ".") with 1. lia.
Qed.

Lemma len_format_time t s : format_time t = Some s → len s <= 30.
Proof.
  unfold format_time. destruct (civil _) as [[y m] d]. destruct (_ || _); [done|]. intros Hs.
  apply (inj Some) in Hs as <-. rewrite !len_app, !len_zero_pad. pose proof (len_trim_fraction 9 (t mod Second)) as Hf.
  repeat match goal with |- context [len (String ?c ?r)] =>
    let n := eval vm_compute in (len (String c r)) in change (len (String c r)) with n end. lia.
Qed.

(** What the issuer writes: its identifiers are digests, its counters are of type [uint64]. *)
Record issuer_state (s : State) : Prop := {
  ist_key : ∃ x, st_KeyID s = digest x;
  ist_policy : ∃ x, st_PolicySHA256 s = digest x;
  ist_catalog : ∃ x, st_CatalogSHA256 s = digest x;
  ist_epoch : is_u64 (st_KeyEpoch s);
  ist_policyVersion : is_u64 (st_PolicyVersion s);
  ist_version : is_u64 (st_LastVersion s);
  ist_revision : is_u64 (st_CatalogRevision s)
}.

Lemma issuer_state_typed s : issuer_state s → typed_State s.
Proof.
  intros [[x Hx] [y Hy] [z Hz] ? ? ? ?]. unfold typed_State. rewrite Hx, Hy, Hz. split_and!; try done; apply digest_utf8.
Qed.

Lemma issuer_state_length s data : issuer_state s → encodeState s = Some data → len data <= 512.
Proof.
  intros [[x Hx] [y Hy] [z Hz] He Hp Hv Hr] (j & (issued & (text & Ht & Hj)%fmap_Some & Hjs)%bind_Some & Hdata)%bind_Some.
  apply (inj Some) in Hdata as <-. apply (inj Some) in Hjs as <-. subst issued.
  pose proof (len_format_time _ _ Ht) as Hlt. pose proof (format_time_plain _ _ Ht) as Hpt.
  apply pretty_u64_length in He, Hp, Hv, Hr. rewrite Hx, Hy, Hz.
  cbn [print_with map join fst snd JInt]. rewrite !len_app.
  rewrite (len_quoted false (digest x)), (len_quoted false (digest y)), (len_quoted false (digest z)),
    (len_quoted false text) by (done || apply EncodeToString_plain).
  rewrite !len_digest. clear -Hlt He Hp Hv Hr.
  set (a := len text) in *. set (b := len (pretty (st_KeyEpoch s))) in *. set (c := len (pretty (st_PolicyVersion s))) in *.
  set (d := len (pretty (st_LastVersion s))) in *. set (e := len (pretty (st_CatalogRevision s))) in *.
  clearbody a b c d e.
  repeat match goal with |- context [len ?s] => let n := eval vm_compute in (len s) in change (len s) with n end.
  lia.
Qed.

(** A private directory with the file of a saved state loads. *)
Lemma Load_saved store state data w f :
  issuer_state state → validate state false = Ok tt → encodeState state = Some data →
  fs_Path store ≠ "" → w_outcomes w = [] → private_dir store w →
  w_files w !! fs_Path store = Some f → f_data f = data → f_regular f = true → f_perm f = 384 →
  Issuance.Load store w = (Ret (Some state), w).
Proof.
  intros Hi Hv He Hpath Hq Hd Hf Hdata Hreg Hperm. apply (Load_file _ _ f); try done; rewrite ?Hdata.
  - pose proof (encodeState_nonempty _ _ He). pose proof (issuer_state_length _ _ Hi He).
    change maxStateBytes with 16384. lia.
  - by apply state_reads_back; [apply issuer_state_typed|].
  - by apply validate_legacy.
Qed.

(** A decoded value has the property that its decoder guarantees. *)
Lemma decode_typed {T} (P : T → Prop) (d : Dec T) data v rest :
  (∀ l u, d l = Some u → P u) → decode_value d data = Ok (v, rest) → P v.
Proof. intros Hd (t & Ht)%decode_value_Ok. by eapply Hd. Qed.

(** ** Claims *)

(** C8: a state that the issuer has saved is read back.  Take a state as the issuer writes it:
    three digests, four counters of type [uint64] and a time.  When [Save] reports it as saved,
    [Load] returns exactly that state, from the file that the encoder wrote and through the
    decoder and the size limit that it has; and so it does after a loss of power at any later
    moment, provided that the state directory itself had reached the disk
    ([first_save_may_vanish] shows why that is needed). *)
Theorem saved_state_survives store state w w1 :
  not_temporary store → issuer_state state → Save store state w = (Ret tt, w1) →
  (w_outcomes w1 = [] → Issuance.Load store w1 = (Ret (Some state), w1)) ∧
  ∀ d w2, w_dirs w !! filepath_Dir (fs_Path store) = Some d → d_synced d = true →
    power_loss w1 w2 → w_outcomes w2 = [] → Issuance.Load store w2 = (Ret (Some state), w2).
Proof.
  intros Hnt Hi HS.
  pose proof (Save_spec store state w Hnt) as Hsp. unfold wp in Hsp. rewrite HS in Hsp.
  destruct Hsp as (data & Hv & He & Hgrow & Hdir & Hposs).
  assert (fs_Path store ≠ "") as Hpath by (intros Hempty; unfold Save in HS; by rewrite Hempty in HS).
  split.
  - intros Hq. eapply (Load_saved _ _ data _ (stateFile data)); try done. unfold possible in Hposs. by injection Hposs.
  - intros d w2 Hd Hsync HP Hq. destruct Hdir as (d' & Hd1 & Hperm).
    rewrite (Hgrow _ _ Hd) in Hd1. injection Hd1 as <-.
    pose proof (pl_dirs _ _ HP (filepath_Dir (fs_Path store))) as Hd2.
    rewrite (Hgrow _ _ Hd) in Hd2. unfold dir_survives in Hd2.
    destruct (w_dirs w2 !! _) as [d2|] eqn:Ed2; [subst d2|congruence].
    destruct (pl_files _ _ HP (fs_Path store)) as (o & Ho & Hsv); [by rewrite Ed2|].
    rewrite Hposs in Ho. apply list_elem_of_singleton in Ho as ->.
    unfold survives in Hsv. destruct (w_files w2 !! _) as [f|] eqn:Ef; [|done].
    destruct Hsv as (Hdata & _ & Hreg & Hfp). specialize (Hdata eq_refl).
    eapply (Load_saved _ _ data _ f); try done. by eexists.
Qed.

(** C24: typed values survive the trip through JSON.  The strict decoders of the packages
    read back exactly what the encoder wrote: documents (with their times to the
    nanosecond), key policies, envelopes, and the state file with its final newline and
    without HTML escapes. *)
Theorem typed_values_round_trip :
  (∀ d j, typed_Document d → json_Document d = Some j → Envelope.decodeStrict (print j) = Ok d) ∧
  (∀ p, typed_KeyPolicy p → Envelope.decodeStrict (print (json_KeyPolicy p)) = Ok p) ∧
  (∀ e, typed_Envelope e → Envelope.decodeStrict (encode_line (Some (json_Envelope e))) = Ok e) ∧
  (∀ s data, typed_State s → encodeState s = Some data → Issuance.decodeStrict data = Ok s).
Proof.
  split_and!.
  - intros d j Ht Hj. rewrite <-(str_app_nil_r (print j)). by apply document_reads_back.
  - intros p Ht. rewrite <-(str_app_nil_r (print _)). by apply policy_reads_back.
  - intros e Ht. by apply envelope_reads_back.
  - apply state_reads_back.
Qed.

(** C7: a client that follows the service is never locked out, not even across a key
    rotation.  Take two manifests issued at increasing versions under one policy, by the
    same key or by different ones, from decoded catalogs and policies: the bodies that the
    API sends decode to the envelopes, a fresh client accepts the first, and the state it
    then has accepts the second, when each is read within its validity window. *)
Theorem served_manifests_are_accepted `{Ed25519Laws}
    policy root c1 v1 now1 ttl1 key1 e1 at1 c2 v2 now2 ttl2 key2 e2 at2 :
  let d1 := issuedDocument c1 v1 policy now1 ttl1 in
  let d2 := issuedDocument c2 v2 policy now2 ttl2 in
  let body e := mkReader (encode_line (Some (json_Envelope e))) None in
  Envelope.Issue c1 v1 policy root now1 ttl1 key1 = Ok e1 →
  Envelope.Issue c2 v2 policy root now2 ttl2 key2 = Ok e2 →
  typed_KeyPolicy policy → typed_Catalog c1 → typed_Catalog c2 → 0 <= v1 < v2 ∧ v2 < 2 ^ 64 → now1 <= now2 →
  key_id_unique policy key1 → key_id_unique policy key2 →
  doc_IssuedAt d1 - allowedClockSkew <= at1 < doc_ExpiresAt d1 →
  doc_IssuedAt d2 - allowedClockSkew <= at2 < doc_ExpiresAt d2 →
  DecodeEnvelope (body e1) = Ok e1 ∧ DecodeEnvelope (body e2) = Ok e2 ∧
  ∃ t1 t2, Verify e1 root at1 zero_state = Ok (d1, t1) ∧ Verify e2 root at2 t1 = Ok (d2, t2).
Proof.
  intros d1 d2 body HI1 HI2 Hp Hc1 Hc2 Hv Hn Hk1 Hk2 Hw1 Hw2.
  destruct (Issue_inv _ _ _ _ _ _ _ _ Hk1 HI1) as (p1 & pd1 & g1 & Hi1).
  destruct (Issue_inv _ _ _ _ _ _ _ _ Hk2 HI2) as (p2 & pd2 & g2 & Hi2).
  assert (∀ c v now ttl key e p pd g, typed_Catalog c → is_u64 v →
    issued c v policy root now ttl key e p pd g → reads_back (issuedDocument c v policy now ttl)) as Hback.
  { intros c v now ttl key e p pd g Hc Hu [_ _ _ _ Hpl _ _].
    destruct (json_Document _) as [j|] eqn:Hj; [|done]. exists j. split; [done|].
    rewrite <-(str_app_nil_r (print j)). apply document_reads_back; [by apply typed_issuedDocument|done..]. }
  split; [exact (issued_envelope_decodes _ _ _ _ _ _ _ _ _ _ _ Hi1)|].
  split; [exact (issued_envelope_decodes _ _ _ _ _ _ _ _ _ _ _ Hi2)|].
  assert (is_u64 v1 ∧ is_u64 v2) as [Hu1 Hu2] by (unfold is_u64; lia).
  assert (policy_u64 policy) as Hu64.
  { destruct Hp as (Hu & _ & Hg & _). split; [done|]. eapply Forall_impl; [done|]. by intros g (_ & _ & Hg64). }
  apply (issued_accepted policy root c1 v1 now1 ttl1 key1 e1 at1 c2 v2 now2 ttl2 key2 e2 at2 HI1 HI2);
    [..|lia|exact Hn|exact Hu64|exact Hk1|exact Hk2|exact Hw1|exact Hw2].
  - exact (Hback _ _ _ _ _ _ _ _ _ Hc1 Hu1 Hi1).
  - exact (Hback _ _ _ _ _ _ _ _ _ Hc2 Hu2 Hi2).
Qed.

(** ** Witnesses *)

Lemma saved_state_survives_witness :
  Issuance.Load toy_store (toy_reboot (toy_after [])) = (Ret (Some toy_state), toy_reboot (toy_after [])) ∧
  Issuance.Load toy_store (toy_after []) = (Ret (Some toy_state), toy_after []).
Proof.
  destruct (saved_state_survives toy_store toy_state (toy_world []) (toy_after [])) as [Hnow Hlater].
  - vm_compute. reflexivity.
  - split; [eexists; reflexivity..|vm_compute; split; (discriminate || reflexivity)|
      vm_compute; split; (discriminate || reflexivity)|vm_compute; split; (discriminate || reflexivity)|
      vm_compute; split; (discriminate || reflexivity)].
  - vm_compute. reflexivity.
  - split.
    + apply (Hlater (mkDir 448 true)); [vm_compute; reflexivity|reflexivity|apply power_loss_settled; by_compute|reflexivity].
    + apply Hnow. vm_compute. reflexivity.
Defined.

Lemma typed_values_round_trip_witness :
  let e := mkEnvelope "Ed25519" "key<1>" "payload" "signature" in
  typed_Envelope e ∧ Envelope.decodeStrict (encode_line (Some (json_Envelope e))) = Ok e.
Proof.
  assert (typed_Envelope (mkEnvelope "Ed25519" "key<1>" "payload" "signature")) as Ht by (split_and!; vm_compute; reflexivity).
  split; [exact Ht|]. destruct typed_values_round_trip as (_ & _ & Hw & _). apply Hw, Ht.
Defined.

Lemma served_manifests_are_accepted_witness :
  DecodeEnvelope (mkReader (encode_line (Some (json_Envelope toy_e11))) None) = Ok toy_e11.
Proof.
  apply (@served_manifests_are_accepted ToyEd25519 ToyEd25519_laws toy_policy
    (Public toy_root) (toy_tiny 1) 10 toy_now toy_ttl (toy_key "A"%char) toy_e10 toy_now
    (toy_tiny 2) 11 (toy_now + Hour) toy_ttl (toy_key "B"%char) toy_e11 (toy_now + Hour)).
  3,4,5: by_compute.
  3,4,5,6: by_compute.
  all: by vm_compute.
Defined.
