(* ===== verification/ArtifactFetch.v ===== *)
(** * The artifact-fetch command and its HTTP client

    [artifactlock.NewHTTPClient] with the redirect loop of [http.Client.Do], and
    [cmd/artifact-fetch/main.go].  The transport (one exchange with a server, TLS and
    time-outs included) is a parameter: [RoundTrip] sees the requests sent before and the
    next one.  A request is its scheme and host, all that the client looks at; the
    downloads of [ArtifactLock] are made by this client ([HTTPClient]). *)

From S2P Require Import Prelude GoRegexp GoBase64 GoSha256 GoStrings GoNet GoJson GoJsonDecode GoOs SigningKey.
From S2P Require Import ArtifactLock Wire.

Record Target := mkTarget {
  tg_Scheme : string;
  tg_Host : string
}.

(** [http.NewRequestWithContext]: [url.Parse] also splits off a fragment, which leaves the
    scheme and the host as they are. *)
Definition target_of (raw : string) : result Target :=
  match ParseRequestURI raw with
  | Some u => Ok (mkTarget (url_Scheme u) (url_Host u))
  | None => Err (NewError "parse")
  end.

Definition approved_target (t : Target) : bool :=
  bool_decide (tg_Scheme t = "https") && AllowedHost (url_splitHostPort (tg_Host t)).1.

(** A response: a redirect with its location, resolved against the request, or another one. *)
Inductive reply :=
  | Redirect (location : Target)
  | Final (StatusCode ContentLength : Z) (Body : Reader).

Class Transport := RoundTrip : list Target → Target → result reply.

(** [CheckRedirect] of [NewHTTPClient]. *)
Definition CheckRedirect (request : Target) (via : list Target) : result unit :=
  fail_if (5 <=? llen via) (NewError "artifact fetch: too many redirects");;
  fail_if (negb (bool_decide (tg_Scheme request = "https")) ||
           negb (AllowedHost (url_splitHostPort (tg_Host request)).1))
    (NewError "artifact fetch: redirect target is not approved").

Section client.
Context `{Transport}.

(** The loop of [http.Client.Do]: the outcome and the requests that were sent; [None] when
    [fuel] is too small. *)
Fixpoint Do_loop (fuel : nat) (via : list Target) (request : Target) : option (result Download * list Target) :=
  match fuel with
  | O => None
  | S fuel' =>
      let via' := via ++ [request] in
      match RoundTrip via request with
      | Err e => Some (Err e, via')
      | Ok (Final status length body) =>
          Some (Ok (mkDownload status length (tg_Scheme request, tg_Host request) body), via')
      | Ok (Redirect location) =>
          match CheckRedirect location via' with
          | Err e => Some (Err e, via')
          | Ok _ => Do_loop fuel' via' location
          end
      end
  end.

(** The client as [Fetch] uses it. *)
#[local] Instance HTTPClient : Downloader := {|
  download_request url := target_of url;; Ok tt;
  download_Do url :=
    request ← target_of url;
    match Do_loop 5 [] request with
    | Some (r, _) => r
    | None => Err (NewError "out of fuel")
    end
|}.

(** [main]: the exit status and the line on the standard output. *)
Definition artifact_fetch (cwd lockPath name outputDirectory : string) : io (Z * string) := λ w,
  if bool_decide (name = "") then (Ret (2, ""), w)
  else
    match (lock ← Load lockPath;
           artifact ← io_of (Find lock name);
           Fetch cwd true artifact outputDirectory) w with
    | (Ret path, w') => (Ret (0, path), w')
    | (Throw _, w') => (Ret (1, ""), w')
    | (Halt, w') => (Halt, w')
    end.

(** ** The loop *)

Lemma CheckRedirect_Ok request via :
  CheckRedirect request via = Ok tt → (length via < 5)%nat ∧ approved_target request = true.
Proof.
  unfold CheckRedirect, approved_target, llen. intros Hc. inv_ok. split; [lia|].
  by rewrite bool_decide_eq_true_2.
Qed.

Lemma list_last_cons {A} (x d : A) l : List.last (x :: l) d = List.last l x.
Proof. revert x d. induction l as [|y l IH]; intros x d; [done|]. change (List.last (y :: l) d = List.last (y :: l) x). by rewrite !IH. Qed.

(** From any point of the loop: it ends within the requests that are left, all redirects are
    approved, and a response is that of the last request. *)
Lemma Do_loop_ends n via request fuel :
  (length via + n = 5)%nat → (0 < n)%nat → (n <= fuel)%nat →
  ∃ r redirects, Do_loop fuel via request = Some (r, via ++ request :: redirects) ∧
    (length via + 1 + length redirects <= 5)%nat ∧ Forall (λ t, approved_target t = true) redirects ∧
    ∀ d, r = Ok d → dl_URL d = let t := List.last redirects request in (tg_Scheme t, tg_Host t).
Proof.
  revert via request fuel. induction n as [|n IH]; intros via request fuel Hlen Hpos Hfuel; [lia|].
  destruct fuel as [|fuel]; [lia|]. cbn [Do_loop]. cbv zeta.
  destruct (RoundTrip via request) as [[location|status len body]|e].
  2: { eexists _, []. split_and!; [done|cbn; lia|constructor|intros d [= <-]; reflexivity]. }
  2: { eexists _, []. split_and!; [done|cbn; lia|constructor|done]. }
  destruct (CheckRedirect location (via ++ [request])) as [[]|e] eqn:Hc.
  2: { eexists _, []. split_and!; [done|cbn; lia|constructor|done]. }
  apply CheckRedirect_Ok in Hc as [Hl Ha]. rewrite length_app in Hl. cbn in Hl.
  destruct (IH (via ++ [request]) location fuel) as (r & redirects & Hr & Hn & Hall & Hd);
    [rewrite length_app; cbn; lia|lia|lia|].
  exists r, (location :: redirects). rewrite Hr, <-app_assoc. rewrite length_app in Hn. cbn in Hn.
  split_and!; [done|cbn; lia|by constructor|]. intros d Hok. by rewrite (Hd d Hok), list_last_cons.
Qed.

Lemma approved_target_of raw : approved_url raw = true → ∃ t, target_of raw = Ok t ∧ approved_target t = true.
Proof.
  unfold approved_url, target_of, approved_target. destruct (ParseRequestURI raw) as [u|]; [|done].
  rewrite !andb_true_iff. intros [[[[Hs _] _] _] Hh]. eexists. split; [done|]. cbn. by rewrite Hs.
Qed.

(** ** Claims *)

(** C21: a download ends after at most five requests, all to approved hosts.  Whatever the
    servers answer, redirect loops included, the client sends the request for a valid
    artifact and at most four redirected ones, each over HTTPS to one of the three approved
    hosts, and returns; the response that [Fetch] examines is that of the last request.
    More fuel than five requests changes nothing. *)
Theorem redirects_terminate artifact fuel :
  validateArtifact artifact = Ok tt → (5 <= fuel)%nat →
  ∃ request r requests, target_of (ar_URL artifact) = Ok request ∧
    Do_loop fuel [] request = Some (r, requests) ∧ Do_loop 5 [] request = Some (r, requests) ∧
    download_Do (ar_URL artifact) = r ∧
    head requests = Some request ∧ (length requests <= 5)%nat ∧
    Forall (λ t, tg_Scheme t = "https" ∧ AllowedHost (url_splitHostPort (tg_Host t)).1 = true) requests ∧
    ∀ d, r = Ok d → ∃ t, last requests = Some t ∧ dl_URL d = (tg_Scheme t, tg_Host t).
Proof.
  intros (_ & _ & Hu & _)%validateArtifact_inv Hfuel. apply approved_target_of in Hu as (request & Ht & Ha).
  destruct (Do_loop_ends 5 [] request 5) as (r & redirects & Hr & Hn & Hall & Hd); [done|lia|done|].
  assert (∀ f via t x, Do_loop f via t = Some x → ∀ k, Do_loop (f + k) via t = Some x) as Hmono.
  { clear. induction f as [|f IH]; intros via t x Hx k; [done|]. cbn [Do_loop Nat.add] in *.
    repeat case_match; try done. by apply IH. }
  exists request, r, (request :: redirects). split; [done|].
  assert (Do_loop fuel [] request = Some (r, request :: redirects)) as ->.
  { replace fuel with (5 + (fuel - 5))%nat by lia. by apply Hmono. }
  split_and!; [done|done| |done|cbn in *; lia| |].
  - unfold download_Do, HTTPClient. rewrite Ht. cbn [mbind result_bind]. by rewrite Hr.
  - constructor; [|eapply Forall_impl; [exact Hall|]; intros t].
    all: unfold approved_target in *; rewrite andb_true_iff, bool_decide_eq_true in *; naive_solver.
  - intros d Hok. exists (List.last redirects request). split; [|by apply Hd].
    clear. revert request. induction redirects as [|t l IH]; intros request; [done|].
    by rewrite last_cons_cons, IH, list_last_cons.
Qed.

(** What [Load] reads of the lock file. *)
Lemma Load_reads path w :
  wp (Load path) (λ lock w', w_files w' = w_files w ∧ ∃ f, w_files w !! path = Some f ∧
      decodeLock (f_data f) = Ok lock ∧ Validate lock = Ok tt) (λ w', w_files w' = w_files w) w.
Proof.
  unfold Load. apply wp_bind, wp_io_wrap, wp_sees; [|done]. intros w1 h Hw1 Hopen.
  apply wp_bind, wp_io_wrap, wp_sees; [|congruence]. intros w2 data Hw2 Hread. rewrite Hw1 in Hw2.
  destruct h as [f|d]; [|done]. injection Hread as <-.
  assert (w_files w !! path = Some f) as Hl.
  { rewrite <-Hw1. by destruct (w_files w1 !! path), (w_dirs w1 !! path); simplify_eq. }
  apply wp_bind, wp_io_of; [intros [] Hsz%fail_if_Ok|done].
  apply wp_bind, wp_io_of; [intros lock Hd|done]. apply wp_bind, wp_io_of; [intros [] Hv|done].
  apply wp_ret. split; [done|]. exists f. split_and!; [done| |done].
  rewrite str_take_all in Hd; [done|]. unfold len in Hsz. rewrite str_take_length in Hsz.
  apply orb_false_iff in Hsz as [Hs0%Z.eqb_neq Hs1]. rewrite Z.gtb_ltb in Hs1. apply Z.ltb_ge in Hs1. lia.
Qed.

(** The body of [main] after the check of its flag. *)
Lemma command_spec cwd lockPath name outputDirectory w :
  wp (lock ← Load lockPath; artifact ← io_of (Find lock name); Fetch cwd true artifact outputDirectory)
    (λ path w', ∃ file lock artifact f, w_files w !! lockPath = Some file ∧ decodeLock (f_data file) = Ok lock ∧
       Validate lock = Ok tt ∧ Find lock name = Ok artifact ∧ path = destination cwd artifact outputDirectory ∧
       w_files w !! path = None ∧ good artifact f ∧ w_files w' = <[path := f]> (w_files w))
    (λ w', w_files w ⊆ w_files w') w.
Proof.
  apply wp_bind. eapply wp_mono; [apply Load_reads| |by intros w' ->].
  intros lock w1 (Hw1 & file & Hfile & Hd & Hv). apply wp_bind, wp_io_of; [intros artifact Ha|by rewrite Hw1].
  eapply wp_mono; [apply Fetch_spec| |].
  - intros path w2 (-> & f & Hg & Hn & Hw2). rewrite Hw1 in *. eauto 12.
  - intros w2 [Hk _]. unfold kept in Hk. by rewrite Hw1 in Hk.
Qed.

(** C20: the command only publishes what the lock names.  Without a name it exits with status
    2 and touches nothing.  When it exits with status 0, the lock file decoded to a valid
    lock, the printed path is the free destination of the artifact of that name, which now
    holds a complete file with the digest and size of the lock, and no other file changed;
    however it ends, no file that existed was changed or removed. *)
Theorem artifact_fetch_publishes_the_lock cwd lockPath name outputDirectory w :
  let '(r, w') := artifact_fetch cwd lockPath name outputDirectory w in
  (name = "" → r = Ret (2, "") ∧ w' = w) ∧
  (∀ path, r = Ret (0, path) → ∃ file lock artifact f,
     w_files w !! lockPath = Some file ∧ decodeLock (f_data file) = Ok lock ∧ Validate lock = Ok tt ∧
     artifact ∈ lk_Artifacts lock ∧ ar_Name artifact = name ∧ path = destination cwd artifact outputDirectory ∧
     w_files w !! path = None ∧ good artifact f ∧ w_files w' = <[path := f]> (w_files w)) ∧
  w_files w ⊆ w_files w'.
Proof.
  unfold artifact_fetch. case_bool_decide as Hn; [by split_and!|].
  pose proof (command_spec cwd lockPath name outputDirectory w) as Hs. unfold wp in Hs.
  destruct (@mbind io io_bind _ _ _ _ w) as [[path|e|] w']; [|by split_and!..].
  destruct Hs as (file & lock & artifact & f & Hfile & Hd & Hv & Ha & Hp & Hfree & Hg & Hw'). split_and!; [done|..].
  - intros path' [= <-]. exists file, lock, artifact, f.
    assert (NoDup (ar_Name <$> lk_Artifacts lock)) as Hnd.
    { unfold Validate in Hv. inv_ok. by apply validateArtifacts_spec in Hv as (_ & _ & ? & _). }
    unfold Find in Ha. destruct (find_artifact _ name) as [a|] eqn:Hf; [|done]. injection Ha as ->.
    apply find_artifact_spec in Hf as [Hin Hname]; [|done]. by split_and!.
  - rewrite Hw'. by apply insert_subseteq.
Qed.

End client.

(** ** Witness *)

(** A server that redirects every request to itself. *)
Definition toy_cycle : Transport := λ _ request, Ok (Redirect request).

Lemma redirects_terminate_witness : ∃ requests,
  @Do_loop toy_cycle 100 [] (mkTarget "https" "github.com") =
    Some (Err (NewError "artifact fetch: too many redirects"), requests) ∧ length requests = 5%nat.
Proof.
  destruct (@redirects_terminate toy_cycle toy_artifact 100) as (request & r & requests & Ht & Hr & H5 & _);
    [vm_compute; reflexivity|lia|].
  assert (target_of (ar_URL toy_artifact) = Ok (mkTarget "https" "github.com")) as Ht' by (vm_compute; reflexivity).
  assert (request = mkTarget "https" "github.com") as -> by congruence.
  exists requests. rewrite Hr. vm_compute in H5. injection H5 as <- <-. split; reflexivity.
Defined.
