(* ===== verification/PilotDatabase.v ===== *)
(** * The database of the control plane

    [cmd/control-plane/main.go]: how the pilot database is opened.  The connection
    parameters come from [pgx.ParseConfig] ([ParseConfig], a parameter); the server is
    what it answers to the queries of the start-up checks ([Server]).  The state of a
    session is the list of handles that the process holds open, so that a handle that is
    not closed shows. *)

From S2P Require Import Prelude GoRegexp GoStrings GoNet GoJson GoUnicode GoFold Identifiers GoSql.

(** What the code reads of [tls.Config], [pgconn.FallbackConfig] and [pgx.ConnConfig]. *)
Record tls_Config := mkTls {
  tls_InsecureSkipVerify : bool;
  tls_ServerName : string
}.

Record FallbackConfig := mkFallback {
  fb_Host : string;
  fb_TLSConfig : option tls_Config
}.

Record ConnConfig := mkConnConfig {
  cc_Host : string;
  cc_TLSConfig : option tls_Config;
  cc_Fallbacks : list FallbackConfig;
  cc_RuntimeParams : gmap string string
}.

(** A handle of [database/sql] with the limits set on it. *)
Record DB := mkDB {
  db_Config : ConnConfig;
  db_MaxOpenConns : Z;
  db_MaxIdleConns : Z;
  db_ConnMaxIdleTime : duration;
  db_ConnMaxLifetime : duration
}.

(** A row of [pg_roles]. *)
Record Role := mkRole {
  rl_super : bool;
  rl_createrole : bool;
  rl_createdb : bool;
  rl_bypassrls : bool
}.

(** What the server answers: its roles, the privileges of [current_user], and whether a
    query that reads these columns of these relations can run. *)
Record Server := mkServer {
  sv_current_user : string;
  sv_roles : gmap string Role;
  sv_has_schema_privilege : string → string → sql_error + bool;
  sv_has_table_privilege : string → string → sql_error + bool;
  sv_select : list (string * list string) → sql_error + unit
}.

(** ** Transport *)

Definition secureDatabaseEndpoint (host : string) (tlsConfig : option tls_Config) : bool :=
  (HasPrefix host "/" || EqualFoldASCII host "localhost") ||
  match ParseIP host with Some ip => IP_IsLoopback ip | None => false end ||
  match tlsConfig with
  | Some c => negb (tls_InsecureSkipVerify c) && negb (bool_decide (tls_ServerName c = ""))
  | None => false
  end.

Definition errInsecure : error :=
  NewError "remote PostgreSQL connections require certificate-verified TLS without a plaintext fallback".

(** The loop over the fallbacks. *)
Fixpoint checkFallbacks (fallbacks : list FallbackConfig) : result unit :=
  match fallbacks with
  | [] => Ok tt
  | fallback :: rest =>
      fail_if (negb (secureDatabaseEndpoint (fb_Host fallback) (fb_TLSConfig fallback))) errInsecure;;
      checkFallbacks rest
  end.

(** The map is a reference in the source: setting its keys changes the configuration. *)
Definition hardenDatabaseConfig (config : ConnConfig) : ConnConfig :=
  mkConnConfig (cc_Host config) (cc_TLSConfig config) (cc_Fallbacks config)
    (<["idle_in_transaction_session_timeout" := "5000"]> (<["lock_timeout" := "2000"]>
      (<["statement_timeout" := "5000"]> (<["search_path" := "pg_catalog"]> (cc_RuntimeParams config))))).

(** The privileges that [validateDatabasePrivileges] asks for, one by one. *)
Definition required : list (string * string) :=
  [("app_private.devices", "SELECT");
   ("app_private.vpn_accesses", "SELECT");
   ("app_private.vpn_accesses", "INSERT");
   ("app_private.vpn_accesses", "UPDATE");
   ("app_private.admin_audit_events", "INSERT");
   ("app_private.pilot_test_results", "SELECT");
   ("app_private.pilot_test_results", "INSERT");
   ("app_private.pilot_test_results", "DELETE")].

Section open.
Context (ParseConfig : string → result ConnConfig) (server : Server).

Definition secureDatabaseConfig (databaseURL : string) : result ConnConfig :=
  match ParseConfig databaseURL with
  | Err _ => Err (NewError "invalid DATABASE_URL")
  | Ok connectionConfig =>
      fail_if (negb (secureDatabaseEndpoint (cc_Host connectionConfig) (cc_TLSConfig connectionConfig)))
        errInsecure;;
      checkFallbacks (cc_Fallbacks connectionConfig);;
      Ok connectionConfig
  end.

Definition validateDatabaseTransport (databaseURL : string) : result unit :=
  secureDatabaseConfig databaseURL;; Ok tt.

(** A query of the server: the session is as it was. *)
Definition query {A} (answer : sql_error + A) : sql (list DB) sql_error A :=
  call (λ s, (answer, s)) (λ _ s, s).

(** [SELECT has_schema_privilege(..) AND bool_and(has_table_privilege(..)) FROM (VALUES ..)]: the
    aggregate looks at every row; an error of one is an error of the query. *)
Fixpoint bool_and (rows : list (string * string)) : sql_error + bool :=
  match rows with
  | [] => inr true
  | (relation, privilege) :: rest =>
      allowed ← sv_has_table_privilege server relation privilege;
      others ← bool_and rest;
      inr (allowed && others)
  end.

Definition privileges_query : sql_error + bool :=
  tables ← bool_and required;
  schema ← sv_has_schema_privilege server "app_private" "USAGE";
  inr (schema && tables).

Definition validateDatabasePrivileges : sql (list DB) error unit :=
  allowed ← map_err (λ _, NewError
    "pilot database schema/privilege check failed; apply migrations with the migration role")
    (query privileges_query);
  of_result (fail_if (negb allowed) (NewError "pilot database login lacks required runtime privileges")).

Definition identity_query : sql_error + Role :=
  match sv_roles server !! sv_current_user server with Some role => inr role | None => inl ErrNoRows end.

Definition validateDatabaseIdentity : sql (list DB) error unit :=
  role ← map_err (λ e, Wrap "validate pilot database identity" (sql_error_value e)) (query identity_query);
  of_result (fail_if (rl_super role || rl_createrole role || rl_createdb role || rl_bypassrls role)
    (NewError "pilot database identity must not be privileged or bypass row security")).

(** [stdlib.OpenDB] and [Close]: the handles of the process, the last one first. *)
Definition OpenDB (db : DB) : sql (list DB) error unit := λ s,
  (inr tt, mkSession (db :: se_tables s) (se_transaction s) (se_outcomes s)).

Definition close_handle (s : Session (list DB)) : Session (list DB) :=
  mkSession (tail (se_tables s)) (se_transaction s) (se_outcomes s).

(** Closes the handle when [m] fails. *)
Definition or_close {A} (m : sql (list DB) error A) : sql (list DB) error A := λ s,
  match m s with (inl e, s') => (inl e, close_handle s') | r => r end.

Definition openPilotDatabase (databaseURL : string) : sql (list DB) error DB :=
  connectionConfig ← of_result (secureDatabaseConfig databaseURL);
  let database := mkDB (hardenDatabaseConfig connectionConfig) 5 2 (5 * Minute) (30 * Minute) in
  OpenDB database;;
  or_close (map_err (λ e, Wrap "connect pilot database" (sql_error_value e)) (query (inr tt)));;
  or_close validateDatabaseIdentity;;
  or_close validateDatabasePrivileges;;
  mret database.

(** ** The schema checks of the stores *)

(** The relations and columns of the three queries. *)
Definition access_columns : list (string * list string) :=
  [("app_private.vpn_accesses",
    ["id"; "device_id"; "node_id"; "transport"; "external_reference"; "created_at"; "expires_at";
     "revoked_at"; "status"])].
Definition result_columns : list (string * list string) :=
  [("app_private.pilot_test_results",
    ["id"; "device_id"; "client_platform"; "isp"; "transport"; "occurred_at"; "success"; "failure_stage";
     "connection_time_bucket"; "throughput_bucket"; "recorded_at"])].
Definition report_columns : list (string * list string) :=
  [("app_private.vpn_accesses", ["device_id"]); ("app_private.devices", ["account_id"; "id"])].

(** [rows.Close()]. *)
Definition rows_Close : sql (list DB) sql_error unit := query (inr tt).

Definition CheckSchema_access : sql (list DB) error unit :=
  map_err (λ e, Wrap "pilot access postgres: check schema" (sql_error_value e))
    (query (sv_select server access_columns));;
  map_err sql_error_value rows_Close.

Definition CheckSchema_telemetry : sql (list DB) error unit :=
  map_err (λ e, Wrap "pilot telemetry postgres: check schema" (sql_error_value e))
    (query (sv_select server result_columns));;
  map_err (λ e, Wrap "pilot telemetry postgres: close schema check" (sql_error_value e)) rows_Close;;
  map_err (λ e, Wrap "pilot telemetry postgres: check report schema" (sql_error_value e))
    (query (sv_select server report_columns));;
  map_err (λ e, Wrap "pilot telemetry postgres: close report schema check" (sql_error_value e)) rows_Close.

End open.

(** ** What an accepted database is *)

(** An endpoint that never carries a session over a network unprotected: a Unix socket, the
    local host, a loopback address, or TLS with the certificate and name of the server checked. *)
Definition confined_endpoint (host : string) (tlsConfig : option tls_Config) : Prop :=
  (∃ path, host = "/" +:+ path) ∨ local_name host ∨
  (∃ ip, ParseIP host = Some ip ∧ IP_IsLoopback ip = true) ∨
  ∃ c, tlsConfig = Some c ∧ tls_InsecureSkipVerify c = false ∧ tls_ServerName c ≠ "".

(** The endpoints that a connection may use. *)
Definition endpoints (config : ConnConfig) : list (string * option tls_Config) :=
  (cc_Host config, cc_TLSConfig config) :: ((λ f, (fb_Host f, fb_TLSConfig f)) <$> cc_Fallbacks config).

(** Every endpoint is confined, except for hosts that spell the local host with U+017F: those
    pass as well ([endpoint_accepts_long_s]). *)
Definition confined (config : ConnConfig) : Prop :=
  Forall (λ e, confined_endpoint e.1 e.2 ∨ long_s_name e.1) (endpoints config).

Definition session_limits : list (string * string) :=
  [("search_path", "pg_catalog"); ("statement_timeout", "5000"); ("lock_timeout", "2000");
   ("idle_in_transaction_session_timeout", "5000")].

(** The handle is on these endpoints, and its sessions run with the limits. *)
Definition hardened (config : ConnConfig) (db : DB) : Prop :=
  cc_Host (db_Config db) = cc_Host config ∧ cc_TLSConfig (db_Config db) = cc_TLSConfig config ∧
  cc_Fallbacks (db_Config db) = cc_Fallbacks config ∧
  (∀ k v, (k, v) ∈ session_limits → cc_RuntimeParams (db_Config db) !! k = Some v) ∧
  (∀ k, k ∉ session_limits.*1 → cc_RuntimeParams (db_Config db) !! k = cc_RuntimeParams config !! k).

(** ** What the stores need *)

(** A statement on a table; the flags say that it also reads columns, in a condition or for
    [RETURNING]. *)
Inductive verb := SelectFrom | InsertInto (reads : bool) | UpdateSet (reads : bool) | DeleteFrom (reads : bool).

Definition needs (use : verb * string) : list (string * string) :=
  let '(v, table) := use in
  let reading (reads : bool) := if reads then [(table, "SELECT")] else [] in
  match v with
  | SelectFrom => [(table, "SELECT")]
  | InsertInto reads => (table, "INSERT") :: reading reads
  | UpdateSet reads => (table, "UPDATE") :: reading reads
  | DeleteFrom reads => (table, "DELETE") :: reading reads
  end.

(** [CheckSchema], [Create] and [Revoke] of the access store. *)
Definition access_statements : list (verb * string) :=
  [(SelectFrom, "app_private.vpn_accesses"); (InsertInto true, "app_private.vpn_accesses");
   (InsertInto false, "app_private.admin_audit_events"); (UpdateSet true, "app_private.vpn_accesses");
   (SelectFrom, "app_private.vpn_accesses"); (InsertInto false, "app_private.admin_audit_events")].

(** [CheckSchema], [Create] and [Aggregate] of the telemetry store. *)
Definition telemetry_statements : list (verb * string) :=
  [(SelectFrom, "app_private.pilot_test_results"); (SelectFrom, "app_private.vpn_accesses");
   (SelectFrom, "app_private.devices"); (DeleteFrom true, "app_private.pilot_test_results");
   (InsertInto true, "app_private.pilot_test_results"); (SelectFrom, "app_private.pilot_test_results");
   (SelectFrom, "app_private.vpn_accesses"); (SelectFrom, "app_private.devices")].

(** The login has every privilege that a statement of a service needs, and none of the
    attributes of a privileged role. *)
Definition least_privilege (server : Server) : Prop :=
  sv_roles server !! sv_current_user server = Some (mkRole false false false false) ∧
  sv_has_schema_privilege server "app_private" "USAGE" = inr true ∧
  ∀ use table privilege, use ∈ access_statements ++ telemetry_statements → (table, privilege) ∈ needs use →
    sv_has_table_privilege server table privilege = inr true.

Lemma required_is_needed x :
  x ∈ required ↔ ∃ use, use ∈ access_statements ++ telemetry_statements ∧ x ∈ needs use.
Proof.
  set (all := access_statements ++ telemetry_statements).
  assert (forallb (λ x, bool_decide (x ∈ concat (needs <$> all))) required = true) as H1 by (vm_compute; reflexivity).
  assert (forallb (λ x, bool_decide (x ∈ required)) (concat (needs <$> all)) = true) as H2 by (vm_compute; reflexivity).
  rewrite forallb_forall in H1, H2.
  assert (x ∈ concat (needs <$> all) ↔ ∃ use, use ∈ all ∧ x ∈ needs use) as <-.
  { rewrite list_elem_of_In, in_concat. split.
    - intros (l & (use & <- & Hu)%in_map_iff & Hx). exists use. by rewrite !list_elem_of_In.
    - intros (use & Hu%list_elem_of_In & Hx%list_elem_of_In). exists (needs use). split; [|done].
      apply in_map_iff. eauto. }
  split; intros Hx%list_elem_of_In; [apply H1 in Hx|apply H2 in Hx]; by apply bool_decide_eq_true in Hx.
Qed.

Lemma needed_privileges server :
  Forall (λ p, sv_has_table_privilege server p.1 p.2 = inr true) required ↔
  ∀ use table privilege, use ∈ access_statements ++ telemetry_statements → (table, privilege) ∈ needs use →
    sv_has_table_privilege server table privilege = inr true.
Proof.
  rewrite Forall_forall. split.
  - intros Hall use table p Hu Hp. apply (Hall (table, p)), required_is_needed. eauto.
  - intros Hall [table p] (use & Hu & Hp)%required_is_needed. by apply (Hall use).
Qed.

Lemma secureDatabaseEndpoint_spec host tlsConfig :
  secureDatabaseEndpoint host tlsConfig = true ↔ confined_endpoint host tlsConfig ∨ long_s_name host.
Proof.
  unfold secureDatabaseEndpoint, confined_endpoint. rewrite !orb_true_iff, HasPrefix_spec, EqualFold_localhost.
  assert (match ParseIP host with Some ip => IP_IsLoopback ip | None => false end = true ↔
    ∃ ip, ParseIP host = Some ip ∧ IP_IsLoopback ip = true) as ->.
  { destruct (ParseIP host); naive_solver. }
  assert (match tlsConfig with
    | Some c => negb (tls_InsecureSkipVerify c) && negb (bool_decide (tls_ServerName c = ""))
    | None => false end = true ↔
    ∃ c, tlsConfig = Some c ∧ tls_InsecureSkipVerify c = false ∧ tls_ServerName c ≠ "") as ->.
  { destruct tlsConfig as [c|]; [|naive_solver].
    rewrite andb_true_iff, !negb_true_iff, bool_decide_eq_false. naive_solver. }
  tauto.
Qed.

Lemma checkFallbacks_spec l :
  checkFallbacks l = Ok tt ↔ Forall (λ f, secureDatabaseEndpoint (fb_Host f) (fb_TLSConfig f) = true) l.
Proof.
  induction l as [|f l IH]; [by split|]. cbn [checkFallbacks]. rewrite Forall_cons, <-IH.
  destruct (secureDatabaseEndpoint _ _); cbn; naive_solver.
Qed.

Lemma confined_spec config : confined config ↔
  secureDatabaseEndpoint (cc_Host config) (cc_TLSConfig config) = true ∧ checkFallbacks (cc_Fallbacks config) = Ok tt.
Proof.
  unfold confined, endpoints. rewrite Forall_cons, Forall_fmap, checkFallbacks_spec, secureDatabaseEndpoint_spec.
  cbn [fst snd]. by setoid_rewrite secureDatabaseEndpoint_spec.
Qed.

Lemma secureDatabaseConfig_spec ParseConfig url config :
  secureDatabaseConfig ParseConfig url = Ok config ↔ ParseConfig url = Ok config ∧ confined config.
Proof.
  unfold secureDatabaseConfig. destruct (ParseConfig url) as [c|e]; [|naive_solver]. pose proof (confined_spec c) as Hc.
  destruct (secureDatabaseEndpoint _ _), (checkFallbacks _) as [[]|]; cbn; naive_solver.
Qed.

Lemma hardenDatabaseConfig_hardened config n m i l :
  hardened config (mkDB (hardenDatabaseConfig config) n m i l).
Proof.
  split_and!; try done; cbn.
  - intros k v Hkv. unfold session_limits in Hkv. rewrite !elem_of_cons, elem_of_nil in Hkv.
    destruct Hkv as [[= -> ->]|[[= -> ->]|[[= -> ->]|[[= -> ->]|[]]]]]; simplify_map_eq; done.
  - intros k Hk. cbn in Hk. rewrite !not_elem_of_cons in Hk. destruct Hk as (? & ? & ? & ? & _).
    by rewrite !lookup_insert_ne by done.
Qed.

Lemma bool_and_spec server rows :
  bool_and server rows = inr true ↔ Forall (λ p, sv_has_table_privilege server p.1 p.2 = inr true) rows.
Proof.
  induction rows as [|[r p] rows IH]; [by split|]. cbn [bool_and]. rewrite Forall_cons, <-IH. cbn [fst snd].
  destruct (sv_has_table_privilege server r p) as [e|[]]; cbn; [naive_solver| |].
  - destruct (bool_and server rows) as [|[]]; cbn; naive_solver.
  - destruct (bool_and server rows) as [|[]]; cbn; naive_solver.
Qed.

Lemma privileges_spec server : privileges_query server = inr true ↔
  sv_has_schema_privilege server "app_private" "USAGE" = inr true ∧
  Forall (λ p, sv_has_table_privilege server p.1 p.2 = inr true) required.
Proof.
  rewrite <-bool_and_spec. unfold privileges_query.
  destruct (bool_and server required) as [|[]]; cbn; [naive_solver|..];
    destruct (sv_has_schema_privilege _ _ _) as [|[]]; cbn; naive_solver.
Qed.

(** ** Reasoning about the checks *)

Lemma run_check_query {A} (answer : sql_error + A) hs o (Q : sql_error + A → Session (list DB) → Prop) :
  (∀ o', Q answer (mkSession hs None o')) → (∀ e o', Q (inl e) (mkSession hs None o')) →
  run (query answer) (mkSession hs None o) Q.
Proof. intros H1 H2. unfold run, query. destruct o as [|[|e b] o]; cbn; auto. Qed.

Lemma run_or_close {A} (m : sql (list DB) error A) s (Q : error + A → Session (list DB) → Prop) :
  run m s (λ r s', match r with inl e => Q (inl e) (close_handle s') | inr a => Q (inr a) s' end) →
  run (or_close m) s Q.
Proof. unfold run, or_close. by destruct (m s) as [[e|a] s']. Qed.

(** A check that looks: the handles stay, and what it establishes holds when it passes. *)
Definition looks {A} (m : sql (list DB) error A) (P : Prop) : Prop :=
  ∀ hs o, run m (mkSession hs None o) (λ r s', se_tables s' = hs ∧ se_transaction s' = None ∧ ∀ a, r = inr a → P).

Lemma looks_query {A} f (answer : sql_error + A) : looks (map_err f (query answer)) (∃ a, answer = inr a).
Proof.
  intros hs o. apply run_map_err, run_check_query; [|naive_solver]. intros o'. split_and!; [done..|].
  destruct answer; naive_solver.
Qed.

Lemma looks_bind {A B} (m : sql (list DB) error A) (f : A → sql (list DB) error B) P Q :
  looks m P → (∀ a, looks (f a) Q) → looks (m ≫= f) (P ∧ Q).
Proof.
  intros Hm Hf hs o. apply run_bind. eapply run_mono; [apply Hm|].
  intros r [t tx o'] (Ht & Htx & Hr). cbn in Ht, Htx. subst t tx. destruct r as [e|a]; [done|].
  eapply run_mono; [apply Hf|]. intros r s' (Ht' & Htx' & Hr'). naive_solver.
Qed.

Lemma looks_result {A} (r : result A) : looks (of_result r) (∃ a, r = Ok a).
Proof. intros hs o. apply run_of_result; naive_solver. Qed.

Lemma looks_mono {A} (m : sql (list DB) error A) (P Q : Prop) : looks m P → (P → Q) → looks m Q.
Proof. intros Hm HPQ hs o. eapply run_mono; [apply Hm|]. naive_solver. Qed.

Lemma looks_access server : looks (CheckSchema_access server) (sv_select server access_columns = inr tt).
Proof.
  eapply looks_mono; [apply looks_bind; [apply looks_query|intros []; apply looks_query]|]. by intros [[[] ?] _].
Qed.

Lemma looks_telemetry server : looks (CheckSchema_telemetry server)
  (sv_select server result_columns = inr tt ∧ sv_select server report_columns = inr tt).
Proof.
  eapply looks_mono; [do 3 (apply looks_bind; [apply looks_query|intros []]); apply looks_query|].
  by intros ([[] ?] & _ & [[] ?] & _).
Qed.

Lemma looks_identity server : looks (validateDatabaseIdentity server)
  (sv_roles server !! sv_current_user server = Some (mkRole false false false false)).
Proof.
  intros hs o. apply run_bind, run_map_err, run_check_query; [|done]. intros o'.
  unfold identity_query. by destruct (sv_roles server !! _) as [[[] [] [] []]|].
Qed.

Lemma looks_privileges server :
  looks (validateDatabasePrivileges server) (privileges_query server = inr true).
Proof.
  intros hs o. apply run_bind, run_map_err, run_check_query; [|done]. intros o'.
  by destruct (privileges_query server) as [e|[]].
Qed.

(** The rest of [openPilotDatabase] after a check. *)
Lemma run_gate {B} (m : sql (list DB) error unit) (P : Prop) (f : unit → sql (list DB) error B) db hs o
    (Q : error + B → Session (list DB) → Prop) :
  looks m P → (∀ e o', Q (inl e) (mkSession hs None o')) →
  (P → ∀ o', run (f tt) (mkSession (db :: hs) None o') Q) →
  run (or_close m ≫= f) (mkSession (db :: hs) None o) Q.
Proof.
  intros Hm He Hf. apply run_bind, run_or_close. eapply run_mono; [apply Hm|].
  intros r [t tx o'] (Ht & Htx & Hr). cbn in Ht, Htx. subst t tx. destruct r as [e|[]]; [apply He|].
  apply Hf. by apply (Hr tt).
Qed.

(** ** Claims *)

(** The handle that [openPilotDatabase] returns for a configuration. *)
Definition handle (config : ConnConfig) : DB :=
  mkDB (hardenDatabaseConfig config) 5 2 (5 * Minute) (30 * Minute).

Lemma open_run ParseConfig server url hs o :
  run (openPilotDatabase ParseConfig server url) (mkSession hs None o) (λ r s,
    match r with
    | inl _ => se_tables s = hs
    | inr db => se_tables s = db :: hs ∧ se_transaction s = None ∧ ∃ config, ParseConfig url = Ok config ∧
        confined config ∧ db = handle config ∧ least_privilege server
    end).
Proof.
  unfold openPilotDatabase. apply run_bind, run_of_result; [|done].
  intros config (Hp & Hc)%secureDatabaseConfig_spec. apply run_bind. unfold run at 1. cbn [fst snd OpenDB].
  eapply (run_gate _ _ _ (handle config) hs); [apply looks_query|done|]. intros _ o1.
  eapply (run_gate _ _ _ (handle config) hs); [apply looks_identity|done|]. intros Hid o2.
  eapply (run_gate _ _ _ (handle config) hs); [apply looks_privileges|done|]. intros [Hs Ht]%privileges_spec o3.
  pose proof (proj1 (needed_privileges server) Ht) as Hn.
  split; [done|]. split; [done|]. by exists config.
Qed.

(** C15: the control plane only works on a confined database.  Whatever the server answers and
    whichever call fails, [openPilotDatabase] either fails and holds no handle it opened, or
    returns a handle whose sessions run with the limits on search path and time, whose login has
    none of the attributes of a privileged role and every privilege that some statement of the
    two stores needs (those are listed statement by statement), and whose every endpoint,
    fallbacks included, is a Unix socket, the name of the local host in some ASCII case, a
    loopback address, or has its certificate and name verified by TLS, with one exception: the
    spellings of the local host with U+017F for the letter s pass too (a finding).  With a
    connection that works it accepts exactly such databases. *)
Theorem pilot_database_is_confined ParseConfig server url handles outcomes :
  (let '(r, s) := openPilotDatabase ParseConfig server url (mkSession handles None outcomes) in
   match r with
   | inl _ => se_tables s = handles
   | inr db => se_tables s = db :: handles ∧ ∃ config, ParseConfig url = Ok config ∧ confined config ∧
       hardened config db ∧ least_privilege server
   end) ∧
  ((∃ db, (openPilotDatabase ParseConfig server url (mkSession handles None [])).1 = inr db) ↔
   ∃ config, ParseConfig url = Ok config ∧ confined config ∧ least_privilege server).
Proof.
  split.
  - pose proof (run_pair _ _ _ (open_run ParseConfig server url handles outcomes)) as Hrun.
    destruct (openPilotDatabase _ _ _ _) as [[e|db] s]; [done|].
    destruct Hrun as (Ht & _ & config & Hp & Hc & -> & Hl). split; [done|]. exists config.
    split_and!; [done..|apply hardenDatabaseConfig_hardened|done].
  - pose proof (open_run ParseConfig server url handles []) as Hrun. unfold run in Hrun. split.
    + intros [db Hdb]. rewrite Hdb in Hrun. destruct Hrun as (_ & _ & config & ? & ? & _ & ?). by exists config.
    + intros (config & Hp & Hc & Hr & Hsu & Hst).
      pose proof (proj2 (privileges_spec server) (conj Hsu (proj2 (needed_privileges server) Hst))) as Hsp.
      pose proof (proj2 (secureDatabaseConfig_spec _ _ _) (conj Hp Hc)) as Hs. exists (handle config).
      unfold openPilotDatabase, of_result. cbv [mbind sql_bind]. rewrite Hs.
      assert (identity_query server = inr (mkRole false false false false)) as Hi
        by (unfold identity_query; by rewrite Hr).
      unfold validateDatabaseIdentity, validateDatabasePrivileges. rewrite Hi, Hsp. done.
Qed.

(** A host that is not the local host passes for it: U+017F folds to the letter s. *)
Lemma endpoint_accepts_long_s :
  let host := "localho" +:+ long_s +:+ "t" in
  ¬ confined_endpoint host None ∧ secureDatabaseEndpoint host None = true.
Proof.
  assert (long_s_name ("localho" +:+ long_s +:+ "t")) as Hn.
  { do 9 (eexists _, _; split; [left|]; split; [reflexivity|]). done. }
  cbv zeta. split; [|apply secureDatabaseEndpoint_spec; by right].
  intros [[path E]|[Hl|[(ip & Hip & _)|(c & ? & _)]]]; try done. by apply long_s_is_not_local in Hl.
Qed.
