(* ===== verification/Migrations.v ===== *)
(** * The migrations

    [migrations/*.sql] as programs on the catalog of a database cluster: schemas, relations with
    their columns and owners, access control lists, default privileges and roles.  The
    constraints on rows are in [PilotAccess] and [Telemetry]; here the schema and the
    privileges are at stake, which [PilotDatabase] checks when the control plane starts.

    A server ([server_of]) answers those checks from a catalog.  The claim: on a fresh database
    the migrations run exactly for a role with the rights they need, a login that is a member of the
    runtime role passes every start-up check
    of the control plane, and it has exactly the privileges that the statements of the two
    stores need. *)

From S2P Require Import Prelude GoRegexp GoStrings GoJson Identifiers GoSql PilotDatabase.

(** ** Catalogs *)

Inductive kind := Tables | Sequences | Functions.

#[global] Instance kind_eq_dec : EqDecision kind.
Proof. solve_decision. Defined.

(** An access control list: pairs of a grantee and a privilege. *)
Abbreviation acl :=
  (@gset (string * string) (@prod_eq_dec string _ string _) (@prod_countable string _ String.countable string _ String.countable)).

Definition PUBLIC : string := "public".

Definition all_privileges (k : kind) : list string :=
  match k with
  | Tables => ["SELECT"; "INSERT"; "UPDATE"; "DELETE"; "TRUNCATE"; "REFERENCES"; "TRIGGER"; "MAINTAIN"]
  | Sequences => ["USAGE"; "SELECT"; "UPDATE"]
  | Functions => ["EXECUTE"]
  end.

Record Schema := mkSchema { sc_owner : string; sc_acl : acl }.

(** A relation or a function. *)
Record Object := mkObject {
  ob_kind : kind;
  ob_schema : string;
  ob_owner : string;
  ob_columns : list string;
  ob_acl : acl
}.

(** [ct_members] maps a role to the roles it is a member of, [ct_database] is the access control
    list of the database.  [ct_global] and [ct_local] are the
    default privileges of the migrating role: those of the cluster, the built-in ones included,
    and those that were added for a schema. *)
Record Cluster := mkCluster {
  ct_roles : gmap string Role;
  ct_members : gmap string (gset string);
  ct_schemas : gmap string Schema;
  ct_objects : gmap string Object;
  ct_database : acl;
  ct_global : kind → acl;
  ct_local : string → kind → acl
}.

(** ** Statements *)

(** The statements of the scripts.  Names are qualified, [None] for a list of privileges is
    [ALL], a column of [CREATE TABLE] may reference a column of another table. *)
Inductive statement :=
  | CreateSchemaIfNotExists (s : string)
  | RevokeOnSchema (s grantee : string)
  | GrantOnSchema (privileges : list string) (s grantee : string)
  | RevokeByDefault (s : string) (k : kind) (privileges : option (list string)) (grantee : string)
  | CreateTable (s name : string) (columns : list string) (references : list (string * string))
  | CreateFunction (s name : string)
  | CreateIndex (name : string) (columns : list string)
  | CommentOn (name : string) (column : option string)
  | RevokeOnTable (name grantee : string)
  | RevokeOnAll (k : kind) (s : string) (privileges : option (list string)) (grantee : string)
  | GrantOnTable (privileges : list string) (name grantee : string)
  | CreateRoleIfNotExists (name : string) (attributes : Role).

Definition covers (privileges : option (list string)) (p : string) : bool :=
  match privileges with None => true | Some l => bool_decide (p ∈ l) end.

Definition revoke (privileges : option (list string)) (grantee : string) (a : acl) : acl :=
  filter (λ x, ¬ (x.1 = grantee ∧ covers privileges x.2 = true)) a.

Definition grant (privileges : list string) (grantee : string) (a : acl) : acl :=
  list_to_set ((λ p, (grantee, p)) <$> privileges) ∪ a.

Definition set_acl (f : acl → acl) (o : Object) : Object :=
  mkObject (ob_kind o) (ob_schema o) (ob_owner o) (ob_columns o) (f (ob_acl o)).

Definition with_schemas (c : Cluster) (m : gmap string Schema) : Cluster :=
  mkCluster (ct_roles c) (ct_members c) m (ct_objects c) (ct_database c) (ct_global c) (ct_local c).
Definition with_objects (c : Cluster) (m : gmap string Object) : Cluster :=
  mkCluster (ct_roles c) (ct_members c) (ct_schemas c) m (ct_database c) (ct_global c) (ct_local c).
Definition with_local (c : Cluster) (l : string → kind → acl) : Cluster :=
  mkCluster (ct_roles c) (ct_members c) (ct_schemas c) (ct_objects c) (ct_database c) (ct_global c) l.
Definition with_roles (c : Cluster) (m : gmap string Role) : Cluster :=
  mkCluster m (ct_members c) (ct_schemas c) (ct_objects c) (ct_database c) (ct_global c) (ct_local c).

Definition qualified (s name : string) : string := s +:+ "." +:+ name.

(** ** Privileges *)

(** The roles whose privileges a role has: itself, those it is a member of, and so on.  A chain
    of memberships without repetition has at most as many links as there are members. *)
Fixpoint reach (fuel : nat) (members : gmap string (gset string)) (roles : gset string) : gset string :=
  match fuel with
  | O => roles
  | S fuel => reach fuel members (roles ∪ ⋃ ((λ r, default ∅ (members !! r)) <$> elements roles))
  end.
Definition roles_of (c : Cluster) (user : string) : gset string := reach (size (ct_members c)) (ct_members c) {[user]}.

Definition allowed (c : Cluster) (user : string) (a : acl) (privilege : string) : bool :=
  match ct_roles c !! user with Some attr => rl_super attr | None => false end ||
  bool_decide ((PUBLIC, privilege) ∈ a) ||
  bool_decide (set_Exists (λ role, (role, privilege) ∈ a) (roles_of c user)).

Section apply.
(** The role that runs the migrations. *)
Context (me : string).

Definition known (c : Cluster) (grantee : string) : bool :=
  bool_decide (grantee = PUBLIC) || bool_decide (is_Some (ct_roles c !! grantee)).

(** A schema or a relation of the migrating role. *)
Definition my_schema (c : Cluster) (s : string) : option Schema :=
  sc ← ct_schemas c !! s; if bool_decide (sc_owner sc = me) then Some sc else None.
Definition my_object (c : Cluster) (name : string) : option Object :=
  o ← ct_objects c !! name; if bool_decide (ob_owner o = me) then Some o else None.

Definition alter_schema (c : Cluster) (s grantee : string) (f : acl → acl) : option Cluster :=
  sc ← my_schema c s;
  if known c grantee
  then Some (with_schemas c (<[s := mkSchema (sc_owner sc) (f (sc_acl sc))]> (ct_schemas c))) else None.

Definition alter_table (c : Cluster) (name grantee : string) (f : acl → acl) : option Cluster :=
  o ← my_object c name;
  if known c grantee then Some (with_objects c (<[name := set_acl f o]> (ct_objects c))) else None.

Definition in_schema (s : string) (k : kind) (o : Object) : Prop := ob_schema o = s ∧ ob_kind o = k.
#[local] Instance in_schema_dec s k o : Decision (in_schema s k o).
Proof. unfold in_schema. apply _. Defined.

(** A new object: its owner has every privilege, and the default privileges apply. *)
Definition create (c : Cluster) (k : kind) (s name : string) (columns : list string) : option Cluster :=
  _ ← my_schema c s;
  match ct_objects c !! name with
  | Some _ => None
  | None => Some (with_objects c (<[name := mkObject k s me columns
      (grant (all_privileges k) me (ct_global c k ∪ ct_local c s k))]> (ct_objects c)))
  end.

(** The column of a table that a foreign key references. *)
Definition has_column (c : Cluster) (r : string * string) : bool :=
  match my_object c r.1 with Some o => bool_decide (r.2 ∈ ob_columns o) | None => false end.

(** One statement; [None] is an error.  [CREATE SCHEMA] checks the privilege on the database
    before it looks whether the schema exists. *)
Definition apply (st : statement) (c : Cluster) : option Cluster :=
  match st with
  | CreateSchemaIfNotExists s =>
      if negb (allowed c me (ct_database c) "CREATE") then None
      else match ct_schemas c !! s with
           | Some _ => Some c
           | None => Some (with_schemas c (<[s := mkSchema me (grant ["USAGE"; "CREATE"] me ∅)]> (ct_schemas c)))
           end
  | RevokeOnSchema s grantee => alter_schema c s grantee (revoke None grantee)
  | GrantOnSchema privileges s grantee => alter_schema c s grantee (grant privileges grantee)
  | RevokeByDefault s k privileges grantee =>
      _ ← ct_schemas c !! s;
      if known c grantee then Some (with_local c (λ s' k',
        if bool_decide (s' = s ∧ k' = k) then revoke privileges grantee (ct_local c s k) else ct_local c s' k'))
      else None
  | CreateTable s name columns references =>
      if bool_decide (NoDup columns) && forallb (has_column c) references
      then create c Tables s (qualified s name) columns else None
  | CreateFunction s name => create c Functions s (qualified s name +:+ "()") []
  | CreateIndex name columns =>
      if forallb (λ column, has_column c (name, column)) columns then Some c else None
  | CommentOn name column =>
      o ← my_object c name;
      match column with
      | Some column => if bool_decide (column ∈ ob_columns o) then Some c else None
      | None => Some c
      end
  | RevokeOnTable name grantee => alter_table c name grantee (revoke None grantee)
  | RevokeOnAll k s privileges grantee =>
      _ ← ct_schemas c !! s;
      if known c grantee && bool_decide (map_Forall (λ _ o, in_schema s k o → ob_owner o = me) (ct_objects c))
      then Some (with_objects c ((λ o, if decide (in_schema s k o) then set_acl (revoke privileges grantee) o else o)
                                   <$> ct_objects c))
      else None
  | GrantOnTable privileges name grantee => alter_table c name grantee (grant privileges grantee)
  | CreateRoleIfNotExists name attributes =>
      match ct_roles c !! name with
      | Some _ => Some c
      | None =>
          attr ← ct_roles c !! me;
          if rl_super attr || rl_createrole attr
          then Some (with_roles c (<[name := attributes]> (ct_roles c))) else None
      end
  end.

Fixpoint apply_all (l : list statement) (c : Cluster) : option Cluster :=
  match l with [] => Some c | st :: l' => c' ← apply st c; apply_all l' c' end.

(** A script is one transaction, and the first that fails stops the run. *)
Fixpoint migrate (scripts : list (list statement)) (c : Cluster) : option Cluster :=
  match scripts with [] => Some c | script :: rest => c' ← apply_all script c; migrate rest c' end.

End apply.

(** ** The scripts *)

Definition initial_sql : list statement :=
  [CreateSchemaIfNotExists "app_private";
   RevokeOnSchema "app_private" PUBLIC;
   RevokeByDefault "app_private" Tables None PUBLIC;
   RevokeByDefault "app_private" Sequences None PUBLIC;
   RevokeByDefault "app_private" Functions (Some ["EXECUTE"]) PUBLIC;
   CreateTable "app_private" "accounts" ["id"; "status"; "created_at"; "updated_at"] [];
   CreateTable "app_private" "devices"
     ["id"; "account_id"; "label"; "identity_public_key"; "status"; "created_at"; "revoked_at"]
     [("app_private.accounts", "id")];
   CreateIndex "app_private.devices" ["account_id"];
   CreateTable "app_private" "nodes"
     ["id"; "region"; "country_code"; "provider"; "autonomous_system_number"; "status"; "created_at"; "retired_at"] [];
   CreateTable "app_private" "manifest_revisions" ["version"; "payload_sha256"; "created_at"; "created_by"] [];
   CreateTable "app_private" "admin_audit_events"
     ["id"; "actor"; "action"; "object_type"; "object_id"; "occurred_at"; "metadata"] [];
   CreateIndex "app_private.admin_audit_events" ["occurred_at"];
   CommentOn "app_private.admin_audit_events" None;
   RevokeOnAll Tables "app_private" None PUBLIC;
   RevokeOnAll Sequences "app_private" None PUBLIC;
   RevokeOnAll Functions "app_private" (Some ["EXECUTE"]) PUBLIC].

Definition pilot_vpn_access_sql : list statement :=
  [CreateTable "app_private" "vpn_accesses"
     ["id"; "device_id"; "node_id"; "transport"; "external_reference"; "created_at"; "expires_at"; "revoked_at"; "status"]
     [("app_private.devices", "id"); ("app_private.nodes", "id")];
   CreateIndex "app_private.vpn_accesses" ["device_id"];
   CreateIndex "app_private.vpn_accesses" ["node_id"; "status"];
   CreateIndex "app_private.vpn_accesses" ["expires_at"; "status"];
   CommentOn "app_private.vpn_accesses" None;
   CommentOn "app_private.vpn_accesses" (Some "external_reference");
   RevokeOnTable "app_private.vpn_accesses" PUBLIC].

Definition pilot_test_results_sql : list statement :=
  [CreateTable "app_private" "pilot_test_results"
     ["id"; "device_id"; "client_platform"; "isp"; "transport"; "occurred_at"; "success"; "failure_stage";
      "connection_time_bucket"; "throughput_bucket"; "recorded_at"]
     [("app_private.devices", "id")];
   CreateIndex "app_private.pilot_test_results" ["device_id"; "occurred_at"];
   CreateIndex "app_private.pilot_test_results" ["transport"; "occurred_at"];
   CreateIndex "app_private.pilot_test_results" ["failure_stage"; "occurred_at"; "success"];
   CreateIndex "app_private.pilot_test_results" ["isp"; "occurred_at"; "success"];
   CreateIndex "app_private.pilot_test_results" ["occurred_at"];
   CommentOn "app_private.pilot_test_results" None;
   CommentOn "app_private.pilot_test_results" (Some "isp");
   RevokeOnTable "app_private.pilot_test_results" PUBLIC].

Definition runtime : string := "vchs_runtime".

Definition runtime_role_sql : list statement :=
  [CreateRoleIfNotExists runtime (mkRole false false false false);
   RevokeOnSchema "app_private" runtime;
   RevokeOnAll Tables "app_private" None runtime;
   RevokeOnAll Sequences "app_private" None runtime;
   RevokeOnAll Functions "app_private" (Some ["EXECUTE"]) runtime;
   GrantOnSchema ["USAGE"] "app_private" runtime;
   GrantOnTable ["SELECT"] "app_private.devices" runtime;
   GrantOnTable ["SELECT"; "INSERT"; "UPDATE"] "app_private.vpn_accesses" runtime;
   GrantOnTable ["INSERT"] "app_private.admin_audit_events" runtime;
   GrantOnTable ["SELECT"; "INSERT"; "DELETE"] "app_private.pilot_test_results" runtime].

Definition migrations : list (list statement) :=
  [initial_sql; pilot_vpn_access_sql; pilot_test_results_sql; runtime_role_sql].

(** ** What the server answers *)

Definition schema_privilege (c : Cluster) (user s privilege : string) : sql_error + bool :=
  match ct_schemas c !! s with
  | None => inl (PgError "3F000")
  | Some sc => if bool_decide (privilege ∈ ["USAGE"; "CREATE"]) then inr (allowed c user (sc_acl sc) privilege)
               else inl (PgError "22023")
  end.

Definition table_privilege (c : Cluster) (user name privilege : string) : sql_error + bool :=
  match ct_objects c !! name with
  | None => inl (PgError "42P01")
  | Some o => if bool_decide (privilege ∈ all_privileges Tables) then inr (allowed c user (ob_acl o) privilege)
              else inl (PgError "22023")
  end.

(** A query that reads columns of relations. *)
Fixpoint can_select (c : Cluster) (user : string) (reads : list (string * list string)) : sql_error + unit :=
  match reads with
  | [] => inr tt
  | (name, columns) :: rest =>
      match ct_objects c !! name with
      | None => inl (PgError "42P01")
      | Some o =>
          usage ← schema_privilege c user (ob_schema o) "USAGE";
          if negb usage then inl (PgError "42501")
          else if negb (forallb (λ column, bool_decide (column ∈ ob_columns o)) columns) then inl (PgError "42703")
          else if negb (allowed c user (ob_acl o) "SELECT") then inl (PgError "42501")
          else can_select c user rest
      end
  end.

Definition server_of (c : Cluster) (user : string) : Server :=
  mkServer user (ct_roles c) (schema_privilege c user) (table_privilege c user) (can_select c user).

(** ** Lemmas on lists of privileges *)

Lemma elem_of_revoke (privileges : option (list string)) (g g' p : string) (a : acl) :
  (g, p) ∈ revoke privileges g' a ↔ (g, p) ∈ a ∧ ¬ (g = g' ∧ covers privileges p = true).
Proof. unfold revoke. rewrite elem_of_filter. cbn. tauto. Qed.

Lemma elem_of_grant (privileges : list string) (g g' p : string) (a : acl) :
  (g, p) ∈ grant privileges g' a ↔ (g = g' ∧ p ∈ privileges) ∨ (g, p) ∈ a.
Proof. unfold grant. rewrite elem_of_union, elem_of_list_to_set, list_elem_of_fmap. naive_solver. Qed.

Definition app : string := "app_private".

(** ** A static check of the scripts *)

(** What a script may rely on: the schema, the tables with their columns and the roles that
    exist at a point of it. *)
Record Static := mkStatic {
  sx_schema : bool;
  sx_tables : list (string * list string);
  sx_roles : list string
}.

Definition static_columns (σ : Static) (name : string) : option (list string) :=
  snd <$> List.find (λ t, bool_decide (t.1 = name)) (sx_tables σ).
#[local] Arguments static_columns : simpl never.
Definition static_column (σ : Static) (r : string * string) : bool :=
  match static_columns σ r.1 with Some columns => bool_decide (r.2 ∈ columns) | None => false end.
Definition static_known (σ : Static) (g : string) : bool := bool_decide (g = PUBLIC) || bool_decide (g ∈ sx_roles σ).
Definition static_schema (σ : Static) (s : string) : bool := bool_decide (s = app) && sx_schema σ.

Definition static_step (st : statement) (σ : Static) : option Static :=
  match st with
  | CreateSchemaIfNotExists s =>
      if bool_decide (s = app) then Some (mkStatic true (sx_tables σ) (sx_roles σ)) else None
  | RevokeOnSchema s g | GrantOnSchema _ s g | RevokeByDefault s _ _ g | RevokeOnAll _ s _ g =>
      if static_schema σ s && static_known σ g then Some σ else None
  | CreateTable s name columns references =>
      if static_schema σ s && bool_decide (NoDup columns) && forallb (static_column σ) references &&
         negb (is_Some_b (static_columns σ (qualified s name)))
      then Some (mkStatic true ((qualified s name, columns) :: sx_tables σ) (sx_roles σ)) else None
  | CreateFunction _ _ => None
  | CreateIndex name columns => if forallb (λ column, static_column σ (name, column)) columns then Some σ else None
  | CommentOn name (Some column) => if static_column σ (name, column) then Some σ else None
  | CommentOn name None => if is_Some_b (static_columns σ name) then Some σ else None
  | RevokeOnTable name g | GrantOnTable _ name g =>
      if is_Some_b (static_columns σ name) && static_known σ g then Some σ else None
  | CreateRoleIfNotExists name _ =>
      if bool_decide (name = runtime) then Some (mkStatic (sx_schema σ) (sx_tables σ) (name :: sx_roles σ)) else None
  end.

Fixpoint static_all (l : list statement) (σ : Static) : option Static :=
  match l with [] => Some σ | st :: l' => σ' ← static_step st σ; static_all l' σ' end.

Section static.
Context (me : string).

(** What the role that migrates needs: to create schemas in the database and, unless the runtime
    role exists already, to create roles. *)
Definition may_migrate (c : Cluster) : Prop :=
  allowed c me (ct_database c) "CREATE" = true ∧
  (is_Some (ct_roles c !! runtime) ∨
   ∃ attr, ct_roles c !! me = Some attr ∧ rl_super attr || rl_createrole attr = true).

(** A catalog in which the script stands where the check says. *)
Record fits (c : Cluster) (σ : Static) : Prop := {
  fi_schema : match ct_schemas c !! app with Some sc => sc_owner sc = me | None => sx_schema σ = false end;
  fi_tables name columns : static_columns σ name = Some columns → ∃ o, ct_objects c !! name = Some o ∧
    ob_columns o = columns ∧ ob_owner o = me ∧ ob_schema o = app ∧ ob_kind o = Tables;
  fi_only name o : ct_objects c !! name = Some o → ob_schema o = app →
    ob_owner o = me ∧ is_Some (static_columns σ name);
  fi_names name : is_Some (ct_objects c !! qualified app name) → is_Some (static_columns σ (qualified app name));
  fi_roles g : g ∈ sx_roles σ → is_Some (ct_roles c !! g);
  fi_me : may_migrate c
}.

Lemma fits_known c σ g : fits c σ → static_known σ g = true → known c g = true.
Proof.
  intros Hf. unfold static_known, known. rewrite !orb_true_iff, !bool_decide_eq_true.
  intros [?|?]; [by left|right]. by apply (fi_roles _ _ Hf).
Qed.

Lemma fits_my_schema c σ s : fits c σ → static_schema σ s = true → ∃ sc, my_schema me c s = Some sc ∧ s = app.
Proof.
  intros Hf. unfold static_schema, my_schema. rewrite andb_true_iff, bool_decide_eq_true. intros [-> Hs].
  pose proof (fi_schema _ _ Hf) as Hsc. destruct (ct_schemas c !! app) as [sc|]; [|congruence]. cbn.
  rewrite bool_decide_eq_true_2 by done. eauto.
Qed.

Lemma fits_my_object c σ name : fits c σ → is_Some_b (static_columns σ name) = true →
  ∃ o, my_object me c name = Some o ∧ ct_objects c !! name = Some o ∧ static_columns σ name = Some (ob_columns o).
Proof.
  intros Hf Hs. destruct (static_columns σ name) as [columns|] eqn:E; [|done].
  destruct (fi_tables _ _ Hf _ _ E) as (o & Ho & <- & How & _). exists o. unfold my_object. rewrite Ho. cbn.
  by rewrite bool_decide_eq_true_2.
Qed.

Lemma fits_column c σ r : fits c σ → static_column σ r = true → has_column me c r = true.
Proof.
  intros Hf. unfold static_column, has_column. destruct (static_columns σ r.1) as [columns|] eqn:E; [|done].
  destruct (fits_my_object c σ r.1 Hf) as (o & -> & _ & Hc); [by rewrite E|]. rewrite E in Hc. by injection Hc as ->.
Qed.

Lemma fits_columns c σ l : fits c σ → forallb (static_column σ) l = true → forallb (has_column me c) l = true.
Proof. intros Hf. rewrite !forallb_forall. intros Hl r Hr. eapply fits_column; eauto. Qed.

(** Changing access control lists keeps the shape. *)
Lemma fits_schemas c σ sc f : fits c σ → my_schema me c app = Some sc →
  fits (with_schemas c (<[app := mkSchema (sc_owner sc) (f (sc_acl sc))]> (ct_schemas c))) σ.
Proof.
  intros [H1 H2 H3 H4 H5 H6] Hsc. split; try done. cbn. rewrite lookup_insert_eq. cbn.
  unfold my_schema in Hsc. destruct (ct_schemas c !! app) as [sc'|]; [|done]. cbn in Hsc.
  case_bool_decide; congruence.
Qed.

Lemma fits_objects c σ (m : gmap string Object) :
  (∀ name, match ct_objects c !! name, m !! name with
           | Some o, Some o' => ∃ f, o' = set_acl f o
           | None, None => True
           | _, _ => False end) →
  fits c σ → fits (with_objects c m) σ.
Proof.
  intros Hm [H1 H2 H3 H4 H5 H6]. split; try done; cbn.
  - intros name columns Hs. destruct (H2 _ _ Hs) as (o & Ho & Hrest). specialize (Hm name). rewrite Ho in Hm.
    destruct (m !! name) as [o'|]; [|done]. destruct Hm as [f ->]. eauto.
  - intros name o' Ho'. specialize (Hm name). rewrite Ho' in Hm. destruct (ct_objects c !! name) as [o|] eqn:Ho; [|done].
    destruct Hm as [f ->]. exact (H3 name o Ho).
  - intros name [o' Ho']. apply H4. specialize (Hm (qualified app name)). rewrite Ho' in Hm.
    by destruct (ct_objects c !! qualified app name).
Qed.

Lemma insert_acl (m : gmap string Object) name o f : m !! name = Some o →
  ∀ name', match m !! name', <[name := set_acl f o]> m !! name' with
           | Some o, Some o' => ∃ f, o' = set_acl f o | None, None => True | _, _ => False end.
Proof.
  intros Ho name'. destruct (decide (name = name')) as [<-|Hne].
  - rewrite Ho, lookup_insert_eq. eauto.
  - rewrite lookup_insert_ne by done. destruct (m !! name') as [o'|]; [|done]. exists id. by destruct o'.
Qed.

(** The effects of a statement that passes the check, one lemma for each kind. *)
Lemma static_alter_schema c σ s g f : fits c σ → static_schema σ s = true → static_known σ g = true →
  ∃ c', alter_schema me c s g f = Some c' ∧ fits c' σ.
Proof.
  intros Hf Hs Hg. destruct (fits_my_schema _ _ _ Hf Hs) as (sc & Hsc & ->). unfold alter_schema.
  rewrite Hsc. cbn. rewrite (fits_known _ _ _ Hf Hg). eexists. split; [done|]. by apply fits_schemas.
Qed.

Lemma static_alter_table c σ name g f : fits c σ → is_Some_b (static_columns σ name) = true → static_known σ g = true →
  ∃ c', alter_table me c name g f = Some c' ∧ fits c' σ.
Proof.
  intros Hf Hs Hg. destruct (fits_my_object _ _ _ Hf Hs) as (o & Ho & Hl & _). unfold alter_table.
  rewrite Ho. cbn. rewrite (fits_known _ _ _ Hf Hg). eexists. split; [done|].
  apply fits_objects; [by apply insert_acl|done].
Qed.

Lemma static_columns_cons σ name columns name' b roles :
  static_columns (mkStatic b ((name, columns) :: sx_tables σ) roles) name' =
  if bool_decide (name = name') then Some columns else static_columns σ name'.
Proof. unfold static_columns. cbn. by case_bool_decide. Qed.

Lemma static_create c σ name columns : fits c σ → static_schema σ app = true →
  static_columns σ (qualified app name) = None →
  ∃ c', create me c Tables app (qualified app name) columns = Some c' ∧
    fits c' (mkStatic true ((qualified app name, columns) :: sx_tables σ) (sx_roles σ)).
Proof.
  intros Hf Hs Hn. destruct (fits_my_schema _ _ _ Hf Hs) as (sc & Hsc & _). unfold create. rewrite Hsc. cbn.
  destruct (ct_objects c !! qualified app name) as [o|] eqn:Ho.
  { assert (is_Some (static_columns σ (qualified app name))) as [? ?] by (apply (fi_names _ _ Hf); eauto). congruence. }
  eexists. split; [done|]. destruct Hf as [H1 H2 H3 H4 H5 H6]. split; try done; cbn.
  - unfold my_schema in Hsc. by destruct (ct_schemas c !! app).
  - intros name' columns'. rewrite static_columns_cons. case_bool_decide as Heq.
    + intros [= <-]. rewrite <-Heq, lookup_insert_eq. eexists. by split_and!.
    + intros Hc. destruct (H2 _ _ Hc) as (o & Hlo & Hrest). exists o. by rewrite lookup_insert_ne.
  - intros name' o. rewrite static_columns_cons. case_bool_decide as Heq.
    + rewrite <-Heq, lookup_insert_eq. intros [= <-] _. by split.
    + rewrite lookup_insert_ne by done. apply H3.
  - intros name'. rewrite static_columns_cons. case_bool_decide as Heq; [eauto|].
    rewrite lookup_insert_ne by done. apply H4.
Qed.

Lemma static_create_schema c σ : fits c σ →
  ∃ c', apply me (CreateSchemaIfNotExists app) c = Some c' ∧ fits c' (mkStatic true (sx_tables σ) (sx_roles σ)).
Proof.
  intros [H1 H2 H3 H4 H5 H6]. cbn. rewrite (proj1 H6). cbn. destruct (ct_schemas c !! app) as [sc|] eqn:E.
  - exists c. split; [done|]. split; try done. by rewrite E.
  - eexists. split; [done|]. split; try done. cbn. by rewrite lookup_insert_eq.
Qed.

Lemma static_revoke_all c σ k s ps g : fits c σ → static_schema σ s = true → static_known σ g = true →
  ∃ c', apply me (RevokeOnAll k s ps g) c = Some c' ∧ fits c' σ.
Proof.
  intros Hf Hs Hg. destruct (fits_my_schema _ _ _ Hf Hs) as (sc & Hsc & ->). unfold my_schema in Hsc.
  cbn. destruct (ct_schemas c !! app) eqn:E; [|done]. cbn. rewrite (fits_known _ _ _ Hf Hg). cbn.
  rewrite bool_decide_eq_true_2.
  - eexists. split; [done|]. apply fits_objects; [|done]. intros name. rewrite lookup_fmap.
    destruct (ct_objects c !! name) as [o|]; [|done]. cbn. case_decide; [eauto|]. exists id. by destruct o.
  - intros name o Ho [Hso _]. by apply (fi_only _ _ Hf name o).
Qed.

Lemma allowed_roles c roles a p : roles !! me = ct_roles c !! me →
  allowed (with_roles c roles) me a p = allowed c me a p.
Proof. unfold allowed. cbn [with_roles ct_roles]. by intros ->. Qed.

Lemma static_create_role c σ attr : fits c σ →
  ∃ c', apply me (CreateRoleIfNotExists runtime attr) c = Some c' ∧
    fits c' (mkStatic (sx_schema σ) (sx_tables σ) (runtime :: sx_roles σ)).
Proof.
  intros [H1 H2 H3 H4 H5 [Hdb Hme]]. cbn. destruct (ct_roles c !! runtime) as [r|] eqn:E.
  - exists c. split; [done|]. split; try done; cbn; [|by split; [|left; rewrite E]].
    intros g [->|Hg]%elem_of_cons; [by rewrite E|by apply H5].
  - destruct Hme as [[? ?]|(me_attr & Hme & Hcan)]; [congruence|].
    rewrite Hme. cbn. rewrite Hcan. eexists. split; [done|]. split; try done; cbn.
    + intros g Hg. destruct (decide (runtime = g)) as [<-|Hne]; [by rewrite lookup_insert_eq|].
      rewrite lookup_insert_ne by done. apply elem_of_cons in Hg as [->|Hg]; [done|by apply H5].
    + split; [|left; cbn; by rewrite lookup_insert_eq]. rewrite allowed_roles; [done|].
      rewrite lookup_insert_ne; [done|]. intros <-. congruence.
Qed.

(** The check is sound: a statement that passes it runs. *)
Lemma static_sound st c σ σ' : fits c σ → static_step st σ = Some σ' →
  ∃ c', apply me st c = Some c' ∧ fits c' σ'.
Proof.
  intros Hf. destruct st as [s|s g|ps s g|s k ps g|s name columns refs|s name|name columns|name [column|]|name g|k s ps g|ps name g|name attr];
    cbn [static_step]; try done.
  all: try (destruct (static_schema σ s) eqn:Hs; [|done]).
  all: try match goal with |- context [is_Some_b (static_columns ?a ?b)] =>
    is_var b; destruct (is_Some_b (static_columns a b)) eqn:Hn; [|done] end.
  all: try (destruct (static_known σ g) eqn:Hg; [cbn [andb]|done]).
  - case_bool_decide; [|done]. subst s. intros [= <-]. by apply static_create_schema.
  - intros [= <-]. by apply static_alter_schema.
  - intros [= <-]. by apply static_alter_schema.
  - intros [= <-]. destruct (fits_my_schema _ _ _ Hf Hs) as (sc & Hsc & ->). unfold my_schema in Hsc. cbn.
    destruct (ct_schemas c !! app); [|done]. cbn. rewrite (fits_known _ _ _ Hf Hg). eexists. split; [done|]. by destruct Hf.
  - destruct (bool_decide (NoDup columns)) eqn:Hd, (forallb (static_column σ) refs) eqn:Hr; try done.
    destruct (static_columns σ (qualified s name)) eqn:Hq; [done|]. cbn. intros [= <-].
    rewrite Hd, (fits_columns _ _ _ Hf Hr). destruct (fits_my_schema _ _ _ Hf Hs) as (_ & _ & ->). by apply static_create.
  - destruct (forallb _ columns) eqn:Hc; [|done]. intros [= <-]. exists c. split; [|done]. cbn.
    assert (forallb (λ column, has_column me c (name, column)) columns = true) as ->; [|done].
    revert Hc. rewrite !forallb_forall. intros Hl r Hr. eapply fits_column; [done|by apply Hl].
  - destruct (static_column σ (name, column)) eqn:Hc; [|done]. intros [= <-]. exists c. split; [|done]. cbn.
    pose proof (fits_column _ _ _ Hf Hc) as Hh. unfold has_column in Hh. cbn in Hh.
    destruct (my_object me c name); [|done]. cbn. by destruct (bool_decide _).
  - intros [= <-]. exists c. split; [|done]. cbn. by destruct (fits_my_object _ _ _ Hf Hn) as (o & -> & _).
  - intros [= <-]. by apply static_alter_table.
  - intros [= <-]. by apply static_revoke_all.
  - intros [= <-]. by apply static_alter_table.
  - case_bool_decide; [|done]. subst name. intros [= <-]. by apply static_create_role.
Qed.

(** ** What the scripts do to one privilege *)

(** What is known after a statement of a privilege [p] of [g] on a table: [None] while the table
    does not exist, [Some None] when the defaults decide. *)
Definition learn (table g p : string) (st : statement) (k : option (option bool)) : option (option bool) :=
  match st with
  | CreateTable s name _ _ => if bool_decide (s = app ∧ qualified s name = table) then Some None else k
  | RevokeOnTable name g' => if bool_decide (name = table ∧ g' = g) then Some (Some false) else k
  | RevokeOnAll Tables s privileges g' =>
      if bool_decide (s = app ∧ g' = g) && covers privileges p then (λ _, Some false) <$> k else k
  | GrantOnTable privileges name g' =>
      if bool_decide (name = table ∧ g' = g) && bool_decide (p ∈ privileges) then Some (Some true) else k
  | _ => k
  end.

Definition knows (c : Cluster) (table g p : string) (k : option (option bool)) : Prop :=
  match k with
  | None => ct_objects c !! table = None
  | Some decided => ∃ o, ct_objects c !! table = Some o ∧ ob_schema o = app ∧ ob_kind o = Tables ∧
      ∀ b, decided = Some b → bool_decide ((g, p) ∈ ob_acl o) = b
  end.

Lemma knows_alter c c' name g' f table g p k k' :
  knows c table g p k → alter_table me c name g' f = Some c' →
  (∀ a b, k = Some b → name = table → ∃ decided, k' = Some decided ∧
     ∀ b', decided = Some b' → (∀ b0, b = Some b0 → bool_decide ((g, p) ∈ a) = b0) → bool_decide ((g, p) ∈ f a) = b') →
  (name ≠ table → k' = k) → knows c' table g p k'.
Proof.
  unfold alter_table, my_object. intros Hk Ha Heq Hne.
  destruct (ct_objects c !! name) as [o|] eqn:Ho; [|done]. cbn in Ha. case_bool_decide; [|done]. cbn in Ha.
  destruct (known c g'); [|done]. injection Ha as <-. unfold knows in *. cbn.
  destruct (decide (name = table)) as [->|Hn].
  - destruct k as [b|]; [|congruence]. destruct Hk as (o1 & Ho1 & Hs & Ht & Hb). rewrite Ho in Ho1. injection Ho1 as <-.
    destruct (Heq (ob_acl o) b eq_refl eq_refl) as (decided & -> & Hd). rewrite lookup_insert_eq.
    eexists. split_and!; [done..|]. intros b' Hb'. by apply Hd.
  - rewrite (Hne Hn), lookup_insert_ne by done. done.
Qed.

Lemma knows_revoke_all c kd s ps g' table g p k :
  knows c table g p k →
  knows (with_objects c ((λ o, if decide (in_schema s kd o) then set_acl (revoke ps g') o else o) <$> ct_objects c))
    table g p (match kd with
               | Tables => if bool_decide (s = app ∧ g' = g) && covers ps p then (λ _, Some false) <$> k else k
               | _ => k end).
Proof.
  intros Hk. unfold knows in *. destruct k as [b|]; cbn.
  2: { destruct kd; [destruct (_ && _)|..]; cbn; by rewrite lookup_fmap, Hk. }
  destruct Hk as (o & Ho & Hs & Ht & Hb).
  assert (∀ d, (∀ b0, d = Some b0 → bool_decide ((g, p) ∈ ob_acl (if decide (in_schema s kd o) then set_acl (revoke ps g') o else o)) = b0) →
    ∃ o', ((λ o, if decide (in_schema s kd o) then set_acl (revoke ps g') o else o) <$> ct_objects c) !! table = Some o' ∧
      ob_schema o' = app ∧ ob_kind o' = Tables ∧ ∀ b0, d = Some b0 → bool_decide ((g, p) ∈ ob_acl o') = b0) as Hgo.
  { intros d Hd. rewrite lookup_fmap, Ho. eexists. split; [done|]. split_and!; [by case_decide..|done]. }
  unfold in_schema in *. destruct kd; try (apply Hgo; intros b0 Hb0; rewrite decide_False by (intros [_ ?]; congruence); by apply Hb).
  destruct (_ && _) eqn:E.
  - apply andb_true_iff in E as [[-> ->]%bool_decide_eq_true Hc]. apply Hgo. intros b0 [= <-].
    rewrite decide_True by done. apply bool_decide_eq_false_2. cbn. rewrite elem_of_revoke. tauto.
  - apply Hgo. intros b0 Hb0. rewrite <-(Hb _ Hb0). case_decide as Hd; [|done]. destruct Hd as [Hsch _].
    apply bool_decide_ext. cbn. rewrite elem_of_revoke. split; [tauto|]. intros Hin. split; [done|]. intros [-> Hc].
    rewrite Hc, andb_true_r, bool_decide_eq_false in E. apply E. split; congruence.
Qed.

Lemma learn_sound st c c' table g p k σ :
  is_Some (static_step st σ) → apply me st c = Some c' → knows c table g p k → knows c' table g p (learn table g p st k).
Proof.
  intros [σ' Hst] Ha Hk. destruct st as [s|s g'|ps s g'|s kd ps g'|s name columns refs|s name|name columns|name column|name g'|kd s ps g'|ps name g'|name attr].
  all: cbn [apply learn] in *; try done.
  - destruct (negb _); [done|]. destruct (ct_schemas c !! s); by simplify_eq.
  - unfold alter_schema in Ha. destruct (my_schema me c s); [|done]. cbn in Ha. destruct (known c g'); by simplify_eq.
  - unfold alter_schema in Ha. destruct (my_schema me c s); [|done]. cbn in Ha. destruct (known c g'); by simplify_eq.
  - destruct (ct_schemas c !! s); [|done]. cbn in Ha. destruct (known c g'); by simplify_eq.
  - cbn in Hst. destruct (static_schema σ s) eqn:Hs; [|done].
    unfold static_schema in Hs. apply andb_true_iff in Hs as [->%bool_decide_eq_true _]. clear Hst.
    destruct (_ && _) in Ha; [|done]. unfold create in Ha. destruct (my_schema me c app); [|done]. cbn in Ha.
    destruct (ct_objects c !! qualified app name) eqn:Ho; [done|]. injection Ha as <-.
    case_bool_decide as Heq; unfold knows in *; cbn.
    + destruct Heq as [_ <-]. rewrite lookup_insert_eq. eexists. by split_and!.
    + rewrite lookup_insert_ne by naive_solver. done.
  - destruct (forallb _ columns); by simplify_eq.
  - destruct (my_object me c name); [|done]. cbn in Ha. destruct column; [case_bool_decide|]; by simplify_eq.
  - eapply knows_alter; [exact Hk|exact Ha| |by intros Hne; rewrite bool_decide_eq_false_2 by naive_solver].
    intros a b -> ->. case_bool_decide as Hg.
    + destruct Hg as [_ ->]. eexists. split; [done|]. intros b' [= <-] _. apply bool_decide_eq_false_2.
      rewrite elem_of_revoke. naive_solver.
    + exists b. split; [done|]. intros b' Hb' Hold. rewrite <-(Hold _ Hb'). apply bool_decide_ext.
      rewrite elem_of_revoke. naive_solver.
  - destruct (ct_schemas c !! s); [|done]. cbn in Ha. destruct (_ && _) in Ha; [|done]. injection Ha as <-. clear Hst.
    by apply knows_revoke_all.
  - eapply knows_alter; [exact Hk|exact Ha| |by intros Hne; rewrite bool_decide_eq_false_2 by naive_solver].
    intros a b -> ->. rewrite (bool_decide_ext _ (g' = g)) by naive_solver. case_bool_decide as Hg; cbn [andb].
    2: { exists b. split; [done|]. intros b' Hb' Hold. rewrite <-(Hold _ Hb'). apply bool_decide_ext.
      rewrite elem_of_grant. naive_solver. }
    subst g'. case_bool_decide as Hp.
    + eexists. split; [done|]. intros b' [= <-] _. apply bool_decide_eq_true_2. rewrite elem_of_grant. by left.
    + exists b. split; [done|]. intros b' Hb' Hold. rewrite <-(Hold _ Hb'). apply bool_decide_ext.
      rewrite elem_of_grant. naive_solver.
  - destruct (ct_roles c !! name); [by simplify_eq|]. destruct (ct_roles c !! me); [|done]. cbn in Ha.
    destruct (_ || _); by simplify_eq.
Qed.

(** The same for a privilege on the schema. *)
Definition learn_schema (g p : string) (st : statement) (k : option bool) : option bool :=
  match st with
  | CreateSchemaIfNotExists s => if bool_decide (s = app) then None else k
  | RevokeOnSchema s g' => if bool_decide (s = app ∧ g' = g) then Some false else k
  | GrantOnSchema privileges s g' =>
      if bool_decide (s = app ∧ g' = g) && bool_decide (p ∈ privileges) then Some true else k
  | _ => k
  end.

Definition knows_schema (c : Cluster) (g p : string) (k : option bool) : Prop :=
  ∀ sc b, ct_schemas c !! app = Some sc → k = Some b → bool_decide ((g, p) ∈ sc_acl sc) = b.

Lemma alter_schema_Some c c' s g f : alter_schema me c s g f = Some c' →
  ∃ sc, ct_schemas c !! s = Some sc ∧ c' = with_schemas c (<[s := mkSchema (sc_owner sc) (f (sc_acl sc))]> (ct_schemas c)).
Proof.
  unfold alter_schema, my_schema. destruct (ct_schemas c !! s) as [sc|]; [|done]. cbn. case_bool_decide; [|done]. cbn.
  destruct (known c g); [|done]. intros [= <-]. eauto.
Qed.

Lemma alter_table_Some c c' name g f : alter_table me c name g f = Some c' →
  ∃ o, ct_objects c !! name = Some o ∧ c' = with_objects c (<[name := set_acl f o]> (ct_objects c)).
Proof.
  unfold alter_table, my_object. destruct (ct_objects c !! name) as [o|]; [|done]. cbn. case_bool_decide; [|done]. cbn.
  destruct (known c g); [|done]. intros [= <-]. eauto.
Qed.

(** Only statements on schemas change the schemas. *)
Lemma apply_schemas st c c' : apply me st c = Some c' →
  match st with
  | CreateSchemaIfNotExists _ | RevokeOnSchema _ _ | GrantOnSchema _ _ _ => True
  | _ => ct_schemas c' = ct_schemas c
  end.
Proof.
  destruct st; cbn; try done.
  - destruct (ct_schemas c !! s); [|done]. cbn. destruct (known c grantee); [|done]. by intros [= <-].
  - unfold create. destruct (_ && _); [|done]. destruct (my_schema me c s); [|done]. cbn.
    destruct (ct_objects c !! _); [done|]. by intros [= <-].
  - unfold create. destruct (my_schema me c s); [|done]. cbn. destruct (ct_objects c !! _); [done|]. by intros [= <-].
  - destruct (forallb _ _); [|done]. by intros [= <-].
  - destruct (my_object me c name); [|done]. cbn. destruct column; [case_bool_decide; [|done]|]; by intros [= <-].
  - by intros (o & _ & ->)%alter_table_Some.
  - destruct (ct_schemas c !! s); [|done]. cbn. destruct (_ && _); [|done]. by intros [= <-].
  - by intros (o & _ & ->)%alter_table_Some.
  - destruct (ct_roles c !! name); [by intros [= <-]|]. destruct (ct_roles c !! me); [|done]. cbn.
    destruct (_ || _); [|done]. by intros [= <-].
Qed.

Lemma learn_schema_sound st c c' g p k :
  apply me st c = Some c' → knows_schema c g p k → knows_schema c' g p (learn_schema g p st k).
Proof.
  intros Ha Hk. pose proof (apply_schemas _ _ _ Ha) as Hs.
  destruct st; cbn [learn_schema] in *; try (unfold knows_schema; by rewrite Hs).
  - cbn in Ha. unfold knows_schema in *. case_bool_decide as E; [done|]. destruct (negb _); [done|]. destruct (ct_schemas c !! s); simplify_eq; [done|].
    cbn. by rewrite lookup_insert_ne.
  - apply alter_schema_Some in Ha as (sc & Hsc & ->). unfold knows_schema. cbn. destruct (decide (s = app)) as [->|Hne].
    2: { rewrite lookup_insert_ne, bool_decide_eq_false_2 by naive_solver. done. }
    rewrite lookup_insert_eq. intros sc' b [= <-]. cbn. case_bool_decide as Hg.
    + destruct Hg as [_ ->]. intros [= <-]. apply bool_decide_eq_false_2. rewrite elem_of_revoke. naive_solver.
    + intros Hb. rewrite <-(Hk _ _ Hsc Hb). apply bool_decide_ext. rewrite elem_of_revoke. naive_solver.
  - apply alter_schema_Some in Ha as (sc & Hsc & ->). unfold knows_schema. cbn. destruct (decide (s = app)) as [->|Hne].
    2: { rewrite lookup_insert_ne, (bool_decide_eq_false_2 (s = app ∧ _)) by naive_solver. done. }
    rewrite lookup_insert_eq. intros sc' b [= <-]. cbn. rewrite (bool_decide_ext _ (grantee = g)) by naive_solver.
    case_bool_decide as Hg; cbn [andb].
    2: { intros Hb. rewrite <-(Hk _ _ Hsc Hb). apply bool_decide_ext. rewrite elem_of_grant. naive_solver. }
    subst grantee. case_bool_decide as Hp.
    + intros [= <-]. apply bool_decide_eq_true_2. rewrite elem_of_grant. by left.
    + intros Hb. rewrite <-(Hk _ _ Hsc Hb). apply bool_decide_ext. rewrite elem_of_grant. naive_solver.
Qed.

(** ** A role that the scripts do not mention *)

Record silent (c : Cluster) (g : string) : Prop := {
  si_schema sc p : ct_schemas c !! app = Some sc → (g, p) ∉ sc_acl sc;
  si_objects name o p : ct_objects c !! name = Some o → ob_schema o = app → (g, p) ∉ ob_acl o;
  si_global k p : (g, p) ∉ ct_global c k;
  si_local k p : (g, p) ∉ ct_local c app k
}.

Definition grantee_of (st : statement) : option string :=
  match st with GrantOnSchema _ _ g | GrantOnTable _ _ g => Some g | _ => None end.

Lemma silent_alter c name o (f : acl → acl) g : silent c g → ct_objects c !! name = Some o →
  (∀ a p, (g, p) ∈ f a → (g, p) ∈ a) → silent (with_objects c (<[name := set_acl f o]> (ct_objects c))) g.
Proof.
  intros [H1 H2 H3 H4] Ho Hf. split; try done. cbn. intros name' o' p.
  destruct (decide (name = name')) as [<-|Hne]; [|rewrite lookup_insert_ne by done; apply H2].
  rewrite lookup_insert_eq. intros [= <-] Hs. cbn in *. intros Hin%Hf. by apply (H2 name o p).
Qed.

Lemma silent_alter_schema c s sc (f : acl → acl) g : silent c g → ct_schemas c !! s = Some sc →
  (∀ a p, (g, p) ∈ f a → (g, p) ∈ a) →
  silent (with_schemas c (<[s := mkSchema (sc_owner sc) (f (sc_acl sc))]> (ct_schemas c))) g.
Proof.
  intros [H1 H2 H3 H4] Hs Hf. split; try done. cbn. intros sc' p.
  destruct (decide (s = app)) as [->|Hne]; [|rewrite lookup_insert_ne by done; apply H1].
  rewrite lookup_insert_eq. intros [= <-]. cbn. intros Hin%Hf. by apply (H1 sc p).
Qed.

Lemma silent_create c c' k s name columns g : silent c g → g ≠ me → create me c k s name columns = Some c' → silent c' g.
Proof.
  intros [H1 H2 H3 H4] Hme. unfold create. destruct (my_schema me c s); [|done]. cbn.
  destruct (ct_objects c !! name) eqn:Ho; [done|]. intros [= <-]. split; try done. cbn. intros name' o' p.
  destruct (decide (name = name')) as [<-|Hne]; [|rewrite lookup_insert_ne by done; apply H2].
  rewrite lookup_insert_eq. intros [= <-]. cbn. intros ->. rewrite elem_of_grant, elem_of_union.
  intros [[? _]|[?|?]]; [done|by apply (H3 k p)|by apply (H4 k p)].
Qed.

Lemma grant_silent ps g g' (a : acl) p : Some g' ≠ Some g → (g, p) ∈ grant ps g' a → (g, p) ∈ a.
Proof. rewrite elem_of_grant. naive_solver. Qed.

Lemma silent_sound st c c' g : grantee_of st ≠ Some g → g ≠ me → silent c g → apply me st c = Some c' → silent c' g.
Proof.
  intros Hg Hme Hs. destruct st; cbn in *; try done.
  - destruct (negb _); [done|]. destruct (ct_schemas c !! s) eqn:E; intros [= <-]; [done|]. destruct Hs as [H1 H2 H3 H4]. split; try done. cbn.
    intros sc p. destruct (decide (s = app)) as [->|Hne]; [|rewrite lookup_insert_ne by done; apply H1].
    rewrite lookup_insert_eq. intros [= <-]. cbn. rewrite elem_of_grant. set_solver.
  - intros (sc & Hsc & ->)%alter_schema_Some. apply silent_alter_schema; [done..|]. intros a p. by rewrite elem_of_revoke; intros [? _].
  - intros (sc & Hsc & ->)%alter_schema_Some. apply silent_alter_schema; [done..|]. intros a p. by apply grant_silent.
  - destruct (ct_schemas c !! s); [|done]. cbn. destruct (known c grantee); [|done]. intros [= <-].
    destruct Hs as [H1 H2 H3 H4]. split; try done. cbn. intros k' p. case_bool_decide as E; [|apply H4].
    destruct E as [<- ->]. rewrite elem_of_revoke. intros [Hin _]. by apply (H4 k p).
  - destruct (_ && _); [|done]. by apply silent_create.
  - by apply silent_create.
  - destruct (forallb _ _); [|done]. by intros [= <-].
  - destruct (my_object me c name); [|done]. cbn. destruct column; [case_bool_decide; [|done]|]; by intros [= <-].
  - intros (o & Ho & ->)%alter_table_Some. apply silent_alter; [done..|]. intros a p. by rewrite elem_of_revoke; intros [? _].
  - destruct (ct_schemas c !! s); [|done]. cbn. destruct (_ && _); [|done]. intros [= <-].
    destruct Hs as [H1 H2 H3 H4]. split; try done. cbn. intros name o p (o0 & <- & Ho0)%lookup_fmap_Some. case_decide; [|by apply (H2 name)].
    cbn. intros Hs. rewrite elem_of_revoke. intros [Hin _]. by apply (H2 name o0 p).
  - intros (o & Ho & ->)%alter_table_Some. apply silent_alter; [done..|]. intros a p. by apply grant_silent.
  - destruct (ct_roles c !! name); [by intros [= <-]|]. destruct (ct_roles c !! me); [|done]. cbn.
    destruct (_ || _); [|done]. intros [= <-]. by destruct Hs.
Qed.

(** ** The whole run *)

Lemma run_all l : ∀ c σ σ', fits c σ → static_all l σ = Some σ' →
  ∃ c', apply_all me l c = Some c' ∧ fits c' σ' ∧
    (∀ table g p k, knows c table g p k → knows c' table g p (fold_left (λ k st, learn table g p st k) l k)) ∧
    (∀ g p k, knows_schema c g p k → knows_schema c' g p (fold_left (λ k st, learn_schema g p st k) l k)) ∧
    (∀ g, g ≠ me → Forall (λ st, grantee_of st ≠ Some g) l → silent c g → silent c' g).
Proof.
  induction l as [|st l IH]; intros c σ σ' Hf Hs.
  { exists c. cbn in Hs. injection Hs as <-. by split_and!. }
  cbn in Hs. destruct (static_step st σ) as [σ1|] eqn:E; [|done]. cbn in Hs.
  destruct (static_sound st c σ σ1 Hf E) as (c1 & Hc1 & Hf1).
  destruct (IH c1 σ1 σ' Hf1 Hs) as (c' & Hc' & Hf' & Hk & Hks & Hsi). exists c'. cbn. rewrite Hc1. cbn.
  split_and!; [done|done|..].
  - intros table g p k Hkn. apply Hk. eapply learn_sound; [by rewrite E|done..].
  - intros g p k Hkn. apply Hks. by eapply learn_schema_sound.
  - intros g Hme [Hg Hgs]%Forall_cons Hsil. apply Hsi; [done..|]. by eapply silent_sound.
Qed.

Lemma apply_all_app l1 l2 c : apply_all me (l1 ++ l2) c = (c' ← apply_all me l1 c; apply_all me l2 c').
Proof. revert c. induction l1 as [|st l1 IH]; intros c; [done|]. cbn. destruct (apply me st c); [|done]. cbn. apply IH. Qed.

Lemma migrate_concat scripts c : migrate me scripts c = apply_all me (concat scripts) c.
Proof.
  revert c. induction scripts as [|script scripts IH]; intros c; [done|]. cbn. rewrite apply_all_app.
  destruct (apply_all me script c); [|done]. cbn. apply IH.
Qed.

(** A database without the schema, or with an empty one of the migrating role; nothing is said
    of what that role may do. *)
Record fresh (c : Cluster) : Prop := {
  fr_schema sc : ct_schemas c !! app = Some sc → sc_owner sc = me;
  fr_objects name o : ct_objects c !! name = Some o → ob_schema o ≠ app;
  fr_names name : ct_objects c !! qualified app name = None
}.

Lemma fresh_fits c : fresh c → may_migrate c → fits c (mkStatic false [] []).
Proof.
  intros [H1 H2 H3] Hme. split; try done; cbn.
  - by destruct (ct_schemas c !! app) eqn:E; [apply H1|].
  - intros name o Ho Hs. by destruct (H2 name o Ho).
  - intros name [o Ho]. by rewrite H3 in Ho.
  - intros g Hg. by apply elem_of_nil in Hg.
Qed.

(** What the scripts end with. *)
Definition final : Static := default (mkStatic false [] []) (static_all (concat migrations) (mkStatic false [] [])).
Definition table_names : list string := (sx_tables final).*1.

Lemma table_names_qualified name : name ∈ table_names → ∃ n, name = qualified app n.
Proof.
  intros Hn. exists (str_drop 12 name).
  assert (forallb (λ t, bool_decide (t = qualified app (str_drop 12 t))) table_names = true) as Hall
    by (vm_compute; reflexivity).
  rewrite forallb_forall in Hall. apply list_elem_of_In, Hall in Hn. by apply bool_decide_eq_true in Hn.
Qed.

Definition decides (table p : string) : bool :=
  bool_decide (fold_left (λ k st, learn table runtime p st k) (concat migrations) None =
                 Some (Some (bool_decide ((table, p) ∈ required)))) &&
  bool_decide (fold_left (λ k st, learn table PUBLIC p st k) (concat migrations) None = Some (Some false)).

Lemma decides_all table p : table ∈ table_names → p ∈ all_privileges Tables → decides table p = true.
Proof.
  intros Ht Hp.
  assert (forallb (λ t, forallb (decides t) (all_privileges Tables)) table_names = true) as Hall by (vm_compute; reflexivity).
  rewrite forallb_forall in Hall. specialize (Hall table). rewrite forallb_forall in Hall.
  apply Hall; by apply list_elem_of_In.
Qed.

Record migrated (c : Cluster) : Prop := {
  mi_fits : fits c final;
  mi_knows table p g b : table ∈ table_names → p ∈ all_privileges Tables →
    g = runtime ∧ b = bool_decide ((table, p) ∈ required) ∨ g = PUBLIC ∧ b = false →
    ∃ o, ct_objects c !! table = Some o ∧ bool_decide ((g, p) ∈ ob_acl o) = b;
  mi_schema p g b sc : ct_schemas c !! app = Some sc → p ∈ ["USAGE"; "CREATE"] →
    g = runtime ∧ b = bool_decide (p = "USAGE") ∨ g = PUBLIC ∧ b = false → bool_decide ((g, p) ∈ sc_acl sc) = b
}.

Lemma migrations_run c0 : fresh c0 → may_migrate c0 → ∃ c, migrate me migrations c0 = Some c ∧ migrated c ∧
  ∀ login, login ≠ me → login ≠ runtime → silent c0 login → silent c login.
Proof.
  intros Hfr Hmay. destruct (run_all (concat migrations) c0 (mkStatic false [] []) final) as (c & Hrun & Hfit & Hk & Hks & Hsil).
  { by apply fresh_fits. }
  { vm_compute. reflexivity. }
  exists c. rewrite migrate_concat. split; [done|]. split; [split; [done|..]|].
  - intros table p g b Ht Hp Hgb. destruct (table_names_qualified table Ht) as [n Hn].
    assert (knows c0 table g p None) as Hk0 by (rewrite Hn; apply (fr_names _ Hfr)). apply Hk in Hk0.
    pose proof (decides_all table p Ht Hp) as Hd. unfold decides in Hd.
    apply andb_true_iff in Hd as [H1%bool_decide_eq_true H2%bool_decide_eq_true].
    destruct Hgb as [[-> ->]|[-> ->]]; [rewrite H1 in Hk0|rewrite H2 in Hk0];
      destruct Hk0 as (o & Ho & _ & _ & Hb); exists o; (split; [done|]); by apply Hb.
  - intros p g b sc Hsc Hp Hgb. assert (knows_schema c0 g p None) as Hk0 by done. apply Hks in Hk0.
    apply (Hk0 sc b Hsc). clear Hk0. rewrite !elem_of_cons, elem_of_nil in Hp.
    destruct Hp as [->|[->|[]]], Hgb as [[-> ->]|[-> ->]]; vm_compute; reflexivity.
  - intros login Hme Hrt. apply Hsil; [done|]. 
    assert (Forall (λ st, grantee_of st = None ∨ grantee_of st = Some runtime) (concat migrations)) as Hg.
    { cbn. repeat (apply Forall_cons; split; [by (left + right)|]). done. }
    eapply Forall_impl; [exact Hg|]. cbn. intros st [->| ->]; congruence.
Qed.

(** Only [CREATE ROLE] changes the roles. *)
Lemma apply_roles st c c' : apply me st c = Some c' →
  match st with CreateRoleIfNotExists _ _ => True | _ => ct_roles c' = ct_roles c end.
Proof.
  destruct st; cbn; try done.
  - destruct (negb _); [done|]. destruct (ct_schemas c !! s); by intros [= <-].
  - by intros (sc & _ & ->)%alter_schema_Some.
  - by intros (sc & _ & ->)%alter_schema_Some.
  - destruct (ct_schemas c !! s); [|done]. cbn. destruct (known c grantee); [|done]. by intros [= <-].
  - unfold create. destruct (_ && _); [|done]. destruct (my_schema me c s); [|done]. cbn.
    destruct (ct_objects c !! _); [done|]. by intros [= <-].
  - unfold create. destruct (my_schema me c s); [|done]. cbn. destruct (ct_objects c !! _); [done|]. by intros [= <-].
  - destruct (forallb _ _); [|done]. by intros [= <-].
  - destruct (my_object me c name); [|done]. cbn. destruct column; [case_bool_decide; [|done]|]; by intros [= <-].
  - by intros (o & _ & ->)%alter_table_Some.
  - destruct (ct_schemas c !! s); [|done]. cbn. destruct (_ && _); [|done]. by intros [= <-].
  - by intros (o & _ & ->)%alter_table_Some.
Qed.

Lemma apply_all_roles l c c' :
  Forall (λ st, match st with CreateRoleIfNotExists _ _ => False | _ => True end) l →
  apply_all me l c = Some c' → ct_roles c' = ct_roles c.
Proof.
  intros Hl. revert c. induction Hl as [|st l Hst Hl IH]; intros c; cbn; [by intros [= <-]|].
  destruct (apply me st c) as [c1|] eqn:E; [|done]. cbn. intros ->%IH.
  apply apply_roles in E. by destruct st.
Qed.

(** A role that may not do so does not get through the scripts. *)
Lemma migrations_need c0 c : migrate me migrations c0 = Some c → may_migrate c0.
Proof.
  intros Hrun. rewrite migrate_concat in Hrun.
  assert (concat migrations = (initial_sql ++ pilot_vpn_access_sql ++ pilot_test_results_sql) ++ runtime_role_sql)
    as E by reflexivity.
  rewrite E, apply_all_app in Hrun. clear E.
  destruct (apply_all me (initial_sql ++ _) c0) as [c1|] eqn:E; [|done]. cbn [mbind option_bind] in Hrun. split.
  - cbn in E. by destruct (allowed c0 me (ct_database c0) "CREATE").
  - apply apply_all_roles in E; [|cbn; by repeat constructor]. rewrite <-E. clear E. cbn in Hrun.
    destruct (ct_roles c1 !! runtime); [by left|right]. cbn in Hrun.
    destruct (ct_roles c1 !! me) as [attr|]; [|done]. exists attr. split; [done|]. cbn in Hrun.
    by destruct (_ || _).
Qed.

End static.

(** ** The checks of the control plane *)

(** The catalog with other roles and memberships: logins are created apart from the scripts. *)
Definition with_login (c : Cluster) (roles : gmap string Role) (members : gmap string (gset string)) : Cluster :=
  mkCluster roles members (ct_schemas c) (ct_objects c) (ct_database c) (ct_global c) (ct_local c).

Section login.
Context (me login : string) (c : Cluster) (roles : gmap string Role) (members : gmap string (gset string)).
Context (Hm : migrated me c) (Hsilent : silent c login).

Abbreviation d := (with_login c roles members).

Context (Hattr : roles !! login = Some (mkRole false false false false)).
Context (Hroles : roles_of d login = {[login; runtime]}).

Lemma allowed_login a p : (login, p) ∉ a → bool_decide ((PUBLIC, p) ∈ a) = false →
  allowed d login a p = bool_decide ((runtime, p) ∈ a).
Proof.
  intros Hl Hp. unfold allowed. rewrite Hroles, Hp. cbn [with_login ct_roles]. rewrite Hattr. cbn. apply bool_decide_ext. unfold set_Exists. split.
  - intros (r & Hr & Hin). apply elem_of_union in Hr as [->%elem_of_singleton| ->%elem_of_singleton]; [done|done].
  - intros Hin. exists runtime. split; [|done]. apply elem_of_union_r. by apply elem_of_singleton.
Qed.

Lemma app_schema : ∃ sc, ct_schemas c !! app = Some sc.
Proof.
  pose proof (fi_schema _ _ _ (mi_fits _ _ Hm)) as Hs. destruct (ct_schemas c !! app) as [sc|]; [eauto|].
  exfalso. revert Hs. vm_compute. discriminate.
Qed.

Lemma login_schema p : p ∈ ["USAGE"; "CREATE"] → schema_privilege d login app p = inr (bool_decide (p = "USAGE")).
Proof.
  intros Hp. unfold schema_privilege. cbn [with_login ct_schemas]. destruct app_schema as [sc Hsc]. rewrite Hsc, bool_decide_eq_true_2 by done. f_equal.
  rewrite allowed_login; [|by apply (si_schema _ _ Hsilent)|].
  - apply (mi_schema _ _ Hm p runtime _ sc Hsc Hp). by left.
  - apply (mi_schema _ _ Hm p PUBLIC _ sc Hsc Hp). by right.
Qed.

Lemma app_table name : name ∈ table_names → ∃ o, ct_objects c !! name = Some o ∧ ob_schema o = app ∧
  static_columns final name = Some (ob_columns o).
Proof.
  intros Hn. assert (∃ columns, static_columns final name = Some columns) as [columns Hc].
  { assert (forallb (λ t, is_Some_b (static_columns final t)) table_names = true) as Hall by (vm_compute; reflexivity).
    rewrite forallb_forall in Hall. apply list_elem_of_In, Hall in Hn. destruct (static_columns final name); [eauto|done]. }
  destruct (fi_tables _ _ _ (mi_fits _ _ Hm) name columns Hc) as (o & Ho & <- & _ & Hs & _). eauto.
Qed.

Lemma login_table name o p : name ∈ table_names → ct_objects c !! name = Some o → p ∈ all_privileges Tables →
  allowed d login (ob_acl o) p = bool_decide ((name, p) ∈ required).
Proof.
  intros Hn Ho Hp. destruct (app_table name Hn) as (o' & Ho' & Hs & _). assert (o' = o) as -> by congruence.
  rewrite allowed_login; [|by apply (si_objects _ _ Hsilent name o)|].
  - destruct (mi_knows _ _ Hm name p runtime (bool_decide ((name, p) ∈ required)) Hn Hp) as (o1 & Ho1 & Hb); [by left|].
    rewrite Ho in Ho1. by injection Ho1 as <-.
  - destruct (mi_knows _ _ Hm name p PUBLIC false Hn Hp) as (o1 & Ho1 & Hb); [by right|].
    rewrite Ho in Ho1. by injection Ho1 as <-.
Qed.

(** The tables of the schema are those of the scripts. *)
Lemma app_tables_only name o : ct_objects c !! name = Some o → ob_schema o = app → name ∈ table_names.
Proof.
  intros Ho Hs. destruct (fi_only _ _ _ (mi_fits _ _ Hm) name o Ho Hs) as [_ [columns Hc]].
  unfold static_columns in Hc. destruct (List.find _ _) as [[n cols]|] eqn:E; [|done].
  apply List.find_some in E as [Hin Heq]. apply bool_decide_eq_true in Heq. cbn in Heq. subst n.
  apply list_elem_of_In in Hin. apply (list_elem_of_fmap_2 fst) in Hin. exact Hin.
Qed.

Definition selectable (reads : list (string * list string)) : bool :=
  forallb (λ r, bool_decide (r.1 ∈ table_names) && bool_decide ((r.1, "SELECT") ∈ required) &&
    forallb (λ column, static_column final (r.1, column)) r.2) reads.

Lemma login_select reads : selectable reads = true → can_select d login reads = inr tt.
Proof.
  unfold selectable. induction reads as [|[name columns] reads IH]; [done|]. cbn [forallb can_select fst snd with_login ct_objects].
  intros [[[Hn%bool_decide_eq_true Hr]%andb_true_iff Hc]%andb_true_iff Hrest]%andb_true_iff.
  destruct (app_table name Hn) as (o & Ho & Hs & Hcols). rewrite Ho, Hs, login_schema by (left). cbn [mbind sum_bind bool_decide negb].
  assert (forallb (λ column, bool_decide (column ∈ ob_columns o)) columns = true) as ->.
  { revert Hc. rewrite !forallb_forall. intros Hc column Hin%Hc. unfold static_column in Hin. cbn [fst snd] in Hin. by rewrite Hcols in Hin. }
  cbn. rewrite (login_table name o "SELECT" Hn Ho) by left. rewrite Hr. cbn. by apply IH.
Qed.

Lemma login_checks : privileges_query (server_of d login) = inr true ∧
  can_select d login access_columns = inr tt ∧ can_select d login result_columns = inr tt ∧
  can_select d login report_columns = inr tt.
Proof.
  split; [|split_and!; apply login_select; vm_compute; reflexivity].
  apply privileges_spec. cbn. split; [apply (login_schema "USAGE"); left|].
  assert (Forall (λ x, x.1 ∈ table_names ∧ x.2 ∈ all_privileges Tables) required) as Hreq.
  { apply Forall_forall. intros [t p] Hx.
    assert (forallb (λ x, bool_decide (x.1 ∈ table_names) && bool_decide (x.2 ∈ all_privileges Tables)) required = true)
      as Hall by (vm_compute; reflexivity).
    rewrite forallb_forall in Hall. apply list_elem_of_In, Hall, andb_true_iff in Hx as [H1 H2].
    by apply bool_decide_eq_true in H1, H2. }
  apply Forall_forall. intros [t p] Hx. rewrite Forall_forall in Hreq. destruct (Hreq _ Hx) as [Ht Hp]. cbn in *.
  unfold table_privilege. cbn [with_login ct_objects]. destruct (app_table t Ht) as (o & Ho & _). rewrite Ho, bool_decide_eq_true_2 by done. f_equal.
  rewrite (login_table t o p Ht Ho Hp). by apply bool_decide_eq_true_2.
Qed.

(** With a connection that works, the start-up checks pass. *)
Lemma login_opens ParseConfig url config hs :
  secureDatabaseConfig ParseConfig url = Ok config →
  (openPilotDatabase ParseConfig (server_of d login) url;;
   CheckSchema_access (server_of d login);; CheckSchema_telemetry (server_of d login)) (mkSession hs None []) =
  (inr tt, mkSession (handle config :: hs) None []).
Proof.
  intros Hc. destruct login_checks as (Hp & Ha & Hr & Hj).
  unfold openPilotDatabase. rewrite Hc.
  unfold validateDatabaseIdentity, validateDatabasePrivileges, identity_query. rewrite Hp. cbn [sv_roles sv_current_user server_of with_login ct_roles].
  rewrite Hattr. unfold CheckSchema_access, CheckSchema_telemetry. cbn [sv_select server_of]. rewrite Ha, Hr, Hj. done.
Qed.

End login.

(** ** Claims *)

(** C16: the migrations and the control plane fit together.  On a fresh database the four
    scripts run without an error exactly when the role that runs them may create schemas in the
    database and either may create roles (as a superuser or by CREATEROLE) or finds the runtime
    role there; whatever the default privileges.  On what they leave, a login without special
    attributes whose only role is the runtime role, and to which nothing was granted directly,
    passes every start-up check of the control plane (identity, privileges, columns of the
    stores) on a connection that works; on the tables of the schema it has exactly the
    privileges that the check requires, and on the schema the usage but not the creation of
    objects; and those are exactly the privileges that the statements of the two stores need. *)
Theorem migrated_database_is_least_privilege me c0 :
  fresh me c0 →
  (is_Some (migrate me migrations c0) ↔ may_migrate me c0) ∧
  ∀ c, migrate me migrations c0 = Some c →
  ∀ login roles members, login ≠ me → login ≠ runtime → silent c0 login →
    roles !! login = Some (mkRole false false false false) →
    roles_of (with_login c roles members) login = {[login; runtime]} →
    let server := server_of (with_login c roles members) login in
    (∀ ParseConfig url config hs, secureDatabaseConfig ParseConfig url = Ok config →
       (openPilotDatabase ParseConfig server url;; CheckSchema_access server;; CheckSchema_telemetry server)
         (mkSession hs None []) = (inr tt, mkSession (handle config :: hs) None [])) ∧
    (∀ table o p, ct_objects c !! table = Some o → ob_schema o = app → p ∈ all_privileges Tables →
       sv_has_table_privilege server table p = inr true ↔ (table, p) ∈ required) ∧
    (∀ p, sv_has_schema_privilege server app p = inr true ↔ p = "USAGE") ∧
    (∀ x, x ∈ required ↔ ∃ use, use ∈ access_statements ++ telemetry_statements ∧ x ∈ needs use).
Proof.
  intros Hfr. split.
  { split; [intros [c Hc]; by eapply migrations_need|]. intros Hmay.
    destruct (migrations_run me c0 Hfr Hmay) as (c & -> & _). by eexists. }
  intros c Hrun. destruct (migrations_run me c0 Hfr (migrations_need me c0 c Hrun)) as (c' & Hrun' & Hm & Hs).
  assert (c' = c) as -> by congruence.
  intros login roles members Hme Hrt Hs0 Hattr Hroles server. pose proof (Hs login Hme Hrt Hs0) as Hsil.
  split_and!.
  - intros ParseConfig url config hs. by apply (login_opens me).
  - intros table o p Ho Hsch Hp. pose proof (app_tables_only me c Hm table o Ho Hsch) as Ht. unfold server. cbn.
    unfold table_privilege. cbn [with_login ct_objects]. rewrite Ho, bool_decide_eq_true_2 by done.
    rewrite (login_table me login c roles members Hm Hsil Hattr Hroles table o p Ht Ho Hp).
    split; [intros [= Hb]; by apply bool_decide_eq_true in Hb|intros Hin; by rewrite bool_decide_eq_true_2].
  - intros p. unfold server. cbn [server_of sv_has_schema_privilege]. destruct (decide (p ∈ ["USAGE"; "CREATE"])) as [Hp|Hp].
    + rewrite (login_schema me login c roles members Hm Hsil Hattr Hroles p Hp).
      split; [intros [= Hb]; by apply bool_decide_eq_true in Hb|intros ->; done].
    + unfold schema_privilege. destruct (ct_schemas _ !! app); [rewrite bool_decide_eq_false_2 by done|];
        (split; [done|intros ->; exfalso; apply Hp; left]).
  - intros x. apply required_is_needed.
Qed.

(** ** Witness and examples *)

Definition toy_cluster : Cluster :=
  mkCluster {["deploy" := mkRole false true false false]} ∅ ∅ ∅ {[("deploy", "CREATE"); (PUBLIC, "CONNECT")]}
    (λ k, match k with Functions => {[(PUBLIC, "EXECUTE")]} | _ => ∅ end) (λ _ _, ∅).

Lemma toy_fresh : fresh "deploy" toy_cluster.
Proof. by split. Qed.

Lemma toy_may_migrate : may_migrate "deploy" toy_cluster.
Proof. split; [by_compute|]. right. exists (mkRole false true false false). by split. Qed.

Lemma toy_silent : silent toy_cluster "control_plane".
Proof. split; cbn; [done|done| |]; intros k p; [destruct k|]; set_solver. Qed.

Definition toy_roles : gmap string Role := {["control_plane" := mkRole false false false false; runtime := mkRole false false false false]}.
Definition toy_members : gmap string (gset string) := {["control_plane" := {[runtime]}]}.

Lemma migrated_database_is_least_privilege_witness : ∃ c, migrate "deploy" migrations toy_cluster = Some c ∧
  sv_has_table_privilege (server_of (with_login c toy_roles toy_members) "control_plane")
    "app_private.vpn_accesses" "UPDATE" = inr true ∧
  sv_has_table_privilege (server_of (with_login c toy_roles toy_members) "control_plane")
    "app_private.accounts" "SELECT" ≠ inr true.
Proof.
  destruct (migrated_database_is_least_privilege "deploy" toy_cluster toy_fresh) as [Hiff Hc].
  destruct (proj2 Hiff toy_may_migrate) as [c Hrun]. exists c. split; [exact Hrun|].
  destruct (Hc c Hrun "control_plane" toy_roles toy_members) as (_ & Ht & _ & _);
    [discriminate|discriminate|exact toy_silent|vm_compute; reflexivity|vm_compute; reflexivity|].
  assert (∀ name, name ∈ ["app_private.vpn_accesses"; "app_private.accounts"] →
    ∃ o, ct_objects c !! name = Some o ∧ ob_schema o = app) as Hob.
  { assert (forallb (λ name, match migrate "deploy" migrations toy_cluster with
      | Some c => match ct_objects c !! name with Some o => bool_decide (ob_schema o = app) | None => false end
      | None => false end) ["app_private.vpn_accesses"; "app_private.accounts"] = true) as Hall by (vm_compute; reflexivity).
    rewrite Hrun, forallb_forall in Hall. intros name Hn%list_elem_of_In%Hall.
    destruct (ct_objects c !! name) as [o|]; [|done]. apply bool_decide_eq_true in Hn. eauto. }
  destruct (Hob "app_private.vpn_accesses") as (o1 & Ho1 & Hs1); [left|].
  destruct (Hob "app_private.accounts") as (o2 & Ho2 & Hs2); [right; left|]. split.
  - apply (Ht _ _ _ Ho1 Hs1); by_compute.
  - intros Hs%(Ht _ _ _ Ho2 Hs2); [|by_compute]. revert Hs. by_compute.
Defined.

(** [ALTER DEFAULT PRIVILEGES IN SCHEMA .. REVOKE] only takes back what was granted for the
    schema: a function that is created there later can still be executed by [PUBLIC], as far as
    its own privileges go. *)
Definition later_function : option Object :=
  c ← migrate "deploy" (migrations ++ [[CreateFunction "app_private" "f"]]) toy_cluster;
  ct_objects c !! "app_private.f()".

Lemma default_revoke_leaves_execute :
  (λ o, bool_decide ((PUBLIC, "EXECUTE") ∈ ob_acl o)) <$> later_function = Some true.
Proof. vm_compute. reflexivity. Qed.
