(* ===== verification/ControlPlane.v ===== *)
(** * The control plane

    [cmd/control-plane/main.go]: [run] reads the configuration, the keys and the key policy,
    opens the issuer and, when it is configured, the pilot database, and serves the API.

    [start] is [run] up to the listener, on the files of the host and the database handles of
    the process; what happens after it is in [Deployment].  The JSON decoders are those of
    [Wire]. *)

From S2P Require Import Prelude GoRegexp GoStrings GoBase64 GoJson GoJsonDecode GoHttp GoOs GoTime GoSql.
From S2P Require Import Ed25519 KeyPolicy Manifest Envelope Issuance Catalog ProcessLock Issuer SigningKey.
From S2P Require Import PilotAccess Telemetry PilotApi Api Config Wire PilotDatabase.

Section start.
Context `{Ed25519}.

(** The policy file is closed before the error of the decoder is looked at. *)
Definition loadKeyPolicy (path : string) : io KeyPolicy :=
  policyFile ← os_Open path;
  data ← io_try (file_ReadAll policyFile (maxKeyPolicyBytes + 1));
  let decoded := DecodeKeyPolicy (match data with
    | Ok data => mkReader data None
    | Err e => mkReader "" (Some e)
    end) in
  closed ← io_try file_Close;
  keyPolicy ← io_of decoded;
  io_of closed;;
  mret keyPolicy.

Definition issuerOptions (cfg : Config) (privateKey rootKey : string) (keyPolicy : KeyPolicy) : IssuerOptions :=
  mkIssuerOptions (cfg_CatalogPath cfg) (cfg_IssuerStatePath cfg) (cfg_ManifestTTL cfg) (cfg_ManifestCache cfg)
    privateKey rootKey keyPolicy.

(** The deferred [issuer.Close()]. *)
Definition closeIssuer (i : Issuer) : io unit := '(_, _) ← Close i; mret tt.

(** The first call of [Issue]; its envelope is dropped. *)
Definition firstIssue (i : Issuer) (clock : time) : io Issuer :=
  '(issued, i') ← Issuer.Issue LoadFile i clock;
  match issued with
  | Ok _ => mret i'
  | Err e => closeIssuer i';; throw e
  end.

(** [run] up to the first envelope. *)
Definition boot (Getenv : string → string) (clock : time) : io (Config * Issuer) :=
  cfg ← io_of (Config.Load Getenv);
  privateKey ← LoadPrivate (cfg_SigningKeyPath cfg);
  rootKey ← LoadPublic (cfg_RootKeyPath cfg);
  keyPolicy ← loadKeyPolicy (cfg_KeyPolicyPath cfg);
  issuer ← NewIssuer (issuerOptions cfg privateKey rootKey keyPolicy);
  issuer ← firstIssue issuer clock;
  mret (cfg, issuer).

Context (ParseConfig : string → result ConnConfig) (server : PilotDatabase.Server).
Context {S : Type} (services : Services S).

(** The part of [run] under [cfg.PilotAccess]: a failure closes the handle.  The stores and
    services are built from values that are not nil, so that only the checks can fail. *)
Definition openPilot (cfg : Config) : sql (list DB) error unit :=
  openPilotDatabase ParseConfig server (cfg_DatabaseURL cfg);;
  or_close (CheckSchema_access server);;
  or_close (CheckSchema_telemetry server);;
  or_close (of_result (NewWithTelemetry (Some services) (cfg_PilotAdminToken cfg);; Ok tt)).

(** [run] up to the listener, on the files of the host and the handles of the process. *)
Definition start (Getenv : string → string) (clock : time) (w : World) (s : Session (list DB))
    : io_result (Config * Issuer) * World * Session (list DB) :=
  match boot Getenv clock w with
  | (Ret (cfg, issuer), w1) =>
      if cfg_PilotAccess cfg then
        match openPilot cfg s with
        | (inr _, s1) => (Ret (cfg, issuer), w1, s1)
        | (inl e, s1) =>
            match closeIssuer issuer w1 with
            | (Halt, w2) => (Halt, w2, s1)
            | (_, w2) => (Throw e, w2, s1)
            end
        end
      else (Ret (cfg, issuer), w1, s)
  | (Throw e, w1) => (Throw e, w1, s)
  | (Halt, w1) => (Halt, w1, s)
  end.

End start.

(** ** Locks and handles *)

Section locks.
Context `{Ed25519}.

(** The first request, and what closes the issuer again. *)
Lemma closeIssuer_ends l i w :
  is_closed i = false → is_processLock i ∉ l → holds ({[is_processLock i]} ∪ l) w →
  ends (closeIssuer i) (λ _, holds l) (holds l) w.
Proof.
  intros Hc Hl Hw. unfold closeIssuer, Close. rewrite Hc. apply ends_bind, ends_bind.
  pose proof (lock_Close_ends l _ w Hl Hw) as He. unfold ends, io_try in *.
  by destruct (lock_Close (is_processLock i) w) as [[[]|e|] w'].
Qed.

Lemma firstIssue_ends l i clock w :
  is_closed i = false → is_processLock i ∉ l → holds ({[is_processLock i]} ∪ l) w →
  ends (firstIssue i clock)
    (λ i' w', is_closed i' = false ∧ is_processLock i' = is_processLock i ∧ holds ({[is_processLock i]} ∪ l) w')
    (holds l) w.
Proof.
  intros Hc Hl Hw. unfold firstIssue. apply ends_bind.
  pose proof (Issue_blind LoadFile _ i clock (holds_blind _) w Hw) as Hh.
  pose proof (Issue_handle LoadFile i clock w) as Hk.
  unfold wp, ends in Hh, Hk. unfold ends at 1.
  destruct (Issuer.Issue LoadFile i clock w) as [[[issued i']|e|] w1]; [|done|done].
  cbn [fst snd] in Hk. destruct Hk as [Hp Hc']. rewrite Hc in Hc'. rewrite <-Hp in *.
  destruct issued as [e|e]; [done|]. apply ends_bind.
  eapply ends_mono; [by apply (closeIssuer_ends l)|done|done].
Qed.

Lemma LoadPrivate_keeps (P : World → Prop) path : outcome_free P → keeps P (LoadPrivate path).
Proof. intros Hf. unfold LoadPrivate. auto 20 with io_keeps. Qed.
Lemma LoadPublic_keeps (P : World → Prop) path : outcome_free P → keeps P (LoadPublic path).
Proof. intros Hf. unfold LoadPublic. auto 20 with io_keeps. Qed.
Lemma loadKeyPolicy_keeps (P : World → Prop) path : outcome_free P → keeps P (loadKeyPolicy path).
Proof. intros Hf. unfold loadKeyPolicy. auto 20 with io_keeps. Qed.

Lemma boot_ends l Getenv clock w : holds l w →
  ends (boot Getenv clock)
    (λ p w', let lock := lockName (cfg_IssuerStatePath p.1) in
       is_closed p.2 = false ∧ is_processLock p.2 = lock ∧ (lock ∉ l) ∧ holds ({[lock]} ∪ l) w')
    (holds l) w.
Proof.
  intros Hw. unfold boot.
  assert (∀ A B (m : io A) (f : A → io B) R w, keeps (holds l) m → holds l w →
    (∀ a w, holds l w → ends (f a) R (holds l) w) → ends (m ≫= f) R (holds l) w) as Hk.
  { intros A B m f R w0 Hm Hw0 Hf. apply ends_bind. eapply ends_mono; [by apply ends_wp, Hm| |done]. auto. }
  pose proof (holds_free l) as Hf.
  apply Hk; [auto with io_keeps|done|]. intros cfg w1 Hw1.
  apply Hk; [by apply LoadPrivate_keeps|done|]. intros privateKey w2 Hw2.
  apply Hk; [by apply LoadPublic_keeps|done|]. intros rootKey w3 Hw3.
  apply Hk; [by apply loadKeyPolicy_keeps|done|]. intros keyPolicy w4 Hw4. clear Hk.
  apply ends_bind. eapply ends_mono; [by apply (NewIssuer_ends l)| |done].
  intros i w5 (Hi & Hc & Hl & Hw5). cbn [opt_StatePath issuerOptions] in *.
  apply ends_bind. eapply ends_mono; [apply (firstIssue_ends l); rewrite ?Hi; done| |done].
  intros i' w6 (Hc' & Hp & Hw6). rewrite Hi in *. done.
Qed.
End locks.

(** The database that a process with administration works on. *)
Definition opened (ParseConfig : string → result ConnConfig) (server : PilotDatabase.Server) (url : string)
    (db : DB) : Prop :=
  ∃ config, ParseConfig url = Ok config ∧ confined config ∧ hardened config db ∧ least_privilege server ∧
    sv_select server access_columns = inr tt ∧ sv_select server result_columns = inr tt ∧
    sv_select server report_columns = inr tt.

Lemma openPilot_run {S} ParseConfig server (services : Services S) cfg hs o :
  run (openPilot ParseConfig server services cfg) (mkSession hs None o) (λ r s,
    match r with
    | inl _ => se_tables s = hs
    | inr _ => ∃ db, se_tables s = db :: hs ∧ opened ParseConfig server (cfg_DatabaseURL cfg) db
    end).
Proof.
  unfold openPilot. apply run_bind. eapply run_mono; [apply open_run|].
  intros [e|db] [t tx o1]; [done|]. intros (Ht & Htx & config & Hp & Hc & Hdb & Hl). cbn in Ht, Htx. subst t tx.
  eapply run_gate; [apply looks_access|done|]. intros Ha o2.
  eapply run_gate; [apply looks_telemetry|done|]. intros [Hr1 Hr2] o3.
  apply run_or_close. eapply run_mono; [apply looks_result|].
  intros [e|[]] [t tx o4] (Ht & Htx & _); cbn in Ht, Htx; subst t tx; [done|].
  exists db. split; [done|]. exists config. split_and!; try done. subst db. apply hardenDatabaseConfig_hardened.
Qed.

(** ** Claims *)

(** C11: a start is all or nothing.  Whatever the environment, the files, the server and the
    failing calls are: when [run] fails before it listens, it holds no lock and no database
    handle that it did not hold before; when it gets to listen, it holds exactly the lock of
    its state path, which was free, its issuer is open on that lock, and with administration
    configured exactly one handle, on a confined database with the checked privileges and
    columns. *)
Theorem start_is_all_or_nothing `{Ed25519} {S} ParseConfig server (services : Services S) Getenv clock w handles o :
  match start ParseConfig server services Getenv clock w (mkSession handles None o) with
  | (Ret (cfg, issuer), w', s') =>
      let lock := lockName (cfg_IssuerStatePath cfg) in
      (lock ∉ w_locks w) ∧ w_locks w' = {[lock]} ∪ w_locks w ∧
      is_processLock issuer = lock ∧ is_closed issuer = false ∧
      if cfg_PilotAccess cfg
      then ∃ db, se_tables s' = db :: handles ∧ opened ParseConfig server (cfg_DatabaseURL cfg) db
      else se_tables s' = handles
  | (Throw _, w', s') => w_locks w' = w_locks w ∧ se_tables s' = handles
  | (Halt, _, _) => True
  end.
Proof.
  pose proof (boot_ends (w_locks w) Getenv clock w eq_refl) as Hb. unfold ends, start in *.
  destruct (boot Getenv clock w) as [[[cfg i]|e|] w1]; [|done|done]. cbn [fst snd] in Hb.
  destruct Hb as (Hc & Hp & Hl & Hw1). destruct (cfg_PilotAccess cfg) eqn:Hpilot; [|by rewrite Hpilot].
  pose proof (run_pair _ _ _ (openPilot_run ParseConfig server services cfg handles o)) as Hrun.
  destruct (openPilot _ _ _ cfg _) as [[e|[]] s1]; [|by rewrite Hpilot].
  rewrite <-Hp in *. pose proof (closeIssuer_ends (w_locks w) i w1 Hc Hl Hw1) as Hcl. unfold ends in Hcl.
  by destruct (closeIssuer i w1) as [[[]|e'|] w2].
Qed.
