(* ===== verification/Deployment.v ===== *)
(** * A deployment over time

    The whole control plane of [ControlPlane] on its host: [deploys] lets the process start,
    serve requests concurrently on its issuer and its database, stop, be killed or lose power
    at any moment, and lets the operator edit the other files.  The JSON decoders are those of
    [Wire], so that nothing is assumed of what is read back.

    The claim is about what clients see: over any such history two manifests of one version
    are the same bytes. *)

From S2P Require Import Prelude GoRegexp GoStrings GoBase64 GoSha256 GoJson GoJsonDecode GoHttp GoOs GoTime GoSql.
From S2P Require Import Ed25519 KeyPolicy Manifest Envelope Issuance Catalog ProcessLock Issuer SigningKey.
From S2P Require Import PilotAccess Telemetry PilotApi Api Config Wire PilotDatabase ControlPlane.

(** ** What a client sees of an envelope *)

(** The payload decodes to a document of this version. *)
Definition carries (e : Envelope) (version : Z) : Prop := ∃ payload document,
  DecodeString RawURLEncoding (env_Payload e) = Some payload ∧
  Envelope.decodeStrict payload = Ok document ∧ doc_Version document = version.

Lemma carries_functional e v1 v2 : carries e v1 → carries e v2 → v1 = v2.
Proof. intros (p1 & d1 & Hp1 & Hd1 & <-) (p2 & d2 & Hp2 & Hd2 & <-). congruence. Qed.

(** ** Values stay typed *)

Section typed.
Context `{Ed25519}.

Lemma LoadFile_typed path w : wp (LoadFile path) (λ c _, typed_Catalog c) (λ _, True) w.
Proof.
  unfold LoadFile. do 3 (apply wp_bind; eapply wp_mono; [apply wp_any| |done]; intros ? ? _).
  apply wp_io_of; [|done]. intros c ([c' rest] & Hd%wrap_Ok & Hn)%mbind_Ok.
  assert (c' = c) as -> by (destruct (json_Next rest) as [[]|]; congruence).
  exact (decode_typed typed_Catalog dec_Catalog _ _ rest dec_Catalog_typed Hd).
Qed.

Lemma loadKeyPolicy_typed path w : wp (loadKeyPolicy path) (λ p _, typed_KeyPolicy p) (λ _, True) w.
Proof.
  unfold loadKeyPolicy. do 3 (apply wp_bind; eapply wp_mono; [apply wp_any| |done]; intros ? ? _).
  apply wp_bind, wp_io_of; [|done]. intros p Hp. apply wp_bind. eapply wp_mono; [apply wp_any| |done].
  intros _ ? _. apply wp_ret. unfold DecodeKeyPolicy in Hp.
  apply mbind_Ok in Hp as (data & _ & ([] & _ & Hd%wrap_Ok)%mbind_Ok). unfold decode_one in Hd.
  apply mbind_Ok in Hd as ([p' rest] & Hd & Hn).
  assert (p' = p) as -> by (destruct (json_Next rest) as [[]|]; congruence).
  exact (decode_typed typed_KeyPolicy dec_KeyPolicy _ _ rest dec_KeyPolicy_typed Hd).
Qed.

(** What the issuer writes into its state besides the catalog. *)
Record typed_issuer (i : Issuer) : Prop := {
  ti_keyID : ∃ x, is_keyID i = digest x;
  ti_epoch : is_u64 (is_keyEpoch i);
  ti_policy : typed_KeyPolicy (is_keyPolicy i);
  ti_digest : ∃ x, is_policySHA i = digest x;
  ti_cached : env_Payload (is_cached i) ≠ "" → carries (is_cached i) (st_LastVersion (is_state i))
}.

Lemma policy_grant_typed policy keyID version g raw :
  typed_KeyPolicy policy → KeyPolicyGrant policy keyID version = Ok (g, raw) → is_u64 (kg_Epoch g).
Proof.
  intros (_ & _ & Hk & _) (Hg & _)%findGrant_inv. rewrite Forall_forall in Hk. by destruct (Hk g Hg) as (_ & _ & []).
Qed.

Lemma NewIssuer_typed options w :
  typed_KeyPolicy (opt_KeyPolicy options) → wp (NewIssuer options) (λ i _, typed_issuer i) (λ _, True) w.
Proof.
  intros Hp. unfold NewIssuer. apply wp_bind, wp_io_of; [intros [] _|done].
  apply wp_bind, wp_io_of; [intros dgst (_ & _ & _ & -> & _)%wrap_Ok%ValidateKeyPolicy_inv|done].
  apply wp_bind, wp_io_of; [intros [] _|done].
  apply wp_bind. eapply wp_mono; [apply wp_any| |done]. intros lock w1 _.
  apply wp_on_error; [|intros w2 _; apply wp_any]. unfold openIssuer. cbv zeta.
  do 3 (apply wp_bind; eapply wp_mono; [apply wp_any| |done]; intros ? ? _).
  apply wp_bind, wp_io_of; [intros [g raw] Hg%wrap_Ok|done].
  apply wp_bind. eapply wp_mono; [apply wp_any| |done]. intros ? ? _. apply wp_ret.
  split; cbn; try done; [by eexists|by eapply policy_grant_typed|by eexists].
Qed.

Lemma Issue_carries catalog version policy root now ttl key e :
  typed_Catalog catalog → typed_KeyPolicy policy → is_u64 version →
  Envelope.Issue catalog version policy root now ttl key = Ok e → carries e version.
Proof.
  intros Hc Hp Hv HI. unfold Envelope.Issue in HI. cbv zeta in HI. inv_ok.
  match goal with E : context [json_Document ?d] |- _ => set (doc := d) in *; destruct (json_Document doc) as [j|] eqn:Hj; [|done] end. inv_ok.
  exists (print j), doc. split; [by apply (DecodeString_EncodeToString RawURLEncoding)|]. split; [|done].
  rewrite <-(str_app_nil_r (print j)). apply document_reads_back; [by apply typed_issuedDocument|done..].
Qed.

(** The states that the issuer prepares are those of [Wire] that load back. *)
Lemma prepare_typed i now w : typed_issuer i →
  wp (prepare LoadFile i now) (λ p _, issuer_state p.2 ∧ carries p.1 (st_LastVersion p.2)) (λ _, True) w.
Proof.
  intros [Hk He Hp Hd _]. unfold prepare. apply wp_bind, wp_io_wrap. eapply wp_mono; [apply LoadFile_typed| |done].
  intros c w1 Hc. apply wp_bind, wp_io_of; [intros dgst Hdg%wrap_Ok|done].
  apply wp_bind, wp_io_of; [intros [] _|done]. apply wp_bind, wp_io_of; [intros e HI%wrap_Ok|done].
  apply wp_ret. cbn [fst snd st_LastVersion].
  assert (is_u64 (u64_add (st_LastVersion (is_state i)) 1)) as Hu
    by (unfold is_u64, u64_add; apply Z.mod_pos_bound; lia).
  split; [|exact (Issue_carries _ _ _ _ _ _ _ _ Hc Hp Hu HI)].
  apply mbind_Ok in Hdg as ([] & _ & [= <-]).
  destruct Hp as (Hpv & _). destruct Hc as (Hr & _). split; cbn; try done. by eexists.
Qed.

Lemma writes_are_readable i clock w : typed_issuer i → writes_readable LoadFile i clock w.
Proof.
  intros Hi e st w' data Hrun Hdata. pose proof (prepare_typed i (Truncate clock Second) w Hi) as Hp.
  unfold wp in Hp. rewrite Hrun in Hp. destruct Hp as [Hst _]. exact (state_reads_back st data (issuer_state_typed _ Hst) Hdata).
Qed.

(** A request keeps the issuer typed; what it hands out is in the cache, and shows its version. *)
Definition handed_out (p : result Envelope * Issuer) : Prop :=
  typed_issuer p.2 ∧
  match p.1 with Ok e => e = is_cached p.2 ∧ carries e (st_LastVersion (is_state p.2)) | Err _ => True end.

Lemma handed_cached i i' until now : typed_issuer i → typed_issuer i' → is_cached i' = is_cached i →
  is_state i' = is_state i → cached_until i now until = true → handed_out (Ok (is_cached i), i').
Proof.
  intros Hi Hi' Hc Hs Hu. split; [done|]. cbn. rewrite Hc, Hs. split; [done|]. apply (ti_cached _ Hi).
  unfold cached_until in Hu. by case_bool_decide.
Qed.

Lemma typed_with_cache i cu vu ra le : typed_issuer i → typed_issuer (with_cache i (is_cached i) cu vu ra le).
Proof. by intros []. Qed.

Lemma reissue_hands_out i now w : typed_issuer i →
  wp (reissue LoadFile i now) (λ p _, handed_out p) (λ _, True) w.
Proof.
  intros Hi. unfold reissue, io_try. apply wp_bind.
  assert (wp (refresh LoadFile i now) (λ p _, p.2 = with_state i (is_state p.2) ∧
    carries p.1 (st_LastVersion (is_state p.2))) (λ _, True) w) as Hr.
  { unfold refresh. apply wp_bind. eapply wp_mono; [by apply prepare_typed| |done]. intros [e st] w1 [_ Hc].
    apply wp_bind. eapply wp_mono; [apply wp_any| |done]. intros [] w2 _. by apply wp_ret. }
  unfold wp in *. destruct (refresh LoadFile i now w) as [[[e i']|err|] w1]; [| |done].
  - destruct Hr as [Hi' Hc]. cbn [fst snd] in *. rewrite Hi' in *. clear Hi'. cbn. destruct Hi. by split.
  - cbn. destruct (cached_until i now (is_validUntil i)) eqn:Ec.
    + by eapply handed_cached; [..|exact Ec]; [|apply typed_with_cache|..].
    + split; [by apply typed_with_cache|done].
Qed.

Lemma Issue_hands_out i clock w : typed_issuer i →
  wp (Issuer.Issue LoadFile i clock) (λ p _, handed_out p) (λ _, True) w.
Proof.
  intros Hi. unfold Issuer.Issue. assert (∀ e, handed_out (Err e, i)) as Herr by done.
  destruct (is_closed i); [by apply wp_ret|]. destruct (_ && Before _ _); [by apply wp_ret|].
  destruct (cached_until i _ (is_cacheUntil i)) eqn:Ec; [by eapply wp_ret, handed_cached|].
  destruct (is_lastError i) as [e|]; [|by apply reissue_hands_out].
  destruct (Before _ (is_retryAt i)); [|by apply reissue_hands_out]. apply wp_ret.
  destruct (cached_until i _ (is_validUntil i)) eqn:Ev; [by eapply handed_cached|done].
Qed.

End typed.

(** ** Deployments *)

(** What a request sees of the world outside: the clock, the moment and the outcomes of its
    calls to the database, and the outcome of a ping. *)
Record Instant := mkInstant {
  in_clock : time;
  in_moment : Moment;
  in_outcomes : list GoSql.outcome;
  in_ping : option error
}.

(** The configuration of the running process, if there is one, and the server: the issuer with
    its host, the database, and the requests in flight. *)
Record Deployment := mkDeployment {
  dp_config : option Config;
  dp_server : Api.Server (Sys * Database)
}.

Definition dp_sys (d : Deployment) : Sys := (sr_state (dp_server d)).1.
Definition dp_database (d : Deployment) : Database := (sr_state (dp_server d)).2.

Section deployment.
Context `{Ed25519} `{Postgres} `{FloatFormat}.
Context (ParseConfig : string → result ConnConfig) (server : PilotDatabase.Server).
Context (statePath : string) (mux : Request → HttpResponse).

(** [issuer.Issue] as the API calls it.  When the process is cut short there is no issuer. *)
Definition issue_at (clock : time) : IssueFunc (Sys * Database) := λ s,
  match sys_issuer s.1 with
  | None => (Err (NewError "issuer: closed"), s)
  | Some i =>
      match Issuer.Issue LoadFile i clock (sys_world s.1) with
      | (Ret (r, i'), w') => (r, (mkSys w' (Some i') (log_after (sys_log s.1) r i'), s.2))
      | (_, w') => (Err (NewError "interrupted"), (mkSys w' None (sys_log s.1), s.2))
      end
  end.

Definition databaseReady (ping : option error) : ReadinessFunc (Sys * Database) := λ s,
  (match ping with Some _ => Some (NewError "pilot database unavailable") | None => None end, s).

Definition adminHandler (token : string) (now : Instant) (request : Request) (s : Sys * Database)
    : HttpResponse * (Sys * Database) :=
  let '(response, db) := serve token (in_moment now) (in_outcomes now) request s.2 in (response, (s.1, db)).

(** [httpHandler] of [run]. *)
Definition httpHandler (cfg : Config) (now : Instant) : Api.Handler (Sys * Database) :=
  if cfg_PilotAccess cfg then
    NewWithPilotAdminAndReadiness (issue_at (in_clock now)) (cfg_MaxInFlight cfg)
      (Some (adminHandler (cfg_PilotAdminToken cfg) now)) [Some (databaseReady (in_ping now))]
  else Api.New (issue_at (in_clock now)) (cfg_MaxInFlight cfg).

(** The server of a process that begins or ends: nothing is in flight. *)
Definition idle (srv : Api.Server (Sys * Database)) (sys : Sys) : Api.Server (Sys * Database) :=
  Api.mkServer (sys, (sr_state srv).2) 0 [] (sr_issued srv) (sr_log srv).

Definition with_world (srv : Api.Server (Sys * Database)) (w : World) : Api.Server (Sys * Database) :=
  Api.mkServer (mkSys w (sys_issuer (sr_state srv).1) (sys_log (sr_state srv).1), (sr_state srv).2)
    (sr_occupied srv) (sr_flights srv) (sr_issued srv) (sr_log srv).

(** The deployment after a start.  The first envelope is in the log of the issuer: it is in
    the cache and will be served. *)
Definition started (srv : Api.Server (Sys * Database)) (r : io_result (Config * Issuer)) (w : World) : Deployment :=
  let log := sys_log (sr_state srv).1 in
  match r with
  | Ret (cfg, i) => mkDeployment (Some cfg) (idle srv (mkSys w (Some i) (log ++ [(is_state i, is_cached i)])))
  | Throw _ | Halt => mkDeployment None (idle srv (mkSys (exited statePath w) None log))
  end.

(** What the process leaves when its last call ended so: it lets go of its lock itself, unless
    it was cut short; then the kernel does. *)
Definition left_behind {A} (r : io_result A) (w : World) : World :=
  match r with Halt => exited statePath w | _ => w end.

Inductive deploys : Deployment → Deployment → Prop :=
  | deploys_start srv Getenv now s r w' s' :
      (∀ cfg, Config.Load Getenv = Ok cfg → cfg_IssuerStatePath cfg = statePath) →
      honest (sys_world (sr_state srv).1) →
      start ParseConfig server (pilot_services (in_moment now)) Getenv (in_clock now)
        (sys_world (sr_state srv).1) s = (r, w', s') →
      deploys (mkDeployment None srv) (started srv r w')
  | deploys_arrive cfg srv now request :
      deploys (mkDeployment (Some cfg) srv)
        (mkDeployment (Some cfg) (arrive (httpHandler cfg now) mux request srv))
  | deploys_advance cfg srv now n :
      honest (sys_world (sr_state srv).1) →
      sys_issuer (sr_state (advance (httpHandler cfg now) n srv)).1 ≠ None →
      deploys (mkDeployment (Some cfg) srv) (mkDeployment (Some cfg) (advance (httpHandler cfg now) n srv))
  | deploys_interrupted cfg srv i clock r w' :
      sys_issuer (sr_state srv).1 = Some i → honest (sys_world (sr_state srv).1) →
      Issuer.Issue LoadFile i clock (sys_world (sr_state srv).1) = (r, w') →
      deploys (mkDeployment (Some cfg) srv)
        (mkDeployment None (idle srv (mkSys (exited statePath w') None (sys_log (sr_state srv).1))))
  | deploys_exit cfg srv i r w' :
      sys_issuer (sr_state srv).1 = Some i → closeIssuer i (sys_world (sr_state srv).1) = (r, w') →
      deploys (mkDeployment (Some cfg) srv)
        (mkDeployment None (idle srv (mkSys (left_behind r w') None (sys_log (sr_state srv).1))))
  | deploys_kill config srv :
      deploys (mkDeployment config srv)
        (mkDeployment None
          (idle srv (mkSys (exited statePath (sys_world (sr_state srv).1)) None (sys_log (sr_state srv).1))))
  | deploys_power_loss config srv w' :
      power_loss (sys_world (sr_state srv).1) w' →
      deploys (mkDeployment config srv)
        (mkDeployment None (idle srv (mkSys w' None (sys_log (sr_state srv).1))))
  | deploys_elsewhere config srv w' :
      leaves_state statePath (sys_world (sr_state srv).1) w' →
      deploys (mkDeployment config srv) (mkDeployment config (with_world srv w')).

(** ** The invariant *)

Record deployment_ok (db0 : Database) (d : Deployment) : Prop := {
  do_sys : sys_ok statePath (dp_sys d);
  do_typed i : sys_issuer (dp_sys d) = Some i → typed_issuer i;
  do_carries : Forall (λ p, carries p.2 (st_LastVersion p.1)) (sys_log (dp_sys d));
  do_issued e : e ∈ sr_issued (dp_server d) → ∃ s, (s, e) ∈ sys_log (dp_sys d);
  do_database : progress db0 (dp_database d);
  do_server (h : Api.Handler (Sys * Database)) :
    (∀ cfg now, dp_config d = Some cfg → ha_limit h = ha_limit (httpHandler cfg now)) → server_ok h (dp_server d)
}.

Lemma route_limited a b request l : route_of a request = RouteLimited l → route_of b request = RouteLimited l.
Proof. unfold route_of. repeat case_match; congruence. Qed.

Lemma limit_now cfg now now' : ha_limit (httpHandler cfg now) = ha_limit (httpHandler cfg now').
Proof. unfold httpHandler. by destruct (cfg_PilotAccess cfg). Qed.

Lemma server_ok_handler h h' (srv : Api.Server (Sys * Database)) :
  ha_limit h = ha_limit h' → server_ok h srv → server_ok h' srv.
Proof.
  intros Hl [Hs Hlim Hf Hlog]. split; [done|by rewrite <-Hl|..].
  - intros f (Hr & Hm & Hp)%Hf. split_and!; [by eapply route_limited|done|done].
  - intros request response Hin Hr. apply (Hlog _ _ Hin). by eapply route_limited.
Qed.

(** One handler suffices for a running process. *)
Lemma do_server_intro cfg now srv' srv (h : Api.Handler (Sys * Database)) :
  server_ok (httpHandler cfg now) srv' →
  (∀ cfg' now', dp_config (mkDeployment (Some cfg) srv) = Some cfg' → ha_limit h = ha_limit (httpHandler cfg' now')) →
  server_ok h srv'.
Proof. intros Hok Hh. eapply server_ok_handler; [|exact Hok]. symmetry. by apply Hh. Qed.

(** A server on which nothing is in flight fits every handler. *)
Lemma idle_ok h h' srv sys : server_ok h srv → server_ok h' (idle srv sys).
Proof.
  intros [_ _ _ Hlog]. split; cbn; [done|lia|by intros f Hf%elem_of_nil|].
  intros request response Hin Hr. apply (Hlog _ _ Hin). by eapply route_limited.
Qed.

(** Some handler fits: that of the process, or any. *)
Lemma do_server_some db0 d : deployment_ok db0 d → ∃ h, server_ok h (dp_server d).
Proof.
  intros [_ _ _ _ _ Hs]. destruct (dp_config d) as [cfg|] eqn:Hc.
  - pose (now := mkInstant 0 (mkMoment 0 (Ok "") (Ok "") 0) [] None).
    exists (httpHandler cfg now). apply Hs. intros cfg' now' [= <-]. apply limit_now.
  - exists (newHandler (λ s, (Err (NewError ""), s)) 1 None []). apply Hs. done.
Qed.

(** The process ends: the disk is what remains. *)
Lemma idle_deployment db0 config srv w' :
  deployment_ok db0 (mkDeployment config srv) →
  disk_ok statePath w' (sys_log (sr_state srv).1) →
  deployment_ok db0 (mkDeployment None (idle srv (mkSys w' None (sys_log (sr_state srv).1)))).
Proof.
  intros Hok Hd. destruct (do_server_some _ _ Hok) as [h Hh]. destruct Hok as [[_ _ Hlog Hsig] _ Hc Hi Hp _].
  split; try done. intros h' _. by eapply idle_ok.
Qed.

Lemma exited_deployment db0 config srv w' :
  deployment_ok db0 (mkDeployment config srv) →
  disk_ok statePath w' (sys_log (sr_state srv).1) →
  deployment_ok db0 (mkDeployment None (idle srv (mkSys (exited statePath w') None (sys_log (sr_state srv).1)))).
Proof.
  intros Hok Hd. apply (idle_deployment _ _ _ _ Hok). by apply (disk_ok_leaves statePath w'), leaves_exited.
Qed.

(** What a request in flight does to the issuer and the database. *)
Lemma body_state cfg now l request s response s' issued :
  body_of (httpHandler cfg now) l request s = (response, s', issued) → issue_at (in_clock now) s = (issued, s').
Proof.
  unfold body_of, httpHandler. destruct (cfg_PilotAccess cfg), l; unfold Api.ready, Api.manifest; cbn;
    destruct (issue_at (in_clock now) s) as [[e|e] s1]; cbn; repeat case_match; congruence.
Qed.

Context (Hnt : not_temporary (mkFileStore statePath)).

Lemma state_typed data s : Issuance.decodeStrict data = Ok s → is_u64 (st_LastVersion s).
Proof.
  unfold Issuance.decodeStrict, decode_one. intros ([s' rest] & Hd & Hn)%mbind_Ok.
  assert (s' = s) as -> by (destruct (json_Next rest) as [[]|]; congruence).
  by destruct (decode_typed typed_State dec_State _ _ rest dec_State_typed Hd) as (_ & _ & _ & _ & Hv & _).
Qed.

Lemma issue_step db0 sys db sys' db' issued clock :
  honest (sys_world sys) → sys_ok statePath sys → (∀ i, sys_issuer sys = Some i → typed_issuer i) →
  Forall (λ p, carries p.2 (st_LastVersion p.1)) (sys_log sys) → progress db0 db →
  issue_at clock (sys, db) = (issued, (sys', db')) → sys_issuer sys' ≠ None →
  sys_ok statePath sys' ∧ (∀ i, sys_issuer sys' = Some i → typed_issuer i) ∧
  Forall (λ p, carries p.2 (st_LastVersion p.1)) (sys_log sys') ∧ db' = db ∧
  (∀ p, p ∈ sys_log sys → p ∈ sys_log sys') ∧
  match issued with Ok e => ∃ s, (s, e) ∈ sys_log sys' | Err _ => True end.
Proof.
  intros Hh Hok Hty Hc Hp Hrun Hne. unfold issue_at in Hrun. cbn [fst snd] in Hrun.
  destruct (sys_issuer sys) as [i|] eqn:Hi; [|congruence]. specialize (Hty i eq_refl).
  destruct sys as [w oi log]. cbn in Hi, Hh, Hrun, Hc. subst oi. pose proof Hok as [Hd Hio _ _]. cbn in Hd, Hio.
  pose proof (Issue_spec LoadFile statePath Hnt state_typed i log w clock Hh (writes_are_readable i clock w Hty) Hd (Hio i eq_refl)) as Hsp.
  pose proof (Issue_hands_out i clock w Hty) as Hho. unfold wp in Hsp, Hho.
  destruct (Issuer.Issue LoadFile i clock w) as [[[r i']|e|] w1]; [|by injection Hrun as <- <- <-..].
  assert (sys' = mkSys w1 (Some i') (log_after log r i') ∧ db' = db ∧ issued = r) as (-> & -> & ->) by (split_and!; congruence).
  destruct Hho as [Hty' He]. cbn [fst snd] in *.
  split; [by apply (request_sys_ok statePath w (Some i))|]. split; [by intros ? [= <-]|].
  cbn [sys_log]. destruct r as [e|e]; cbn [log_after]; [|done]. destruct He as [_ He].
  split; [apply Forall_app; split; [done|by apply Forall_singleton]|]. split; [done|]. split; [set_solver|].
  exists (is_state i'). set_solver.
Qed.

Lemma NewIssuer_honest options : keeps honest (NewIssuer options).
Proof.
  assert (∀ lock, keeps honest (lock_Close lock)) as Hl.
  { intros lock. assert (keeps honest (flock_UN lock) ∧ keeps honest (close_locked lock)) as [? ?]
      by (split; apply keeps_syscall; (apply honest_outcome_free || by intros)).
    unfold lock_Close, ProcessLocker, ProcessLock_Close. auto 8 with io_keeps. }
  unfold NewIssuer. do 3 (apply keeps_bind; [auto with io_keeps|intros ?]).
  apply keeps_bind; [apply acquireLock_honest|intros lock]. apply keeps_on_error; [|auto with io_keeps].
  apply openIssuer_blind, honest_blind.
Qed.

(** What a start leaves for the requests. *)
Definition boot_ok (log : list (State * Envelope)) (i : Issuer) (w : World) : Prop :=
  request_ok statePath log (Ok (is_cached i), i) w ∧ typed_issuer i ∧
  carries (is_cached i) (st_LastVersion (is_state i)).

Lemma closeIssuer_disk log i w : disk_ok statePath w log →
  wp (closeIssuer i) (λ _ w', disk_ok statePath w' log) (λ w', disk_ok statePath w' log) w.
Proof.
  intros Hd. unfold closeIssuer, Close. destruct (is_closed i); [by apply wp_ret|]. apply wp_bind, wp_bind.
  pose proof (lock_Close_frame statePath (is_processLock i) w w (leaves_refl _ _)) as Hf.
  unfold wp, io_try in *. destruct (lock_Close (is_processLock i) w) as [[[]|e|] w1]; by eapply disk_ok_leaves.
Qed.

Lemma firstIssue_spec log i clock w :
  honest w → typed_issuer i → disk_ok statePath w log → issuer_ok statePath i log →
  wp (firstIssue i clock) (boot_ok log) (λ w', disk_ok statePath w' log) w.
Proof.
  intros Hh Hty Hd Hi. unfold firstIssue. apply wp_bind.
  pose proof (Issue_spec LoadFile statePath Hnt state_typed i log w clock Hh (writes_are_readable i clock w Hty) Hd Hi) as Hsp.
  pose proof (Issue_hands_out i clock w Hty) as Hho. unfold wp in Hsp, Hho. unfold wp at 1.
  destruct (Issuer.Issue LoadFile i clock w) as [[[[e|e] i']|e|] w1]; [| |done|done].
  - destruct Hho as (Hty' & He & Hc). cbn [fst snd] in *. subst e. by apply wp_ret.
  - destruct Hsp as [Hd' _]. cbn in Hd'. apply wp_bind. eapply wp_mono; [by apply closeIssuer_disk|done|done].
Qed.

Lemma boot_spec log Getenv clock w :
  (∀ cfg, Config.Load Getenv = Ok cfg → cfg_IssuerStatePath cfg = statePath) →
  honest w → disk_ok statePath w log →
  wp (boot Getenv clock) (λ p w', boot_ok log p.2 w') (λ w', disk_ok statePath w' log) w.
Proof.
  intros Hpath Hh Hd. unfold boot. pose proof (honest_free w) as Hf.
  assert (∀ w', same_files w w' ∧ honest w' → disk_ok statePath w' log) as Hsame.
  { intros w' [Hs _]. by eapply disk_ok_same. }
  apply wp_bind, wp_io_of; [intros cfg Hcfg%Hpath|done].
  apply wp_bind. eapply wp_mono; [apply (LoadPrivate_keeps _ _ Hf); by split| |done]. intros privateKey w1 Hw1.
  apply wp_bind. eapply wp_mono; [by apply (LoadPublic_keeps _ _ Hf)| |done]. intros rootKey w2 Hw2.
  apply wp_bind. eapply wp_mono;
    [apply wp_and; [by apply (loadKeyPolicy_keeps _ _ Hf)|apply loadKeyPolicy_typed]| |naive_solver].
  intros keyPolicy w3 [Hw3 Hty]. destruct (Hw3) as [_ Hh3]. apply Hsame in Hw3. clear Hf Hsame Hw1 Hw2.
  apply wp_bind. eapply wp_mono; [apply wp_and;
    [apply (NewIssuer_spec statePath Hnt state_typed w3 log (issuerOptions cfg privateKey rootKey keyPolicy)); done
    |apply wp_and; [by apply NewIssuer_honest|by apply NewIssuer_typed]]| |naive_solver].
  intros i w4 ([Hd4 Hi4] & Hh4 & Hty4). apply wp_bind. eapply wp_mono; [by apply firstIssue_spec| |done].
  intros i' w5 Hb. by apply wp_ret.
Qed.

Lemma start_deployment db0 srv Getenv now s r w' s' :
  deployment_ok db0 (mkDeployment None srv) →
  (∀ cfg, Config.Load Getenv = Ok cfg → cfg_IssuerStatePath cfg = statePath) →
  honest (sys_world (sr_state srv).1) →
  start ParseConfig server (pilot_services (in_moment now)) Getenv (in_clock now) (sys_world (sr_state srv).1) s =
    (r, w', s') → deployment_ok db0 (started srv r w').
Proof.
  intros Hok Hpath Hh Hst. pose proof Hok as [Hs _ _ _ _ _]. destruct Hs as [Hd _ _ _].
  pose proof (boot_spec _ Getenv (in_clock now) _ Hpath Hh Hd) as Hb. unfold dp_sys in *. cbn [dp_server] in *.
  unfold wp in Hb. unfold start in Hst.
  destruct (boot Getenv (in_clock now) _) as [[[cfg i]|e|] w1].
  2-3: injection Hst as <- <- <-; by apply (exited_deployment _ _ _ _ Hok).
  assert (started srv r w' = started srv (Ret (cfg, i)) w1 ∨
    (∃ w2, started srv r w' = mkDeployment None (idle srv (mkSys (exited statePath w2) None (sys_log (sr_state srv).1))) ∧
     disk_ok statePath w2 (sys_log (sr_state srv).1))) as [->|(w2 & -> & Hd2)].
  { destruct (cfg_PilotAccess cfg); [|left; congruence].
    destruct (openPilot _ _ _ cfg s) as [[e|[]] s1]; [right|left; congruence].
    destruct Hb as ((Hd1 & _) & _). apply (disk_ok_prefix LoadFile) in Hd1.
    pose proof (closeIssuer_disk _ i w1 Hd1) as Hc. unfold wp in Hc.
    destruct (closeIssuer i w1) as [[[]|e'|] w2]; injection Hst as <- <- <-; by exists w2. }
  2: by apply (exited_deployment _ _ _ _ Hok).
  destruct Hb as (Hr & Hty & Hc). cbn [fst snd] in *.
  destruct (do_server_some _ _ Hok) as [h Hh']. destruct Hok as [Hs _ Hcs Hi Hp _]. unfold dp_sys, dp_database in *.
  cbn [dp_server sr_state idle fst snd] in *.
  split; cbn [started dp_sys dp_database dp_server dp_config sr_state idle fst snd sys_issuer sys_log sr_issued].
  - destruct (sr_state srv) as [[w0 oi log] db]. exact (request_sys_ok statePath w0 oi log (Ok (is_cached i)) i w1 Hs Hr).
  - by intros ? [= <-].
  - apply Forall_app. split; [done|by apply Forall_singleton].
  - intros e (st & Hin)%Hi. exists st. set_solver.
  - done.
  - intros h' _. by eapply idle_ok.
Qed.

Lemma arrive_deployment db0 cfg srv now request :
  deployment_ok db0 (mkDeployment (Some cfg) srv) →
  deployment_ok db0 (mkDeployment (Some cfg) (arrive (httpHandler cfg now) mux request srv)).
Proof.
  intros Hok. pose proof Hok as [Hs Hty Hc Hi Hp Hsrv].
  assert (server_ok (httpHandler cfg now) (arrive (httpHandler cfg now) mux request srv)) as Hnew.
  { apply arrive_ok, Hsrv. intros cfg' now' [= <-]. apply limit_now. }
  assert ((sr_state (arrive (httpHandler cfg now) mux request srv)).1 = (sr_state srv).1 ∧
    sr_issued (arrive (httpHandler cfg now) mux request srv) = sr_issued srv ∧
    progress db0 (sr_state (arrive (httpHandler cfg now) mux request srv)).2) as (Hsys & Hiss & Hprog).
  { clear Hnew. unfold arrive, enter, answered, with_shared.
    destruct (route_of _ request); [done|by repeat case_match| |done].
    destruct (ha_admin (httpHandler cfg now)) as [admin|] eqn:Ha; [|done].
    unfold httpHandler in Ha. destruct (cfg_PilotAccess cfg); [|done]. injection Ha as <-. unfold adminHandler.
    pose proof (serve_progress (cfg_PilotAdminToken cfg) (in_moment now) (in_outcomes now) request
      (sr_state srv).2 (proj1 Hp)) as (P1 & E1 & A1).
    destruct (serve _ _ _ request _) as [response db]. cbn in *. split_and!; [done..|].
    destruct Hp as (_ & E0 & A0). unfold dp_database in *. cbn in *. split_and!; [done|by etrans|congruence]. }
  split; unfold dp_sys, dp_database in *; cbn [dp_server dp_config] in *; rewrite ?Hsys, ?Hiss; try done.
  intros h Hh. by apply (do_server_intro cfg now _ srv).
Qed.

Lemma advance_deployment db0 cfg srv now n :
  deployment_ok db0 (mkDeployment (Some cfg) srv) → honest (sys_world (sr_state srv).1) →
  sys_issuer (sr_state (advance (httpHandler cfg now) n srv)).1 ≠ None →
  deployment_ok db0 (mkDeployment (Some cfg) (advance (httpHandler cfg now) n srv)).
Proof.
  intros Hok Hh Hne. pose proof Hok as [Hs Hty Hc Hi Hp Hsrv].
  assert (server_ok (httpHandler cfg now) (advance (httpHandler cfg now) n srv)) as Hnew.
  { apply advance_ok, Hsrv. intros cfg' now' [= <-]. apply limit_now. }
  unfold dp_sys, dp_database in *. cbn [dp_server dp_config] in *.
  assert (∀ h : Api.Handler (Sys * Database), (∀ cfg' now', Some cfg = Some cfg' → ha_limit h = ha_limit (httpHandler cfg' now')) →
    server_ok h (advance (httpHandler cfg now) n srv)) as Hall.
  { intros h Hlim. by apply (do_server_intro cfg now _ srv). }
  clear Hnew Hsrv. unfold advance in *.
  destruct (sr_flights srv !! n) as [[l request [|response]]|]; [|by split|by split].
  destruct (body_of (httpHandler cfg now) l request (sr_state srv)) as [[response [sys' db']] issued] eqn:Hb.
  cbn [sr_state fst] in Hne. apply body_state in Hb. destruct (sr_state srv) as [sys db] eqn:Hst. cbn [fst snd] in *.
  destruct (issue_step db0 sys db sys' db' issued (in_clock now) Hh Hs Hty Hc Hp Hb Hne)
    as (Hs' & Hty' & Hc' & -> & Hmono & Hnew).
  split; unfold dp_sys, dp_database; cbn [dp_server dp_config sr_state sr_issued fst snd]; try done.
  intros e [(s & Hin)%Hi|Hin]%elem_of_app; [exists s; by apply Hmono|].
  destruct issued as [e'|]; [|by apply elem_of_nil in Hin]. by apply list_elem_of_singleton in Hin as ->.
Qed.

Lemma deploys_ok db0 d d' : deploys d d' → deployment_ok db0 d → deployment_ok db0 d'.
Proof.
  intros Hstep Hok. destruct Hstep as [srv Getenv now s r w' s' Hpath Hh Hst|cfg srv now request|cfg srv now n Hh Hne
    |cfg srv i clock r w' Hi Hh HI|cfg srv i r w' Hi Hcl|config srv|config srv w' HP|config srv w' HL];
    pose proof Hok as [[Hd Hio Hlog Hsig] Hty _ _ _ _]; unfold dp_sys in *; cbn [dp_server] in *.
  - by eapply start_deployment.
  - by apply arrive_deployment.
  - by apply advance_deployment.
  - apply (exited_deployment _ _ _ _ Hok).
    pose proof (Issue_spec LoadFile statePath Hnt state_typed i _ _ clock Hh
      (writes_are_readable i clock _ (Hty i Hi)) Hd (Hio i Hi)) as Hsp. unfold wp in Hsp. rewrite HI in Hsp.
    destruct r as [[res i']|e|]; [|done..]. destruct Hsp as [Hd' _].
    destruct res as [e|e]; [by apply (disk_ok_prefix LoadFile statePath _ _ [(is_state i', e)])|done].
  - pose proof (closeIssuer_disk _ i _ Hd) as Hc. unfold wp in Hc. rewrite Hcl in Hc.
    destruct r; [by apply (idle_deployment _ _ _ _ Hok)..|by apply (exited_deployment _ _ _ _ Hok)].
  - by apply (exited_deployment _ _ _ _ Hok).
  - apply (idle_deployment _ _ _ _ Hok). by eapply disk_ok_power_loss.
  - destruct Hok as [_ _ Hc Hi Hp Hsrv]. split; try done.
    + split; try done. by eapply disk_ok_leaves.
    + intros h Hlim. specialize (Hsrv h Hlim). by destruct Hsrv.
Qed.

(** A manifest that a client was given. *)
Definition served (d : Deployment) (body : string) : Prop := ∃ request response,
  (request, response) ∈ sr_log (dp_server d) ∧ route_of true request = RouteLimited Manifest ∧
  rq_Method request = MethodGet ∧ hr_Status response = StatusOK ∧ hr_Body response = body.

Definition new_deployment (w : World) (db : Database) : Deployment :=
  mkDeployment None (Api.mkServer (mkSys w None [], db) 0 [] [] []).

Lemma served_entry db0 d body : deployment_ok db0 d → served d body →
  ∃ s e, (s, e) ∈ sys_log (dp_sys d) ∧ body = encode_line (Some (json_Envelope e)) ∧
    carries e (st_LastVersion s) ∧ signed_as s e.
Proof.
  intros Hok (request & response & Hin & Hr & Hg & Hst & <-).
  destruct (do_server_some _ _ Hok) as [h [_ _ _ Hlog]]. destruct Hok as [[_ _ _ Hsig] _ Hc Hi _ _].
  apply (route_limited _ (is_Some_b (ha_admin h))) in Hr.
  destruct (Hlog _ _ Hin Hr Hst) as [[Hhead _]|(_ & e & He & Hbody)]; [by rewrite Hg in Hhead|].
  destruct (Hi e He) as (s & Hs). rewrite Forall_forall in Hc, Hsig.
  exists s, e. split_and!; [done..|exact (Hc _ Hs)|exact (Hsig _ Hs)].
Qed.

(** The invariant holds of every deployment. *)
Lemma deployment_reached w dir db d :
  w_dirs w !! filepath_Dir statePath = Some dir → d_synced dir = true → consistent db →
  rtc deploys (new_deployment w db) d → deployment_ok db d.
Proof.
  intros Hd Hs Hcons Hrun. assert (deployment_ok db (new_deployment w db)) as Hinit.
  { split; cbn; try done; [by eapply (sys_ok_init statePath)|by intros e ?%elem_of_nil|].
    intros h _. split; cbn; [done|lia|by intros f ?%elem_of_nil|by intros ? ? ?%elem_of_nil]. }
  clear Hd Hs Hcons. induction Hrun as [|x y z Hstep _ IH]; [done|]. by eapply IH, deploys_ok.
Qed.

(** C1: a deployment never equivocates towards its clients.  Over any history of a control
    plane (starts with any configuration for its state path, concurrent requests at any
    clock, failing system calls and database calls, exits, kills and losses of power at any
    moment, edits of any other file) every manifest that a GET was answered with decodes to
    a document of a version, was signed for the state persisted for that version, and is
    byte for byte the same as every other one of its version, before and after any restart;
    the requests in flight never exceed the configured bound; and the database only moves
    as its audit trail allows. *)
Theorem deployment_never_equivocates w dir db d :
  w_dirs w !! filepath_Dir statePath = Some dir → d_synced dir = true → consistent db →
  rtc deploys (new_deployment w db) d →
  (∀ body1 body2, served d body1 → served d body2 → ∃ e1 v1 e2 v2,
     body1 = encode_line (Some (json_Envelope e1)) ∧ carries e1 v1 ∧ (∃ s, st_LastVersion s = v1 ∧ signed_as s e1) ∧
     body2 = encode_line (Some (json_Envelope e2)) ∧ carries e2 v2 ∧
     (v1 = v2 → body1 = body2)) ∧
  (∀ cfg now, dp_config d = Some cfg →
     sr_occupied (dp_server d) = length (sr_flights (dp_server d)) ∧
     (sr_occupied (dp_server d) <= ha_limit (httpHandler cfg now))%nat) ∧
  progress db (dp_database d).
Proof.
  intros Hd Hs Hcons Hrun. pose proof (deployment_reached w dir db d Hd Hs Hcons Hrun) as Hok.
  split_and!; [..|apply Hok].
  - intros body1 body2 Hb1 Hb2.
    destruct (served_entry _ _ _ Hok Hb1) as (s1 & e1 & Hin1 & -> & Hc1 & Hsg1).
    destruct (served_entry _ _ _ Hok Hb2) as (s2 & e2 & Hin2 & -> & Hc2 & _).
    exists e1, (st_LastVersion s1), e2, (st_LastVersion s2). split_and!; eauto. intros Hv.
    destruct Hok as [[_ _ Hlog _] _ _ _ _ _].
    destruct (StronglySorted_trichotomy _ _ _ _ Hlog Hin1 Hin2) as [E|[[E|[]]|[E|[]]]]; cbn in *; congruence || lia.
  - intros cfg now Hcfg. destruct (do_server _ _ Hok (httpHandler cfg now)) as [Hsl Hlim _ _]; [|done].
    intros cfg' now' Hcfg'. rewrite Hcfg in Hcfg'. injection Hcfg' as <-. apply limit_now.
Qed.

End deployment.

(** ** Witness *)

(** A host with keys, a policy, a catalog and an empty state directory. *)
Definition toy_file (data : string) (perm : Z) : File := mkFile data true true perm.

Definition toy_host : World :=
  mkWorld {["/var/lib/issuer" := mkDir 448 true]}
    (list_to_map
      [("/keys/signing", toy_file (EncodeToString RawURLEncoding (toy_key "A"%char)) 384);
       ("/keys/root.pub", toy_file (EncodeToString RawURLEncoding (Public toy_root)) 420);
       ("/keys/policy.json", toy_file (print (json_KeyPolicy toy_policy)) 420);
       ("/etc/nodes.json", toy_file (print (json_Catalog (toy_tiny 1))) 420)]) ∅ ∅ [].

Definition toy_environment (name : string) : string :=
  default "" (list_to_map (M := gmap string string)
    [("MANIFEST_SIGNING_KEY_PATH", "/keys/signing"); ("MANIFEST_ROOT_PUBLIC_KEY_PATH", "/keys/root.pub");
     ("MANIFEST_KEY_POLICY_PATH", "/keys/policy.json"); ("MANIFEST_STATE_PATH", "/var/lib/issuer/state.json");
     ("MANIFEST_CATALOG_PATH", "/etc/nodes.json")] !! name).

Definition toy_instant (clock : time) : Instant := mkInstant clock (mkMoment clock (Ok "") (Ok "") clock) [] None.
Definition toy_unparsed (url : string) : result ConnConfig := Err (NewError url).
Definition toy_db_server : PilotDatabase.Server :=
  PilotDatabase.mkServer "pilot" ∅ (λ _ _, inl ErrNoRows) (λ _ _, inl ErrNoRows) (λ _, inl ErrNoRows).

#[local] Existing Instance ToyEd25519.
#[local] Existing Instance ToyPostgres.
#[local] Existing Instance toy_float.

Definition toy_start_at (clock : time) (w : World) : io_result (Config * Issuer) * World * Session (list DB) :=
  start toy_unparsed toy_db_server (pilot_services (in_moment (toy_instant clock))) toy_environment clock w
    (mkSession [] None []).
Definition toy_d0 : Deployment := new_deployment toy_host toy_db.
Definition toy_boot (clock : time) (d : Deployment) : Deployment :=
  let '(r, w, _) := toy_start_at clock (sys_world (dp_sys d)) in started "/var/lib/issuer/state.json" (dp_server d) r w.
Definition toy_mux (_ : Request) : HttpResponse := mkHttpResponse StatusNotFound [] "".

(** One manifest request from its arrival to its response. *)
Definition toy_get_at (clock : time) (d : Deployment) : Deployment :=
  match dp_config d with
  | None => d
  | Some cfg =>
      let h := httpHandler cfg (toy_instant clock) in
      mkDeployment (Some cfg) (advance h 0 (advance h 0 (arrive h toy_mux Api.toy_get (dp_server d))))
  end.
Definition toy_killed (d : Deployment) : Deployment :=
  mkDeployment None 
    (idle (dp_server d) (mkSys (exited "/var/lib/issuer/state.json" (sys_world (dp_sys d))) None (sys_log (dp_sys d)))).

Abbreviation toy_deploys := (deploys toy_unparsed toy_db_server "/var/lib/issuer/state.json" toy_mux).

Lemma toy_boot_step clock d :
  dp_config d = None → honest (sys_world (dp_sys d)) → rtc toy_deploys d (toy_boot clock d).
Proof.
  intros Hc Hh. destruct d as [c srv]. cbn in Hc. subst c. unfold toy_boot.
  destruct (toy_start_at clock _) as [[r w'] s'] eqn:Hst. apply rtc_once.
  eapply (deploys_start _ _ _ _ _ toy_environment (toy_instant clock)); [|exact Hh|exact Hst].
  intros cfg Hcfg.
  assert (cfg_IssuerStatePath <$> (match Config.Load toy_environment with Ok c => Some c | Err _ => None end) =
    Some "/var/lib/issuer/state.json") as Hp by (vm_compute; reflexivity).
  rewrite Hcfg in Hp. cbn in Hp. congruence.
Qed.

Lemma toy_get_step clock d cfg :
  let h := httpHandler cfg (toy_instant clock) in
  let d1 := arrive h toy_mux Api.toy_get (dp_server d) in
  let d2 := advance h 0 d1 in
  dp_config d = Some cfg → honest (sys_world (sr_state d1).1) → honest (sys_world (sr_state d2).1) →
  is_Some (sys_issuer (sr_state d2).1) → is_Some (sys_issuer (sr_state (advance h 0 d2)).1) →
  rtc toy_deploys d (toy_get_at clock d).
Proof.
  intros h d1 d2 Hc Hh1 Hh2 [i1 H1] [i2 H2]. unfold toy_get_at. rewrite Hc. destruct d as [c srv]. cbn in Hc. subst c.
  eapply rtc_l; [apply deploys_arrive|].
  eapply rtc_l; [apply deploys_advance with (now := toy_instant clock) (n := 0%nat); [exact Hh1|]|].
  { change (sys_issuer (sr_state d2).1 ≠ None). by rewrite H1. }
  apply rtc_once, deploys_advance; [exact Hh2|].
  change (sys_issuer (sr_state (advance h 0 d2)).1 ≠ None). by rewrite H2.
Qed.

(** A process serves a manifest and is killed; the next one serves the next version. *)
Definition toy_d1 : Deployment := toy_boot toy_now toy_d0.
Definition toy_d2 : Deployment := toy_get_at toy_now toy_d1.
Definition toy_d3 : Deployment := toy_killed toy_d2.
Definition toy_d4 : Deployment := toy_boot (toy_now + Hour) toy_d3.
Definition toy_d5 : Deployment := toy_get_at (toy_now + Hour) toy_d4.

Definition toy_cfg : Config :=
  mkConfig "127.0.0.1:8080" "/etc/nodes.json" "/keys/signing" "/keys/root.pub" "/keys/policy.json"
    "/var/lib/issuer/state.json" (15 * Minute) (30 * Second) (10 * Second) 64 "" "" false.

Lemma toy_deployment_run : rtc toy_deploys toy_d0 toy_d5.
Proof.
  etrans; [apply (toy_boot_step toy_now); [reflexivity|by_compute]|]. fold toy_d1.
  etrans; [apply (toy_get_step toy_now toy_d1 toy_cfg); [vm_compute; reflexivity|by_compute..]|]. fold toy_d2.
  eapply rtc_l; [|]. 
  { assert (toy_d2 = mkDeployment (dp_config toy_d2) (dp_server toy_d2)) as E by (by destruct toy_d2).
    rewrite E. apply deploys_kill. }
  change (rtc toy_deploys toy_d3 toy_d5).
  etrans; [apply (toy_boot_step (toy_now + Hour)); [reflexivity|by_compute]|]. fold toy_d4.
  apply (toy_get_step (toy_now + Hour) toy_d4 toy_cfg); [vm_compute; reflexivity|by_compute..].
Qed.

Definition toy_body (n : nat) : string :=
  match sr_log (dp_server toy_d5) !! n with Some (_, response) => hr_Body response | None => "" end.

Lemma toy_served n : (n < 2)%nat → served toy_d5 (toy_body n).
Proof.
  intros Hn. unfold toy_body.
  assert (∃ r0 r1, sr_log (dp_server toy_d5) = [(Api.toy_get, r0); (Api.toy_get, r1)] ∧
    hr_Status r0 = StatusOK ∧ hr_Status r1 = StatusOK) as (r0 & r1 & Hl & H0 & H1)
    by (eexists _, _; split_and!; vm_compute; reflexivity).
  rewrite Hl. destruct n as [|[|n]]; [exists Api.toy_get, r0|exists Api.toy_get, r1|lia]; rewrite Hl.
  - split; [left|]. by split_and!.
  - split; [right; left|]. by split_and!.
Qed.

Lemma toy_bodies_differ : toy_body 0 ≠ toy_body 1.
Proof. by_compute. Qed.

Lemma deployment_never_equivocates_witness : ∃ e1 v1 e2 v2,
  toy_body 0 = encode_line (Some (json_Envelope e1)) ∧ carries e1 v1 ∧
  toy_body 1 = encode_line (Some (json_Envelope e2)) ∧ carries e2 v2 ∧ toy_body 0 ≠ toy_body 1.
Proof.
  destruct (deployment_never_equivocates toy_unparsed toy_db_server "/var/lib/issuer/state.json" toy_mux
    ltac:(vm_compute; reflexivity) toy_host (mkDir 448 true) toy_db toy_d5) as (Hsame & _ & _).
  - vm_compute. reflexivity.
  - reflexivity.
  - exact toy_db_consistent.
  - exact toy_deployment_run.
  - destruct (Hsame (toy_body 0) (toy_body 1)) as (e1 & v1 & e2 & v2 & Hb1 & Hc1 & _ & Hb2 & Hc2 & _);
      [apply toy_served; lia..|].
    exists e1, v1, e2, v2. split_and!; try assumption. exact toy_bodies_differ.
Defined.
