(* ===== verification/Lifecycle.v ===== *)
(** * The life of the control plane process

    [cmd/control-plane/main.go], the second half of [run]: the goroutine that listens, the
    [select] between its error and a signal, the graceful shutdown with its deadline, and the
    deferred calls that close the database and the issuer.  A [Process] is a running server of
    [Deployment] with what the two goroutines share; [tick] is one event of its life.

    The theorems: a process refines the deployment of [Deployment], so that whatever holds of
    every deployment holds of it; a shutdown always comes to its end; and a [run] that returns
    nil has answered every request that it accepted. *)

From S2P Require Import Prelude GoRegexp GoStrings GoBase64 GoSha256 GoJson GoJsonDecode GoHttp GoOs GoTime GoSql.
From S2P Require Import Ed25519 KeyPolicy Manifest Envelope Issuance Catalog ProcessLock Issuer SigningKey.
From S2P Require Import PilotAccess Telemetry PilotApi Api Config Wire PilotDatabase ControlPlane Deployment.

(** ** State *)

(** The goroutine in [server.ListenAndServe]: it accepts connections, it was told to stop by
    [Shutdown], or it has put its error into the channel. *)
Inductive Listener := Accepting | Closing | Ended.

(** Where [run] is: in the [select]; in [server.Shutdown], until a deadline and with the error
    of closing the listener, if any; waiting for the goroutine; on its way out with a result,
    before and after the deferred calls. *)
Inductive Phase :=
  | Selecting
  | Draining (deadline : time) (closeError : option error)
  | Drained
  | Returning (r : result unit)
  | Gone (r : result unit).

(** [pr_channel] is the buffer of [serverErrors], [pr_connections] counts the accepted
    connections whose next request is being read, [pr_idle] those that are kept alive after a
    response and wait for the next request, [pr_handles] are the open database handles.
    [pr_arrived] and [pr_faults] record the requests that were read and the failures of the
    listener. *)
Record Process := mkProcess {
  pr_config : Config;
  pr_server : Api.Server (Sys * Database);
  pr_handles : list DB;
  pr_listener : Listener;
  pr_connections : nat;
  pr_idle : nat;
  pr_channel : option error;
  pr_signalled : bool;
  pr_phase : Phase;
  pr_arrived : list Request;
  pr_faults : list error
}.

Definition with_phase (p : Process) (phase : Phase) : Process :=
  mkProcess (pr_config p) (pr_server p) (pr_handles p) (pr_listener p) (pr_connections p) (pr_idle p)
    (pr_channel p) (pr_signalled p) phase (pr_arrived p) (pr_faults p).
Definition with_connections (p : Process) (connections idle : nat) : Process :=
  mkProcess (pr_config p) (pr_server p) (pr_handles p) (pr_listener p) connections idle
    (pr_channel p) (pr_signalled p) (pr_phase p) (pr_arrived p) (pr_faults p).
Definition with_listener (p : Process) (l : Listener) (channel : option error) (faults : list error) : Process :=
  mkProcess (pr_config p) (pr_server p) (pr_handles p) l (pr_connections p) (pr_idle p) channel
    (pr_signalled p) (pr_phase p) (pr_arrived p) faults.
Definition with_signal (p : Process) : Process :=
  mkProcess (pr_config p) (pr_server p) (pr_handles p) (pr_listener p) (pr_connections p) (pr_idle p)
    (pr_channel p) true (pr_phase p) (pr_arrived p) (pr_faults p).
Definition with_arrived (p : Process) (request : Request) : Process :=
  mkProcess (pr_config p) (pr_server p) (pr_handles p) (pr_listener p) (pr_connections p) (pr_idle p)
    (pr_channel p) (pr_signalled p) (pr_phase p) (pr_arrived p ++ [request]) (pr_faults p).

(** The server after a step.  The connections of the responses that it completed are kept
    alive while [run] is in its [select]; [Shutdown] turns that off, and once [run] returns no
    further request is taken from the connection of a response. *)
Definition completed (before after : Api.Server (Sys * Database)) : nat :=
  length (sr_log after) - length (sr_log before).
Definition with_server (p : Process) (srv : Api.Server (Sys * Database)) : Process :=
  mkProcess (pr_config p) srv (pr_handles p) (pr_listener p) (pr_connections p)
    (match pr_phase p with Selecting => pr_idle p + completed (pr_server p) srv | _ => pr_idle p end)
    (pr_channel p) (pr_signalled p) (pr_phase p) (pr_arrived p) (pr_faults p).

(** The process when [run] comes to its listener. *)
Definition launch (cfg : Config) (srv : Api.Server (Sys * Database)) (handles : list DB) : Process :=
  mkProcess cfg srv handles Accepting 0 0 None false Selecting [] [].

Definition ErrServerClosed : string := "http: Server closed".
Definition DeadlineExceeded : error := Sentinel "context deadline exceeded".

(** The error of the goroutine as [run] returns it. *)
Definition listener_result (err : error) : result unit :=
  if errors_Is err ErrServerClosed then Ok tt else Err err.

(** [server.Shutdown] at an instant: the listener is closed, if there still is one. *)
Definition begin_shutdown (now : time) (closeError : option error) (p : Process) : Process :=
  let deadline := now + cfg_Shutdown (pr_config p) in
  match pr_listener p with
  | Accepting => with_listener (with_phase p (Draining deadline closeError)) Closing (pr_channel p)
                   (pr_faults p ++ option_list closeError)
  | _ => with_phase p (Draining deadline None)
  end.

Inductive event :=
  | Accept
  | Abandon
  | Reuse
  | Drop
  | Read (now : Instant) (request : Request)
  | Advance (now : Instant) (n : nat)
  | ListenerFails (err : error)
  | ListenerCloses
  | Signal
  | SelectServer
  | SelectSignal (now : time) (closeError : option error)
  | Quiet
  | Expires (now : time)
  | Receive
  | Return.

Section lifecycle.
Context `{Ed25519} `{Postgres} `{FloatFormat}.
Context (statePath : string) (mux : Request → HttpResponse).

(** The deferred calls, the last one first: [database.Close] and [issuer.Close].  The end of the
    process drops what is still in flight.  The lock is let go by [issuer.Close]; only when the
    process is killed in the middle of it does the kernel do so ([left_behind]). *)
Definition deferred (p : Process) (i : Issuer) : Process :=
  let srv := pr_server p in
  let closed := closeIssuer i (sys_world (sr_state srv).1) in
  mkProcess (pr_config p) (idle srv (mkSys (left_behind statePath closed.1 closed.2) None (sys_log (sr_state srv).1)))
    (if cfg_PilotAccess (pr_config p) then tail (pr_handles p) else pr_handles p)
    (pr_listener p) 0 0 (pr_channel p) (pr_signalled p) (pr_phase p) (pr_arrived p) (pr_faults p).

(** One event; [None] when it cannot happen.  [Abandon] and [Drop] close a connection, [Reuse] is
    the next request on one that was kept alive; it does not need the listener. *)
Definition tick (ev : event) (p : Process) : option Process :=
  match ev, pr_phase p with
  | _, Gone _ => None
  | Accept, _ => match pr_listener p with
                 | Accepting => Some (with_connections p (S (pr_connections p)) (pr_idle p))
                 | _ => None
                 end
  | Abandon, _ => match pr_connections p with S n => Some (with_connections p n (pr_idle p)) | O => None end
  | Reuse, _ => match pr_idle p with S n => Some (with_connections p (S (pr_connections p)) n) | O => None end
  | Drop, _ => match pr_idle p with S n => Some (with_connections p (pr_connections p) n) | O => None end
  | Read now request, _ =>
      match pr_connections p with
      | S n => Some (with_arrived (with_server (with_connections p n (pr_idle p))
          (arrive (httpHandler (pr_config p) now) mux request (pr_server p))) request)
      | O => None
      end
  | Advance now n, _ =>
      let srv := advance (httpHandler (pr_config p) now) n (pr_server p) in
      match sr_flights (pr_server p) !! n, sys_issuer (sr_state srv).1 with
      | Some _, Some _ => Some (with_server p srv)
      | _, _ => None
      end
  | ListenerFails err, _ =>
      match pr_listener p with
      | Accepting => if errors_Is err ErrServerClosed then None
                     else Some (with_listener p Ended (Some err) (pr_faults p ++ [err]))
      | _ => None
      end
  | ListenerCloses, _ =>
      match pr_listener p with
      | Closing => Some (with_listener p Ended (Some (Sentinel ErrServerClosed)) (pr_faults p))
      | _ => None
      end
  | Signal, _ => if pr_signalled p then None else Some (with_signal p)
  | SelectServer, Selecting =>
      match pr_channel p with
      | Some err => Some (with_listener (with_phase p (Returning (listener_result err)))
                            (pr_listener p) None (pr_faults p))
      | None => None
      end
  | SelectSignal now closeError, Selecting =>
      if pr_signalled p then Some (begin_shutdown now closeError p) else None
  | Quiet, Draining _ closeError =>
      match pr_connections p, sr_flights (pr_server p) with
      | O, [] => Some (with_phase (with_connections p (pr_connections p) 0) (match closeError with Some err => Returning (Err err) | None => Drained end))
      | _, _ => None
      end
  | Expires now, Draining deadline _ =>
      if deadline <=? now then Some (with_phase p (Returning (Err DeadlineExceeded))) else None
  | Receive, Drained =>
      match pr_channel p with
      | Some err => Some (with_listener (with_phase p (Returning (listener_result err)))
                            (pr_listener p) None (pr_faults p))
      | None => None
      end
  | Return, Returning r =>
      match sys_issuer (sr_state (pr_server p)).1 with
      | Some i => Some (with_phase (deferred p i) (Gone r))
      | None => None
      end
  | _, _ => None
  end.

(** The body of a handler makes system calls, whose failures are honest. *)
Definition calls_honest (ev : event) (p : Process) : Prop :=
  match ev with Advance _ _ => honest (sys_world (sr_state (pr_server p)).1) | _ => True end.

Inductive lives (p p' : Process) : Prop :=
  | lives_tick ev : calls_honest ev p → tick ev p = Some p' → lives p p'.

(** ** One event *)

Definition is_Gone (phase : Phase) : bool := match phase with Gone _ => true | _ => false end.

Definition alive (p : Process) : Prop :=
  is_Gone (pr_phase p) = false → sys_issuer (sr_state (pr_server p)).1 ≠ None.

(** Splits an event into what it did. *)
Ltac ticks Ht :=
  match type of Ht with tick ?ev ?p = Some ?p' =>
    destruct p as [cfg srv handles listener connections idle channel signalled phase arrived faults];
    destruct ev; destruct phase; cbn in Ht; unfold begin_shutdown in Ht; cbn in Ht; try done;
    repeat match type of Ht with context [match ?x with _ => _ end] => destruct x eqn:?; cbn in Ht; try done end;
    injection Ht as <-; cbn in *
  end.

(** An arriving request does not touch the issuer. *)
Lemma arrive_sys cfg now request srv :
  (sr_state (arrive (httpHandler cfg now) mux request srv)).1 = (sr_state srv).1.
Proof.
  unfold arrive, enter, httpHandler, adminHandler. destruct (cfg_PilotAccess cfg); cbn;
    repeat (case_match; simplify_eq; cbn; try done).
Qed.

Lemma tick_alive ev p p' : alive p → tick ev p = Some p' → alive p'.
Proof. unfold alive. intros Ha Ht. ticks Ht; try done; [by rewrite arrive_sys..|congruence|congruence|congruence|congruence]. Qed.

(** ** Shutdown comes to an end *)

(** The steps that are left: a connection may still deliver a request, which takes two more; one
    that is kept alive may be used again before. *)
Definition phase_rank (phase : Phase) : nat :=
  match phase with Selecting => 4 | Draining _ _ => 3 | Drained => 2 | Returning _ => 1 | Gone _ => 0 end.
Definition listener_rank (l : Listener) : nat := match l with Ended => 0 | _ => 1 end.
Definition rank (p : Process) : nat :=
  phase_rank (pr_phase p) + listener_rank (pr_listener p) + (if pr_signalled p then 0 else 1) +
  4 * pr_idle p + 3 * pr_connections p + pending (pr_server p).

(** [run] has left its [select], and the listener is not open any more. *)
Definition shutting (p : Process) : Prop := pr_phase p ≠ Selecting ∧ pr_listener p ≠ Accepting.

Lemma pending_arrive handler request srv :
  (pending (arrive handler mux request srv) <= 2 + pending (S := Sys * Database) srv)%nat.
Proof. unfold arrive, enter. repeat (case_match; cbn; try (unfold pending; cbn; lia)). Qed.

Lemma pending_split (before after : list Flight) f :
  sum_list (remaining <$> before ++ f :: after) =
  (remaining f + sum_list (remaining <$> before ++ after))%nat.
Proof. rewrite !fmap_app, !sum_list_with_app. cbn. lia. Qed.

Lemma pending_advance handler n srv f : sr_flights srv !! n = Some f →
  pending (S := Sys * Database) srv = S (pending (advance handler n srv)).
Proof.
  intros Hn. unfold advance, pending. rewrite Hn. rewrite <-(take_drop_middle _ _ _ Hn) at 1.
  rewrite pending_split. destruct f as [l request []].
  - destruct (body_of _ _ _ _) as [[response s'] issued]. cbn [sr_flights].
    rewrite insert_take_drop by (by eapply lookup_lt_Some). rewrite pending_split. cbn. lia.
  - cbn [sr_flights answered]. rewrite delete_take_drop. cbn. lia.
Qed.

Lemma tick_rank ev p p' : shutting p → tick ev p = Some p' → shutting p' ∧ (rank p' < rank p)%nat.
Proof.
  unfold shutting, rank. intros [Hs Hl] Ht.
  ticks Ht; try done; (split; [done|]); try lia.
  1-3: pose proof (pending_arrive (httpHandler cfg now) request srv); lia.
  all: erewrite (pending_advance (httpHandler cfg now) _ srv) by done; lia.
Qed.

(** [P] holds now, or the process goes on and it will hold whatever happens. *)
Inductive inevitable (P : Process → Prop) (p : Process) : Prop :=
  | inevitable_now : P p → inevitable P p
  | inevitable_later : (∃ p', lives p p') → (∀ p', lives p p' → inevitable P p') → inevitable P p.

(** ** The invariant of a process *)

(** What the goroutine has left, when closing its listener gave the errors [closing]. *)
Definition channel_ok (p : Process) (closing : list error) : Prop :=
  match pr_listener p with
  | Ended => ∃ err, pr_channel p = Some err ∧
      (err = Sentinel ErrServerClosed ∧ pr_faults p = closing ∨
       errors_Is err ErrServerClosed = false ∧ err ∈ pr_faults p ∧ closing = [])
  | _ => pr_channel p = None ∧ pr_faults p = closing
  end.

(** Why [run] returns what it returns. *)
Definition exit_ok (p : Process) (r : result unit) : Prop :=
  match r with
  | Ok _ => pr_faults p = [] ∧ (pr_connections p = O ∧ pr_idle p = O) ∧ sr_flights (pr_server p) = [] ∧ pr_signalled p = true
  | Err err => err = DeadlineExceeded ∨ err ∈ pr_faults p
  end.

Definition phase_ok (p : Process) : Prop :=
  match pr_phase p with
  | Selecting =>
      match pr_listener p with
      | Accepting => pr_channel p = None ∧ pr_faults p = []
      | Closing => False
      | Ended => ∃ err, pr_channel p = Some err ∧ errors_Is err ErrServerClosed = false ∧ err ∈ pr_faults p
      end
  | Draining _ closeError => pr_listener p ≠ Accepting ∧ pr_signalled p = true ∧ channel_ok p (option_list closeError)
  | Drained => pr_listener p ≠ Accepting ∧ pr_signalled p = true ∧ channel_ok p [] ∧
      (pr_connections p = O ∧ pr_idle p = O) ∧ sr_flights (pr_server p) = []
  | Returning r | Gone r => pr_listener p ≠ Accepting ∧ exit_ok p r
  end.

Lemma tick_phase ev p p' : phase_ok p → tick ev p = Some p' → phase_ok p'.
Proof.
  intros Hp Ht. unfold phase_ok, channel_ok, exit_ok, listener_result in *. ticks Ht; try done.
  all: repeat match goal with
    | Hx : _ ∧ _ |- _ => destruct Hx
    | r : result unit |- _ => destruct r as [[]|?]
    | Hx : ∃ _, _ |- _ => destruct Hx
    | Hx : _ ∨ _ |- _ => destruct Hx
    | Hf : sr_flights ?s = [], Hn : sr_flights ?s !! _ = Some _ |- _ => by rewrite Hf in Hn
    | Hx : match ?l with Accepting => _ | _ => _ end |- _ => is_var l; destruct l
    | Hx : errors_Is ?e _ = false |- context [errors_Is ?e _] => rewrite Hx
    | |- _ ∧ _ => split
    end; simplify_eq; try done; try (by left); try (by right).
  all: try (eexists; split; [done|]; first [by left | by right | split; [done|left]]).
  all: try (right; left).
  all: unfold listener_result; match goal with He : errors_Is _ _ = false |- _ => rewrite He end; by right.
Qed.

(** Every request that was read was answered or is in flight. *)
Definition accounted (srv0 : Api.Server (Sys * Database)) (p : Process) : Prop :=
  (sr_log (pr_server p)).*1 ++ (fl_request <$> sr_flights (pr_server p)) ≡ₚ (sr_log srv0).*1 ++ pr_arrived p.

Lemma arrive_accounted handler request (srv : Api.Server (Sys * Database)) :
  let srv' := arrive handler mux request srv in
  (sr_log srv').*1 ++ (fl_request <$> sr_flights srv') ≡ₚ
  ((sr_log srv).*1 ++ (fl_request <$> sr_flights srv)) ++ [request].
Proof.
  unfold arrive, enter, answered. cbv zeta.
  repeat case_match; cbn; rewrite ?fmap_app; cbn; rewrite <-?(assoc_L (++)); solve_Permutation.
Qed.

Lemma advance_accounted handler n (srv : Api.Server (Sys * Database)) :
  let srv' := advance handler n srv in
  (sr_log srv').*1 ++ (fl_request <$> sr_flights srv') ≡ₚ (sr_log srv).*1 ++ (fl_request <$> sr_flights srv).
Proof.
  cbv zeta. unfold advance. destruct (sr_flights srv !! n) as [[l request []]|] eqn:Hn; [| |done].
  - destruct (body_of _ _ _ _) as [[response s'] issued]. cbn. rewrite list_fmap_insert. cbn.
    rewrite list_insert_id; [done|]. by rewrite list_lookup_fmap, Hn.
  - cbn. rewrite fmap_app. cbn. rewrite <-(take_drop_middle _ _ _ Hn) at 2. rewrite delete_take_drop, !fmap_app.
    cbn. solve_Permutation.
Qed.

(** What is known of a process since its launch. *)
Record process_ok (cfg0 : Config) (srv0 : Api.Server (Sys * Database)) (handles0 : list DB) (p : Process) : Prop := {
  po_config : pr_config p = cfg0;
  po_phase : phase_ok p;
  po_alive : alive p;
  po_accounted : (match pr_phase p with Gone (Err _) => False | _ => True end) → accounted srv0 p;
  po_handles : pr_handles p =
    if is_Gone (pr_phase p) && cfg_PilotAccess cfg0 then tail handles0 else handles0
}.

Lemma tick_ok cfg0 srv0 handles0 ev p p' :
  calls_honest ev p → process_ok cfg0 srv0 handles0 p → tick ev p = Some p' → process_ok cfg0 srv0 handles0 p'.
Proof.
  intros Hh [Hcfg Hp Ha Hc Hd] Ht. split.
  - clear - Hcfg Ht. ticks Ht; done.
  - by eapply tick_phase.
  - by eapply tick_alive.
  - pose proof Hp as Hp'. unfold accounted, phase_ok, exit_ok in *. ticks Ht; try done; intros Hg; try (by apply Hc).
    all: try (rewrite arrive_accounted, Hc, (assoc_L (++)); done).
    all: try (rewrite advance_accounted; by apply Hc).
    destruct r as [[]|e]; [|done]. destruct Hp as (_ & _ & _ & Hf & _). specialize (Hc I). by rewrite Hf in Hc.
  - ticks Ht; subst; done.
Qed.

Lemma lives_ok cfg0 srv0 handles0 p p' : rtc lives p p' → process_ok cfg0 srv0 handles0 p → process_ok cfg0 srv0 handles0 p'.
Proof. induction 1 as [|p q p' [ev Hh Ht] _ IH]; [done|]. intros Hp. by eapply IH, tick_ok. Qed.

Lemma launch_ok cfg srv handles :
  sr_flights srv = [] → sys_issuer (sr_state srv).1 ≠ None → process_ok cfg srv handles (launch cfg srv handles).
Proof. intros Hf Hi. split; [done|by split|by intros _| |done]. intros _. unfold accounted. cbn. by rewrite Hf. Qed.

(** A process that has left its [select] can always go on. *)
Lemma goes_on cfg0 srv0 handles0 p :
  process_ok cfg0 srv0 handles0 p → shutting p → is_Gone (pr_phase p) = false → ∃ p', lives p p'.
Proof.
  intros [_ Hp Ha _ _] [Hs Hl] Hg.
  assert (∀ ev, (∀ now n, ev ≠ Advance now n) → is_Some (tick ev p) → ∃ p', lives p p') as Hdo.
  { intros ev Hne [p' Ht]. exists p'. apply (lives_tick _ _ ev); [|done]. destruct ev; try done. by edestruct Hne. }
  unfold phase_ok, channel_ok, alive in *.
  destruct p as [cfg srv handles listener connections idle channel signalled phase arrived faults]. cbn in *.
  destruct phase as [|deadline closeError| |r|r]; [done|..|done].
  - apply (Hdo (Expires deadline)); [done|]. cbn. rewrite Z.leb_refl. eauto.
  - destruct listener; [done|apply (Hdo ListenerCloses); [done|cbn; eauto]|].
    destruct Hp as (_ & _ & (err & -> & _) & _). apply (Hdo Receive); [done|cbn; eauto].
  - apply (Hdo Return); [done|]. cbn. destruct (sys_issuer _); [eauto|by destruct Ha].
Qed.

Lemma shutting_ends cfg0 srv0 handles0 n p :
  (rank p < n)%nat → process_ok cfg0 srv0 handles0 p → shutting p → inevitable (λ q, ∃ r, pr_phase q = Gone r) p.
Proof.
  revert p. induction n as [|n IH]; intros p Hn Hp Hs; [lia|].
  destruct (is_Gone (pr_phase p)) eqn:Hg.
  - apply inevitable_now. unfold is_Gone in Hg. case_match; try done. eauto.
  - apply inevitable_later; [by eapply goes_on|]. intros p' [ev Hh Ht].
    destruct (tick_rank _ _ _ Hs Ht) as [Hs' Hr]. apply IH; [lia| |done]. by eapply tick_ok.
Qed.

Lemma phase_shutting p : phase_ok p → pr_phase p ≠ Selecting → shutting p.
Proof. unfold phase_ok, shutting. intros Hp Hs. split; [done|]. destruct (pr_phase p); try done; tauto. Qed.

(** ** Claims *)

(** C13: a shutdown comes to its end.  Once [run] has left its [select] (a signal arrived or the
    listener failed), no connection is accepted any more, at most [rank] further events can
    happen, [run] is never stuck (not on the channel, not on connections that stay open), and
    whatever the order of the remaining events it returns and its deferred calls run. *)
Theorem shutdown_terminates cfg srv handles p :
  sr_flights srv = [] → sys_issuer (sr_state srv).1 ≠ None →
  rtc lives (launch cfg srv handles) p → pr_phase p ≠ Selecting →
  inevitable (λ q, ∃ r, pr_phase q = Gone r) p ∧
  (∀ n q, nsteps lives n p q → (n <= rank p)%nat ∧ pr_listener q ≠ Accepting).
Proof.
  intros Hf Hi Hrun Hs. pose proof (lives_ok _ _ _ _ _ Hrun (launch_ok cfg srv handles Hf Hi)) as Hok.
  pose proof (phase_shutting p (po_phase _ _ _ _ Hok) Hs) as Hsh.
  split; [by apply (shutting_ends cfg srv handles (S (rank p))); [lia|..]|].
  intros n q Hn. clear Hrun Hok Hs. induction Hn as [p|n p1 p2 p3 [ev Hh Ht] _ IH]; [split; [lia|apply Hsh]|].
  destruct (tick_rank _ _ _ Hsh Ht) as [Hs2 Hr]. destruct (IH Hs2). split; [lia|done].
Qed.

(** C12: shutting down is graceful.  When [run] returns nil, a signal had arrived, the listener
    never failed, and every request that was read from a connection, also one that came while
    the server was draining, has its response in the log, exactly once.  When it returns an
    error, that is an error of the listener, or the deadline of the shutdown has passed. *)
Theorem shutdown_is_graceful cfg srv handles p r :
  sr_flights srv = [] → sys_issuer (sr_state srv).1 ≠ None →
  rtc lives (launch cfg srv handles) p → pr_phase p = Gone r →
  match r with
  | Ok _ => pr_signalled p = true ∧ pr_faults p = [] ∧
      (sr_log (pr_server p)).*1 ≡ₚ (sr_log srv).*1 ++ pr_arrived p
  | Err err => err = DeadlineExceeded ∨ err ∈ pr_faults p
  end.
Proof.
  intros Hf Hi Hrun Hg. pose proof (lives_ok _ _ _ _ _ Hrun (launch_ok cfg srv handles Hf Hi)) as [_ Hp _ Hc _].
  unfold phase_ok in Hp. rewrite Hg in Hp, Hc. destruct Hp as [_ He]. unfold exit_ok in He.
  destruct r as [[]|e]; [|done]. destruct He as (Hn & _ & Hfl & Hsig). split_and!; [done..|].
  specialize (Hc I). unfold accounted in Hc. by rewrite Hfl, app_nil_r in Hc.
Qed.

(** ** Refinement of the deployment *)

Context (ParseConfig : string → result ConnConfig) (server : PilotDatabase.Server).

(** ** The lock *)

(** The lock of a process beside the locks [l]: it holds that of its state path while it lives,
    through an open issuer, and none once it is gone. *)
Definition locked (l : stringset) (p : Process) : Prop :=
  (lockName statePath ∉ l) ∧
  if is_Gone (pr_phase p) then lockName statePath ∉ w_locks (sys_world (sr_state (pr_server p)).1)
  else ∃ i, sys_issuer (sr_state (pr_server p)).1 = Some i ∧ is_processLock i = lockName statePath ∧
    is_closed i = false ∧ holds ({[lockName statePath]} ∪ l) (sys_world (sr_state (pr_server p)).1).

Lemma advance_lock l cfg now n srv i i' :
  sys_issuer (sr_state srv).1 = Some i → holds l (sys_world (sr_state srv).1) →
  sys_issuer (sr_state (advance (httpHandler cfg now) n srv)).1 = Some i' →
  is_processLock i' = is_processLock i ∧ is_closed i' = is_closed i ∧
  holds l (sys_world (sr_state (advance (httpHandler cfg now) n srv)).1).
Proof.
  intros Hi Hw Hi'. unfold advance in *.
  destruct (sr_flights srv !! n) as [[limited request [|response]]|]; cbn in *; [|by simplify_eq..].
  destruct (body_of _ _ _ _) as [[response s'] issued] eqn:Hb. apply body_state in Hb. cbn in *.
  unfold issue_at in Hb. rewrite Hi in Hb.
  pose proof (Issue_blind LoadFile _ i (in_clock now) (holds_blind l) _ Hw) as Hh.
  pose proof (Issue_handle LoadFile i (in_clock now) (sys_world (sr_state srv).1)) as Hk. unfold wp, ends in Hh, Hk.
  destruct (Issuer.Issue LoadFile i (in_clock now) _) as [[[r i1]|e|] w1]; injection Hb as <- <-; cbn in *; try done.
  injection Hi' as <-. naive_solver.
Qed.

Lemma tick_locked l ev p p' : locked l p → tick ev p = Some p' → locked l p'.
Proof.
  unfold locked. intros [Hl Hp] Ht. split; [done|]. ticks Ht; rewrite ?arrive_sys; try done.
  all: destruct Hp as (i0 & Hi0 & Hk & Hc & Hw).
  all: try (match goal with Ha : sys_issuer (sr_state (advance _ _ _)).1 = Some ?j |- _ =>
    exists j; destruct (advance_lock _ _ _ _ _ _ _ Hi0 Hw Ha) as (-> & -> & ?); done end).
  simplify_eq. rewrite <-Hk in *. pose proof (closeIssuer_ends l i0 _ Hc Hl Hw) as He. unfold ends in He.
  destruct (closeIssuer i0 _) as [[[]|e|] w1]; cbn; [by rewrite He..|].
  rewrite Hk. apply not_elem_of_difference. right. by apply elem_of_singleton.
Qed.

Lemma lives_locked l p p' : rtc lives p p' → locked l p → locked l p'.
Proof. induction 1 as [|p q p' [ev Hh Ht] _ IH]; [done|]. intros Hp. by eapply IH, tick_locked. Qed.

(** The configuration of a process is that of its environment. *)
Lemma boot_config Getenv clock w : wp (boot Getenv clock) (λ p _, Config.Load Getenv = Ok p.1) (λ _, True) w.
Proof.
  unfold boot. apply wp_bind, wp_io_of; [intros cfg Hcfg|done].
  do 5 (apply wp_bind; eapply wp_mono; [apply wp_any| |done]; intros ? ? _). by apply wp_ret.
Qed.

(** The deployment that a process is. *)
Definition abs (p : Process) : Deployment :=
  mkDeployment (if is_Gone (pr_phase p) then None else Some (pr_config p)) (pr_server p).

Abbreviation deploys := (deploys ParseConfig server statePath mux).

Lemma tick_refines ev p p' :
  calls_honest ev p → tick ev p = Some p' → rtc deploys (abs p) (abs p').
Proof.
  intros Hh Ht. unfold abs in *. ticks Ht; try apply rtc_refl.
  all: try (apply rtc_once, deploys_arrive).
  all: try (apply rtc_once, (deploys_advance _ _ _ _ cfg srv now n Hh); congruence).
  apply rtc_once. destruct (closeIssuer i _) as [r' w'] eqn:Hc. by apply (deploys_exit _ _ _ _ cfg srv i r').
Qed.

Lemma lives_refines p p' : rtc lives p p' → rtc deploys (abs p) (abs p').
Proof.
  induction 1 as [p|p q p' [ev Hh Ht] _ IH]; [done|]. etrans; [by eapply tick_refines|done].
Qed.

(** What a start that gets to listen took: the lock of its state path, and a handle. *)
Lemma start_takes {S} (services : Services S) Getenv clock w handles o cfg i w' s' :
  start ParseConfig server services Getenv clock w (mkSession handles None o) = (Ret (cfg, i), w', s') →
  (let lock := lockName (cfg_IssuerStatePath cfg) in Config.Load Getenv = Ok cfg ∧ (lock ∉ w_locks w) ∧
   is_processLock i = lock ∧ is_closed i = false ∧ holds ({[lock]} ∪ w_locks w) w') ∧
  if cfg_PilotAccess cfg then ∃ db, se_tables s' = db :: handles else se_tables s' = handles.
Proof.
  unfold start. pose proof (boot_ends (w_locks w) Getenv clock w eq_refl) as Hb. pose proof (boot_config Getenv clock w) as Hl.
  unfold ends, wp in *. destruct (boot Getenv clock w) as [[[cfg1 i1]|e|] w1]; [|done..].
  cbn [fst snd] in *. destruct Hb as (Hc & Hk & Hfree & Hw).
  destruct (cfg_PilotAccess cfg1) eqn:Hp.
  - pose proof (run_pair _ _ _ (openPilot_run ParseConfig server services cfg1 handles o)) as Hrun.
    destruct (openPilot _ _ _ cfg1 _) as [[e|[]] s1]; [by destruct (closeIssuer i1 w1) as [[[]|?|] ?]|].
    intros [= <- <- <- <-]. rewrite Hp. destruct Hrun as (db & Hdb & _). split; [done|]. by exists db.
  - intros [= <- <- <- <-]. by rewrite Hp.
Qed.

(** A start on a state path whose lock is held does not get to listen. *)
Lemma start_is_refused ParseConfig' server' {S} (services : Services S) Getenv clock w s :
  (∀ cfg, Config.Load Getenv = Ok cfg → cfg_IssuerStatePath cfg = statePath) → lockName statePath ∈ w_locks w →
  ∀ cfg i, (start ParseConfig' server' services Getenv clock w s).1.1 ≠ Ret (cfg, i).
Proof.
  intros Hpath Hheld cfg i. unfold start. pose proof (boot_ends (w_locks w) Getenv clock w eq_refl) as Hb.
  pose proof (boot_config Getenv clock w) as Hl. unfold ends, wp in *.
  destruct (boot Getenv clock w) as [[[cfg1 i1]|e|] w1]; [|done..]. cbn [fst snd] in *.
  destruct Hb as (_ & _ & Hfree & _). by rewrite (Hpath _ Hl) in Hfree.
Qed.

(** C3: a run of the control plane refines the deployment and keeps its state path to itself.
    What [run] does, from [start] over any events of its life to the end of its deferred calls,
    is a history of [Deployment], so that a deployment with graceful shutdowns never equivocates
    either.  Until [run] has returned it holds the lock of its state path, and no other process
    with that state path gets to listen, whatever its environment and its database.  When it
    has returned, with whatever result, it holds no database handle that it did not hold before
    and its [issuer.Close] has let go of the lock. *)
Theorem run_refines_deployment srv Getenv now handles o cfg i w' s' p :
  (∀ cfg, Config.Load Getenv = Ok cfg → cfg_IssuerStatePath cfg = statePath) →
  honest (sys_world (sr_state srv).1) →
  start ParseConfig server (pilot_services (in_moment now)) Getenv (in_clock now)
    (sys_world (sr_state srv).1) (mkSession handles None o) = (Ret (cfg, i), w', s') →
  rtc lives (launch cfg (dp_server (started statePath srv (Ret (cfg, i)) w')) (se_tables s')) p →
  rtc deploys (mkDeployment None srv) (abs p) ∧
  match pr_phase p with
  | Gone _ => abs p = mkDeployment None (pr_server p) ∧ pr_handles p = handles ∧
      lockName statePath ∉ w_locks (sys_world (dp_sys (abs p)))
  | _ => lockName statePath ∈ w_locks (sys_world (dp_sys (abs p))) ∧
      ∀ ParseConfig' server' S (services : Services S) Getenv' clock s,
        (∀ cfg, Config.Load Getenv' = Ok cfg → cfg_IssuerStatePath cfg = statePath) →
        ∀ cfg' i', (start ParseConfig' server' services Getenv' clock (sys_world (dp_sys (abs p))) s).1.1 ≠ Ret (cfg', i')
  end.
Proof.
  intros Hpath Hh Hst Hrun. destruct (start_takes _ _ _ _ _ _ _ _ _ _ Hst) as [(Hcfg & Hfree & Hk & Hc & Hw) Hs'].
  rewrite (Hpath _ Hcfg) in *.
  assert (process_ok cfg (dp_server (started statePath srv (Ret (cfg, i)) w')) (se_tables s') p) as Hok
    by (eapply lives_ok; [exact Hrun|by apply launch_ok]).
  assert (locked (w_locks (sys_world (sr_state srv).1)) p) as [_ Hlk].
  { eapply lives_locked; [exact Hrun|]. split; [done|]. by exists i. }
  split; [eapply rtc_l; [by eapply deploys_start|]; exact (lives_refines _ _ Hrun)|].
  destruct Hok as [_ _ _ _ Hd]. unfold abs, dp_sys. cbn [dp_server].
  assert (is_Gone (pr_phase p) = false → lockName statePath ∈ w_locks (sys_world (sr_state (pr_server p)).1)) as Hheld.
  { intros Hg. rewrite Hg in Hlk. destruct Hlk as (j & _ & _ & _ & Hj). rewrite Hj.
    apply elem_of_union_l. by apply elem_of_singleton. }
  destruct (pr_phase p); try (split; [by apply Hheld|]; intros; by apply start_is_refused, Hheld).
  split_and!; [done| |done]. rewrite Hd. cbn. destruct (cfg_PilotAccess cfg); [|done]. by destruct Hs' as [db ->].
Qed.

End lifecycle.

(** ** Witnesses *)

#[local] Existing Instance ToyEd25519.
#[local] Existing Instance ToyPostgres.
#[local] Existing Instance toy_float.

Abbreviation toy_tick := (tick "/var/lib/issuer/state.json" toy_mux).
Abbreviation toy_lives := (lives "/var/lib/issuer/state.json" toy_mux).

Definition toy_p0 : Process := launch toy_cfg (dp_server toy_d1) [].

(** A signal arrives while a request is in flight and another connection is open; the request
    of that connection is still served. *)
Definition toy_events : list event :=
  let now := toy_instant toy_now in
  [Accept; Accept; Read now Api.toy_get; Signal; SelectSignal toy_now None; Read now Api.toy_get;
   Advance now 0; Advance now 1; ListenerCloses; Advance now 0; Advance now 0; Quiet; Receive; Return].

Definition toy_next (p : Process) (ev : event) : Process := default p (toy_tick ev p).
Definition toy_life (n : nat) : Process := fold_left toy_next (take n toy_events) toy_p0.

Definition toy_checks (p : Process) (ev : event) : bool :=
  match toy_tick ev p with Some _ => true | None => false end &&
  bool_decide (honest (sys_world (sr_state (pr_server p)).1)).

(** Every event happens, on a host whose failures are honest. *)
Fixpoint toy_all (p : Process) (events : list event) : bool :=
  match events with [] => true | ev :: rest => toy_checks p ev && toy_all (toy_next p ev) rest end.

Lemma toy_all_lives events p : toy_all p events = true → rtc toy_lives p (fold_left toy_next events p).
Proof.
  revert p. induction events as [|ev events IH]; intros p; [done|]. cbn. intros [Hc Hr]%andb_true_iff.
  apply andb_true_iff in Hc as [Ht Hh%bool_decide_eq_true]. eapply rtc_l; [|by apply IH].
  apply (lives_tick _ _ _ _ ev); [by destruct ev|]. unfold toy_next. by destruct (toy_tick ev p).
Qed.

Lemma toy_life_run n : rtc toy_lives toy_p0 (toy_life n).
Proof.
  assert (toy_all toy_p0 toy_events = true) as Hall by by_compute. unfold toy_life.
  apply toy_all_lives. revert Hall. generalize toy_p0. generalize toy_events. clear. revert n.
  induction n as [|n IH]; intros events p; [done|]. destruct events as [|ev events]; [done|]. cbn.
  intros [-> Hr]%andb_true_iff. by apply IH.
Qed.

(** A connection that is kept alive is served again after the listener has failed. *)
Lemma kept_alive_outlives_the_listener : let now := toy_instant toy_now in
  toy_all toy_p0 [Accept; Read now Api.toy_get; Advance now 0; Advance now 0; ListenerFails (NewError "accept");
    Reuse; Read now Api.toy_get; Advance now 0; Advance now 0; SelectServer; Reuse; Read now Api.toy_get; Return] = true.
Proof. by_compute. Qed.

Lemma toy_state_path cfg : Config.Load toy_environment = Ok cfg → cfg_IssuerStatePath cfg = "/var/lib/issuer/state.json".
Proof.
  intros Hcfg. assert (cfg_IssuerStatePath <$> (match Config.Load toy_environment with Ok c => Some c | Err _ => None end) =
    Some "/var/lib/issuer/state.json") as Hp by (vm_compute; reflexivity).
  rewrite Hcfg in Hp. cbn in Hp. congruence.
Qed.

Lemma shutdown_terminates_witness :
  inevitable "/var/lib/issuer/state.json" toy_mux (λ q, ∃ r, pr_phase q = Gone r) (toy_life 5) ∧ rank (toy_life 5) = 9%nat.
Proof.
  split; [|by_compute].
  apply (shutdown_terminates "/var/lib/issuer/state.json" toy_mux toy_cfg (dp_server toy_d1) [] (toy_life 5)).
  - vm_compute. reflexivity.
  - vm_compute. discriminate.
  - exact (toy_life_run 5).
  - vm_compute. discriminate.
Defined.

Lemma shutdown_is_graceful_witness :
  (sr_log (pr_server (toy_life 14))).*1 ≡ₚ (sr_log (dp_server toy_d1)).*1 ++ [Api.toy_get; Api.toy_get].
Proof.
  destruct (shutdown_is_graceful "/var/lib/issuer/state.json" toy_mux toy_cfg (dp_server toy_d1) [] (toy_life 14) (Ok tt))
    as (_ & _ & Hperm).
  - vm_compute. reflexivity.
  - vm_compute. discriminate.
  - exact (toy_life_run 14).
  - vm_compute. reflexivity.
  - replace [Api.toy_get; Api.toy_get] with (pr_arrived (toy_life 14)) by (vm_compute; reflexivity). exact Hperm.
Defined.

Lemma toy_started : ∃ i w', toy_start_at toy_now toy_host = (Ret (toy_cfg, i), w', mkSession [] None []).
Proof. eexists _, _. vm_compute. reflexivity. Qed.

Lemma run_refines_deployment_witness :
  rtc toy_deploys toy_d0 (abs (toy_life 14)) ∧ dp_config (abs (toy_life 14)) = None ∧
  lockName "/var/lib/issuer/state.json" ∉ w_locks (sys_world (dp_sys (abs (toy_life 14)))).
Proof.
  destruct toy_started as (i & w' & Hst).
  assert (toy_p0 = launch toy_cfg
    (dp_server (started "/var/lib/issuer/state.json" (dp_server toy_d0) (Ret (toy_cfg, i)) w')) []) as Hp0.
  { unfold toy_p0, toy_d1, toy_boot. change (sys_world (dp_sys toy_d0)) with toy_host. by rewrite Hst. }
  destruct (run_refines_deployment "/var/lib/issuer/state.json" toy_mux toy_unparsed toy_db_server (dp_server toy_d0)
    toy_environment (toy_instant toy_now) [] [] toy_cfg i w' (mkSession [] None []) (toy_life 14)) as [Hrun Hend].
  - exact toy_state_path.
  - by_compute.
  - exact Hst.
  - cbn [se_tables]. rewrite <-Hp0. exact (toy_life_run 14).
  - assert (pr_phase (toy_life 14) = Gone (Ok tt)) as Hg by (vm_compute; reflexivity). rewrite Hg in Hend.
    destruct Hend as (_ & _ & Hfree). split; [exact Hrun|]. split; [vm_compute; reflexivity|exact Hfree].
Defined.
