(* ===== verification/EndToEnd.v ===== *)
(** * From the control plane to its clients

    The composition of [Deployment] and [Discovery]: a control plane signs manifests over its
    whole life, untrusted mirrors deliver them or anything else, and clients that pin the same
    root key fetch and verify.  What a mirror cannot do is stated of the envelopes that it
    delivers ([unforged]), never of the signature scheme: whatever verifies under a key that the
    root has authorised was signed by the deployment. *)

From S2P Require Import Prelude GoRegexp GoStrings GoBase64 GoSha256 GoNet GoJson GoJsonDecode GoHttp GoOs GoTime GoSql.
From S2P Require Import Ed25519 KeyPolicy Manifest Envelope Issuance Catalog ProcessLock Issuer SigningKey Discovery.
From S2P Require Import PilotAccess Telemetry PilotApi Api Config Wire PilotDatabase ControlPlane Deployment.

Section agreement.
Context `{Ed25519} `{Postgres} `{FloatFormat}.
Context (ParseConfig : string → result ConnConfig) (server : PilotDatabase.Server).
Context (statePath : string) (mux : Request → HttpResponse).
Context (Hnt : not_temporary (mkFileStore statePath)).

(** The pinned root key, and the identifiers of the keys that its holder has authorised. *)
Context (rootKey : string) (online : string → Prop).

(** An envelope on the network that nobody forged: a policy in it that validates under the root
    key only grants authorised keys, and a payload that verifies under such a key was signed by
    the deployment. *)
Record unforged (log : list (State * Envelope)) (e : Envelope) : Prop := {
  uf_policy payload document digest grant :
    DecodeString RawURLEncoding (env_Payload e) = Some payload → Envelope.decodeStrict payload = Ok document →
    ValidateKeyPolicy (doc_KeyPolicy document) rootKey = Ok digest → grant ∈ kp_Keys (doc_KeyPolicy document) →
    online (kg_KeyID grant);
  uf_payload key payload signature :
    online (KeyID key) → DecodeString RawURLEncoding (env_Payload e) = Some payload →
    DecodeString RawURLEncoding (env_Signature e) = Some signature → ed25519_Verify key payload signature = true →
    ∃ s e', (s, e') ∈ log ∧ DecodeString RawURLEncoding (env_Payload e') = Some payload
}.

(** Mirrors may answer with anything, except forgeries. *)
Definition no_forgery (network : Network) (log : list (State * Envelope)) : Prop :=
  ∀ u start deadline response finish e, @http_Do network u start deadline = (Ok response, finish) →
    DecodeEnvelope (rp_Body response) = Ok e → unforged log e.

(** A document that the deployment signed for a state it had persisted. *)
Definition signed_document (log : list (State * Envelope)) (document : Document) : Prop := ∃ s e payload,
  (s, e) ∈ log ∧ signed_as s e ∧ DecodeString RawURLEncoding (env_Payload e) = Some payload ∧
  Envelope.decodeStrict payload = Ok document ∧ doc_Version document = st_LastVersion s.

Lemma fetched_signed (network : Network) db0 d client ctx sources trusted now res log :
  deployment_ok statePath db0 d → no_forgery network (sys_log (dp_sys d)) → cl_RootKey client = rootKey →
  @Fetch _ _ _ _ network client ctx sources trusted now = (Ok res, log) →
  signed_document (sys_log (dp_sys d)) (rs_Document res).
Proof.
  intros Hok Hnf Hroot. unfold Fetch. destruct (checkClient client sources); [|done]. intros HF.
  destruct (fetchLoop_spec _ _ _ _ _ _ _ _ _ _ HF) as (_ & _ & Hr).
  destruct (Hr res eq_refl) as (l & a & -> & _ & (e & (u & rsp & dl & fin & _ & Hdo & _ & Hdec) & HV)).
  destruct (Verify_inv _ _ _ _ _ _ HV) as (payload & pd & g & Hau & _). rewrite Hroot in Hau.
  destruct (Hnf _ _ _ _ _ _ Hdo Hdec) as [Hpol Hpay].
  destruct (au_signed _ _ _ _ _ _ _ Hau) as (key & sig & Hkey & Hsig & Hver).
  pose proof (au_payload _ _ _ _ _ _ _ Hau) as Hp. pose proof (au_document _ _ _ _ _ _ _ Hau) as Hd.
  assert (online (KeyID key)) as Hon.
  { rewrite Hkey, <-(au_grant_id _ _ _ _ _ _ _ Hau).
    exact (Hpol _ _ _ _ Hp Hd (au_policy _ _ _ _ _ _ _ Hau) (au_grant _ _ _ _ _ _ _ Hau)). }
  destruct (Hpay _ _ _ Hon Hp Hsig Hver) as (s & e' & Hin & Hp').
  destruct Hok as [[_ _ _ Hsg] _ Hc _ _ _]. rewrite Forall_forall in Hc, Hsg.
  destruct (Hc _ Hin) as (payload' & document' & Hpl & Hdl & Hvl). cbn in Hpl, Hvl.
  exists s, e', payload. split_and!; [done|exact (Hsg _ Hin)|done|done|]. congruence.
Qed.

Lemma signed_documents_agree db0 d document1 document2 :
  deployment_ok statePath db0 d → signed_document (sys_log (dp_sys d)) document1 →
  signed_document (sys_log (dp_sys d)) document2 → doc_Version document1 = doc_Version document2 →
  document1 = document2.
Proof.
  intros Hok (s1 & e1 & p1 & Hin1 & _ & Hp1 & Hd1 & Hv1) (s2 & e2 & p2 & Hin2 & _ & Hp2 & Hd2 & Hv2) Hv.
  destruct Hok as [[_ _ Hlog _] _ _ _ _ _].
  destruct (StronglySorted_trichotomy _ _ _ _ Hlog Hin1 Hin2) as [E|[[E|[]]|[E|[]]]]; cbn in *; try congruence; try lia.
Qed.

(** ** Claim *)

(** C2: clients of one root key agree.  Over any life of the control plane and for any two
    clients that fetch from any mirrors, at any time and from any trusted state, where the
    mirrors deliver whatever they like but cannot forge: every document that [Fetch] returns was
    signed by the control plane for a state it had persisted before, and two documents of the
    same version are equal, so that no two clients are ever given different networks under the
    same version. *)
Theorem clients_agree network1 network2 w dir db d
    client1 ctx1 sources1 trusted1 now1 res1 log1 client2 ctx2 sources2 trusted2 now2 res2 log2 :
  w_dirs w !! filepath_Dir statePath = Some dir → d_synced dir = true → consistent db →
  rtc (deploys ParseConfig server statePath mux) (new_deployment w db) d →
  no_forgery network1 (sys_log (dp_sys d)) → no_forgery network2 (sys_log (dp_sys d)) →
  cl_RootKey client1 = rootKey → cl_RootKey client2 = rootKey →
  @Fetch _ _ _ _ network1 client1 ctx1 sources1 trusted1 now1 = (Ok res1, log1) →
  @Fetch _ _ _ _ network2 client2 ctx2 sources2 trusted2 now2 = (Ok res2, log2) →
  signed_document (sys_log (dp_sys d)) (rs_Document res1) ∧
  signed_document (sys_log (dp_sys d)) (rs_Document res2) ∧
  (doc_Version (rs_Document res1) = doc_Version (rs_Document res2) → rs_Document res1 = rs_Document res2).
Proof.
  intros Hd Hs Hcons Hrun Hn1 Hn2 Hr1 Hr2 HF1 HF2.
  assert (deployment_ok statePath db d) as Hok by (by eapply (deployment_reached ParseConfig server statePath mux)).
  pose proof (fetched_signed _ _ _ _ _ _ _ _ _ _ Hok Hn1 Hr1 HF1) as Hsd1.
  pose proof (fetched_signed _ _ _ _ _ _ _ _ _ _ Hok Hn2 Hr2 HF2) as Hsd2.
  split_and!; [done..|]. by apply (signed_documents_agree db d).
Qed.

End agreement.

(** ** Witness *)

#[local] Existing Instance ToyEd25519.
#[local] Existing Instance ToyPostgres.
#[local] Existing Instance toy_float.

(** Both mirrors deliver the first manifest of the deployment of [toy_deployment_run]. *)
Definition toy_mirrors : Network :=
  client_network (λ _, Ok tt) (λ a b, bool_decide (a = b))
    (DefaultHTTPClient (λ _ start deadline,
       (Ok (200, "application/json", mkReader (toy_body 0) None), Z.min deadline (start + Second)))).

Definition toy_pinned : Client := mkClient (Public toy_root) id 0 0 0.

Definition toy_sees (name url : string) (clock : time) : result Result * list Attempt :=
  @Fetch _ _ _ _ toy_mirrors toy_pinned (mkContext None None)
    [mkDiscoveryEndpoint name url 10] zero_state clock.

Definition toy_envelopes : list Envelope := snd <$> sys_log (dp_sys toy_d5).

Lemma toy_no_forgery : no_forgery (Public toy_root) (λ _, True) toy_mirrors (sys_log (dp_sys toy_d5)).
Proof.
  intros u start deadline response finish e Hdo Hdec. split; [done|]. intros key payload signature _ Hp _ _.
  assert (rp_Body response = mkReader (toy_body 0) None) as Hb.
  { cbn in Hdo. unfold client_Do in Hdo. cbn in Hdo. by injection Hdo as <- _. }
  assert (e ∈ toy_envelopes) as ([s e'] & He & Hin)%list_elem_of_fmap.
  { rewrite Hb in Hdec.
    assert (match DecodeEnvelope (mkReader (toy_body 0) None) with
            | Ok e => existsb (λ x, bool_decide (env_Payload x = env_Payload e ∧ env_Signature x = env_Signature e ∧
                env_Algorithm x = env_Algorithm e ∧ env_KeyID x = env_KeyID e)) toy_envelopes
            | Err _ => false end = true) as Hex by (vm_compute; reflexivity).
    rewrite Hdec in Hex. apply existsb_exists in Hex as ([a k p s] & Hin & (Hp' & Hs' & Ha' & Hk')%bool_decide_eq_true).
    destruct e as [a' k' p' s']. cbn in *. subst. by apply list_elem_of_In. }
  cbn in He. subst e'. by exists s, e.
Qed.

Lemma toy_sees_first name url clock :
  match (toy_sees name url clock).1 with Ok res => doc_Version (rs_Document res) =? 1 | Err _ => false end = true →
  ∃ res log, toy_sees name url clock = (Ok res, log) ∧ doc_Version (rs_Document res) = 1.
Proof.
  destruct (toy_sees name url clock) as [[res|e] log]; [|done]. cbn. intros Hv%Z.eqb_eq. eauto.
Qed.

Lemma clients_agree_witness : ∃ res1 res2,
  (toy_sees "mirror-a" "https://a.example/v1/manifest" toy_now).1 = Ok res1 ∧
  (toy_sees "mirror-b" "https://b.example/v1/manifest" (toy_now + Minute)).1 = Ok res2 ∧
  doc_Version (rs_Document res1) = 1 ∧ rs_Document res1 = rs_Document res2.
Proof.
  destruct (toy_sees_first "mirror-a" "https://a.example/v1/manifest" toy_now) as (res1 & log1 & Hf1 & Hv1);
    [vm_compute; reflexivity|].
  destruct (toy_sees_first "mirror-b" "https://b.example/v1/manifest" (toy_now + Minute)) as (res2 & log2 & Hf2 & Hv2);
    [vm_compute; reflexivity|].
  exists res1, res2. rewrite Hf1, Hf2. split; [reflexivity|]. split; [reflexivity|]. split; [exact Hv1|].
  apply (clients_agree toy_unparsed toy_db_server "/var/lib/issuer/state.json" toy_mux
    ltac:(vm_compute; reflexivity) (Public toy_root) (λ _, True) toy_mirrors toy_mirrors toy_host (mkDir 448 true) toy_db toy_d5
    toy_pinned (mkContext None None) [mkDiscoveryEndpoint "mirror-a" "https://a.example/v1/manifest" 10] zero_state toy_now res1 log1
    toy_pinned (mkContext None None) [mkDiscoveryEndpoint "mirror-b" "https://b.example/v1/manifest" 10] zero_state (toy_now + Minute) res2 log2).
  - vm_compute. reflexivity.
  - reflexivity.
  - exact toy_db_consistent.
  - exact toy_deployment_run.
  - exact toy_no_forgery.
  - exact toy_no_forgery.
  - reflexivity.
  - reflexivity.
  - exact Hf1.
  - exact Hf2.
  - congruence.
Defined.
