(* ===== verification/KeyPolicyCommand.v ===== *)
(** * The key policy command

    [cmd/manifest-key-policy/main.go], the offline ceremony: the root key, a file with the
    grants and the public key files become a signed policy in a new file.  The claim closes
    the loop with the control plane, which loads that file. *)

From stdpp Require Import pretty.
From S2P Require Import Prelude GoRegexp GoBase64 GoSha256 GoStrings GoJson GoUnicode GoHttp GoJsonScan GoJsonDecode GoJsonIndent.
From S2P Require Import GoOs Ed25519 KeyPolicy SigningKey Issuer Wire ControlPlane.

Definition maxGrantFileBytes : Z := Z.shiftl 32 10.
#[global] Opaque maxGrantFileBytes.

Record grantInput := mkGrantInput {
  gi_PublicKeyPath : string;
  gi_Epoch : Z;
  gi_NotBeforeVersion : Z;
  gi_NotAfterVersion : Z
}.

Definition dec_grantInput : Dec grantInput :=
  dec_struct true ["public_key_path"; "epoch"; "not_before_version"; "not_after_version"] (λ f,
    Some mkGrantInput <*> dec_string (f "public_key_path") <*> dec_uint 64 (f "epoch")
      <*> dec_uint 64 (f "not_before_version") <*> dec_uint 64 (f "not_after_version")).

Definition dec_grantInputs : Dec (list grantInput) := dec_slice dec_grantInput.

#[global] Instance grantInputs_decode : JsonDecode (list grantInput) := decode_value dec_grantInputs.

(** Decoding one value and [ensureEOF]. *)
Definition decodeGrants (data : string) : result (list grantInput) :=
  '(inputs, rest) ← wrap "decode grants" (json_Decode data);
  match json_Next rest with
  | None => Ok inputs
  | Some (Err e) => Err e
  | Some (Ok _) => Err (NewError "grants file contains multiple JSON values")
  end.

Definition loadGrantInputs (path : string) : io (list grantInput) :=
  file ← io_wrap "open grants" (os_Open path);
  data ← io_wrap "read grants" (file_ReadAll file (maxGrantFileBytes + 1));
  io_of (fail_if ((len data =? 0) || (len data >? maxGrantFileBytes)) (NewError "grants file size is invalid"));;
  inputs ← io_of (decodeGrants data);
  io_of (fail_if ((llen inputs =? 0) || (llen inputs >? 64))
    (NewError "grants must contain between 1 and 64 entries"));;
  mret inputs.

(** The loop over the inputs. *)
Fixpoint loadGrants (inputs : list grantInput) : io (list KeyGrant) :=
  match inputs with
  | [] => mret []
  | input :: rest =>
      publicKey ← LoadPublic (gi_PublicKeyPath input);
      grant ← io_of (NewKeyGrant publicKey (gi_Epoch input) (gi_NotBeforeVersion input) (gi_NotAfterVersion input));
      grants ← loadGrants rest;
      mret (grant :: grants)
  end.

(** The text of the policy file: indented, without HTML escapes, with a final newline. *)
Definition policy_text (policy : KeyPolicy) : string :=
  print_indent false 0 (json_KeyPolicy policy) +:+ newline.

(** The deferred removal runs on every error once the file was created; the encoder writes
    the whole text with one call. *)
Definition writePolicy (path : string) (policy : KeyPolicy) : io unit :=
  io_wrap "create key policy" (os_CreateExclusive path 420);;
  on_error (file_Write path (policy_text policy)) (ignore file_Close;; ignore (os_Remove path))
    (Wrap "encode key policy");;
  on_error (file_Sync path) (ignore file_Close;; ignore (os_Remove path)) (Wrap "sync key policy");;
  on_error file_Close (ignore (os_Remove path)) (Wrap "close key policy").

Section command.
Context `{Ed25519}.

(** [main] with its flags; [nargs] is the number of positional arguments.  A thrown error is
    one that the command ends with. *)
Definition manifest_key_policy (nargs : nat) (rootPrivatePath grantsPath outputPath : string) (policyVersion : Z)
    : io KeyPolicy :=
  io_of (fail_if (negb (Nat.eqb nargs 0)) (NewError "unexpected positional arguments"));;
  io_of (fail_if (bool_decide (rootPrivatePath = "") || bool_decide (grantsPath = "") ||
                  bool_decide (outputPath = "") || (policyVersion =? 0))
    (NewError "root-private, grants, out, and a positive policy-version are required"));;
  rootPrivateKey ← LoadPrivate rootPrivatePath;
  inputs ← loadGrantInputs grantsPath;
  grants ← loadGrants inputs;
  policy ← io_of (SignKeyPolicy rootPrivateKey policyVersion grants);
  writePolicy outputPath policy;;
  mret policy.

End command.

(** ** The size of a policy file *)

Lemma len_join sep l b : 0 <= b → Forall (λ x, len x <= b) l → len (join sep l) <= llen l * (b + len sep).
Proof.
  intros Hb Hl. pose proof (len_nonneg sep). unfold llen. induction Hl as [|x l Hx Hl IH]; [done|].
  destruct l as [|y l]; [cbn [join length]; change (Z.of_nat 1) with 1; lia|].
  change (join sep (x :: y :: l)) with (x +:+ sep +:+ join sep (y :: l)). rewrite !len_app.
  change (length (x :: y :: l)) with (S (length (y :: l))). rewrite Nat2Z.inj_succ, Z.mul_succ_l. lia.
Qed.

(** The grants that [NewKeyGrant] makes. *)
Definition made_grant (g : KeyGrant) : Prop :=
  (∃ key, len key = PublicKeySize ∧ kg_KeyID g = KeyID key ∧ kg_PublicKey g = EncodeToString RawURLEncoding key) ∧
  grant_u64 g.

Lemma made_grant_length g : made_grant g → len (print_indent false 2 (json_KeyGrant g)) <= 275.
Proof.
  intros [(key & Hkey & Hid & Hpk) [He Hb Ha]].
  assert (len (kg_KeyID g) = 43 ∧ len (kg_PublicKey g) = 43) as [Hl1 Hl2].
  { rewrite Hid, Hpk. unfold KeyID, digest. by rewrite !(len_EncodeToString RawURLEncoding), len_Sum256, Hkey. }
  assert (all_bytes plain (kg_KeyID g) = true ∧ all_bytes plain (kg_PublicKey g) = true) as [Hp1 Hp2].
  { rewrite Hid, Hpk. split; apply EncodeToString_plain. }
  apply pretty_u64_length in He, Hb, Ha.
  unfold json_KeyGrant. cbn [print_indent map join fst snd JInt]. rewrite !len_app.
  rewrite (len_quoted false (kg_KeyID g)), (len_quoted false (kg_PublicKey g)) by done.
  rewrite Hl1, Hl2. clear -He Hb Ha.
  set (a := len (pretty (kg_Epoch g))) in *. set (b := len (pretty (kg_NotBeforeVersion g))) in *.
  set (c := len (pretty (kg_NotAfterVersion g))) in *. clearbody a b c.
  repeat match goal with |- context [len ?s] => let n := eval vm_compute in (len s) in change (len s) with n end.
  lia.
Qed.

Lemma signed_policy root version grants p `{Ed25519Laws} :
  SignKeyPolicy root version grants = Ok p → Forall made_grant grants → is_u64 version →
  typed_KeyPolicy p ∧ len (policy_text p) <= 18500 ∧ kp_Version p = version ∧ kp_Keys p ≡ₚ grants.
Proof.
  unfold SignKeyPolicy. intros HS Hg Hv. inv_ok.
  match goal with E : validateKeyPolicyShape _ = _ |- _ => unfold validateKeyPolicyShape in E end. inv_ok.
  match goal with E : validEd25519PrivateKey root = true |- _ =>
    apply validEd25519PrivateKey_inv in E as (Hlen & _) end.
  set (sig := ed25519_Sign root _). assert (len sig = 64) as Hsl by (by apply ed25519_Sign_len).
  cbn [kp_Version kp_RootKeyID kp_Keys] in *.
  set (keys := canonicalKeyGrants grants) in *.
  assert (Forall made_grant keys) as Hk by (unfold keys; by rewrite canonicalKeyGrants_perm).
  split_and!; [| |done|unfold keys; apply canonicalKeyGrants_perm].
  - split_and!; cbn; [done|apply digest_utf8| |apply plain_utf8, EncodeToString_plain].
    eapply Forall_impl; [exact Hk|]. intros g [(key & _ & Hid & Hpk) Hu].
    split_and!; [rewrite Hid; apply digest_utf8|rewrite Hpk; apply plain_utf8, EncodeToString_plain|done].
  - unfold policy_text, json_KeyPolicy. cbn [kp_Version kp_RootKeyID kp_Keys kp_Signature].
    assert (len (print_indent false 1 (JArr (json_KeyGrant <$> keys))) <= 18000) as Harr.
    { destruct keys as [|k keys']; [done|].
      change (print_indent false 1 (JArr (json_KeyGrant <$> k :: keys'))) with ("[" +:+ line 2 +:+
        join ("," +:+ line 2) (map (print_indent false 2) (json_KeyGrant <$> k :: keys')) +:+ line 1 +:+ "]").
      rewrite !len_app.
      pose proof (len_join ("," +:+ line 2) (map (print_indent false 2) (json_KeyGrant <$> k :: keys')) 275 ltac:(lia)) as Hj.
      assert (llen (map (print_indent false 2) (json_KeyGrant <$> k :: keys')) = llen (k :: keys')) as Hll
        by (unfold llen; by rewrite length_map, length_fmap).
      rewrite Hll in Hj. specialize (Hj ltac:(apply Forall_fmap, Forall_fmap; eapply Forall_impl; [exact Hk|];
        apply made_grant_length)).
      rewrite len_app in Hj. unfold maxPolicyKeys in *. set (n := llen (k :: keys')) in *.
      change (len "[") with 1. change (len "]") with 1. change (len ",") with 1 in Hj.
      change (len (line 2)) with 5 in *. change (len (line 1)) with 3. lia. }
    cbn [print_indent map join fst snd JInt]. rewrite !len_app.
    change (match json_KeyGrant <$> keys with [] => "[]" | _ :: _ => _ end) with
      (print_indent false 1 (JArr (json_KeyGrant <$> keys))).
    rewrite (len_quoted false (KeyID (Public root))), (len_quoted false (EncodeToString RawURLEncoding sig))
      by apply EncodeToString_plain.
    unfold KeyID, digest. rewrite !(len_EncodeToString RawURLEncoding), len_Sum256, Hsl.
    apply pretty_u64_length in Hv. set (A := len (print_indent _ _ _)) in *. set (V := len (pretty version)) in *.
    clearbody A V. clear -Harr Hv.
    repeat match goal with |- context [len ?s] => let n := eval vm_compute in (len s) in change (len s) with n end.
    change (EncodedLen RawURLEncoding 32) with 43. change (EncodedLen RawURLEncoding 64) with 86. lia.
Qed.

(** ** Reading the file back *)

Lemma policy_text_decodes p : typed_KeyPolicy p → len (policy_text p) <= maxKeyPolicyBytes →
  DecodeKeyPolicy (mkReader (policy_text p) None) = Ok p.
Proof.
  intros Ht Hl. unfold DecodeKeyPolicy, ReadAllLimited. cbn [reader_content reader_failure].
  assert (0 < len (policy_text p)) as Hpos.
  { unfold policy_text. rewrite len_app. pose proof (len_nonneg (print_indent false 0 (json_KeyPolicy p))).
    change (len newline) with 1. lia. }
  destruct (Z.leb_spec (maxKeyPolicyBytes + 1) (len (policy_text p))); [lia|]. cbn [wrap mbind result_bind].
  destruct (Z.eqb_spec (len (policy_text p)) 0); [lia|]. rewrite Z.gtb_ltb.
  destruct (Z.ltb_spec maxKeyPolicyBytes (len (policy_text p))); [lia|]. cbn [orb fail_if mbind result_bind].
  unfold policy_text. rewrite (decode_one_indent dec_KeyPolicy _ _ _ p); [done|done| |done|done|by apply read_KeyPolicy].
  by apply printable_KeyPolicy.
Qed.

(** What the control plane makes of a file, on a host that works. *)
Lemma loadKeyPolicy_reads path f w : w_outcomes w = [] → w_files w !! path = Some f →
  len (f_data f) <= maxKeyPolicyBytes →
  loadKeyPolicy path w = (match DecodeKeyPolicy (mkReader (f_data f) None) with Ok p => Ret p | Err e => Throw e end, w).
Proof.
  intros Ho Hf Hl.
  assert (os_Open path w = (Ret (FileHandle f), w)) as E1 by (unfold os_Open, syscall; by rewrite Ho, Hf).
  assert (file_ReadAll (FileHandle f) (maxKeyPolicyBytes + 1) w = (Ret (f_data f), w)) as E2.
  { unfold file_ReadAll, syscall. rewrite Ho. cbn. rewrite str_take_all; [done|]. unfold len in Hl. lia. }
  assert (file_Close w = (Ret tt, w)) as E3 by (unfold file_Close, syscall; by rewrite Ho).
  unfold loadKeyPolicy, mbind, io_bind, io_try. rewrite E1, E2, E3. unfold io_of.
  by destruct (DecodeKeyPolicy _).
Qed.

(** ** Writing *)

(** [writePolicy] does to the host what [writeExclusive] does. *)
Lemma writePolicy_writes path policy w R E :
  wp (writeExclusive path (policy_text policy) 420) R E w → wp (writePolicy path policy) R E w.
Proof.
  unfold wp, writePolicy, writeExclusive, io_wrap, on_error, ignore, mbind, io_bind.
  destruct (os_CreateExclusive path 420 w) as [[[]|e|] w1]; [|done|done].
  destruct (file_Write path (policy_text policy) w1) as [[[]|e|] w2];
    [|by destruct (file_Close w2) as [[[]|e1|] w3]; try done; destruct (os_Remove path w3) as [[[]|e2|] w4]|done].
  destruct (file_Sync path w2) as [[[]|e|] w3];
    [|by destruct (file_Close w3) as [[[]|e1|] w4]; try done; destruct (os_Remove path w4) as [[[]|e2|] w5]|done].
  destruct (file_Close w3) as [[[]|e|] w4]; [done| |done]. by destruct (os_Remove path w4) as [[[]|e2|] w5].
Qed.

(** ** The command *)

Section spec.
Context `{Ed25519Laws}.

Lemma dec_grantInput_typed l g : dec_grantInput l = Some g →
  is_u64 (gi_Epoch g) ∧ is_u64 (gi_NotBeforeVersion g) ∧ is_u64 (gi_NotAfterVersion g).
Proof. intros Hd. unfold dec_grantInput in Hd. invert_struct Hd. typed_fields. Qed.

(** What the decoder guarantees of the inputs. *)
Definition typed_input (g : grantInput) : Prop :=
  is_u64 (gi_Epoch g) ∧ is_u64 (gi_NotBeforeVersion g) ∧ is_u64 (gi_NotAfterVersion g).

(** The public key in a file. *)
Definition public_key_file (w : World) (path key : string) : Prop := ∃ f,
  w_files w !! path = Some f ∧ f_regular f = true ∧
  DecodeString RawURLEncoding (TrimSpace (f_data f)) = Some key ∧ len key = PublicKeySize.

(** The grant that an input asks for: its epoch and versions, for the key in its file. *)
Definition grants_input (w : World) (input : grantInput) (g : KeyGrant) : Prop :=
  kg_Epoch g = gi_Epoch input ∧ kg_NotBeforeVersion g = gi_NotBeforeVersion input ∧
  kg_NotAfterVersion g = gi_NotAfterVersion input ∧
  ∃ key, public_key_file w (gi_PublicKeyPath input) key ∧ kg_KeyID g = KeyID key ∧
    kg_PublicKey g = EncodeToString RawURLEncoding key.

Lemma files_free w0 : outcome_free (λ w, w_files w = w_files w0).
Proof. by intros ?. Qed.

(** A file that was opened and read whole. *)
Lemma opened_file (w w1 w2 : World) path h data limit : w_files w1 = w_files w →
  match w_files w1 !! path, w_dirs w1 !! path with
  | Some f, _ => Ok (FileHandle f) | None, Some d => Ok (DirHandle d) | None, None => Err (Sentinel ErrNotExist)
  end = Ok h →
  match h with
  | FileHandle f => Ok (str_take (Z.to_nat limit) (f_data f)) | DirHandle _ => Err (NewError "is a directory")
  end = Ok data → len data < limit →
  ∃ f, h = FileHandle f ∧ w_files w !! path = Some f ∧ f_data f = data.
Proof.
  intros Hw Hopen Hread Hlen. destruct h as [f|d]; [|done]. exists f. split; [done|]. injection Hread as <-.
  split; [rewrite <-Hw; by destruct (w_files w1 !! path), (w_dirs w1 !! path); simplify_eq|].
  symmetry. apply str_take_all. unfold len in Hlen. rewrite str_take_length in Hlen. lia.
Qed.

Lemma LoadPublic_sees path w :
  wp (LoadPublic path) (λ key w', w_files w' = w_files w ∧ public_key_file w path key) (λ w', w_files w' = w_files w) w.
Proof.
  unfold LoadPublic. apply wp_bind, wp_io_wrap, wp_sees; [|done]. intros w1 h Hw1 Hopen.
  apply wp_bind, wp_io_wrap, wp_sees; [|congruence]. intros w2 info Hw2 Hinfo.
  apply wp_bind, wp_io_of; [intros [] Hreg%fail_if_Ok%negb_false_iff|congruence].
  apply wp_bind, wp_io_wrap, wp_sees; [|congruence]. intros w3 data Hw3 Hread.
  apply wp_bind, wp_io_of; [intros [] Hsz%fail_if_Ok|congruence].
  apply orb_false_iff in Hsz as [_ Hsz]. rewrite Z.gtb_ltb in Hsz. apply Z.ltb_ge in Hsz.
  destruct (opened_file w w1 w2 path h data 129 Hw1 Hopen Hread) as (f & -> & Hf & Hdata); [lia|].
  apply wp_io_of; [|congruence]. intros key Hkey. split; [congruence|]. exists f. injection Hinfo as <-.
  destruct (DecodeString RawURLEncoding (TrimSpace data)) as [raw|] eqn:E; [|done].
  destruct (Z.eqb_spec (len raw) PublicKeySize); [|done]. injection Hkey as <-. rewrite Hdata. by split_and!.
Qed.

Lemma loadGrantInputs_spec path w :
  wp (loadGrantInputs path) (λ inputs w', w_files w' = w_files w ∧ Forall typed_input inputs ∧
      ∃ f, w_files w !! path = Some f ∧ decodeGrants (f_data f) = Ok inputs)
    (λ w', w_files w' = w_files w) w.
Proof.
  unfold loadGrantInputs. apply wp_bind, wp_io_wrap, wp_sees; [|done]. intros w1 h Hw1 Hopen.
  apply wp_bind, wp_io_wrap, wp_sees; [|congruence]. intros w2 data Hw2 Hread.
  apply wp_bind, wp_io_of; [intros [] Hsz%fail_if_Ok|congruence].
  apply orb_false_iff in Hsz as [_ Hsz]. rewrite Z.gtb_ltb in Hsz. apply Z.ltb_ge in Hsz.
  destruct (opened_file w w1 w2 path h data (maxGrantFileBytes + 1) Hw1 Hopen Hread) as (f & -> & Hf & Hdata); [lia|].
  apply wp_bind, wp_io_of; [intros inputs Hd|congruence]. apply wp_bind, wp_io_of; [intros [] _|congruence].
  apply wp_ret. split; [congruence|]. split; [|exists f; by rewrite Hdata].
  apply mbind_Ok in Hd as ([l rest] & Hd%wrap_Ok & Hn).
  assert (l = inputs) as -> by (destruct (json_Next rest) as [[]|]; congruence).
  apply (decode_typed (Forall typed_input) dec_grantInputs data inputs rest); [|done].
  intros stored vs. apply dec_slice_inv, dec_grantInput_typed.
Qed.

Lemma loadGrants_spec inputs w0 w : Forall typed_input inputs → w_files w = w_files w0 →
  wp (loadGrants inputs)
    (λ grants w', w_files w' = w_files w0 ∧ Forall made_grant grants ∧ Forall2 (grants_input w0) inputs grants)
    (λ w', w_files w' = w_files w0) w.
Proof.
  revert w. induction inputs as [|input inputs IH]; intros w Hty Hw; cbn [loadGrants]; [by apply wp_ret|].
  apply Forall_cons in Hty as [(He & Hb & Ha) Hty]. apply wp_bind.
  eapply wp_mono; [apply LoadPublic_sees| |congruence].
  intros key w1 [Hw1 Hkey]. unfold public_key_file in Hkey. rewrite Hw in Hw1, Hkey.
  apply wp_bind, wp_io_of; [intros g Hg|done]. apply wp_bind.
  eapply wp_mono; [by apply IH| |done]. intros grants w2 (Hw2 & Hm & Hi). apply wp_ret.
  unfold NewKeyGrant in Hg. inv_ok.
  assert (len key = PublicKeySize) as Hk by lia.
  split_and!; [done|constructor; [|done]|constructor; [|done]].
  - split; [by exists key|by split].
  - split_and!; try done. by exists key.
Qed.

(** What the command leaves. *)
Lemma manifest_key_policy_spec nargs rootPath grantsPath out version w : is_u64 version →
  wp (manifest_key_policy nargs rootPath grantsPath out version)
    (λ policy w', adds w out (Some (mkFile (policy_text policy) true true 420)) w' ∧ kp_Version policy = version ∧
      len (policy_text policy) <= 18500 ∧ typed_KeyPolicy policy ∧
      ∃ root w1 inputs w2 grants, LoadPrivate rootPath w = (Ret root, w1) ∧
        loadGrantInputs grantsPath w1 = (Ret inputs, w2) ∧
        (∃ f, w_files w !! grantsPath = Some f ∧ decodeGrants (f_data f) = Ok inputs) ∧
        Forall2 (grants_input w) inputs grants ∧ kp_Keys policy ≡ₚ grants ∧
        (∃ d, ValidateKeyPolicy policy (Public root) = Ok d))
    (kept w) w.
Proof.
  intros Hu. unfold manifest_key_policy.
  assert (∀ w', w_files w' = w_files w → kept w w') as Hk by (intros w' Hw'; unfold kept; by rewrite Hw').
  apply wp_bind, wp_io_of; [intros [] _|by apply Hk]. apply wp_bind, wp_io_of; [intros [] _|by apply Hk].
  apply wp_bind. eapply wp_mono; [apply wp_remember, (LoadPrivate_keeps (λ w', w_files w' = w_files w));
    [apply files_free|done]| |done].
  intros root w1 [Hw1 Hroot]. apply wp_bind. eapply wp_mono; [apply wp_remember, loadGrantInputs_spec| |
    intros w' Hw'; apply Hk; congruence].
  intros inputs w2 [(Hw2 & Hty & Hfile) Hin]. rewrite Hw1 in Hw2, Hfile. apply wp_bind.
  eapply wp_mono; [by apply (loadGrants_spec inputs w)| |exact Hk].
  intros grants w3 (Hw & Hm & Hg).
  apply wp_bind, wp_io_of; [intros policy HS|by apply Hk].
  destruct (signed_policy _ _ _ _ HS Hm Hu) as (Ht & Hl & Hv & Hp).
  apply wp_bind, writePolicy_writes. eapply wp_mono; [apply (writeExclusive_spec w3)| |].
  - intros [] w4 [Hn Hf]. rewrite Hw in Hn, Hf. apply wp_ret. split; [by split|].
    split_and!; [done..|]. exists root, w1, inputs, w2, grants. split_and!; [done..|].
    by eapply SignKeyPolicy_valid.
  - intros w4. unfold kept. by rewrite Hw.
Qed.

(** C10: the offline ceremony produces what the control plane loads.  When
    manifest-key-policy succeeds, its output was a free path and now holds a complete,
    synced file, no other file changed, and the policy in it is signed by the root key that
    was loaded, with the requested version and exactly the grants of the input file: one for
    each entry, with its epoch and versions and with the identifier and encoding of the key in
    the file that the entry names; and whenever that file is in place, [loadKeyPolicy] of the control plane returns that policy
    and [ValidateKeyPolicy] accepts it under the public half of the root key.  Up to 64 keys
    fit into the size limit.  When it fails, no file that existed has changed. *)
Theorem ceremony_policy_is_accepted nargs rootPath grantsPath out version w :
  is_u64 version →
  let '(r, w') := manifest_key_policy nargs rootPath grantsPath out version w in
  w_files w ⊆ w_files w' ∧
  ∀ policy, r = Ret policy →
    w_files w !! out = None ∧
    w_files w' = <[out := mkFile (policy_text policy) true true 420]> (w_files w) ∧
    kp_Version policy = version ∧
    ∃ root w1 inputs w2 grants, LoadPrivate rootPath w = (Ret root, w1) ∧
      loadGrantInputs grantsPath w1 = (Ret inputs, w2) ∧
      (∃ f, w_files w !! grantsPath = Some f ∧ decodeGrants (f_data f) = Ok inputs) ∧
      Forall2 (grants_input w) inputs grants ∧ kp_Keys policy ≡ₚ grants ∧
      (∃ d, ValidateKeyPolicy policy (Public root) = Ok d) ∧
      ∀ host, w_outcomes host = [] → w_files host !! out = w_files w' !! out →
        loadKeyPolicy out host = (Ret policy, host).
Proof.
  intros Hu. pose proof (manifest_key_policy_spec nargs rootPath grantsPath out version w Hu) as Hwp.
  unfold wp in Hwp. destruct (manifest_key_policy _ _ _ _ _ w) as [[policy|e|] w']; [|by split..].
  destruct Hwp as (Hadds & Hv & Hl & Ht & root & w1 & inputs & w2 & grants & H1 & H2 & H3 & H4 & H5 & H6).
  split; [by eapply adds_kept|]. intros ? [= <-]. destruct Hadds as [Hn Hw'].
  change (partial_alter _ out (w_files w)) with
    (<[out := mkFile (policy_text policy) true true 420]> (w_files w)) in Hw'.
  split_and!; [done..|]. exists root, w1, inputs, w2, grants. split_and!; [done..|].
  intros host Ho Hf. rewrite Hw', lookup_insert_eq in Hf.
  assert (len (policy_text policy) <= maxKeyPolicyBytes) as Hmax
    by (change maxKeyPolicyBytes with 32768; lia).
  rewrite (loadKeyPolicy_reads _ _ _ Ho Hf Hmax). cbn [f_data]. by rewrite policy_text_decodes.
Qed.

End spec.

(** ** Witness *)

Definition toy_grants : string := print (JArr [JObj
  [("public_key_path", JStr "/keys/a.pub"); ("epoch", JInt 1); ("not_before_version", JInt 1);
   ("not_after_version", JInt 0)]]).

Definition toy_ceremony : World :=
  mkWorld {["/keys" := mkDir 448 true]}
    (list_to_map
      [("/keys/root", mkFile (EncodeToString RawURLEncoding toy_root) true true 384);
       ("/keys/a.pub", mkFile (EncodeToString RawURLEncoding (Public (toy_key "A"%char))) true true 420);
       ("/keys/grants.json", mkFile toy_grants true true 384)]) ∅ ∅ [].

Definition toy_command : io_result KeyPolicy * World :=
  @manifest_key_policy ToyEd25519 0 "/keys/root" "/keys/grants.json" "/keys/policy.json" 3 toy_ceremony.

Definition toy_signed : KeyPolicy := toy_value toy_policy toy_command.1.

Lemma ceremony_policy_is_accepted_witness :
  kp_Version toy_signed = 3 ∧ loadKeyPolicy "/keys/policy.json" toy_command.2 = (Ret toy_signed, toy_command.2).
Proof.
  pose proof (@ceremony_policy_is_accepted ToyEd25519 ToyEd25519_laws 0 "/keys/root" "/keys/grants.json"
    "/keys/policy.json" 3 toy_ceremony) as Hw.
  assert (toy_command.1 = Ret toy_signed) as Hr by (vm_compute; reflexivity).
  assert (w_outcomes toy_command.2 = []) as Ho by (vm_compute; reflexivity).
  unfold toy_command in *. destruct (manifest_key_policy _ _ _ _ _ _) as [r w'].
  destruct (Hw ltac:(unfold is_u64; lia)) as [_ Hok]. cbn [fst snd] in *.
  destruct (Hok _ Hr) as (_ & _ & Hv & root & w1 & inputs & w2 & grants & _ & _ & _ & _ & _ & _ & Hload).
  split; [exact Hv|]. apply Hload; [exact Ho|reflexivity].
Defined.
