(* ===== verification/TimewebClient.v ===== *)
(** * The Timeweb client and the pilot check

    [internal/providers/timeweb/client.go] and [cmd/pilot-check/main.go]: reading one server
    of the provider and deciding whether it can host the pilot.  The exchange with the
    provider is a parameter ([exchange]); a redirect is not followed and is a response like
    any other.  The response is decoded with [GoJsonDecode], into the fields that the source
    names and no others. *)

From stdpp Require Import pretty.
From S2P Require Import Prelude GoRegexp GoBase64 GoSha256 GoStrings GoNet GoJson GoUnicode GoHttp.
From S2P Require Import GoJsonScan GoRfc3339 GoJsonDecode GoJsonIndent PilotApi.

(** ** [net/netip]: more classes, and the text of an address *)

Definition IsMulticast (a : Addr) : bool :=
  if unmapped_is4 a then Z.land (addr_byte a 12) 240 =? 224 else addr_byte a 0 =? 255.

Definition octets (a : Addr) : list Z := drop 12 (addr_bytes a).

Definition IsGlobalUnicast (a : Addr) : bool :=
  if unmapped_is4 a && (bool_decide (octets a = [0; 0; 0; 0]) || bool_decide (octets a = [255; 255; 255; 255])) then false
  else negb (bool_decide (a = IPv6Unspecified)) && negb (IsLoopback a) && negb (IsMulticast a) &&
       negb (IsLinkLocalUnicast a).

Definition string4 (a : Addr) : string := join "." (map pretty (octets a)).

(** The eight groups of an IPv6 address. *)
Definition group (a : Addr) (i : nat) : Z := addr_byte a (2 * i) * 256 + addr_byte a (2 * i + 1).

(** The number of zero groups from [i] on. *)
Fixpoint zero_groups (fuel : nat) (a : Addr) (i : nat) : nat :=
  match fuel with
  | S fuel => if group a i =? 0 then S (zero_groups fuel a (S i)) else O
  | O => O
  end.

(** The first longest run of at least two zero groups: its start and its end. *)
Fixpoint zero_run (fuel : nat) (a : Addr) (i : nat) (best : nat * nat) : nat * nat :=
  match fuel with
  | O => best
  | S fuel =>
      let l := zero_groups (8 - i) a i in
      zero_run fuel a (S i)
        (if (2 <=? l)%nat && (best.2 - best.1 <? l)%nat then (i, i + l)%nat else best)
  end.

(** A group in hexadecimal, without leading zeros. *)
Definition hex16 (n : Z) : string :=
  let digit k := String (hex_digit (n / 16 ^ k mod 16)) "" in
  (if 4096 <=? n then digit 3 else "") +:+ (if 256 <=? n then digit 2 else "") +:+
  (if 16 <=? n then digit 1 else "") +:+ digit 0.

Fixpoint groups_from (fuel : nat) (a : Addr) (run : nat * nat) (i : nat) : string :=
  match fuel with
  | O => ""
  | S fuel =>
      if (8 <=? i)%nat then ""
      else if (i =? run.1)%nat && (run.1 <? run.2)%nat then
        "::" +:+ (if (8 <=? run.2)%nat then ""
                  else hex16 (group a run.2) +:+ groups_from fuel a run (S run.2))
      else (if (0 <? i)%nat then ":" else "") +:+ hex16 (group a i) +:+ groups_from fuel a run (S i)
  end.

Definition zone_suffix (a : Addr) : string := if bool_decide (addr_zone a = "") then "" else "%" +:+ addr_zone a.

(** [Addr.String]. *)
Definition addr_String (a : Addr) : string :=
  if addr_is4 a then string4 a
  else if v4_mapped a then "::ffff:" +:+ string4 a +:+ zone_suffix a
  else groups_from 8 a (zero_run 8 a 0 (255, 255)%nat) 0 +:+ zone_suffix a.

Example string_ipv4 : (addr_String <$> ParseAddr "203.0.113.7") = Some "203.0.113.7".
Proof. by vm_compute. Qed.
Example string_ipv6 : (addr_String <$> ParseAddr "2001:DB8:0:0:1:0:0:1") = Some "2001:db8::1:0:0:1".
Proof. by vm_compute. Qed.
Example string_ipv6_edges :
  (addr_String <$> ParseAddr "0:0::1") = Some "::1" ∧ (addr_String <$> ParseAddr "fe80:0::") = Some "fe80::" ∧
  (addr_String <$> ParseAddr "1:0:3:4:5:6:7:8") = Some "1:0:3:4:5:6:7:8" ∧
  (addr_String <$> ParseAddr "::ffff:192.0.2.1") = Some "::ffff:192.0.2.1" ∧
  (addr_String <$> ParseAddr "::") = Some "::".
Proof. by vm_compute. Qed.

(** ** The client *)

Definition maxServerBytes : Z := Z.shiftl 1 20.

Record Client := mkClient { cl_token : string; cl_baseURL : string }.

Record Server := mkServer {
  sv_ID : Z;
  sv_Name : string;
  sv_Status : string;
  sv_Location : string;
  sv_AvailabilityZone : string;
  sv_PublicIPs : list string
}.

Definition json_Server (s : Server) : json := JObj
  [("id", JInt (sv_ID s)); ("name", JStr (sv_Name s)); ("status", JStr (sv_Status s));
   ("location", JStr (sv_Location s)); ("availability_zone", JStr (sv_AvailabilityZone s));
   ("public_ips", JArr (JStr <$> sv_PublicIPs s))].

(** The fields of the response that are decoded. *)
Record network := mkNetwork { nw_Type : string; nw_IPs : list string }.

Record serverFields := mkServerFields {
  sf_ID : Z;
  sf_Name : string;
  sf_Status : string;
  sf_Location : string;
  sf_Zone : string;
  sf_Networks : list network
}.

Definition dec_ip : Dec string := dec_struct false ["ip"] (λ f, dec_string (f "ip")).
Definition dec_network : Dec network :=
  dec_struct false ["type"; "ips"] (λ f, Some mkNetwork <*> dec_string (f "type") <*> dec_slice dec_ip (f "ips")).
Definition dec_server : Dec serverFields :=
  dec_struct false ["id"; "name"; "status"; "location"; "availability_zone"; "networks"] (λ f,
    Some mkServerFields <*> dec_int 64 (f "id") <*> dec_string (f "name") <*> dec_string (f "status")
      <*> dec_string (f "location") <*> dec_string (f "availability_zone") <*> dec_slice dec_network (f "networks")).
Definition dec_envelope : Dec serverFields := dec_struct false ["server"] (λ f, dec_server (f "server")).

(** [json.Unmarshal]: one value and white space. *)
Definition Unmarshal {T} (d : Dec T) (data : string) : option T :=
  match decode_value d data with
  | Ok (v, rest) => if bool_decide (skip_space rest = "") then Some v else None
  | Err _ => None
  end.

Definition NewClient (token : string) : result Client :=
  fail_if (bool_decide (token = "") || (len token >? 8192) || ContainsFunc token blank_rune)
    (NewError "timeweb: TWC_TOKEN is missing or invalid");;
  Ok (mkClient token "https://api.timeweb.cloud").

(** The text of a public address, if the provider's text is one. *)
Definition public_ip (text : string) : option string :=
  match ParseAddr text with
  | Some ip =>
      if negb (IsGlobalUnicast ip) || IsPrivate ip || IsLoopback ip || IsLinkLocalUnicast ip then None
      else Some (addr_String ip)
  | None => None
  end.

(** The two loops over the networks and their addresses. *)
Definition public_ips (networks : list network) : list string :=
  flat_map (λ n, if bool_decide (nw_Type n = "public") then omap public_ip (nw_IPs n) else []) networks.

Section client.
(** The exchange: the URL and the header fields of the request, the status and the body of
    the response. *)
Context (exchange : string → list (string * string) → result (Z * Reader)).

Definition GetServer (client : Client) (id : Z) : result Server :=
  fail_if (id <=? 0) (NewError "timeweb: server ID must be positive");;
  match exchange (cl_baseURL client +:+ "/api/v1/servers/" +:+ pretty id)
          [("Authorization", "Bearer " +:+ cl_token client); ("Accept", "application/json")] with
  | Err _ => Err (NewError "timeweb: request failed (check connection, TLS and timeout)")
  | Ok (status, body) =>
      fail_if (negb (status =? StatusOK)) (NewError "timeweb: API returned HTTP status");;
      match ReadAllLimited body (maxServerBytes + 1) with
      | Err _ => Err (NewError "timeweb: response unreadable or exceeds 1 MiB")
      | Ok data =>
          fail_if (len data >? maxServerBytes) (NewError "timeweb: response unreadable or exceeds 1 MiB");;
          match Unmarshal dec_envelope data with
          | None => Err (NewError "timeweb: invalid or mismatched server response")
          | Some raw =>
              fail_if (negb (sf_ID raw =? id)) (NewError "timeweb: invalid or mismatched server response");;
              Ok (mkServer (sf_ID raw) (sf_Name raw) (sf_Status raw) (sf_Location raw) (sf_Zone raw)
                    (public_ips (sf_Networks raw)))
          end
      end
  end.

(** ** [pilot-check] *)

Definition passed : string :=
  "Provider inventory passed. SSH, VPN installation, firewall and client transfer checks are still required." +:+ newline.

(** The outcome of a write to the standard output: all of it, or the first bytes and an error. *)
Definition written (outcome : option (nat * error)) (text : string) : string :=
  match outcome with None => text | Some (n, _) => str_take n text end.

(** [run] after its flags were parsed: the error, if any, and the output.  [encode] and [println]
    are the outcomes of its two writes; the error of the second is not looked at. *)
Definition pilot_check (encode println : option (nat * error)) (nargs : nat) (id : Z) (zone token : string)
    : result unit * string :=
  if negb (Nat.eqb nargs 0) || (id <=? 0) || bool_decide (zone = "") then
    (Err (NewError "use pilot-check -server-id ID [-zone fra-1]; supply TWC_TOKEN in the environment"), "")
  else
    match (client ← NewClient token; GetServer client id) with
    | Err e => (Err e, "")
    | Ok server =>
        let output := written encode (print_indent true 0 (json_Server server) +:+ newline) in
        match encode with
        | Some (_, e) => (Err e, output)
        | None =>
            if negb (bool_decide (sv_Status server = "on")) then
              (Err (NewError "pilot blocked: server is not running"), output)
            else if negb (bool_decide (sv_AvailabilityZone server = zone)) then
              (Err (NewError "pilot blocked: server is outside the expected availability zone"), output)
            else if llen (sv_PublicIPs server) =? 0 then
              (Err (NewError "pilot blocked: no public IP is assigned"), output)
            else (Ok tt, output +:+ written println passed)
        end
    end.

(** ** What the check establishes *)

Definition valid_token (token : string) : Prop :=
  token ≠ "" ∧ len token <= 8192 ∧ ContainsFunc token blank_rune = false.

(** An address that a client on the Internet can reach. *)
Definition public_address (ip : Addr) : Prop :=
  IsGlobalUnicast ip = true ∧ IsPrivate ip = false ∧ IsLoopback ip = false ∧ IsLinkLocalUnicast ip = false.

(** A public address in a public network of the response, with the provider's text. *)
Definition reported (raw : serverFields) (ip : Addr) : Prop := ∃ n text,
  n ∈ sf_Networks raw ∧ nw_Type n = "public" ∧ text ∈ nw_IPs n ∧ ParseAddr text = Some ip ∧ public_address ip.

(** What the provider answered about the server. *)
Definition answers (token : string) (id : Z) (raw : serverFields) : Prop := ∃ data failure,
  exchange ("https://api.timeweb.cloud/api/v1/servers/" +:+ pretty id)
    [("Authorization", "Bearer " +:+ token); ("Accept", "application/json")] = Ok (StatusOK, mkReader data failure) ∧
  failure = None ∧ len data <= maxServerBytes ∧ Unmarshal dec_envelope data = Some raw ∧ sf_ID raw = id.

Definition summary (raw : serverFields) : Server :=
  mkServer (sf_ID raw) (sf_Name raw) (sf_Status raw) (sf_Location raw) (sf_Zone raw) (public_ips (sf_Networks raw)).

Lemma public_ip_spec text s :
  public_ip text = Some s ↔ ∃ ip, ParseAddr text = Some ip ∧ public_address ip ∧ s = addr_String ip.
Proof.
  unfold public_ip, public_address. destruct (ParseAddr text) as [ip|]; [|naive_solver].
  split.
  - destruct (IsGlobalUnicast ip) eqn:?, (IsPrivate ip) eqn:?, (IsLoopback ip) eqn:?, (IsLinkLocalUnicast ip) eqn:?; try done.
    intros [= <-]. by exists ip.
  - intros (ip' & [= <-] & (-> & -> & -> & ->) & ->). done.
Qed.

Lemma public_ips_spec raw s : s ∈ public_ips (sf_Networks raw) ↔ ∃ ip, reported raw ip ∧ s = addr_String ip.
Proof.
  unfold public_ips, reported. rewrite list_elem_of_In, in_flat_map. split.
  - intros (n & Hn & Hs). case_bool_decide as Ht; [|by destruct Hs].
    apply list_elem_of_In, list_elem_of_omap in Hs as (text & Hin & (ip & Hp & Ha & ->)%public_ip_spec).
    exists ip. split; [|done]. exists n, text. rewrite list_elem_of_In. done.
  - intros (ip & (n & text & Hn & Ht & Hin & Hp & Ha) & ->). exists n. rewrite <-list_elem_of_In. split; [done|].
    rewrite bool_decide_eq_true_2 by done. apply list_elem_of_In, list_elem_of_omap. exists text.
    split; [done|]. apply public_ip_spec. eauto.
Qed.

Lemma NewClient_spec token client :
  NewClient token = Ok client ↔ valid_token token ∧ client = mkClient token "https://api.timeweb.cloud".
Proof.
  unfold NewClient, valid_token. rewrite Z.gtb_ltb. case_bool_decide; cbn; [naive_solver|].
  destruct (Z.ltb_spec 8192 (len token)); cbn; [naive_solver lia|].
  destruct (ContainsFunc token blank_rune); cbn; naive_solver.
Qed.

Lemma GetServer_spec token id server :
  GetServer (mkClient token "https://api.timeweb.cloud") id = Ok server ↔
  0 < id ∧ ∃ raw, answers token id raw ∧ server = summary raw.
Proof.
  unfold GetServer, answers. cbn [cl_baseURL cl_token].
  change ("https://api.timeweb.cloud" +:+ "/api/v1/servers/" +:+ pretty id)
    with ("https://api.timeweb.cloud/api/v1/servers/" +:+ pretty id).
  destruct (Z.leb_spec id 0); cbn [fail_if mbind result_bind]; [naive_solver lia|].
  destruct (exchange _ _) as [[status [data failure]]|e]; [|naive_solver].
  destruct (Z.eqb_spec status StatusOK) as [->|]; cbn [negb fail_if mbind result_bind]; [|naive_solver].
  unfold ReadAllLimited. cbn [reader_content reader_failure].
  destruct (Z.leb_spec (maxServerBytes + 1) (len data)) as [Hl|Hl].
  { assert (maxServerBytes < len (str_take (Z.to_nat (maxServerBytes + 1)) data)) as Hlt.
    { unfold len in *. rewrite str_take_length. unfold maxServerBytes in *. lia. }
    rewrite Z.gtb_ltb, (proj2 (Z.ltb_lt _ _) Hlt). cbn [fail_if mbind result_bind]. split; [done|].
    intros (_ & raw & (data' & failure' & [= <- <-] & _ & Hlen & _) & _). lia. }
  destruct failure as [e|]; [naive_solver|]. rewrite Z.gtb_ltb.
  destruct (Z.ltb_spec maxServerBytes (len data)); [lia|]. cbn [fail_if mbind result_bind].
  destruct (Unmarshal dec_envelope data) as [raw|] eqn:Hu; [|naive_solver].
  destruct (Z.eqb_spec (sf_ID raw) id) as [Hid|Hid]; cbn [negb fail_if mbind result_bind]; [|naive_solver].
  split; [intros [= <-]; split; [done|]; exists raw; split; [|done]; by exists data, None|].
  intros (_ & raw' & (data' & failure' & [= <- <-] & _ & _ & Hu' & _) & ->). by simplify_eq.
Qed.

(** The three checks of [run]. *)
Definition verdict (zone : string) (server : Server) : result unit :=
  fail_if (negb (bool_decide (sv_Status server = "on"))) (NewError "pilot blocked: server is not running");;
  fail_if (negb (bool_decide (sv_AvailabilityZone server = zone)))
    (NewError "pilot blocked: server is outside the expected availability zone");;
  fail_if (llen (sv_PublicIPs server) =? 0) (NewError "pilot blocked: no public IP is assigned").

Lemma verdict_spec zone raw : verdict zone (summary raw) = Ok tt ↔
  sf_Status raw = "on" ∧ sf_Zone raw = zone ∧ ∃ ip, reported raw ip.
Proof.
  unfold verdict, summary. cbn [sv_Status sv_AvailabilityZone sv_PublicIPs].
  assert ((∃ ip, reported raw ip) ↔ (llen (public_ips (sf_Networks raw)) =? 0) = false) as ->.
  { rewrite Z.eqb_neq. unfold llen. split.
    - intros [ip Hip]. assert (addr_String ip ∈ public_ips (sf_Networks raw)) as Hin by (apply public_ips_spec; eauto).
      destruct (public_ips _); [by apply elem_of_nil in Hin|done].
    - destruct (public_ips (sf_Networks raw)) as [|s l] eqn:E; [done|]. intros _.
      assert (s ∈ public_ips (sf_Networks raw)) as (ip & Hip & _)%public_ips_spec by (rewrite E; left). eauto. }
  repeat case_bool_decide; cbn; [|naive_solver..]. destruct (_ =? 0); cbn; naive_solver.
Qed.

Definition good_arguments (nargs : nat) (id : Z) (zone token : string) : Prop :=
  nargs = 0%nat ∧ zone ≠ "" ∧ valid_token token ∧ 0 < id.

(** The result once the provider has answered. *)
Definition check_result (encode : option (nat * error)) (zone : string) (raw : serverFields) : result unit :=
  match encode with Some (_, e) => Err e | None => verdict zone (summary raw) end.

Lemma check_result_spec encode zone raw : check_result encode zone raw = Ok tt ↔
  encode = None ∧ sf_Status raw = "on" ∧ sf_Zone raw = zone ∧ ∃ ip, reported raw ip.
Proof. unfold check_result. destruct encode as [[n e]|]; [naive_solver|]. rewrite verdict_spec. naive_solver. Qed.

Lemma pilot_check_answered encode println nargs id zone token raw :
  good_arguments nargs id zone token → answers token id raw →
  pilot_check encode println nargs id zone token = (check_result encode zone raw,
    written encode (print_indent true 0 (json_Server (summary raw)) +:+ newline) +:+
      (if is_Ok (check_result encode zone raw) then written println passed else "")).
Proof.
  intros (-> & Hz & Hv & Hi) Ha. unfold pilot_check. cbn [Nat.eqb negb orb].
  destruct (Z.leb_spec id 0); [lia|]. rewrite bool_decide_eq_false_2 by done. cbn [orb].
  rewrite (proj2 (NewClient_spec token _) (conj Hv eq_refl)). cbn [mbind result_bind].
  rewrite (proj2 (GetServer_spec token id (summary raw)) (conj Hi (ex_intro _ raw (conj Ha eq_refl)))).
  cbv zeta. unfold check_result. destruct encode as [[n e]|]; [by rewrite str_app_nil_r|]. unfold verdict.
  destruct (bool_decide (sv_Status _ = "on")), (bool_decide (sv_AvailabilityZone _ = zone)), (_ =? 0); cbn;
    by rewrite ?str_app_nil_r.
Qed.

Lemma pilot_check_refused encode println nargs id zone token :
  ¬ (good_arguments nargs id zone token ∧ ∃ raw, answers token id raw) →
  ∃ e, pilot_check encode println nargs id zone token = (Err e, "").
Proof.
  intros Hbad. unfold pilot_check. destruct (Nat.eqb_spec nargs 0) as [Hn|]; cbn [negb orb]; [|eauto].
  destruct (Z.leb_spec id 0); cbn [orb]; [eauto|]. case_bool_decide; [eauto|].
  destruct (NewClient token) as [client|e] eqn:Hc; cbn [mbind result_bind]; [|eauto].
  apply NewClient_spec in Hc as [Hv ->]. destruct (GetServer _ id) as [server|e] eqn:Hg; [|eauto].
  apply GetServer_spec in Hg as (Hi & raw & Ha & _). exfalso. apply Hbad. split; [by split_and!|eauto].
Qed.

Lemma answers_functional token id raw raw' : answers token id raw → answers token id raw' → raw = raw'.
Proof.
  intros (d & f & He & _ & _ & Hu & _) (d' & f' & He' & _ & _ & Hu' & _). congruence.
Qed.

Lemma pilot_check_cases nargs id zone token :
  (good_arguments nargs id zone token ∧ ∃ raw, answers token id raw) ∨
  ¬ (good_arguments nargs id zone token ∧ ∃ raw, answers token id raw).
Proof.
  unfold good_arguments. destruct (decide (nargs = 0%nat)) as [Hn|]; [|right; naive_solver].
  destruct (decide (zone = "")) as [|Hz]; [right; naive_solver|]. destruct (decide (0 < id)) as [Hi|]; [|right; naive_solver].
  destruct (NewClient token) as [client|e] eqn:Hc.
  - apply NewClient_spec in Hc as [Hv ->].
    destruct (GetServer (mkClient token "https://api.timeweb.cloud") id) as [s|e] eqn:Hg.
    + apply GetServer_spec in Hg as (_ & raw & Ha & _). left. split; [by split_and!|eauto].
    + right. intros (_ & raw & Ha). pose proof (proj2 (GetServer_spec token id (summary raw)) ltac:(eauto)). congruence.
  - right. intros ((_ & _ & Hv & _) & _). pose proof (proj2 (NewClient_spec token _) (conj Hv eq_refl)). congruence.
Qed.

(** ** Claims *)

(** C37: the pilot check is conclusive.  It passes exactly when its arguments and the token are
    well formed, the provider's answer about the requested server, a response 200 of at most
    1 MiB, describes a running server in the expected zone with a public address in a public
    network, and the summary could be written.  What it prints is the summary of the server
    (as much of it as the output takes), whose addresses are exactly those public addresses;
    nothing else of the answer (passwords, start-up scripts) is printed, and the token reaches
    the output only through the provider's answer. *)
Theorem pilot_check_is_conclusive encode println nargs id zone token :
  let '(r, output) := pilot_check encode println nargs id zone token in
  (r = Ok tt ↔ encode = None ∧ good_arguments nargs id zone token ∧
     ∃ raw, answers token id raw ∧ sf_Status raw = "on" ∧ sf_Zone raw = zone ∧ ∃ ip, reported raw ip) ∧
  (output = "" ∨ ∃ raw, answers token id raw ∧
     (∀ s, s ∈ sv_PublicIPs (summary raw) ↔ ∃ ip, reported raw ip ∧ s = addr_String ip) ∧
     output = written encode (print_indent true 0 (json_Server (summary raw)) +:+ newline) +:+
       (if is_Ok r then written println passed else "")) ∧
  (∀ token', valid_token token → valid_token token' → (∀ url h h', exchange url h = exchange url h') →
     pilot_check encode println nargs id zone token' = (r, output)).
Proof.
  destruct (pilot_check encode println nargs id zone token) as [r output] eqn:Hrun. split; [|split].
  - destruct (pilot_check_cases nargs id zone token) as [(Hg & raw & Ha)|Hbad].
    + rewrite (pilot_check_answered _ _ _ _ _ _ _ Hg Ha) in Hrun.
      assert (r = check_result encode zone raw) as -> by congruence.
      rewrite check_result_spec. split; [naive_solver|]. intros (He & _ & raw' & Ha' & Hs).
      by rewrite (answers_functional _ _ _ _ Ha Ha').
    + destruct (pilot_check_refused encode println _ _ _ _ Hbad) as [why Hwhy]. split; [congruence|]. naive_solver.
  - destruct (pilot_check_cases nargs id zone token) as [(Hg & raw & Ha)|Hbad].
    + rewrite (pilot_check_answered _ _ _ _ _ _ _ Hg Ha) in Hrun. right. exists raw. split; [done|].
      split; [intros s; apply (public_ips_spec raw)|]. by injection Hrun as <- <-.
    + destruct (pilot_check_refused encode println _ _ _ _ Hbad) as [why Hwhy]. left. congruence.
  - intros token' Hv Hv' Hex. rewrite <-Hrun. unfold pilot_check. destruct (_ || _ || _); [done|].
    rewrite (proj2 (NewClient_spec token _) (conj Hv eq_refl)), (proj2 (NewClient_spec token' _) (conj Hv' eq_refl)).
    cbn [mbind result_bind]. unfold GetServer. cbn [cl_baseURL cl_token].
    by rewrite (Hex _ [("Authorization", "Bearer " +:+ token'); ("Accept", "application/json")]
      [("Authorization", "Bearer " +:+ token); ("Accept", "application/json")]).
Qed.

End client.

(** A server that passes: one private address is left out of the summary. *)
Definition example_exchange (url : string) (header : list (string * string)) : result (Z * Reader) :=
  Ok (StatusOK, mkReader (print_indent true 0 (JObj [("server", JObj
    [("id", JInt 7); ("name", JStr "pilot"); ("root_pass", JStr "secret"); ("status", JStr "on");
     ("availability_zone", JStr "fra-1");
     ("networks", JArr [JObj [("type", JStr "local"); ("ips", JArr [JObj [("ip", JStr "198.51.100.1")]])];
       JObj [("type", JStr "public"); ("ips", JArr [JObj [("ip", JStr "10.0.0.1")]; JObj [("ip", JStr "203.0.113.7")]])]])])])) None).

Example pilot_check_passes :
  pilot_check example_exchange None None 0 7 "fra-1" "token" =
    (Ok tt, print_indent true 0 (json_Server (mkServer 7 "pilot" "on" "" "fra-1" ["203.0.113.7"])) +:+ newline +:+ passed).
Proof. by vm_compute. Qed.
